(* ===== verification/_CoqProject ===== *)
-Q . S2P
Prelude.v
Primitives.v
RustStr.v
DexMath.v
Storage.v
RocksStore.v
Assets.v
Oracle.v
StateDB.v
Dex.v
Codecs.v
Ledger.v
Holdings.v
Staking.v
Snapshot.v
Restart.v
DexProps.v
Consensus.v
Finality.v
ExecStaking.v
TxCodec.v
TxPool.v
Governance.v
Compliance.v
Multichain.v
Vm.v
Contract.v
EquityToken.v
EquityProps.v
RealEstateToken.v
RegDCompliance.v
ExecAssets.v
ExecAdmin.v
ExecGov.v
Executor.v
ExecCodecs.v
ExecFrame.v
ExecProps.v
GovProps.v
AssetProps.v
ContractHost.v
ContractCalls.v
Chain.v
ChainProps.v
ChainResume.v
Genesis.v
GenesisProps.v
Producer.v
ChainDemo.v
BridgeEvm.v
BridgeProps.v
Relayer.v
RelayerProps.v
BridgeFlow.v
RpcTypes.v
Rpc.v
RpcProps.v
RpcClient.v
RpcFlow.v
DepositFlow.v
RpcDemo.v
Keys.v
Network.v
Node.v
NodeProps.v
NodeFinality.v
NodeFlow.v
Cli.v
NodeDemo.v
