(* ===== verification/Prelude.v ===== *)
(** * Verification of the VTT chain

    VTT is a proof-of-stake chain for tokenised assets, written in Rust.  This
    development models its ledger, exchange, governance, contract host, executor,
    consensus rules, transaction pool, block import, genesis, the example
    contracts, the bridge to Ethereum with its relayer, the JSON-RPC server, the
    peer-to-peer service and the event loops of the nodes, and proves what makes
    them correct.  Paths below are relative to [src/crates/] unless they start
    with [bin/], [contracts/] or [bridge-evm/], which are relative to [src/].

    ** How the parts fit together

    A node keeps its state in [StateDB] (vtt-state): caches in memory, written
    through to a key-value store (vtt-storage), and a Merkle trie for the state
    root.  Transactions wait in the pool (vtt-txpool).  The executor
    (vtt-executor) applies a transaction to [StateDB]: it charges the fee, runs
    the handler of the action (using the exchange of vtt-dex, the contract host
    of vtt-vm, the asset and governance rules) and rolls a failure back with a
    snapshot; after the transactions of a block it settles rewards and
    proposals.  The consensus engine (vtt-consensus) elects validators from the
    staking records, says who produces which block and checks headers; the
    finality tracker counts votes.  The chain (vtt-chain) starts from genesis
    (vtt-genesis) or from a store, imports blocks, executes them, compares state
    roots and chooses the head.  The full node (bin/vtt-node) and the validator
    (bin/vtt-validator) join these: their event loops take messages from the
    network service (vtt-network), import and serve blocks, catch up with peers;
    the validator also produces blocks from the pool and counts votes.  Clients
    (bin/vtt-cli and the relayer) talk to the JSON-RPC server (vtt-rpc), which
    reads the chain and adds to the pool.  The bridge locks and releases tokens
    on Ethereum (bridge-evm); the relayer (bin/vtt-relayer) mirrors its deposits
    as transactions.  The contracts (contracts/) run in the contract host.

    ** Files and what they model

    - [Prelude]: machine integers ([wrap], [checked_*], [saturating_*]), the
      outcome type [res] (value, error, panic), the state-and-error monad [M],
      record update [s <| f := v |>], the iteration order of hash maps as the
      class [HashIter], sums over lists and maps, invariants of computations
      ([keeps]), stable sorting; tactics and the hint databases [vtt] and
      [keeps_db].
    - [Primitives] (vtt-primitives, vtt-crypto): bytes, hashes, addresses,
      amounts, parameters, asset proposals, transactions, blocks, Merkle roots.
      [RustStr]: the string methods of the standard library, [Display] of
      hashes, addresses and amounts.
    - [DexMath] (vtt-dex/src/math.rs): 256-bit products and long division,
      square roots, the constant-product formula, fees.
    - [Storage] (vtt-storage, vtt-state/src/trie.rs): module [Kv], the store;
      module [Trie], the state trie.  [RocksStore] (vtt-storage/src/rocks.rs):
      the class [KeyValueStore] with both stores as instances, RocksDB as the
      class [RocksDb] with its documented behaviour as [RocksDbLaws], pruning.
    - [Assets], [Oracle], [StateDB] (vtt-state): accounts, staking records,
      assets, ownership; price feeds; the record [StateDB] with one field per
      cache and module [State] with one definition per method.  [Snapshot]:
      state root, snapshot and restore.  [Restart]: flushing to a store and
      loading from one.
    - [Ledger], [Holdings], [Staking]: properties of [StateDB].
    - [Dex] (vtt-dex): pools, liquidity, swaps, fees, mining; [DexProps].
    - [Consensus], [Finality], [Governance] (vtt-consensus): modules [VSet],
      [Evidence], [Engine]; [Finality]; [Proposal] and [Gov].
    - [Compliance] (vtt-compliance), [Multichain] (vtt-multichain): identities
      and transfer policy; chain registry, validator assignment, messages.
    - [Vm] (vtt-vm): gas meter, execution context, host functions, engine.
    - [ExecStaking], [ExecAssets], [ExecAdmin], [ExecGov], [Executor]
      (vtt-executor/src/lib.rs): modules [Exec], [AssetTx], [AdminTx], [GovTx]
      with the handlers, and [Tx] with transaction and block execution and
      settlement.  [ExecFrame], [ExecProps], [GovProps], [AssetProps]: what
      every handler leaves alone, and the properties of the executor.
    - [TxPool] (vtt-txpool/src/lib.rs): module [Pool].
    - [Chain] (vtt-chain/src/lib.rs): module [Chain]; [ChainProps],
      [ChainResume]: its invariant, finality, rollback and restart.
    - [Genesis] (vtt-genesis/src/lib.rs), [GenesisProps].
    - [Producer] (bin/vtt-validator/src/main.rs): block production.
    - [Contract], [EquityToken], [RealEstateToken], [RegDCompliance]
      (contracts/): the contracts as programs over host calls, with the open
      compliance contract; [EquityProps].  [ContractHost], [ContractCalls]: what a
      [CallContract] does for any bytecode, and the programs run by the engine of
      [Vm] on an example placement of their buffers.
    - [BridgeEvm] (bridge-evm/src/VTTBridge.sol, WVTT.sol, script/Deploy.s.sol):
      both contracts with their logs, reverts undoing a transaction;
      [BridgeProps].
    - [Relayer] (bin/vtt-relayer/src/main.rs): module [Relayer], parsing of
      logs, submission, the watch loop; [RelayerProps].  [BridgeFlow]: deposits
      on the ledger.  [DepositFlow]: a deposit from Ethereum through the relayer
      and the server to the ledger.
    - [RpcTypes], [Rpc] (vtt-rpc): the response types; modules [Limiter] and
      [Rpc] with one definition per method over the shared state [RpcState];
      [RpcClient]: the client address of a request, module [Client] (with the
      address parser of the standard library).  [RpcProps], [RpcFlow].
    - [Keys] (vtt-crypto/src/keys.rs): key pairs.
    - [Network] (vtt-network): messages, reputations, bans, connection limits;
      module [Net], one definition per method, [run] over the events of the
      swarm; with its properties.
    - [Node] (bin/vtt-node, bin/vtt-validator, vtt-telemetry): the records [Node]
      and [Validator], modules [FullNode] and [ValidatorNode] with one definition
      per message and one [step] per turn of the event loop, module [Startup]
      from the arguments to the first state.  [NodeProps] (synchronization, soundness of the loop),
      [NodeFinality], [NodeFlow].
    - [Cli] (bin/vtt-cli/src/main.rs): the commands, against [Rpc].
    - [Codecs], [TxCodec], [ExecCodecs], [ChainDemo], [RpcDemo], [NodeDemo]:
      concrete codecs, environments, small chains and networks, on which the
      models are evaluated.

    ** How code becomes definitions

    A pure function is a function; a method over [&mut self] is state passing,
    or a computation of [M] when it can fail.  [M] keeps the state reached when
    an error is returned, because Rust does not undo mutations.  An [expect], a
    checked [Amount] operator and a division by zero give [Panic].  Integers are
    [Z] with the wrap-around of the release build written out.  Records keep the
    field names of the structs behind a short prefix.  A long function is split
    into definitions that are composed in its order.

    Third-party code is a parameter: BLAKE3 and Ed25519 (class [Crypto], only
    the digest length is assumed), Borsh (class [Borsh], decoding inverts
    encoding), JSON parsing, the WASM runtime (class [WasmRuntime]: a run is the
    tree of its host calls), the iteration order of [HashMap] (class [HashIter],
    every entry once), Ed25519 key pairs (class [Ed25519], a signature verifies),
    the Ethereum side (class [Evm]: Keccak and the USDT contract), hexadecimal
    decoding (class [HexDecode]).  [Env], [TxEnv] and [ChainEnv] gather the ones
    of a node.  No collision resistance is assumed.  What the libp2p swarm and
    the Ethereum node report are inputs of the loops, arbitrary in the theorems.
    The clock, the arguments and the environment variables are arguments.

    Components meet at classes: [VttNode] is what the relayer needs of a node
    (the server of [Rpc] is an instance), [SyncPeer] what synchronization needs
    of its two ends (full nodes and validators are instances).

    ** What is proved

    - Arithmetic: division and square root equal their definitions on every
      128-bit input (or overflow as stated), the swap formula is optimal, fees
      add up.
    - Ledger: transfers, asset transfers, unbonding and slashing move exactly
      what they say, and the cache agrees with the store after every history; a
      state survives flushing and loading, three settings apart; the store on
      disk and the one in memory are interchangeable.
    - Exchange: a swap never lowers the product of the reserves; deposits and
      withdrawals never lower what an LP unit is worth; no deposit followed by a
      withdrawal makes a profit.
    - Executor: a failed transaction leaves nothing but its fee, as far as the
      accounts it touches are in the cache or the node has no store; a charged
      transaction cannot be replayed; the gas of a block is bounded; stake,
      unstake, rewards, revenue and redemption move exactly what they say;
      stored proposals follow their life cycle and take effect when due.
    - Governance, messages, compliance: the code refines a ballot box, a bounded
      log, and a declarative policy.
    - Consensus: the election returns the best candidates whatever the hash
      order, the schedule is fair, equivocation is attributable, finality has
      accountable safety and is reached by every quorum.
    - Chain: the block index is sound after every history, the finalized prefix
      never changes, a rejected block is rolled back as stated, a restart ends
      and rebuilds the branch of the head; the first state is the configured
      one.
    - Pool: the indices agree and the limits hold after every history; the
      selection has no nonce gap.
    - Contracts: the balances of the tokens add up to the supply under any
      calls, and a contract call, whatever the bytecode, touches the storage of
      the contract only and commits all of it or nothing.
    - Bridge: every wrapped unit is backed unless the owner of the token points it
      at another bridge, and no withdrawal is served twice; what the relayer sends
      for a deposit credits it once and exactly where it is executed, but the
      server refuses it; the relayer scans every block once.
    - RPC and client: quotes equal executed swaps, pages partition the history,
      imported transactions are found, the rate limit is bounded and follows
      the headers of the request; the staking commands submit what they say.
    - Network: scores, bans and connection counters keep their types and a peer
      is banned exactly when its offences have used up its score.
    - Nodes: a follower catches up with its peer; through any messages a
      validator keeps a well-formed index, its finalized blocks and a consistent
      pool, as every turn of the loop refines operations of chain and pool.
    - Oracle and trie: a published value resists a minority of sources; the
      cached root is never stale.
    - Deviations: the theorems named after a defect ([slash_of_withdrawals_saturates],
      [unstake_after_slash_panics], [signatures_never_checked] and the like)
      exhibit a run on which the code does not do what it means to.

    ** Fuel

    The Newton iterations run on 130 turns: the distance to the root halves at
    every turn, so 128-bit inputs need fewer, and the theorems show that the
    result is reached.  The Merkle loop runs on the length of its input, which
    every pass shortens ([merkle_loop_total]).  The walk over the stored headers
    runs on one more than the store has; [resume_rebuilds_branch] shows that
    this is enough.

    ** Not modelled

    RocksDB, the libp2p swarm, the HTTP server below the methods, the Prometheus
    export, the WASM engine and the EVM (third-party); serde's text formats; the sample contract and the
    one-off liquidity scripts of bridge-evm, which drive Uniswap; tests.  Random
    key generation, printing, files and signals are I/O.  Locks are taken as
    uncontended; logging has no effect on the state and is omitted; the text of
    third-party errors is left out of messages. *)

From stdpp Require Export base tactics option list list_numbers gmap strings numbers sorting.
From Stdlib Require Export ZArith Lia.

#[global] Set Default Goal Selector "!".
#[global] Open Scope Z_scope.

(** ** Machine integers

    A Rust unsigned integer of width [w] is a [Z]; [in_width w x] is its type
    invariant.  The binaries are built with [cargo build --release] and no
    [overflow-checks], so the plain operators wrap; the [checked_*],
    [saturating_*] and [wrapping_*] methods are the functions below. *)

Definition in_width (w x : Z) : Prop := 0 <= x < 2 ^ w.

Definition wrap (w x : Z) : Z := x mod 2 ^ w.

Definition umax (w : Z) : Z := 2 ^ w - 1.

Definition checked_add (w a b : Z) : option Z :=
  if a + b <? 2 ^ w then Some (a + b) else None.

Definition checked_sub (a b : Z) : option Z :=
  if b <=? a then Some (a - b) else None.

Definition checked_mul (w a b : Z) : option Z :=
  if a * b <? 2 ^ w then Some (a * b) else None.

Definition checked_div (a b : Z) : option Z :=
  if b =? 0 then None else Some (a / b).

Definition saturating_add (w a b : Z) : Z := Z.min (a + b) (umax w).

Definition saturating_sub (a b : Z) : Z := Z.max (a - b) 0.

Definition saturating_mul (w a b : Z) : Z := Z.min (a * b) (umax w).

#[global] Instance in_width_dec w x : Decision (in_width w x).
Proof. unfold in_width. apply _. Defined.

Lemma wrap_small w x : in_width w x → wrap w x = x.
Proof. intros H. apply Z.mod_small, H. Qed.

Lemma wrap_in_width w x : 0 <= w → in_width w (wrap w x).
Proof. intros H. apply Z.mod_pos_bound. apply Z.pow_pos_nonneg; lia. Qed.

Ltac solve_checked :=
  case_match; split; intros; destruct_and?; simplify_eq;
  first [lia | f_equal; lia | split; lia].

Lemma checked_add_Some w a b c :
  checked_add w a b = Some c ↔ c = a + b ∧ a + b < 2 ^ w.
Proof. unfold checked_add. solve_checked. Qed.

Lemma checked_sub_Some a b c :
  checked_sub a b = Some c ↔ c = a - b ∧ b <= a.
Proof. unfold checked_sub. solve_checked. Qed.

Lemma checked_mul_Some w a b c :
  checked_mul w a b = Some c ↔ c = a * b ∧ a * b < 2 ^ w.
Proof. unfold checked_mul. solve_checked. Qed.

Lemma checked_div_Some a b c :
  checked_div a b = Some c ↔ c = a / b ∧ b ≠ 0.
Proof. unfold checked_div. solve_checked. Qed.

Lemma saturating_sub_nonneg a b : 0 <= saturating_sub a b.
Proof. unfold saturating_sub. lia. Qed.

Lemma saturating_sub_le a b : 0 <= a → 0 <= b → saturating_sub a b <= a.
Proof. unfold saturating_sub. lia. Qed.

(** [x & 1], [x >> n], [x << n] as arithmetic. *)
Lemma land_1_mod x : Z.land x 1 = x mod 2.
Proof. change 1 with (Z.ones 1) at 1. by rewrite Z.land_ones by lia. Qed.

Lemma shiftr_in_width w x n :
  0 <= n → in_width w x → in_width w (Z.shiftr x n).
Proof.
  unfold in_width. intros Hn [H0 H1]. rewrite Z.shiftr_div_pow2 by lia.
  assert (0 < 2 ^ n) by (apply Z.pow_pos_nonneg; lia).
  split; [apply Z.div_pos; lia|].
  apply Z.le_lt_trans with x; [|done]. apply Z.div_le_upper_bound; nia.
Qed.

(** [a | b] with disjoint bits is a sum. *)
Lemma lor_low_add a b n :
  0 <= n → 0 <= b < 2 ^ n → Z.lor (a * 2 ^ n) b = a * 2 ^ n + b.
Proof.
  intros Hn Hb. rewrite <- Z.add_lor_land.
  enough (Z.land (a * 2 ^ n) b = 0) as -> by lia.
  apply Z.bits_inj'. intros m Hm. rewrite Z.land_spec, Z.bits_0.
  destruct (decide (m < n)).
  - rewrite Z.mul_pow2_bits_low by lia. done.
  - rewrite <- (Z.mod_small b (2 ^ n)), Z.mod_pow2_bits_high, andb_false_r by lia. done.
Qed.

(** ** Outcomes and the state-and-error monad

    A Rust function returning [Result] ends with [Ok], with [Err], or panics
    (an [expect], an arithmetic check of [Amount], a division by zero).  A
    function over [&mut S] is [M S E A]: the state reached when an error is
    returned is kept, because Rust does not undo mutations on the error path. *)

Inductive res (E A : Type) : Type :=
  | Ok (a : A)
  | Err (e : E)
  | Panic.
Arguments Ok {E A} _.
Arguments Err {E A} _.
Arguments Panic {E A}.

#[global] Instance res_eq_dec {E A} `{EqDecision E, EqDecision A} : EqDecision (res E A).
Proof. solve_decision. Defined.

#[global] Instance res_ret {E} : MRet (res E) := λ A a, Ok a.
#[global] Instance res_bind {E} : MBind (res E) := λ A B f m,
  match m with Ok a => f a | Err e => Err e | Panic => Panic end.

Definition ok_or {E A} (e : E) (o : option A) : res E A :=
  match o with Some a => Ok a | None => Err e end.

Definition expect {E A} (o : option A) : res E A :=
  match o with Some a => Ok a | None => Panic end.

Definition guard_err {E} (b : bool) (e : E) : res E unit :=
  if b then Err e else Ok tt.

Definition res_map_err {E E' A} (f : E → E') (r : res E A) : res E' A :=
  match r with Ok a => Ok a | Err e => Err (f e) | Panic => Panic end.

Definition M (S E A : Type) : Type := S → res E A * S.

#[global] Instance M_ret {S E} : MRet (M S E) := λ A a s, (Ok a, s).
#[global] Instance M_bind {S E} : MBind (M S E) := λ A B f m s,
  match m s with
  | (Ok a, s') => f a s'
  | (Err e, s') => (Err e, s')
  | (Panic, s') => (Panic, s')
  end.

Definition lift {S E A} (r : res E A) : M S E A := λ s, (r, s).
Definition gets {S E A} (f : S → A) : M S E A := λ s, (Ok (f s), s).
Definition modify {S E} (f : S → S) : M S E unit := λ s, (Ok tt, f s).
Definition throw {S E A} (e : E) : M S E A := λ s, (Err e, s).
Definition fail_if {S E} (b : bool) (e : E) : M S E unit :=
  λ s, (if b then Err e else Ok tt, s).

(** [?] through [From]/[map_err]. *)
Definition map_err {S E E' A} (f : E → E') (m : M S E A) : M S E' A := λ s,
  match m s with
  | (Ok a, s') => (Ok a, s')
  | (Err e, s') => (Err (f e), s')
  | (Panic, s') => (Panic, s')
  end.

(** [let _ = m;]: the error is dropped, what was mutated stays. *)
Definition ignore_err {S E E' A} (m : M S E A) : M S E' unit := λ s,
  match m s with
  | (Panic, s') => (Panic, s')
  | (_, s') => (Ok tt, s')
  end.

Lemma M_bind_Ok {S E A B} (f : A → M S E B) (m : M S E A) s s' b :
  (m ≫= f) s = (Ok b, s') ↔ ∃ a s1, m s = (Ok a, s1) ∧ f a s1 = (Ok b, s').
Proof.
  unfold mbind, M_bind. destruct (m s) as [[a|e|] s1] eqn:E1.
  - split; [eauto|]. by intros (? & ? & ? & ?); simplify_eq.
  - split; [done|]. by intros (? & ? & ? & ?).
  - split; [done|]. by intros (? & ? & ? & ?).
Qed.

Lemma M_bind_ext {S E A B} (m1 m2 : M S E A) (f1 f2 : A → M S E B) s :
  m1 s = m2 s → (∀ a s', f1 a s' = f2 a s') → (m1 ≫= f1) s = (m2 ≫= f2) s.
Proof. intros Hm Hf. unfold mbind, M_bind. rewrite Hm. by destruct (m2 s) as [[]]. Qed.

Lemma M_bind_assoc {S E A B C} (m : M S E A) (f : A → M S E B) (g : B → M S E C) s :
  ((m ≫= f) ≫= g) s = (m ≫= λ a, f a ≫= g) s.
Proof. unfold mbind, M_bind. by destruct (m s) as [[]]. Qed.

Lemma res_bind_Ok {E A B} (f : A → res E B) (m : res E A) b :
  m ≫= f = Ok b ↔ ∃ a, m = Ok a ∧ f a = Ok b.
Proof. destruct m; cbn; naive_solver. Qed.

Lemma ok_or_Ok {E A} (e : E) (o : option A) a : ok_or e o = Ok a ↔ o = Some a.
Proof. destruct o; cbn; naive_solver. Qed.

Lemma expect_Ok {E A} (o : option A) a : expect (E:=E) o = Ok a ↔ o = Some a.
Proof. destruct o; cbn; naive_solver. Qed.

Lemma guard_err_Ok {E} (b : bool) (e : E) u : guard_err b e = Ok u ↔ b = false.
Proof. destruct b, u; cbn; naive_solver. Qed.

Lemma res_map_err_Ok {E E' A} (f : E → E') (r : res E A) a :
  res_map_err f r = Ok a ↔ r = Ok a.
Proof. destruct r; cbn; naive_solver. Qed.

(** A run that ends in [Ok]: what every step of it did.  [inv_ok] decomposes
    the hypothesis [m s = (Ok a, s')] along the binds of [m]. *)
Lemma lift_Ok {S E A} (r : res E A) (s s' : S) a :
  lift r s = (Ok a, s') ↔ r = Ok a ∧ s' = s.
Proof. unfold lift. naive_solver. Qed.

Lemma gets_Ok {S E A} (f : S → A) (s s' : S) a :
  gets (E:=E) f s = (Ok a, s') ↔ a = f s ∧ s' = s.
Proof. unfold gets. naive_solver. Qed.

Lemma modify_Ok {S E} (f : S → S) (s s' : S) u :
  modify (E:=E) f s = (Ok u, s') ↔ s' = f s.
Proof. unfold modify. destruct u. naive_solver. Qed.

Lemma fail_if_Ok {S E} b (e : E) (s s' : S) u :
  fail_if b e s = (Ok u, s') ↔ b = false ∧ s' = s.
Proof. unfold fail_if. destruct b, u; naive_solver. Qed.

Lemma throw_Ok {S E A} (e : E) (s s' : S) (a : A) :
  throw e s = (Ok a, s') ↔ False.
Proof. unfold throw. naive_solver. Qed.

Lemma M_ret_Ok {S E A} (a b : A) (s s' : S) :
  (mret a : M S E A) s = (Ok b, s') ↔ b = a ∧ s' = s.
Proof. unfold mret, M_ret. naive_solver. Qed.

Lemma map_err_Ok {S E E' A} (f : E → E') (m : M S E A) s s' a :
  map_err f m s = (Ok a, s') ↔ m s = (Ok a, s').
Proof. unfold map_err. destruct (m s) as [[]]; naive_solver. Qed.

Ltac inv_ok_step :=
  match goal with
  | H : (_ ≫= _) _ = (Ok _, _) |- _ =>
      apply M_bind_Ok in H; destruct H as (? & ? & ? & H)
  | H : (_ ≫= _) = Ok _ |- _ => apply res_bind_Ok in H; destruct H as (? & ? & H)
  | H : lift _ _ = (Ok _, _) |- _ => apply lift_Ok in H; destruct H as [H ->]
  | H : gets _ _ = (Ok _, _) |- _ => apply gets_Ok in H; destruct H as [-> ->]
  | H : modify _ _ = (Ok _, _) |- _ => apply modify_Ok in H; subst
  | H : fail_if _ _ _ = (Ok _, _) |- _ => apply fail_if_Ok in H; destruct H as [H ->]
  | H : throw _ _ = (Ok _, _) |- _ => apply throw_Ok in H; destruct H
  | H : mret _ _ = (Ok _, _) |- _ => apply M_ret_Ok in H; destruct H as [H ->]
  | H : map_err _ _ _ = (Ok _, _) |- _ => apply map_err_Ok in H
  | H : mret _ = Ok _ |- _ => unfold mret, res_ret in H; simplify_eq
  | H : ok_or _ _ = Ok _ |- _ => apply ok_or_Ok in H
  | H : expect _ = Ok _ |- _ => apply expect_Ok in H
  | H : guard_err _ _ = Ok _ |- _ => apply guard_err_Ok in H
  | H : res_map_err _ _ = Ok _ |- _ => apply res_map_err_Ok in H
  | H : (match ?x with (_, _) => _ end) _ = (Ok _, _) |- _ => destruct x eqn:?
  | H : (if ?b then _ else _) _ = (Ok _, _) |- _ => destruct b eqn:?
  end.

Ltac inv_ok := repeat inv_ok_step; simplify_eq.

(** [mrun] executes the monadic plumbing of a goal, leaving the operations. *)
Ltac mrun :=
  cbv beta iota delta [mbind mret M_bind M_ret res_bind res_ret gets lift modify
    fail_if throw ok_or expect map_err].

(** ** Field assignment

    [s <| f := v |>] is the Rust statement [s.f = v] on a record.  An instance
    of [Updater] per field is derived from the record's eta expansion. *)

Class Updater {R T : Type} (proj : R → T) : Type := upd : (T → T) → R → R.
Arguments upd {R T} proj {_} _ _.

Declare Scope vtt_scope.
Delimit Scope vtt_scope with vtt.
#[global] Open Scope vtt_scope.

Notation "s <| f := v |>" := (upd f (λ _, v) s)
  (at level 1, left associativity, f at level 9, v at level 200,
   format "s  <| f  :=  v |>") : vtt_scope.

Ltac derive_updater eta :=
  lazymatch goal with
  | |- @Updater ?R ?T ?p =>
      let f := fresh "f" in let r := fresh "r" in
      intros f r;
      let e := eval cbv beta delta [eta] in (eta r) in
      lazymatch eval pattern (p r) in e with
      | ?g _ => let t := eval cbv beta in (g (f (p r))) in exact t
      end
  end.

(** ** Iteration order of [HashMap]

    The order in which a [HashMap] is iterated is unspecified: it is a
    parameter, of which only the documented behaviour is known (every entry
    once).  Results that must not depend on the order are proved for every
    instance. *)

Class HashIter : Type := {
  hash_iter : ∀ {K V : Type} `{Countable K}, gmap K V → list (K * V);
  hash_iter_perm : ∀ {K V : Type} `{Countable K} (m : gmap K V),
    hash_iter m ≡ₚ map_to_list m;
  set_iter : ∀ {K : Type} `{Countable K}, gset K → list K;
  set_iter_perm : ∀ {K : Type} `{Countable K} (m : gset K), set_iter m ≡ₚ elements m;
}.

Definition key_order_iter : HashIter :=
  {| hash_iter := λ K V _ _ m, map_to_list m;
     hash_iter_perm := λ K V _ _ m, reflexivity _;
     set_iter := λ K _ _ m, elements m;
     set_iter_perm := λ K _ _ m, reflexivity _ |}.

Definition reverse_order_iter : HashIter :=
  {| hash_iter := λ K V _ _ m, rev (map_to_list m);
     hash_iter_perm := λ K V _ _ m, symmetry (Permutation_rev _);
     set_iter := λ K _ _ m, rev (elements m);
     set_iter_perm := λ K _ _ m, symmetry (Permutation_rev _) |}.

(** ** Stable sorting

    [slice::sort_by] and [sort_by_key] are stable; [le x y] is the test that [x]
    may stay in front of [y]. *)

Lemma StronglySorted_weaken {A} (R R' : relation A) l :
  (∀ x y, R x y → R' x y) → StronglySorted R l → StronglySorted R' l.
Proof.
  intros Hi. induction 1 as [|x l _ IH Hx]; constructor; [done|].
  eapply Forall_impl; [exact Hx|]. auto.
Qed.

Section stable_sort.
Context {A : Type} (le : A → A → bool).

Fixpoint insert_sorted (x : A) (l : list A) : list A :=
  match l with
  | [] => [x]
  | y :: l' => if le x y then x :: y :: l' else y :: insert_sorted x l'
  end.

Definition stable_sort (l : list A) : list A := foldr insert_sorted [] l.

Lemma insert_sorted_perm x l : insert_sorted x l ≡ₚ x :: l.
Proof.
  induction l as [|y l IH]; cbn; [done|]. destruct (le x y); [done|].
  rewrite IH. apply perm_swap.
Qed.

Lemma stable_sort_perm l : stable_sort l ≡ₚ l.
Proof. induction l as [|x l IH]; cbn; [done|]. by rewrite insert_sorted_perm, IH. Qed.

Context (le_trans : ∀ x y z, le x y = true → le y z = true → le x z = true).
Context (le_total : ∀ x y, le x y = true ∨ le y x = true).

Lemma insert_sorted_sorted x l :
  StronglySorted (λ x y, le x y = true) l →
  StronglySorted (λ x y, le x y = true) (insert_sorted x l).
Proof.
  induction 1 as [|y l' Hl' IH Hy]; cbn; [by repeat constructor|].
  destruct (le x y) eqn:Exy.
  - constructor; [by constructor|]. constructor; [done|].
    eapply Forall_impl; [exact Hy|]. cbn. intros z. by apply le_trans.
  - constructor; [done|]. rewrite insert_sorted_perm. constructor; [|done].
    destruct (le_total x y); [congruence|done].
Qed.

Lemma stable_sort_sorted l : StronglySorted (λ x y, le x y = true) (stable_sort l).
Proof. induction l; cbn; [constructor|]. by apply insert_sorted_sorted. Qed.
End stable_sort.

(** ** Sums *)

Fixpoint list_sumZ {A} (f : A → Z) (l : list A) : Z :=
  match l with [] => 0 | a :: l' => f a + list_sumZ f l' end.

Definition map_sumZ {K V} `{Countable K} (f : K → V → Z) (m : gmap K V) : Z :=
  list_sumZ (λ kv, f kv.1 kv.2) (map_to_list m).

Lemma list_sumZ_app {A} (f : A → Z) l1 l2 :
  list_sumZ f (l1 ++ l2) = list_sumZ f l1 + list_sumZ f l2.
Proof. induction l1; cbn in *; lia. Qed.

#[global] Instance list_sumZ_perm {A} (f : A → Z) :
  Proper ((≡ₚ) ==> (=)) (list_sumZ f).
Proof. induction 1; cbn in *; lia. Qed.

Lemma list_sumZ_nonneg {A} (f : A → Z) l :
  (∀ a, a ∈ l → 0 <= f a) → 0 <= list_sumZ f l.
Proof.
  induction l as [|a l IH]; cbn; intros H; [lia|].
  pose proof (H a ltac:(left)). specialize (IH ltac:(intros; apply H; by right)). lia.
Qed.

Lemma list_sumZ_ext {A} (f g : A → Z) l :
  (∀ a, a ∈ l → f a = g a) → list_sumZ f l = list_sumZ g l.
Proof.
  induction l as [|a l IH]; cbn; intros H; [done|].
  rewrite (H a) by left. rewrite IH; [done|]. intros; apply H; by right.
Qed.

Lemma list_sumZ_le {A} (f g : A → Z) l :
  (∀ a, a ∈ l → f a <= g a) → list_sumZ f l <= list_sumZ g l.
Proof.
  induction l as [|a l IH]; cbn; intros H; [done|].
  pose proof (H a ltac:(left)). specialize (IH ltac:(intros; apply H; by right)). lia.
Qed.

Lemma list_sumZ_filter_split {A} (f : A → Z) (P : A → Prop) `{∀ x, Decision (P x)} l :
  list_sumZ f l = list_sumZ f (filter P l) + list_sumZ f (filter (λ x, ¬ P x) l).
Proof.
  induction l as [|a l IH]; [done|]. rewrite !filter_cons.
  repeat case_decide; cbn; try lia; naive_solver.
Qed.

Section map_sum.
Context {K V : Type} `{Countable K}.
Implicit Types (f : K → V → Z) (m : gmap K V).

Lemma map_sumZ_empty f : map_sumZ f ∅ = 0.
Proof. unfold map_sumZ. by rewrite map_to_list_empty. Qed.

Lemma map_sumZ_insert_None f m k v :
  m !! k = None → map_sumZ f (<[k:=v]> m) = f k v + map_sumZ f m.
Proof. intros Hk. unfold map_sumZ. by rewrite map_to_list_insert. Qed.

Lemma map_sumZ_delete f m k v :
  m !! k = Some v → map_sumZ f m = f k v + map_sumZ f (delete k m).
Proof.
  intros Hk. rewrite <- (insert_delete_id m k v Hk) at 1.
  by rewrite map_sumZ_insert_None by apply lookup_delete_eq.
Qed.

(** The sum after one entry is written. *)
Lemma map_sumZ_insert f m k v :
  map_sumZ f (<[k:=v]> m) = map_sumZ f m + f k v - from_option (f k) 0 (m !! k).
Proof.
  destruct (m !! k) as [w|] eqn:Hk; cbn.
  - rewrite <- insert_delete_eq, map_sumZ_insert_None by apply lookup_delete_eq.
    rewrite (map_sumZ_delete f m k w Hk). lia.
  - rewrite map_sumZ_insert_None by done. lia.
Qed.

Lemma map_sumZ_nonneg f m :
  (∀ k v, m !! k = Some v → 0 <= f k v) → 0 <= map_sumZ f m.
Proof.
  intros Hf. apply list_sumZ_nonneg. intros [k v] Hkv. apply Hf.
  by apply elem_of_map_to_list.
Qed.

Lemma map_sumZ_lookup_le f m k v :
  (∀ k v, m !! k = Some v → 0 <= f k v) → m !! k = Some v → f k v <= map_sumZ f m.
Proof.
  intros Hf Hk. rewrite (map_sumZ_delete f m k v Hk).
  enough (0 <= map_sumZ f (delete k m)) by lia.
  apply map_sumZ_nonneg. intros k' v' Hk'. apply lookup_delete_Some in Hk'. naive_solver.
Qed.

Lemma map_sumZ_zero f m :
  (∀ k v, m !! k = Some v → f k v = 0) → map_sumZ f m = 0.
Proof.
  intros Hf. unfold map_sumZ. rewrite (list_sumZ_ext _ (λ _, 0)).
  - by induction (map_to_list m).
  - intros [k v] Hkv. apply Hf. by apply elem_of_map_to_list.
Qed.

(** A sum with a single non-zero term. *)
Lemma map_sumZ_single (g : V → Z) m k :
  map_sumZ (λ k' v, if decide (k' = k) then g v else 0) m = from_option g 0 (m !! k).
Proof.
  destruct (m !! k) as [v|] eqn:E; cbn.
  - rewrite (map_sumZ_delete _ m k v E), decide_True by done.
    rewrite map_sumZ_zero; [lia|]. intros k' v' Hk. apply lookup_delete_Some in Hk.
    rewrite decide_False; naive_solver.
  - apply map_sumZ_zero. intros k' v' Hk. rewrite decide_False; naive_solver.
Qed.

Lemma map_sumZ_fmap (g : V → V) f m :
  map_sumZ f (g <$> m) = map_sumZ (λ k v, f k (g v)) m.
Proof.
  unfold map_sumZ. rewrite map_to_list_fmap.
  induction (map_to_list m) as [|[k v] l IH]; cbn; [done|]. by rewrite IH.
Qed.

(** Dropping entries that contribute nothing. *)
Lemma map_sumZ_filter (P : K * V → Prop) `{∀ x, Decision (P x)} f m :
  (∀ k v, ¬ P (k, v) → f k v = 0) → map_sumZ f (filter P m) = map_sumZ f m.
Proof.
  intros Hf. induction m as [|k v m Hk IH] using map_ind; [by rewrite map_filter_empty|].
  rewrite map_filter_insert. case_decide as HP.
  - rewrite !map_sumZ_insert_None; [by rewrite IH|done|].
    apply map_lookup_filter_None. by left.
  - rewrite delete_id, IH by done. rewrite map_sumZ_insert_None by done.
    rewrite Hf by done. lia.
Qed.

Lemma map_sumZ_ext f g m :
  (∀ k v, m !! k = Some v → f k v = g k v) → map_sumZ f m = map_sumZ g m.
Proof.
  intros Hfg. apply list_sumZ_ext. intros [k v] Hkv. apply Hfg. by apply elem_of_map_to_list.
Qed.

Lemma map_sumZ_sub f g m :
  map_sumZ (λ k v, f k v - g k v) m = map_sumZ f m - map_sumZ g m.
Proof. unfold map_sumZ. induction (map_to_list m) as [|[k v] l IH]; cbn in *; lia. Qed.

Lemma map_sumZ_scale_le c d f g m :
  (∀ k v, m !! k = Some v → c * f k v <= d * g k v) → c * map_sumZ f m <= d * map_sumZ g m.
Proof.
  intros Hfg. unfold map_sumZ.
  assert (Hl : ∀ kv, kv ∈ map_to_list m → c * f kv.1 kv.2 <= d * g kv.1 kv.2).
  { intros [k v] Hkv. apply Hfg. by apply elem_of_map_to_list. }
  induction (map_to_list m) as [|kv l IH]; cbn; [lia|].
  pose proof (Hl kv ltac:(left)). specialize (IH ltac:(intros; apply Hl; by right)). lia.
Qed.

Lemma map_sumZ_hash_iter `{HashIter} f m :
  list_sumZ (λ kv, f kv.1 kv.2) (hash_iter m) = map_sumZ f m.
Proof. unfold map_sumZ. by rewrite hash_iter_perm. Qed.
End map_sum.

Create HintDb vtt.
Create Rewrite HintDb vtt.
#[export] Hint Resolve saturating_sub_nonneg list_sumZ_nonneg map_sumZ_nonneg : vtt.
#[export] Hint Rewrite @list_sumZ_app @map_sumZ_empty : vtt.

(** ** Loops over [M] *)

Fixpoint for_each {S E A} (l : list A) (body : A → M S E unit) : M S E unit :=
  match l with
  | [] => mret tt
  | a :: l' => _ ← body a; for_each l' body
  end.

Fixpoint fold_res {E A B} (f : B → A → res E B) (b : B) (l : list A) : res E B :=
  match l with
  | [] => Ok b
  | a :: l' => b' ← f b a; fold_res f b' l'
  end.

(** ** Invariants of stateful operations

    [keeps P m]: running [m] from a state satisfying [P] ends in such a state,
    whether it returns, fails or panics.  [solve_keeps] follows the structure
    of [m]; the lemmas about an operation's callees come from [keeps_db]. *)

Definition keeps {S E A} (P : S → Prop) (m : M S E A) : Prop := ∀ s, P s → P (m s).2.

Section keeps.
Context {S E : Type} (P : S → Prop).

Lemma keeps_bind {A B} (m : M S E A) (f : A → M S E B) :
  keeps P m → (∀ a, keeps P (f a)) → keeps P (m ≫= f).
Proof.
  intros Hm Hf s Hs. unfold mbind, M_bind. specialize (Hm s Hs).
  destruct (m s) as [[a|e|] s']; [by apply Hf|done..].
Qed.

Lemma keeps_ret {A} (a : A) : keeps P (mret a : M S E A).
Proof. by intros s. Qed.

Lemma keeps_gets {A} (f : S → A) : keeps P (gets (E:=E) f).
Proof. by intros s. Qed.

Lemma keeps_lift {A} (r : res E A) : keeps P (lift r).
Proof. by intros s. Qed.

Lemma keeps_throw {A} (e : E) : keeps P (throw e : M S E A).
Proof. by intros s. Qed.

Lemma keeps_fail_if b (e : E) : keeps P (fail_if b e).
Proof. by intros s. Qed.

Lemma keeps_modify (f : S → S) : (∀ s, P s → P (f s)) → keeps P (modify (E:=E) f).
Proof. intros Hf s. apply Hf. Qed.

Lemma keeps_ignore_err {E' A} (m : M S E' A) : keeps P m → keeps P (ignore_err (E':=E) m).
Proof. intros Hm s Hs. specialize (Hm s Hs). unfold ignore_err. by destruct (m s) as [[]]. Qed.

Lemma keeps_map_err {E' A} (f : E' → E) (m : M S E' A) : keeps P m → keeps P (map_err f m).
Proof. intros Hm s Hs. specialize (Hm s Hs). unfold map_err. by destruct (m s) as [[]]. Qed.

Lemma keeps_for_each {A} (l : list A) (body : A → M S E unit) :
  (∀ a, keeps P (body a)) → keeps P (for_each l body).
Proof.
  intros Hb. induction l as [|a l IH]; [apply keeps_ret|]. cbn.
  by apply keeps_bind.
Qed.
End keeps.

Create HintDb keeps_db.
#[export] Hint Resolve keeps_ret keeps_gets keeps_lift keeps_throw keeps_fail_if : keeps_db.

Ltac solve_keeps :=
  repeat first
    [ progress cbv zeta
    | solve [eauto 3 with keeps_db]
    | apply keeps_bind; [|intros ?]
    | apply keeps_ignore_err | apply keeps_map_err
    | apply keeps_for_each; intros ?
    | apply keeps_modify; intros ??
    | match goal with
      | |- keeps _ (if ?b then _ else _) => destruct b
      | |- keeps _ (match ?x with _ => _ end) => destruct x
      end ].

(** A run, from the value it returns. *)
Lemma run_Ok {S E A} (m : M S E A) (s : S) (a : A) :
  (m s).1 = Ok a → m s = (Ok a, (m s).2).
Proof. destruct (m s). by cbn; intros ->. Qed.
