(* ===== verification/Primitives.v ===== *)
(** * Primitive types ([crates/vtt-primitives], [crates/vtt-crypto])

    Byte strings, hashes and addresses, [Amount], chain parameters, blocks,
    transactions and the asset-governance proposal with its vote counting.
    Record fields carry a prefix naming their struct; otherwise names are the
    source's.  BLAKE3, Ed25519 and the Borsh codec are third-party code: they
    are classes whose laws are their documented behaviour. *)

From S2P Require Import Prelude.

(** ** Bytes

    A [Vec<u8>], a [&[u8]], a [String] and a fixed-size byte array are all a
    [string], one character per byte. *)

Abbreviation bytes := string.

Fixpoint zeros (n : nat) : bytes :=
  match n with O => "" | S n' => String Ascii.zero (zeros n') end.

Fixpoint btake (n : nat) (s : bytes) : bytes :=
  match n, s with
  | S n', String c s' => String c (btake n' s')
  | _, _ => ""
  end.

Fixpoint bdrop (n : nat) (s : bytes) : bytes :=
  match n, s with
  | O, _ => s
  | S n', String _ s' => bdrop n' s'
  | S _, EmptyString => ""
  end.

Definition byte_of_Z (x : Z) : Ascii.ascii := Ascii.ascii_of_N (Z.to_N (x mod 256)).
Definition Z_of_byte (c : Ascii.ascii) : Z := Z.of_N (Ascii.N_of_ascii c).

(** [x.to_le_bytes()] and [from_le_bytes] for an integer of [n] bytes. *)
Fixpoint to_le_bytes (n : nat) (x : Z) : bytes :=
  match n with
  | O => ""
  | S n' => String (byte_of_Z x) (to_le_bytes n' (x / 256))
  end.

Fixpoint from_le_bytes (s : bytes) : Z :=
  match s with
  | EmptyString => 0
  | String c s' => Z_of_byte c + 256 * from_le_bytes s'
  end.

Fixpoint brev (s : bytes) : bytes :=
  match s with EmptyString => "" | String c s' => brev s' +:+ String c "" end.

(** The big-endian counterparts. *)
Definition to_be_bytes (n : nat) (x : Z) : bytes := brev (to_le_bytes n x).
Definition from_be_bytes (s : bytes) : Z := from_le_bytes (brev s).

Definition blen (s : bytes) : Z := Z.of_nat (String.length s).

(** ** Hashes, addresses, keys ([lib.rs]) *)

Record H256 := MkH256 { h256_bytes : bytes }.
Record Address := MkAddress { address_bytes : bytes }.
Record PublicKey := MkPublicKey { public_key_bytes : bytes }.
Record Signature := MkSignature { signature_bytes : bytes }.

#[global] Instance H256_eq_dec : EqDecision H256.
Proof. solve_decision. Defined.
#[global] Instance Address_eq_dec : EqDecision Address.
Proof. solve_decision. Defined.
#[global] Instance PublicKey_eq_dec : EqDecision PublicKey.
Proof. solve_decision. Defined.
#[global] Instance Signature_eq_dec : EqDecision Signature.
Proof. solve_decision. Defined.

#[global] Program Instance H256_countable : Countable H256 :=
  inj_countable' h256_bytes MkH256 _.
Next Obligation. by intros []. Qed.
#[global] Program Instance Address_countable : Countable Address :=
  inj_countable' address_bytes MkAddress _.
Next Obligation. by intros []. Qed.

Definition H256_ZERO : H256 := MkH256 (zeros 32).
Definition Address_ZERO : Address := MkAddress (zeros 20).
Definition Signature_ZERO : Signature := MkSignature (zeros 64).

Definition h256_from_slice (s : bytes) : H256 :=
  let p := btake 32 s in MkH256 (p +:+ zeros (32 - String.length p)).

Definition address_from_slice (s : bytes) : Address :=
  let p := btake 20 s in MkAddress (p +:+ zeros (20 - String.length p)).

(** ** Lexicographic order of bytes, and ordered maps

    A [BTreeMap] keyed by bytes is a [gmap] iterated in key order. *)

Definition bytes_le (a b : bytes) : Prop := String.leb a b = true.

#[global] Instance bytes_le_dec a b : Decision (bytes_le a b).
Proof. unfold bytes_le. apply _. Defined.

Definition btree_iter {V} (m : gmap bytes V) : list (bytes * V) :=
  merge_sort (λ x y, bytes_le x.1 y.1) (map_to_list m).

(** The derived [Ord] of a byte array is lexicographic. *)
Definition Address_compare (a b : Address) : comparison :=
  String.compare (address_bytes a) (address_bytes b).
Definition H256_compare (a b : H256) : comparison :=
  String.compare (h256_bytes a) (h256_bytes b).

Abbreviation ChainId := Z (only parsing).
Definition ChainId_RELAY : ChainId := 0.
Definition is_relay (c : ChainId) : bool := c =? 0.

Inductive Vote := Yes | No | Abstain.

#[global] Instance Vote_eq_dec : EqDecision Vote.
Proof. solve_decision. Defined.

(** ** Third-party interfaces *)

(** BLAKE3 and Ed25519.  Nothing is assumed of them beyond the digest size. *)
Class Crypto : Type := {
  blake3_hash : bytes → H256;
  ed25519_valid_key : PublicKey → bool;
  ed25519_verify : PublicKey → bytes → Signature → bool;
  blake3_len : ∀ b, String.length (h256_bytes (blake3_hash b)) = 32%nat;
}.

(** [borsh::to_vec] and [borsh::from_slice]: decoding inverts encoding. *)
Class Borsh (A : Type) : Type := {
  to_vec : A → bytes;
  from_slice : bytes → option A;
  from_slice_to_vec : ∀ a, from_slice (to_vec a) = Some a;
}.

(** [keys.rs]: the last 20 bytes of the digest of the public key. *)
Definition address_from_public_key `{Crypto} (pk : PublicKey) : Address :=
  MkAddress (bdrop 12 (h256_bytes (blake3_hash (public_key_bytes pk)))).

Inductive CryptoError := InvalidSignature | InvalidPublicKey.

Definition verify `{Crypto} (message : bytes) (sig : Signature) (pubkey : PublicKey)
    : res CryptoError unit :=
  if negb (ed25519_valid_key pubkey) then Err InvalidPublicKey
  else if ed25519_verify pubkey message sig then Ok tt
  else Err InvalidSignature.

(** ** Merkle roots ([hash.rs]) *)

(** One [for chunk in current_level.chunks(2)] pass; an odd last element is
    promoted unchanged. *)
Fixpoint merkle_level `{Crypto} (l : list H256) : list H256 :=
  match l with
  | a :: b :: l' => blake3_hash (h256_bytes a +:+ h256_bytes b) :: merkle_level l'
  | [a] => [a]
  | [] => []
  end.

(** [while current_level.len() > 1]; [None] when [fuel] passes do not suffice. *)
Fixpoint merkle_loop `{Crypto} (fuel : nat) (l : list H256) : option H256 :=
  match l with
  | [] => None
  | [a] => Some a
  | _ => match fuel with O => None | S fuel' => merkle_loop fuel' (merkle_level l) end
  end.

(** [merkle_loop_total] shows that the default is never taken. *)
Definition merkle_root `{Crypto} (hashes : list H256) : H256 :=
  match hashes with
  | [] => H256_ZERO
  | [a] => a
  | _ => default H256_ZERO (merkle_loop (length hashes) hashes)
  end.

(** ** Amounts ([amount.rs]) *)

Abbreviation Amount := Z (only parsing).

Module Amount.
Definition DECIMALS : Z := 18.
Definition ONE_VTT : Amount := 10 ^ DECIMALS.
(** [vtt as u128 * 10^18]: no 64-bit [vtt] overflows. *)
Definition from_vtt (vtt : Z) : Amount := wrap 128 (vtt * 10 ^ DECIMALS).
Definition whole_vtt (a : Amount) : Z := wrap 64 (a / 10 ^ DECIMALS).
Definition is_zero (a : Amount) : bool := a =? 0.
(** [Add] and [Sub] panic on overflow, in every build profile. *)
Definition add {E} (a b : Amount) : res E Amount := expect (checked_add 128 a b).
Definition sub {E} (a b : Amount) : res E Amount := expect (checked_sub a b).
End Amount.

(** ** Chain configuration ([chain.rs]) *)

Record ConsensusParams := MkConsensusParams {
  epoch_length : Z;
  block_time_ms : Z;
  active_validators : Z;
  min_self_stake : Amount;
  unbonding_period_secs : Z;
  slash_double_sign_bps : Z;
  slash_downtime_bps : Z;
  downtime_threshold_pct : Z;
  treasury_address : Address;
}.

Definition ConsensusParams_default : ConsensusParams := {|
  epoch_length := 1200;
  block_time_ms := 3000;
  active_validators := 21;
  min_self_stake := Amount.from_vtt 100000;
  unbonding_period_secs := 21 * 24 * 3600;
  slash_double_sign_bps := 500;
  slash_downtime_bps := 10;
  downtime_threshold_pct := 50;
  treasury_address := Address_ZERO;
|}.

Record GasConfig := MkGasConfig {
  min_gas_price : Amount;
  base_transfer_cost : Z;
  cost_per_byte : Z;
}.

Definition GasConfig_default : GasConfig :=
  {| min_gas_price := 1000000000; base_transfer_cost := 21000; cost_per_byte := 16 |}.

(** ** Asset governance proposals ([asset_governance.rs]) *)

Definition ASSET_VOTING_PERIOD_BLOCKS : Z := 201600.
Definition ASSET_QUORUM_BPS : Z := 3300.
Definition ASSET_PASS_THRESHOLD_BPS : Z := 5001.
Definition ASSET_SUPERMAJORITY_BPS : Z := 6700.

Inductive AssetProposalAction :=
  | APDistributeRevenue (total_amount : Amount)
  | APChangeIssuer (new_issuer : Address)
  | APSignal (description : string)
  | APDisposeAsset (reason : string)
  | APFinalizeRedemption (reason : string).

Inductive AssetProposalStatus := APActive | APPassed | APRejected | APExecuted.

#[global] Instance AssetProposalStatus_eq_dec : EqDecision AssetProposalStatus.
Proof. solve_decision. Defined.
#[global] Instance AssetProposalAction_eq_dec : EqDecision AssetProposalAction.
Proof. solve_decision. Defined.

Record AssetProposal := MkAssetProposal {
  ap_id : H256;
  ap_asset_id : H256;
  ap_proposer : Address;
  ap_action : AssetProposalAction;
  ap_description : string;
  ap_created_at : Z;
  ap_voting_end : Z;
  ap_status : AssetProposalStatus;
  ap_votes_yes : Amount;
  ap_votes_no : Amount;
  ap_votes_abstain : Amount;
  ap_voters : list Address;
}.

Definition AssetProposal_eta (p : AssetProposal) : AssetProposal :=
  MkAssetProposal (ap_id p) (ap_asset_id p) (ap_proposer p) (ap_action p)
    (ap_description p) (ap_created_at p) (ap_voting_end p) (ap_status p)
    (ap_votes_yes p) (ap_votes_no p) (ap_votes_abstain p) (ap_voters p).

#[global] Instance upd_ap_status : Updater ap_status.
Proof. derive_updater AssetProposal_eta. Defined.
#[global] Instance upd_ap_votes_yes : Updater ap_votes_yes.
Proof. derive_updater AssetProposal_eta. Defined.
#[global] Instance upd_ap_votes_no : Updater ap_votes_no.
Proof. derive_updater AssetProposal_eta. Defined.
#[global] Instance upd_ap_votes_abstain : Updater ap_votes_abstain.
Proof. derive_updater AssetProposal_eta. Defined.
#[global] Instance upd_ap_voters : Updater ap_voters.
Proof. derive_updater AssetProposal_eta. Defined.

Module AssetProposal.
Definition is_voting_ended (p : AssetProposal) (current_block : Z) : bool :=
  ap_voting_end p <=? current_block.

Definition total_votes {E} (p : AssetProposal) : res E Amount :=
  yn ← Amount.add (ap_votes_yes p) (ap_votes_no p);
  Amount.add yn (ap_votes_abstain p).

Definition has_quorum {E} (p : AssetProposal) (total_supply : Amount) : res E bool :=
  if Amount.is_zero total_supply then Ok false
  else
    tv ← total_votes p;
    Ok (wrap 128 (total_supply * ASSET_QUORUM_BPS) <=? wrap 128 (tv * 10000)).

Definition passes_bps (p : AssetProposal) (bps : Z) : bool :=
  let yes_plus_no := wrap 128 (ap_votes_yes p + ap_votes_no p) in
  if yes_plus_no =? 0 then false
  else wrap 128 (yes_plus_no * bps) <=? wrap 128 (ap_votes_yes p * 10000).

Definition passes_threshold (p : AssetProposal) : bool :=
  passes_bps p ASSET_PASS_THRESHOLD_BPS.

Definition passes_supermajority (p : AssetProposal) : bool :=
  passes_bps p ASSET_SUPERMAJORITY_BPS.

Definition has_voted (p : AssetProposal) (voter : Address) : bool :=
  bool_decide (voter ∈ ap_voters p).
End AssetProposal.

(** ** Transactions ([transaction.rs]) *)

Inductive CrossChainPayload :=
  | VttTransfer (amount : Amount)
  | CCAssetTransfer (asset_id : H256) (amount : Amount)
  | ContractCall (contract : Address) (method : string) (args : bytes) (value : Amount).

Inductive TransactionAction :=
  | Transfer (to : Address) (amount : Amount)
  | DeployContract (code init_data : bytes)
  | CallContract (contract : Address) (method : string) (args : bytes) (value : Amount)
  | Stake (validator : Address) (amount : Amount)
  | Unstake (validator : Address) (amount : Amount)
  | GovernanceVote (proposal_id : H256) (vote : Vote)
  | CreateAssetClass (name symbol metadata_uri : string) (total_supply : Amount)
      (decimals : Z) (asset_class jurisdiction legal_entity : string)
  | AssetTransfer (asset_id : H256) (to : Address) (amount : Amount)
  | CrossChainTransfer (destination_chain : ChainId) (to : Address)
      (payload : CrossChainPayload)
  | CreatePool (token_a token_b : H256) (amount_a amount_b : Amount)
  | AddLiquidity (pool_id : H256) (amount_a amount_b min_lp : Amount)
  | RemoveLiquidity (pool_id : H256) (lp_amount min_a min_b : Amount)
  | Swap (pool_id token_in : H256) (amount_in min_amount_out : Amount)
  | ClaimRevenue (pool_id : H256)
  | ClaimMiningRewards (pool_id : H256)
  | DistributeRevenue (asset_id : H256) (total_amount : Amount)
  | ProposeAssetAction (asset_id : H256) (action : AssetProposalAction)
      (description : string)
  | VoteAssetProposal (proposal_id : H256) (vote : Vote)
  | FinalizeAssetProposal (proposal_id : H256)
  | BridgeWithdraw (token : H256) (amount : Amount) (destination_chain : Z)
      (destination_address : Address)
  | GovernancePropose (description action_type : string)
      (param_key param_value : option string) (recipient : option Address)
      (amount : option Amount)
  | FreezeAsset (asset_id : H256)
  | UnfreezeAsset (asset_id : H256)
  | SubmitSlashingEvidence (evidence : bytes)
  | FundRedemptionPool (asset_id : H256) (amount : Amount)
  | ClaimRedemption (asset_id : H256)
  | SetKycApproval (address : Address) (approved : bool)
  | BridgeDeposit (source_tx_hash : H256) (source_chain : Z) (recipient : Address)
      (token : H256) (amount : Amount)
  | SetAddressJurisdiction (address : Address) (country : string)
  | CreateOracleFeed (feed_id : H256) (name feed_type : string)
      (authorized_sources : list Address) (quorum max_staleness_ms decimals : Z)
  | SubmitOracleValue (feed_id : H256) (value : Amount).

Record TransactionPayload := MkTransactionPayload {
  tp_chain_id : ChainId;
  tp_nonce : Z;
  tp_gas_price : Amount;
  tp_gas_limit : Z;
  tp_action : TransactionAction;
}.

Record SignedTransaction := MkSignedTransaction {
  tx_payload : TransactionPayload;
  tx_signature : Signature;
  tx_public_key : PublicKey;
}.

Record Log := MkLog { log_address : Address; log_topics : list H256; log_data : bytes }.

Record TransactionReceipt := MkTransactionReceipt {
  rc_tx_hash : H256;
  rc_success : bool;
  rc_gas_used : Z;
  rc_logs : list Log;
}.

(** ** Blocks ([block.rs]) *)

Record BlockHeader := MkBlockHeader {
  bh_version : Z;
  bh_chain_id : ChainId;
  bh_number : Z;
  bh_parent_hash : H256;
  bh_transactions_root : H256;
  bh_state_root : H256;
  bh_receipts_root : H256;
  bh_validator : Address;
  bh_epoch : Z;
  bh_slot : Z;
  bh_timestamp : Z;
  bh_gas_limit : Z;
  bh_gas_used : Z;
  bh_cross_chain_root : option H256;
  bh_signature : Signature;
}.

Record Block := MkBlock {
  bl_header : BlockHeader;
  bl_transactions : list SignedTransaction;
}.

Definition BlockHeader_eta (h : BlockHeader) : BlockHeader :=
  MkBlockHeader (bh_version h) (bh_chain_id h) (bh_number h) (bh_parent_hash h)
    (bh_transactions_root h) (bh_state_root h) (bh_receipts_root h) (bh_validator h)
    (bh_epoch h) (bh_slot h) (bh_timestamp h) (bh_gas_limit h) (bh_gas_used h)
    (bh_cross_chain_root h) (bh_signature h).

#[global] Instance upd_bh_signature : Updater bh_signature.
Proof. derive_updater BlockHeader_eta. Defined.
#[global] Instance upd_bh_number : Updater bh_number.
Proof. derive_updater BlockHeader_eta. Defined.

Definition signable_bytes `{Borsh BlockHeader} (h : BlockHeader) : bytes :=
  to_vec (h <| bh_signature := Signature_ZERO |>).

(** ** Generic facts *)

Lemma Z_of_byte_of_Z x : Z_of_byte (byte_of_Z x) = x mod 256.
Proof.
  unfold Z_of_byte, byte_of_Z.
  pose proof (Z.mod_pos_bound x 256 ltac:(lia)).
  rewrite Ascii.N_ascii_embedding by lia. lia.
Qed.

Lemma to_le_bytes_length n x : String.length (to_le_bytes n x) = n.
Proof. revert x. induction n as [|n IH]; intros x; cbn; [done|]. by rewrite IH. Qed.

(** Little-endian encoding at a width is inverted by decoding. *)
Lemma from_to_le_bytes n x :
  0 <= x < 256 ^ Z.of_nat n → from_le_bytes (to_le_bytes n x) = x.
Proof.
  revert x. induction n as [|n IH]; intros x Hx.
  - cbn in *. lia.
  - cbn [to_le_bytes from_le_bytes]. rewrite Z_of_byte_of_Z.
    rewrite Nat2Z.inj_succ, Z.pow_succ_r in Hx by lia.
    rewrite IH by (split; [apply Z.div_pos|apply Z.div_lt_upper_bound]; lia).
    pose proof (Z_div_mod_eq_full x 256). lia.
Qed.

Lemma to_le_bytes_inj n x y :
  0 <= x < 256 ^ Z.of_nat n → 0 <= y < 256 ^ Z.of_nat n →
  to_le_bytes n x = to_le_bytes n y → x = y.
Proof.
  intros Hx Hy Heq. rewrite <- (from_to_le_bytes n x Hx), Heq. by apply from_to_le_bytes.
Qed.

Lemma merkle_level_length `{Crypto} l :
  (length (merkle_level l) <= length l)%nat ∧
  (2 <= length l → length (merkle_level l) < length l)%nat.
Proof.
  induction l as [[|a [|b l]] IH] using (well_founded_induction (well_founded_ltof _ (@length H256))).
  1,2: cbn; lia.
  destruct (IH l) as [IH1 _]; [unfold ltof; cbn; lia|]. cbn. lia.
Qed.

Lemma merkle_level_nonempty `{Crypto} l : l ≠ [] → merkle_level l ≠ [].
Proof. by destruct l as [|a [|b l]]. Qed.

Lemma merkle_loop_total `{Crypto} fuel l :
  l ≠ [] → (length l <= S fuel)%nat → ∃ r, merkle_loop fuel l = Some r.
Proof.
  revert l. induction fuel as [|fuel IH]; intros [|a [|b l]] Hne Hlen; try done;
    cbn -[merkle_level] in *; eauto; [lia|].
  apply IH; [by apply merkle_level_nonempty|].
  destruct (merkle_level_length (a :: b :: l)) as [_ Hl]. cbn -[merkle_level] in *. lia.
Qed.

Lemma bytes_le_cons a s b t :
  bytes_le (String a s) (String b t) ↔
  (Ascii.N_of_ascii a < Ascii.N_of_ascii b)%N ∨ (a = b ∧ bytes_le s t).
Proof.
  unfold bytes_le, String.leb. cbn. unfold Ascii.compare.
  destruct (N.compare_spec (Ascii.N_of_ascii a) (Ascii.N_of_ascii b)) as [E|E|E].
  - assert (a = b) as ->.
    { rewrite <- (Ascii.ascii_N_embedding a), <- (Ascii.ascii_N_embedding b). by f_equal. }
    split; [by right|]. intros [?|[_ ?]]; [lia|done].
  - split; [by left|done].
  - split; [done|]. intros [?|[-> ?]]; lia.
Qed.

#[global] Instance bytes_le_trans : Transitive bytes_le.
Proof.
  intros s. induction s as [|a s IH]; intros [|b t] [|c u]; try done.
  rewrite !bytes_le_cons. intros [?|[-> ?]] [?|[-> ?]]; try (left; lia).
  right. split; [done|]. by apply (IH t).
Qed.

#[global] Instance bytes_le_total : Total bytes_le.
Proof. intros s t. apply String.leb_total. Qed.

#[global] Instance bytes_le_antisymm : AntiSymm (=) bytes_le.
Proof. intros s t. apply String.leb_antisym. Qed.

Lemma btree_iter_perm {V} (m : gmap bytes V) : btree_iter m ≡ₚ map_to_list m.
Proof. apply merge_sort_Permutation. Qed.

Lemma btree_iter_sorted {V} (m : gmap bytes V) :
  StronglySorted (λ x y, bytes_le x.1 y.1) (btree_iter m).
Proof.
  apply StronglySorted_merge_sort.
  - intros x y z. apply bytes_le_trans.
  - intros x y. apply bytes_le_total.
Qed.

Lemma merkle_root_loop `{Crypto} l : l ≠ [] → Some (merkle_root l) = merkle_loop (length l) l.
Proof.
  intros Hl. destruct (merkle_loop_total (length l) l Hl ltac:(lia)) as [r Hr].
  destruct l as [|a [|b l]]; [done..|]. unfold merkle_root. by rewrite Hr.
Qed.

Lemma blen_app a b : String.length (a +:+ b) = (String.length a + String.length b)%nat.
Proof. induction a as [|c a IH]; [done|]. exact (f_equal S IH). Qed.

Lemma zeros_length n : String.length (zeros n) = n.
Proof. induction n as [|n IH]; cbn; [done|]. by rewrite IH. Qed.

Lemma zeros_app n m : zeros (n + m) = zeros n +:+ zeros m.
Proof. induction n as [|n IH]; [done|]. exact (f_equal (String _) IH). Qed.

Lemma btake_length n s : String.length (btake n s) = (n `min` String.length s)%nat.
Proof. revert s. induction n as [|n IH]; intros [|c s]; cbn; [done..|]. by rewrite IH. Qed.

Lemma h256_from_slice_length s : String.length (h256_bytes (h256_from_slice s)) = 32%nat.
Proof. unfold h256_from_slice. cbv zeta. cbn [h256_bytes]. rewrite blen_app, zeros_length, btake_length. lia. Qed.

(** Instances to evaluate the models on concrete inputs: a digest that keeps
    the first 32 bytes, and a signature scheme that accepts a signature equal
    to the signed message. *)
Definition prefix_crypto : Crypto := {|
  blake3_hash := h256_from_slice;
  ed25519_valid_key := λ _, true;
  ed25519_verify := λ pk msg sig, bool_decide (signature_bytes sig = msg);
  blake3_len := h256_from_slice_length;
|}.

(** A codec for any countable type: the binary digits of its code. *)
Fixpoint positive_to_bytes (p : positive) : bytes :=
  match p with
  | xH => ""
  | xO p' => String Ascii.zero (positive_to_bytes p')
  | xI p' => String Ascii.one (positive_to_bytes p')
  end.

Fixpoint bytes_to_positive (s : bytes) : positive :=
  match s with
  | EmptyString => xH
  | String c s' => if Ascii.eqb c Ascii.one then xI (bytes_to_positive s')
                   else xO (bytes_to_positive s')
  end.

Lemma bytes_to_positive_to_bytes p : bytes_to_positive (positive_to_bytes p) = p.
Proof. induction p as [p IH|p IH|]; cbn; [..|done]; by rewrite IH. Qed.

Program Definition countable_borsh (A : Type) `{Countable A} : Borsh A := {|
  to_vec := λ a, positive_to_bytes (encode a);
  from_slice := λ s, decode (bytes_to_positive s);
|}.
Next Obligation. intros A ?? a. cbn. rewrite bytes_to_positive_to_bytes. apply decode_encode. Qed.

Lemma amount_add_Ok {E} a b : a + b < 2 ^ 128 → Amount.add (E:=E) a b = Ok (a + b).
Proof. intros Hlt. unfold Amount.add, checked_add. by rewrite (proj2 (Z.ltb_lt _ _)). Qed.

Lemma amount_sub_Ok {E} a b : b <= a → Amount.sub (E:=E) a b = Ok (a - b).
Proof. intros Hle. unfold Amount.sub, checked_sub. by rewrite (proj2 (Z.leb_le _ _)). Qed.
