(* ===== verification/RustStr.v ===== *)
(** * Strings of the standard library

    The [str] methods the executor and the state database call: trimming,
    splitting, case, slicing at character boundaries, decimal and hexadecimal
    parsing, UTF-8 validation.  A [str] is its UTF-8 bytes. *)

From stdpp Require Import pretty.
From S2P Require Import Prelude Primitives.

Module Str.

Definition of_codes (l : list Z) : bytes := foldr (λ x s, String (byte_of_Z x) s) "" l.

Fixpoint to_codes (s : bytes) : list Z :=
  match s with EmptyString => [] | String c s' => Z_of_byte c :: to_codes s' end.

Definition all (f : Z → bool) (s : bytes) : bool := forallb f (to_codes s).

Definition map (f : Z → Z) (s : bytes) : bytes := of_codes (f <$> to_codes s).

(** ** Prefixes, suffixes, trimming *)

Fixpoint strip_prefix (p s : bytes) : option bytes :=
  match p, s with
  | EmptyString, _ => Some s
  | String c p', String d s' => if Ascii.eqb c d then strip_prefix p' s' else None
  | String _ _, EmptyString => None
  end.

Definition starts_with (p s : bytes) : bool := bool_decide (is_Some (strip_prefix p s)).

Fixpoint contains (p s : bytes) : bool :=
  starts_with p s || match s with String _ s' => contains p s' | EmptyString => false end.

(** The encodings of the characters with the [White_Space] property. *)
Definition white_space : list bytes :=
  of_codes <$>
    [[9]; [10]; [11]; [12]; [13]; [32]; [194; 133]; [194; 160]; [225; 154; 128];
     [226; 128; 128]; [226; 128; 129]; [226; 128; 130]; [226; 128; 131]; [226; 128; 132];
     [226; 128; 133]; [226; 128; 134]; [226; 128; 135]; [226; 128; 136]; [226; 128; 137];
     [226; 128; 138]; [226; 128; 168]; [226; 128; 169]; [226; 128; 175]; [226; 129; 159];
     [227; 128; 128]].

(** The first of [ps] that [s] starts with, removed. *)
Fixpoint strip_any (ps : list bytes) (s : bytes) : option bytes :=
  match ps with
  | [] => None
  | p :: ps => match strip_prefix p s with Some s' => Some s' | None => strip_any ps s end
  end.

(** Remove prefixes of [ps] while there is one; every pass shortens [s], so
    its length is enough fuel ([strip_all_stops]). *)
Fixpoint strip_all (ps : list bytes) (fuel : nat) (s : bytes) : bytes :=
  match fuel with
  | O => s
  | S fuel => match strip_any ps s with Some s' => strip_all ps fuel s' | None => s end
  end.

Definition trim_start (s : bytes) : bytes := strip_all white_space (String.length s) s.

Definition trim_end (s : bytes) : bytes :=
  brev (strip_all (brev <$> white_space) (String.length s) (brev s)).

Definition trim (s : bytes) : bytes := trim_end (trim_start s).

Definition trim_start_matches (p s : bytes) : bytes := strip_all [p] (String.length s) s.

Definition trim_end_matches (p s : bytes) : bytes :=
  brev (strip_all [brev p] (String.length s) (brev s)).

(** The padding of a number printed with a minimal width. *)
Definition zeros (n : nat) : bytes := of_codes (replicate n 48).

(** [s.split(c)] on an ASCII separator: never empty. *)
Fixpoint split (c : Ascii.ascii) (s : bytes) : list bytes :=
  match s with
  | EmptyString => [""]
  | String d s' =>
      if Ascii.eqb c d then "" :: split c s'
      else match split c s' with
           | w :: ws => String d w :: ws
           | [] => [String d ""]
           end
  end.

Definition comma : Ascii.ascii := byte_of_Z 44.

(** ** ASCII case *)

Definition is_lower (x : Z) : bool := (97 <=? x) && (x <=? 122).
Definition is_upper (x : Z) : bool := (65 <=? x) && (x <=? 90).
Definition is_ascii_alphabetic (x : Z) : bool := is_lower x || is_upper x.

Definition to_ascii_uppercase : bytes → bytes := map (λ x, if is_lower x then x - 32 else x).
Definition to_ascii_lowercase : bytes → bytes := map (λ x, if is_upper x then x + 32 else x).

Definition eq_ignore_ascii_case (s t : bytes) : bool :=
  bool_decide (to_ascii_lowercase s = to_ascii_lowercase t).

(** ** Slices

    [&s[i..j]] panics unless both ends are in range and on a character
    boundary. *)

Definition is_char_boundary (s : bytes) (i : nat) : bool :=
  match String.get i s with
  | Some c => negb ((128 <=? Z_of_byte c) && (Z_of_byte c <? 192))
  | None => (i =? String.length s)%nat
  end.

Definition slice {E} (s : bytes) (i j : nat) : res E bytes :=
  if (i <=? j)%nat && is_char_boundary s i && is_char_boundary s j
  then Ok (btake (j - i) (bdrop i s)) else Panic.

(** ** Numbers *)

Definition to_digit (radix x : Z) : option Z :=
  let d := if (48 <=? x) && (x <=? 57) then x - 48
           else if is_lower x then x - 87
           else if is_upper x then x - 55
           else radix in
  if d <? radix then Some d else None.

Definition push_digit (w radix : Z) (acc : option Z) (x : Z) : option Z :=
  a ← acc; d ← to_digit radix x; m ← checked_mul w a radix; checked_add w m d.

(** [from_str_radix] of the unsigned type of width [w]: an optional [+], then
    at least one digit. *)
Definition from_str_radix (w radix : Z) (s : bytes) : option Z :=
  match to_codes s with
  | [] => None
  | [x] => push_digit w radix (Some 0) x
  | x :: l => foldl (push_digit w radix) (Some 0) (if x =? 43 then l else x :: l)
  end.

Definition parse (w : Z) (s : bytes) : option Z := from_str_radix w 10 s.

(** The loop that fills an [n]-byte array from pairs of hexadecimal digits,
    starting at byte [i]; [Err tt] is a failed parse. *)
Fixpoint hex_bytes (n i : nat) (s : bytes) : res unit bytes :=
  match n with
  | O => Ok ""
  | S n =>
      pair ← slice s (i * 2) (i * 2 + 2);
      b ← ok_or tt (from_str_radix 8 16 pair);
      rest ← hex_bytes n (S i) s;
      Ok (String (byte_of_Z b) rest)
  end.

Definition hex_digit (d : Z) : Ascii.ascii := byte_of_Z (if d <? 10 then d + 48 else d + 87).

(** [hex::encode]. *)
Fixpoint hex_encode (s : bytes) : bytes :=
  match s with
  | EmptyString => ""
  | String c s' =>
      String (hex_digit (Z_of_byte c / 16)) (String (hex_digit (Z_of_byte c mod 16))
        (hex_encode s'))
  end.

(** ** UTF-8 *)

Definition cont (x : Z) : bool := (128 <=? x) && (x <=? 191).

(** Well-formed UTF-8, by the table of the Unicode standard. *)
Fixpoint utf8_codes (l : list Z) : bool :=
  match l with
  | [] => true
  | a :: l1 =>
      if a <? 128 then utf8_codes l1
      else
        match l1 with
        | [] => false
        | b :: l2 =>
            if (194 <=? a) && (a <=? 223) then cont b && utf8_codes l2
            else
              match l2 with
              | [] => false
              | c :: l3 =>
                  if (224 <=? a) && (a <=? 239) then
                    cont b && (negb (a =? 224) || (160 <=? b)) && (negb (a =? 237) || (b <=? 159))
                    && cont c && utf8_codes l3
                  else
                    match l3 with
                    | [] => false
                    | d :: l4 =>
                        (240 <=? a) && (a <=? 244) && cont b
                        && (negb (a =? 240) || (144 <=? b)) && (negb (a =? 244) || (b <=? 143))
                        && cont c && cont d && utf8_codes l4
                    end
              end
        end
  end.

Definition from_utf8 (s : bytes) : option bytes :=
  if utf8_codes (to_codes s) then Some s else None.

(** [String::from_utf8_lossy]: every maximal ill-formed prefix becomes U+FFFD. *)
Definition second_ok (a b : Z) : bool :=
  cont b && (negb (a =? 224) || (160 <=? b)) && (negb (a =? 237) || (b <=? 159))
  && (negb (a =? 240) || (144 <=? b)) && (negb (a =? 244) || (b <=? 143)).

Fixpoint lossy_codes (l : list Z) : list Z :=
  let bad rest := [239; 191; 189] ++ rest in
  match l with
  | [] => []
  | a :: l1 =>
      if a <? 128 then a :: lossy_codes l1
      else if (a <? 194) || (244 <? a) then bad (lossy_codes l1)
      else
        match l1 with
        | [] => bad []
        | b :: l2 =>
            if negb (second_ok a b) then bad (lossy_codes l1)
            else if a <? 224 then a :: b :: lossy_codes l2
            else
              match l2 with
              | [] => bad []
              | c :: l3 =>
                  if negb (cont c) then bad (lossy_codes l2)
                  else if a <? 240 then a :: b :: c :: lossy_codes l3
                  else
                    match l3 with
                    | [] => bad []
                    | d :: l4 =>
                        if negb (cont d) then bad (lossy_codes l3)
                        else a :: b :: c :: d :: lossy_codes l4
                    end
              end
        end
  end.

Definition from_utf8_lossy (s : bytes) : bytes := of_codes (lossy_codes (to_codes s)).

End Str.

(** [Display] of addresses and hashes. *)
Definition address_to_string (a : Address) : bytes := "0x" +:+ Str.hex_encode (address_bytes a).
Definition h256_to_string (h : H256) : bytes := "0x" +:+ Str.hex_encode (h256_bytes h).

(** [Display] of amounts: the whole tokens, and the fraction in eighteen digits
    without its final zeros. *)
Definition amount_to_string (a : Amount) : bytes :=
  let unit := 10 ^ Amount.DECIMALS in
  let whole := pretty (a / unit) in
  let frac := a mod unit in
  if frac =? 0 then whole +:+ " VTT"
  else
    let digits := pretty frac in
    let frac_str := Str.zeros (18 - String.length digits) +:+ digits in
    whole +:+ "." +:+ Str.trim_end_matches "0" frac_str +:+ " VTT".

(** ** Facts *)

Lemma strip_prefix_length p s s' :
  Str.strip_prefix p s = Some s' → (String.length s = String.length p + String.length s')%nat.
Proof.
  revert s. induction p as [|c p IH]; intros s; cbn; [congruence|].
  destruct s as [|d s]; [done|]. destruct (Ascii.eqb c d); [|done]. cbn. intros ?%IH. lia.
Qed.

Lemma strip_any_length ps s s' :
  Forall (λ p, p ≠ "") ps → Str.strip_any ps s = Some s' →
  (String.length s' < String.length s)%nat.
Proof.
  induction 1 as [|p ps Hp _ IH]; cbn; [done|].
  destruct (Str.strip_prefix p s) as [t|] eqn:E; [|done]. intros [= ->].
  apply strip_prefix_length in E. destruct p; [done|]. cbn in E. lia.
Qed.

(** The trimming loops end with nothing left to remove. *)
Lemma strip_all_stops ps fuel s :
  Forall (λ p, p ≠ "") ps → (String.length s <= fuel)%nat →
  Str.strip_any ps (Str.strip_all ps fuel s) = None.
Proof.
  intros Hps. revert s. induction fuel as [|fuel IH]; intros s Hs; cbn.
  - destruct (Str.strip_any ps s) as [s'|] eqn:E; [|done].
    apply strip_any_length in E; [lia|done].
  - destruct (Str.strip_any ps s) as [s'|] eqn:E; [|done].
    apply IH. apply strip_any_length in E; [lia|done].
Qed.

(** Whether a trimming loop can remove something is seen on the first byte. *)
Definition first_byte (s : bytes) : option Ascii.ascii := String.get 0 s.

Lemma strip_prefix_first c p s :
  first_byte p = Some c → first_byte s ≠ Some c → Str.strip_prefix p s = None.
Proof.
  destruct p as [|d p]; [done|]. intros [= ->] Hs. destruct s as [|e s]; [done|]. cbn in *.
  destruct (Ascii.eqb_spec c e); congruence.
Qed.

Lemma strip_all_skip ps fuel s :
  Forall (λ p, ∃ c, first_byte p = Some c ∧ first_byte s ≠ Some c) ps →
  Str.strip_all ps fuel s = s.
Proof.
  intros Hps. destruct fuel as [|fuel]; [done|]. cbn.
  enough (Str.strip_any ps s = None) as -> by done.
  induction Hps as [|p ps (c & Hp & Hs) _ IH]; cbn; [done|].
  by rewrite (strip_prefix_first c).
Qed.

Lemma bapp_nil s : s +:+ "" = s.
Proof. induction s as [|c s IH]; [done|]. exact (f_equal (String c) IH). Qed.

Lemma bapp_assoc s t u : (s +:+ t) +:+ u = s +:+ (t +:+ u).
Proof. induction s as [|c s IH]; [done|]. exact (f_equal (String c) IH). Qed.

Lemma brev_app s t : brev (s +:+ t) = brev t +:+ brev s.
Proof.
  induction s as [|c s IH]; [by rewrite bapp_nil|].
  change (brev (s +:+ t) +:+ String c "" = brev t +:+ (brev s +:+ String c "")).
  by rewrite IH, bapp_assoc.
Qed.

Lemma brev_involutive s : brev (brev s) = s.
Proof.
  induction s as [|c s IH]; [done|]. cbn [brev]. rewrite brev_app, IH. done.
Qed.

(** A byte that neither starts nor ends a white space character. *)
Definition solid (c : Ascii.ascii) : bool :=
  forallb (λ p, negb (bool_decide (first_byte p = Some c))
              && negb (bool_decide (first_byte (brev p) = Some c))) Str.white_space.

Lemma solid_skips c s :
  solid c = true → first_byte s = Some c →
  Forall (λ p, ∃ d, first_byte p = Some d ∧ first_byte s ≠ Some d) Str.white_space ∧
  Forall (λ p, ∃ d, first_byte p = Some d ∧ first_byte s ≠ Some d) (brev <$> Str.white_space).
Proof.
  unfold solid. rewrite forallb_forall. intros Hc Hs.
  assert (∀ p, p ∈ Str.white_space → is_Some (first_byte p) ∧ is_Some (first_byte (brev p))) as Hne.
  { apply Forall_forall. unfold Str.white_space. cbn. repeat (constructor; [by split; eexists|]).
    constructor. }
  split; [|apply Forall_fmap]; apply Forall_forall; intros p Hp;
    destruct (Hne p Hp) as [[d Hd] [e He]];
    specialize (Hc p ltac:(by apply list_elem_of_In)); apply andb_prop in Hc as [H1 H2];
    rewrite negb_true_iff, bool_decide_eq_false in H1, H2; cbn; eexists; split; eauto; congruence.
Qed.

Lemma trim_solid c d s :
  solid c = true → solid d = true → first_byte s = Some c → first_byte (brev s) = Some d →
  Str.trim s = s.
Proof.
  intros Hc Hd H1 H2. unfold Str.trim, Str.trim_start, Str.trim_end.
  rewrite (strip_all_skip Str.white_space) by by apply (solid_skips c).
  rewrite strip_all_skip by by apply (solid_skips d). apply brev_involutive.
Qed.

(** *** Hexadecimal *)

Definition is_hex (s : bytes) : Prop :=
  Forall (λ x, is_Some (Str.to_digit 16 x)) (Str.to_codes s).

Lemma to_codes_app s t : Str.to_codes (s +:+ t) = Str.to_codes s ++ Str.to_codes t.
Proof. induction s as [|c s IH]; [done|]. exact (f_equal (cons (Z_of_byte c)) IH). Qed.

Lemma to_codes_lookup s i : Str.to_codes s !! i = Z_of_byte <$> String.get i s.
Proof. revert i. induction s as [|c s IH]; intros [|i]; cbn; auto. Qed.

Lemma to_codes_length s : length (Str.to_codes s) = String.length s.
Proof. induction s as [|c s IH]; cbn; auto. Qed.

Lemma Z_of_byte_range c : 0 <= Z_of_byte c < 256.
Proof. unfold Z_of_byte. pose proof (Ascii.N_ascii_bounded c). lia. Qed.

Lemma byte_of_Z_of_byte c : byte_of_Z (Z_of_byte c) = c.
Proof.
  unfold byte_of_Z. rewrite Z.mod_small by apply Z_of_byte_range.
  unfold Z_of_byte. rewrite N2Z.id. apply Ascii.ascii_N_embedding.
Qed.

Lemma to_digit_ascii radix x d : Str.to_digit radix x = Some d → x < 128.
Proof.
  unfold Str.to_digit, Str.is_lower, Str.is_upper.
  destruct (Z.leb_spec 48 x), (Z.leb_spec x 57), (Z.leb_spec 97 x), (Z.leb_spec x 122),
    (Z.leb_spec 65 x), (Z.leb_spec x 90); cbn; try lia; case_match; intros; try lia;
    rewrite Z.ltb_irrefl in *; done.
Qed.

Lemma is_hex_boundary s i : is_hex s → (i <= String.length s)%nat → Str.is_char_boundary s i = true.
Proof.
  intros Hs Hi. unfold Str.is_char_boundary. destruct (String.get i s) as [c|] eqn:E.
  - assert (Z_of_byte c < 128).
    { eapply Forall_lookup_1 in Hs as [d Hd]; [by eapply to_digit_ascii|].
      by rewrite to_codes_lookup, E. }
    by rewrite (proj2 (Z.leb_gt _ _)).
  - apply Nat.eqb_eq. apply (f_equal (fmap Z_of_byte)) in E. rewrite <- to_codes_lookup in E.
    apply lookup_ge_None in E. rewrite to_codes_length in E. lia.
Qed.

Lemma hex_digit_ok d : 0 <= d < 16 → Str.to_digit 16 (Z_of_byte (Str.hex_digit d)) = Some d.
Proof.
  intros Hd. assert (Forall (λ d, Str.to_digit 16 (Z_of_byte (Str.hex_digit d)) = Some d)
    (seqZ 0 16)) as HF by (cbn; repeat constructor).
  rewrite Forall_forall in HF. apply HF, elem_of_seqZ. lia.
Qed.

Lemma hex_digit_solid d : 0 <= d < 16 → solid (Str.hex_digit d) = true.
Proof.
  intros Hd. assert (Forall (λ d, solid (Str.hex_digit d) = true) (seqZ 0 16)) as HF
    by (cbn; repeat constructor).
  rewrite Forall_forall in HF. apply HF, elem_of_seqZ. lia.
Qed.

Lemma byte_nibbles c : 0 <= Z_of_byte c / 16 < 16 ∧ 0 <= Z_of_byte c mod 16 < 16.
Proof.
  pose proof (Z_of_byte_range c).
  split; [split; [apply Z.div_pos|apply Z.div_lt_upper_bound]; lia|apply Z.mod_pos_bound; lia].
Qed.

Lemma hex_encode_is_hex s : is_hex (Str.hex_encode s).
Proof.
  unfold is_hex. induction s as [|c s IH]; cbn; [constructor|].
  destruct (byte_nibbles c). by repeat constructor; rewrite ?hex_digit_ok.
Qed.

Lemma hex_encode_length s : String.length (Str.hex_encode s) = (2 * String.length s)%nat.
Proof. induction s as [|c s IH]; cbn; [done|]. rewrite IH. lia. Qed.

Lemma parse_hex_pair c :
  Str.from_str_radix 8 16 (String (Str.hex_digit (Z_of_byte c / 16))
    (String (Str.hex_digit (Z_of_byte c mod 16)) "")) = Some (Z_of_byte c).
Proof.
  destruct (byte_nibbles c) as [H1 H2]. unfold Str.from_str_radix. cbn [Str.to_codes].
  assert ((Z_of_byte (Str.hex_digit (Z_of_byte c / 16)) =? 43) = false) as ->.
  { apply Z.eqb_neq. intros E. pose proof (hex_digit_ok _ H1) as Hd. rewrite E in Hd. done. }
  cbn [foldl]. unfold Str.push_digit. cbn -[Z.pow Z.div Z.modulo].
  rewrite !hex_digit_ok by done. cbn -[Z.pow Z.div Z.modulo].
  unfold checked_mul, checked_add. cbn [Z.mul].
  pose proof (Z_of_byte_range c). pose proof (Z_div_mod_eq_full (Z_of_byte c) 16).
  rewrite (proj2 (Z.ltb_lt 0 _)) by done. cbn -[Z.pow Z.div Z.modulo].
  rewrite (proj2 (Z.ltb_lt _ _)) by lia. cbn -[Z.pow Z.div Z.modulo].
  rewrite (proj2 (Z.ltb_lt _ _)) by lia. cbn -[Z.pow Z.div Z.modulo].
  rewrite (proj2 (Z.ltb_lt _ _)) by lia. f_equal. lia.
Qed.

Lemma bdrop_app s t : bdrop (String.length s) (s +:+ t) = t.
Proof. induction s as [|c s IH]; [by destruct t|done]. Qed.

Lemma bapp_inj_l a b c d :
  String.length a = String.length c → a +:+ b = c +:+ d → a = c ∧ b = d.
Proof.
  revert c. induction a as [|x a IH]; intros [|y c] Hl He; try done.
  injection He as -> He. destruct (IH c) as [-> ->]; [by injection Hl|done|done].
Qed.

Lemma bdrop_app_n n a b : String.length a = n → bdrop n (a +:+ b) = b.
Proof. intros <-. apply bdrop_app. Qed.

Lemma btake_app_n n a b : String.length a = n → btake n (a +:+ b) = a.
Proof.
  intros <-. induction a as [|c a IH]; [by destruct b|]. exact (f_equal (String c) IH).
Qed.

Lemma hex_bytes_encode_at pre s i :
  is_hex pre → String.length pre = (i * 2)%nat →
  Str.hex_bytes (String.length s) i (pre +:+ Str.hex_encode s) = Ok s.
Proof.
  revert pre i. induction s as [|c s IH]; intros pre i Hpre Hlen; [done|].
  cbn [String.length Str.hex_bytes].
  assert (is_hex (pre +:+ Str.hex_encode (String c s))) as Hhex.
  { unfold is_hex in *. rewrite to_codes_app. apply Forall_app. split; [done|].
    apply hex_encode_is_hex. }
  unfold Str.slice at 1.
  rewrite !is_hex_boundary, (proj2 (Nat.leb_le _ _)) by
    (try done; rewrite ?blen_app, ?hex_encode_length; cbn; lia).
  cbn [andb mbind res_bind]. rewrite <- Hlen, bdrop_app.
  replace (String.length pre + 2 - String.length pre)%nat with 2%nat by lia.
  cbn [Str.hex_encode btake]. rewrite parse_hex_pair. cbn [ok_or mbind res_bind].
  set (h1 := Str.hex_digit (Z_of_byte c / 16)). set (h2 := Str.hex_digit (Z_of_byte c mod 16)).
  replace (pre +:+ String h1 (String h2 (Str.hex_encode s)))
    with ((pre +:+ String h1 (String h2 "")) +:+ Str.hex_encode s).
  - rewrite IH.
    + cbn. by rewrite byte_of_Z_of_byte.
    + destruct (byte_nibbles c). unfold is_hex in *. rewrite to_codes_app. apply Forall_app.
      split; [done|]. subst h1 h2. by repeat constructor; rewrite ?hex_digit_ok.
    + rewrite blen_app. cbn. lia.
  - by rewrite bapp_assoc.
Qed.

(** Decoding the hexadecimal digits of a byte string gives it back. *)
Lemma hex_bytes_encode s : Str.hex_bytes (String.length s) 0 (Str.hex_encode s) = Ok s.
Proof. apply (hex_bytes_encode_at ""); [constructor|done]. Qed.
