(* ===== verification/DexMath.v ===== *)
(** * AMM arithmetic ([crates/vtt-dex/src/math.rs])

    The 256-bit intermediate product, the bit-by-bit long division, the two
    Newton square roots, the constant-product formula and the fee split, each
    shown equal to its mathematical definition on every 128-bit input. *)

From S2P Require Import Prelude Primitives.

(** [crates/vtt-dex/src/error.rs] *)
Inductive DexError :=
  | PoolAlreadyExists (pool_id : H256)
  | PoolNotFound (pool_id : H256)
  | ZeroAmount
  | ZeroLiquidity
  | InsufficientBalance
  | InsufficientLiquidity
  | SlippageExceeded (expected got : Z)
  | InvalidTokenPair
  | SameToken
  | Overflow
  | NotAuthorized
  | MiningNotActive
  | NothingToClaim
  | DexPaused.

Record U256 := MkU256 { hi : Z; lo : Z }.

Definition u256_value (n : U256) : Z := hi n * 2 ^ 128 + lo n.

Definition u256_wf (n : U256) : Prop := in_width 128 (hi n) ∧ in_width 128 (lo n).

Module U256.

Definition from_u128 (v : Z) : U256 := MkU256 0 v.

Definition mul_u128 (a b : Z) : U256 :=
  let a_lo := wrap 64 a in
  let a_hi := Z.shiftr a 64 in
  let b_lo := wrap 64 b in
  let b_hi := Z.shiftr b 64 in
  let ll := wrap 128 (a_lo * b_lo) in
  let lh := wrap 128 (a_lo * b_hi) in
  let hl := wrap 128 (a_hi * b_lo) in
  let hh := wrap 128 (a_hi * b_hi) in
  let mid := wrap 128 (lh + hl) in
  let lo := wrap 128 (ll + wrap 128 (Z.shiftl mid 64)) in
  let carry := wrap 128 ((if lo <? ll then 1 else 0)
                         + (if mid <? lh then Z.shiftl 1 64 else 0)) in
  let hi := wrap 128 (wrap 128 (hh + Z.shiftr mid 64) + carry) in
  MkU256 hi lo.

(** One turn of either division loop: shift the next bit of the dividend into
    the remainder and subtract the divisor when it fits. *)
Definition div_step (divisor rem bit : Z) : Z * bool :=
  let overflow := Z.shiftr rem 127 in
  let rem := Z.lor (wrap 128 (Z.shiftl rem 1)) bit in
  if negb (overflow =? 0) || (divisor <=? rem)
  then (wrap 128 (rem - divisor), true)
  else (rem, false).

(** [for i in (0..k).rev()] over the bits of [hi]. *)
Fixpoint div_hi_loop (k : nat) (h divisor rem : Z) : Z :=
  match k with
  | O => rem
  | S i =>
      let bit := Z.land (Z.shiftr h (Z.of_nat i)) 1 in
      div_hi_loop i h divisor (div_step divisor rem bit).1
  end.

(** [for i in (0..k).rev()] over the bits of [lo]. *)
Fixpoint div_lo_loop (k : nat) (l divisor rem result : Z) : Z :=
  match k with
  | O => result
  | S i =>
      let bit := Z.land (Z.shiftr l (Z.of_nat i)) 1 in
      let '(rem', take) := div_step divisor rem bit in
      div_lo_loop i l divisor rem'
        (if take then Z.lor result (Z.shiftl 1 (Z.of_nat i)) else result)
  end.

Definition div_u128 (self : U256) (divisor : Z) : res DexError Z :=
  if divisor =? 0 then Err Overflow
  else if hi self =? 0 then Ok (lo self / divisor)
  else if divisor <=? hi self then Err Overflow
  else
    let rem := div_hi_loop 128 (hi self) divisor 0 in
    Ok (div_lo_loop 128 (lo self) divisor rem 0).

End U256.

(** The [while y < x] loop; [None] is a loop still running after [fuel] turns. *)
Fixpoint sqrt_u128_loop (fuel : nat) (n x y : Z) : option Z :=
  match fuel with
  | O => None
  | S fuel' =>
      if y <? x
      then sqrt_u128_loop fuel' n y (wrap 128 (y + n / y) / 2)
      else Some x
  end.

Definition sqrt_u128 (n : Z) : option Z :=
  if n =? 0 then Some 0
  else if n <=? 3 then Some 1
  else sqrt_u128_loop 130 n n (n / 2 + n mod 2).

Definition sqrt_u256_next (n : U256) (x : Z) : Z :=
  let div := match U256.div_u128 n x with Ok d => d | _ => umax 128 end in
  wrap 128 (wrap 128 (Z.shiftr x 1 + Z.shiftr div 1)
            + wrap 128 (Z.land x 1 + Z.land div 1) / 2).

Fixpoint sqrt_u256_loop (fuel : nat) (n : U256) (x : Z) : option Z :=
  match fuel with
  | O => None
  | S fuel' =>
      let next := sqrt_u256_next n x in
      if x <=? next then Some x else sqrt_u256_loop fuel' n next
  end.

Definition sqrt_u256 (n : U256) : option Z :=
  if hi n =? 0 then sqrt_u128 (lo n)
  else
    h ← sqrt_u128 (hi n);
    sqrt_u256_loop 130 n (wrap 128 (Z.shiftl (wrap 128 (h + 1)) 64)).

Definition get_amount_out (amount_in_net reserve_in reserve_out : Z) : res DexError Z :=
  if amount_in_net =? 0 then Err ZeroAmount
  else if (reserve_in =? 0) || (reserve_out =? 0) then Err ZeroLiquidity
  else
    let numerator := U256.mul_u128 reserve_out amount_in_net in
    denominator ← ok_or Overflow (checked_add 128 reserve_in amount_in_net);
    U256.div_u128 numerator denominator.

(** [(amount_in_net, lp_fee, protocol_fee)] *)
Definition calculate_fees (amount_in fee_bps protocol_fee_bps : Z)
    : res DexError (Z * Z * Z) :=
  if amount_in =? 0 then Err ZeroAmount
  else
    t ← ok_or Overflow (checked_mul 128 amount_in fee_bps);
    let total_fee := t / 10000 in
    p ← ok_or Overflow (checked_mul 128 amount_in protocol_fee_bps);
    let protocol_fee := p / 10000 in
    let lp_fee := saturating_sub total_fee protocol_fee in
    let amount_in_net := saturating_sub amount_in total_fee in
    Ok (amount_in_net, lp_fee, protocol_fee).

(** ** The product *)

Lemma mul_split a b m :
  0 < m →
  a * b = (a / m) * (b / m) * m * m
          + ((a mod m) * (b / m) + (a / m) * (b mod m)) * m
          + (a mod m) * (b mod m).
Proof.
  intros Hm. rewrite (Z_div_mod_eq_full a m) at 1.
  rewrite (Z_div_mod_eq_full b m) at 1. ring.
Qed.

(** The carry out of a wrapping addition is detected by comparing with an operand. *)
Lemma wrapping_carry M a b :
  0 <= a < M → 0 <= b < M →
  a + b = (if (a + b) mod M <? a then 1 else 0) * M + (a + b) mod M ∧
  0 <= (a + b) mod M < M.
Proof.
  intros Ha Hb. destruct (decide (a + b < M)).
  - rewrite Z.mod_small by lia. destruct (Z.ltb_spec (a + b) a); lia.
  - replace ((a + b) mod M) with (a + b - M).
    + destruct (Z.ltb_spec (a + b - M) a); lia.
    + apply Z.mod_unique with 1; lia.
Qed.

(** Schoolbook recombination on 64-bit halves with an explicit carry out of the
    wrapped middle sum. *)
Lemma mul_recombine m ll lh hl hh mid lo hi :
  1 < m →
  0 <= ll < m * m → 0 <= lh < m * m → 0 <= hl < m * m → 0 <= hh →
  mid = (lh + hl) mod (m * m) →
  lo = (ll + (mid * m) mod (m * m)) mod (m * m) →
  hi = hh + mid / m + ((if lo <? ll then 1 else 0) + (if mid <? lh then m else 0)) →
  hi * (m * m) + lo = hh * m * m + (lh + hl) * m + ll ∧ 0 <= lo < m * m ∧ 0 <= hi.
Proof.
  intros Hm Hll Hlh Hhl Hhh Hmid Hlo Hhi.
  destruct (wrapping_carry (m * m) lh hl Hlh Hhl) as [Hsum Hmidb].
  rewrite <- Hmid in Hsum, Hmidb.
  pose proof (Z_div_mod_eq_full mid m) as Hdm.
  pose proof (Z.mod_pos_bound mid m ltac:(lia)) as Hmm.
  rewrite Z.mul_mod_distr_r in Hlo by lia.
  destruct (wrapping_carry (m * m) ll (mid mod m * m) Hll ltac:(nia)) as [Hlosum Hlob].
  rewrite <- Hlo in Hlosum, Hlob.
  assert (0 <= mid / m) by (apply Z.div_pos; lia).
  split; [|split; [done|]]; subst hi.
  - destruct (lo <? ll), (mid <? lh); nia.
  - repeat case_match; lia.
Qed.

Lemma half_bounds x : in_width 128 x → 0 <= x / 2 ^ 64 < 2 ^ 64.
Proof.
  intros [H0 H1]. split; [by apply Z.div_pos|]. by apply Z.div_lt_upper_bound.
Qed.

Lemma mul_u128_spec a b :
  in_width 128 a → in_width 128 b →
  u256_value (U256.mul_u128 a b) = a * b ∧ u256_wf (U256.mul_u128 a b).
Proof.
  intros Ha Hb. pose proof (half_bounds a Ha) as Hah. pose proof (half_bounds b Hb) as Hbh.
  pose proof (Z.mod_pos_bound a (2 ^ 64) ltac:(lia)) as Hal.
  pose proof (Z.mod_pos_bound b (2 ^ 64) ltac:(lia)) as Hbl.
  pose proof (mul_split a b (2 ^ 64) ltac:(lia)) as Hab.
  unfold U256.mul_u128. cbv zeta. unfold u256_value, u256_wf. cbn [hi lo].
  rewrite !Z.shiftr_div_pow2, !Z.shiftl_mul_pow2, Z.mul_1_l by lia.
  change (wrap 64 a) with (a mod 2 ^ 64). change (wrap 64 b) with (b mod 2 ^ 64).
  set (ah := a / 2 ^ 64) in *. set (al := a mod 2 ^ 64) in *.
  set (bh := b / 2 ^ 64) in *. set (bl := b mod 2 ^ 64) in *. clearbody ah al bh bl.
  rewrite (wrap_small 128 (al * bl)), (wrap_small 128 (al * bh)),
    (wrap_small 128 (ah * bl)), (wrap_small 128 (ah * bh)) by (unfold in_width; nia).
  set (mid := wrap 128 (al * bh + ah * bl)).
  set (l := wrap 128 (al * bl + wrap 128 (mid * 2 ^ 64))).
  set (cy := (if l <? al * bl then 1 else 0) + (if mid <? al * bh then 2 ^ 64 else 0)).
  destruct (mul_recombine (2 ^ 64) (al * bl) (al * bh) (ah * bl) (ah * bh) mid l
    (ah * bh + mid / 2 ^ 64 + cy)) as (Heq & Hl & Hh); try done; try nia.
  assert (0 <= mid / 2 ^ 64) by (apply Z.div_pos; [apply wrap_in_width|]; lia).
  assert (0 <= cy) by (unfold cy; repeat case_match; lia).
  assert (ah * bh + mid / 2 ^ 64 + cy < 2 ^ 128).
  { unfold in_width in *. assert (a * b < 2 ^ 128 * 2 ^ 128) by nia. nia. }
  assert (cy < 2 ^ 128) by (unfold cy; repeat case_match; lia).
  rewrite (wrap_small 128 cy), (wrap_small 128 (ah * bh + mid / 2 ^ 64)),
    (wrap_small 128 (_ + cy)) by (unfold in_width; nia).
  split; [lia|]. unfold in_width. lia.
Qed.

(** ** The division *)

Lemma shl1_lor rem bit :
  0 <= rem < 2 ^ 128 → 0 <= bit < 2 →
  Z.lor (wrap 128 (Z.shiftl rem 1)) bit = 2 * (rem mod 2 ^ 127) + bit.
Proof.
  intros Hr Hb. rewrite Z.shiftl_mul_pow2 by lia. unfold wrap.
  change (2 ^ 128) with (2 ^ 127 * 2 ^ 1). rewrite Z.mul_mod_distr_r by lia.
  rewrite lor_low_add by lia. lia.
Qed.

Lemma div_step_spec d rem bit :
  0 < d < 2 ^ 128 → 0 <= rem < d → 0 <= bit < 2 →
  let '(rem', take) := U256.div_step d rem bit in
  2 * rem + bit = (if take then d else 0) + rem' ∧ 0 <= rem' < d.
Proof.
  intros Hd Hr Hb. unfold U256.div_step. rewrite shl1_lor by lia.
  rewrite Z.shiftr_div_pow2 by lia.
  pose proof (Z_div_mod_eq_full rem (2 ^ 127)).
  pose proof (Z.mod_pos_bound rem (2 ^ 127) ltac:(lia)).
  set (q := rem / 2 ^ 127) in *. set (r := rem mod 2 ^ 127) in *. clearbody q r.
  assert (q = 0 ∨ q = 1) as [-> | ->] by lia; cbn [Z.eqb negb orb].
  - destruct (Z.leb_spec d (2 * r + bit)); [rewrite wrap_small|]; unfold in_width; lia.
  - replace (wrap 128 (2 * r + bit - d)) with (2 * r + bit - d + 2 ^ 128); [lia|].
    apply Z.mod_unique with (-1); lia.
Qed.

Lemma bit_bounds x : 0 <= Z.land x 1 < 2.
Proof. rewrite land_1_mod. by apply Z.mod_pos_bound. Qed.

(** Shifting out one bit less keeps that bit. *)
Lemma shiftr_step x i :
  0 <= i → Z.shiftr x i = 2 * Z.shiftr x (Z.succ i) + Z.land (Z.shiftr x i) 1.
Proof.
  intros Hi. rewrite land_1_mod, !Z.shiftr_div_pow2, Z.pow_succ_r by lia.
  rewrite (Z.mul_comm 2 (2 ^ i)), <- Z.div_div by lia. apply Z_div_mod_eq_full.
Qed.

Lemma div_hi_loop_spec k h d rem :
  0 < d < 2 ^ 128 → 0 <= h < d → rem = Z.shiftr h (Z.of_nat k) →
  U256.div_hi_loop k h d rem = h.
Proof.
  intros Hd Hh. revert rem. induction k as [|k IH]; intros rem ->; cbn [U256.div_hi_loop].
  { by rewrite Z.shiftr_0_r. }
  apply IH. rewrite Nat2Z.inj_succ.
  set (x := Z.shiftr h (Z.succ (Z.of_nat k))).
  pose proof (shiftr_step h (Z.of_nat k) ltac:(lia)) as Hs. fold x in Hs.
  assert (Hle : ∀ n, 0 <= n → 0 <= Z.shiftr h n <= h).
  { intros n Hn. rewrite Z.shiftr_div_pow2 by lia.
    assert (1 <= 2 ^ n) by (apply (Z.pow_le_mono_r 2 0); lia).
    split; [apply Z.div_pos; lia|]. apply Z.div_le_upper_bound; nia. }
  pose proof (Hle (Z.succ (Z.of_nat k)) ltac:(lia)).
  pose proof (Hle (Z.of_nat k) ltac:(lia)).
  pose proof (bit_bounds (Z.shiftr h (Z.of_nat k))) as Hb.
  pose proof (div_step_spec d x _ Hd ltac:(lia) Hb) as Hstep.
  destruct (U256.div_step d x _) as [r' []]; cbn [fst]; lia.
Qed.

(** Invariant of the second loop with [k] bits to go: the bits consumed so far
    satisfy the division equation, the low [k] bits of the result are clear. *)
Lemma div_lo_loop_spec k h l d rem result :
  0 < d < 2 ^ 128 → 0 <= l → 0 <= rem < d →
  h * 2 ^ (128 - Z.of_nat k) + Z.shiftr l (Z.of_nat k) = result * d + rem →
  (k <= 128)%nat →
  U256.div_lo_loop k l d rem (result * 2 ^ Z.of_nat k) = (h * 2 ^ 128 + l) / d.
Proof.
  intros Hd Hl. revert rem result.
  induction k as [|k IH]; intros rem result Hr Hinv Hk; cbn [U256.div_lo_loop].
  { rewrite Z.shiftr_0_r in Hinv. rewrite Z.mul_1_r.
    apply Z.div_unique with rem; [lia|]. rewrite (Z.mul_comm d). exact Hinv. }
  pose proof (bit_bounds (Z.shiftr l (Z.of_nat k))) as Hb.
  pose proof (div_step_spec d rem _ Hd Hr Hb) as Hstep.
  pose proof (shiftr_step l (Z.of_nat k) ltac:(lia)) as Hs.
  rewrite Nat2Z.inj_succ in *.
  replace (128 - Z.of_nat k) with (Z.succ (128 - Z.succ (Z.of_nat k))) in IH by lia.
  rewrite Z.pow_succ_r in IH by lia.
  destruct (U256.div_step d rem _) as [r' take]. destruct Hstep as [Hstep Hr'].
  specialize (IH r' (2 * result + if take then 1 else 0) Hr' ltac:(destruct take; lia) ltac:(lia)).
  rewrite <- IH. f_equal. rewrite Z.pow_succ_r by lia. destruct take; [|lia].
  rewrite Z.shiftl_mul_pow2, Z.mul_1_l by lia.
  replace (result * (2 * 2 ^ Z.of_nat k)) with (result * 2 ^ (Z.succ (Z.of_nat k)))
    by (rewrite Z.pow_succ_r; lia).
  rewrite lor_low_add by (rewrite ?Z.pow_succ_r; lia).
  rewrite Z.pow_succ_r by lia. lia.
Qed.

Lemma div_u128_spec n d :
  u256_wf n → in_width 128 d →
  U256.div_u128 n d =
    if (d =? 0) || (2 ^ 128 <=? u256_value n / d) then Err Overflow
    else Ok (u256_value n / d).
Proof.
  intros [Hh Hl] Hd. unfold U256.div_u128, u256_value. unfold in_width in *.
  destruct (Z.eqb_spec d 0) as [|Hd0]; [done|]. cbn [orb].
  destruct (Z.eqb_spec (hi n) 0) as [->|Hh0].
  { rewrite Z.mul_0_l, Z.add_0_l.
    assert (lo n / d <= lo n) by (apply Z.div_le_upper_bound; nia).
    destruct (Z.leb_spec (2 ^ 128) (lo n / d)); [lia|done]. }
  destruct (Z.leb_spec d (hi n)).
  - destruct (Z.leb_spec (2 ^ 128) ((hi n * 2 ^ 128 + lo n) / d)) as [|Hc]; [done|].
    exfalso. enough (2 ^ 128 <= (hi n * 2 ^ 128 + lo n) / d) by lia.
    apply Z.div_le_lower_bound; nia.
  - rewrite div_hi_loop_spec; [|lia|lia|].
    2: { rewrite Z.shiftr_div_pow2, Z.div_small by lia. done. }
    pose proof (div_lo_loop_spec 128 (hi n) (lo n) d (hi n) 0) as Hq.
    change (0 * 2 ^ Z.of_nat 128) with 0 in Hq. rewrite Hq; [|lia..| |lia].
    2: { rewrite Z.shiftr_div_pow2, (Z.div_small (lo n)), Z.sub_diag by lia. lia. }
    destruct (Z.leb_spec (2 ^ 128) ((hi n * 2 ^ 128 + lo n) / d)); [|done].
    enough ((hi n * 2 ^ 128 + lo n) / d < 2 ^ 128) by lia.
    apply Z.div_lt_upper_bound; nia.
Qed.

(** ** Square roots *)

Definition newton (n x : Z) : Z := (x + n / x) / 2.

Section newton.
Variable n : Z.
Hypothesis n_pos : 0 < n.
Let s := Z.sqrt n.

Lemma sqrt_pos : 0 < s.
Proof. apply Z.sqrt_pos. lia. Qed.

Lemma sqrt_bounds : s * s <= n < (s + 1) * (s + 1).
Proof. exact (Z.sqrt_spec n (Z.lt_le_incl _ _ n_pos)). Qed.

(** Newton's step never goes below the root. *)
Lemma newton_ge x : s <= x → s <= newton n x.
Proof.
  intros Hx. pose proof sqrt_pos. pose proof sqrt_bounds.
  apply Z.div_le_lower_bound; [lia|].
  assert (2 * s - x <= n / x) by (apply Z.div_le_lower_bound; nia). lia.
Qed.

(** The quotient is below the root when the estimate is above it. *)
Lemma div_above x : s < x → n / x <= s.
Proof.
  intros Hx. pose proof sqrt_pos. pose proof sqrt_bounds.
  apply Z.lt_succ_r, Z.div_lt_upper_bound; nia.
Qed.

Lemma div_at_least x : s <= x → 0 <= n / x <= s + 2.
Proof.
  intros Hx. pose proof sqrt_pos. pose proof sqrt_bounds.
  split; [apply Z.div_pos; lia|].
  apply Z.lt_succ_r, Z.div_lt_upper_bound; nia.
Qed.

(** Above the root the distance to it at least halves. *)
Lemma newton_halves x : s < x → 2 * (newton n x - s) <= x - s.
Proof.
  intros Hx. pose proof (div_above x Hx).
  pose proof (Z.mul_div_le (x + n / x) 2 ltac:(lia)). unfold newton. lia.
Qed.
End newton.

Lemma sqrt_lt_2_64 n : in_width 128 n → 0 <= Z.sqrt n < 2 ^ 64.
Proof.
  intros [H0 H1]. split; [apply Z.sqrt_nonneg|].
  apply Z.sqrt_lt_square; [lia..|]. exact H1.
Qed.

Lemma sqrt_u128_loop_spec n k x :
  0 < n < 2 ^ 128 → Z.sqrt n <= x → newton n x <= 2 ^ 127 →
  x - Z.sqrt n < 2 ^ Z.of_nat k →
  sqrt_u128_loop (S k) n x (newton n x) = Some (Z.sqrt n).
Proof.
  intros Hn. revert x. induction k as [|k IH]; intros x Hx Hy Hk; cbn [sqrt_u128_loop].
  - pose proof (newton_ge n ltac:(lia) x Hx). cbn in Hk.
    destruct (Z.ltb_spec (newton n x) x); [lia|]. f_equal. lia.
  - pose proof (newton_ge n ltac:(lia) x Hx) as Hge.
    destruct (Z.ltb_spec (newton n x) x) as [Hlt|Hge'].
    + pose proof (newton_halves n ltac:(lia) x ltac:(lia)).
      pose proof (div_at_least n ltac:(lia) _ Hge).
      pose proof (sqrt_lt_2_64 n ltac:(unfold in_width; lia)).
      rewrite wrap_small by (unfold in_width; lia).
      apply IH; [done| |rewrite Nat2Z.inj_succ, Z.pow_succ_r in Hk by lia; lia].
      apply Z.div_le_upper_bound; lia.
    + destruct (decide (Z.sqrt n = x)) as [->|]; [done|].
      pose proof (newton_halves n ltac:(lia) x ltac:(lia)). lia.
Qed.

Lemma sqrt_u128_spec n : in_width 128 n → sqrt_u128 n = Some (Z.sqrt n).
Proof.
  intros [H0 H1]. unfold sqrt_u128. destruct (Z.eqb_spec n 0) as [->|]; [done|].
  destruct (Z.leb_spec n 3).
  { assert (n = 1 ∨ n = 2 ∨ n = 3) as [->|[->| ->]] by lia; done. }
  assert (Hy : n / 2 + n mod 2 = newton n n).
  { unfold newton. rewrite Z_div_same_full by lia.
    pose proof (Z_div_mod_eq_full n 2). pose proof (Z.mod_pos_bound n 2 ltac:(lia)).
    apply Z.div_unique with (1 - n mod 2); lia. }
  rewrite Hy. pose proof (Z.sqrt_le_lin n ltac:(lia)). pose proof (Z.sqrt_nonneg n).
  apply sqrt_u128_loop_spec; [lia|done| |change (2 ^ Z.of_nat 129) with (2 * 2 ^ 128); lia].
  rewrite <- Hy. pose proof (Z_div_mod_eq_full n 2).
  pose proof (Z.mod_pos_bound n 2 ltac:(lia)). lia.
Qed.

(** [(x >> 1) + (d >> 1) + ((x & 1) + (d & 1)) / 2] is the average, rounded down. *)
Lemma avg_spec x d :
  in_width 128 x → in_width 128 d →
  wrap 128 (wrap 128 (Z.shiftr x 1 + Z.shiftr d 1)
            + wrap 128 (Z.land x 1 + Z.land d 1) / 2) = (x + d) / 2.
Proof.
  unfold in_width. intros Hx Hd. rewrite !land_1_mod, !Z.shiftr_div_pow2 by lia.
  change (2 ^ 1) with 2.
  pose proof (Z_div_mod_eq_full x 2). pose proof (Z.mod_pos_bound x 2 ltac:(lia)).
  pose proof (Z_div_mod_eq_full d 2). pose proof (Z.mod_pos_bound d 2 ltac:(lia)).
  rewrite (wrap_small 128 (x / 2 + d / 2)), (wrap_small 128 (x mod 2 + d mod 2))
    by (unfold in_width; lia).
  pose proof (Z_div_mod_eq_full (x mod 2 + d mod 2) 2).
  pose proof (Z.mod_pos_bound (x mod 2 + d mod 2) 2 ltac:(lia)).
  rewrite wrap_small by (unfold in_width; lia).
  apply Z.div_unique with ((x mod 2 + d mod 2) mod 2); lia.
Qed.

(** The step of the 256-bit loop: Newton's step, with the quotient saturated. *)
Lemma sqrt_u256_next_spec n x :
  u256_wf n → in_width 128 x → 0 < x →
  sqrt_u256_next n x = (x + Z.min (u256_value n / x) (umax 128)) / 2.
Proof.
  intros Hn Hx Hx0. unfold sqrt_u256_next. rewrite div_u128_spec by done.
  assert (0 <= u256_value n / x).
  { apply Z.div_pos; [|lia]. destruct Hn, n; unfold in_width, u256_value in *; cbn in *; lia. }
  rewrite (proj2 (Z.eqb_neq x 0)) by lia. cbn [orb]. unfold umax.
  destruct (Z.leb_spec (2 ^ 128) (u256_value n / x)); rewrite avg_spec;
    unfold in_width in *; try lia; do 2 f_equal; lia.
Qed.

Lemma sqrt_u256_loop_spec n k x :
  u256_wf n → 0 < u256_value n →
  Z.sqrt (u256_value n) <= x < 2 ^ 128 →
  x - Z.sqrt (u256_value n) < 2 ^ Z.of_nat k →
  sqrt_u256_loop (S k) n x = Some (Z.sqrt (u256_value n)).
Proof.
  intros Hn Hpos. pose proof (sqrt_pos _ Hpos) as Hs.
  revert x. induction k as [|k IH]; intros x Hx Hk; cbn [sqrt_u256_loop];
    rewrite sqrt_u256_next_spec by (try done; unfold in_width; lia);
    destruct (decide (x = Z.sqrt (u256_value n))) as [Heq|Hne].
  2: { cbn in Hk. lia. }
  1, 2: rewrite <- Heq; destruct (Z.leb_spec x ((x + Z.min (u256_value n / x) (umax 128)) / 2))
    as [|Hc]; [done|]; pose proof (sqrt_bounds _ Hpos); exfalso;
    assert (x <= u256_value n / x) by (apply Z.div_le_lower_bound; lia);
    assert (x <= (x + Z.min (u256_value n / x) (umax 128)) / 2)
      by (apply Z.div_le_lower_bound; unfold umax; lia); lia.
  pose proof (div_above _ Hpos x ltac:(lia)).
  rewrite Z.min_l by (unfold umax; lia). fold (newton (u256_value n) x).
  pose proof (newton_halves _ Hpos x ltac:(lia)). pose proof (newton_ge _ Hpos x ltac:(lia)).
  destruct (Z.leb_spec x (newton (u256_value n) x)); [lia|].
  rewrite Nat2Z.inj_succ, Z.pow_succ_r in Hk by lia. apply IH; lia.
Qed.

(** Above this bound on the high word the initial estimate
    [(sqrt(hi) + 1) << 64] is shifted out of 128 bits. *)
Definition sqrt_hi_limit : Z := (2 ^ 64 - 1) * (2 ^ 64 - 1).

Lemma sqrt_u256_overflow n :
  in_width 128 (hi n) → sqrt_hi_limit <= hi n → sqrt_u256 n = Some 0.
Proof.
  intros Hh Hlim. unfold sqrt_u256, sqrt_hi_limit, in_width in *.
  rewrite (proj2 (Z.eqb_neq (hi n) 0)) by lia. rewrite sqrt_u128_spec by done.
  assert (Hs : Z.sqrt (hi n) = 2 ^ 64 - 1).
  { apply Z.sqrt_unique. lia. }
  rewrite Hs. done.
Qed.

Lemma sqrt_u256_below n :
  u256_wf n → hi n < sqrt_hi_limit → sqrt_u256 n = Some (Z.sqrt (u256_value n)).
Proof.
  intros [Hh Hl] Hlim. unfold sqrt_u256. destruct (Z.eqb_spec (hi n) 0) as [E|Hh0].
  { rewrite sqrt_u128_spec by done. unfold u256_value. by rewrite E. }
  rewrite sqrt_u128_spec by done. cbn [mbind option_bind].
  unfold in_width in Hh, Hl. pose proof (sqrt_bounds (hi n) ltac:(lia)) as Hsq.
  set (h := Z.sqrt (hi n)) in *. assert (0 <= h) by apply Z.sqrt_nonneg.
  assert (h < 2 ^ 64 - 1).
  { apply Z.sqrt_lt_square; [lia..|]. exact Hlim. }
  rewrite Z.shiftl_mul_pow2, !wrap_small by (unfold in_width; rewrite ?wrap_small; unfold in_width; lia).
  assert (Z.sqrt (u256_value n) < (h + 1) * 2 ^ 64).
  { apply Z.sqrt_lt_square; [unfold u256_value; lia..|]. unfold u256_value. nia. }
  pose proof (Z.sqrt_nonneg (u256_value n)).
  apply sqrt_u256_loop_spec; [done|unfold u256_value; lia|lia|].
  change (2 ^ Z.of_nat 129) with (2 * 2 ^ 128). lia.
Qed.

(** ** The constant-product formula *)

Lemma u256_value_mul_u128 a b :
  in_width 128 a → in_width 128 b → u256_value (U256.mul_u128 a b) = a * b.
Proof. intros Ha Hb. by apply mul_u128_spec. Qed.

Lemma u256_wf_mul_u128 a b :
  in_width 128 a → in_width 128 b → u256_wf (U256.mul_u128 a b).
Proof. intros Ha Hb. by apply mul_u128_spec. Qed.

(** [mul_u128] followed by [div_u128] is floor division of the exact product. *)
Lemma mul_div_u128_spec a b c :
  in_width 128 a → in_width 128 b → in_width 128 c →
  U256.div_u128 (U256.mul_u128 a b) c =
    if (c =? 0) || (2 ^ 128 <=? a * b / c) then Err Overflow else Ok (a * b / c).
Proof.
  intros Ha Hb Hc. rewrite div_u128_spec by (try apply u256_wf_mul_u128; done).
  by rewrite u256_value_mul_u128.
Qed.

Lemma mul_div_u128_Ok a b c q :
  in_width 128 a → in_width 128 b → in_width 128 c →
  U256.div_u128 (U256.mul_u128 a b) c = Ok q →
  c ≠ 0 ∧ q = a * b / c ∧ in_width 128 q.
Proof.
  intros Ha Hb Hc. rewrite mul_div_u128_spec by done.
  destruct (Z.eqb_spec c 0), (Z.leb_spec (2 ^ 128) (a * b / c)); cbn; intros; simplify_eq.
  repeat split; [done| |done]. unfold in_width in *. apply Z.div_pos; nia.
Qed.

Lemma get_amount_out_spec net rin rout :
  in_width 128 net → in_width 128 rin → in_width 128 rout →
  get_amount_out net rin rout =
    if net =? 0 then Err ZeroAmount
    else if (rin =? 0) || (rout =? 0) then Err ZeroLiquidity
    else if 2 ^ 128 <=? rin + net then Err Overflow
    else Ok (rout * net / (rin + net)).
Proof.
  unfold in_width. intros Hn Hi Ho. unfold get_amount_out.
  destruct (Z.eqb_spec net 0); [done|].
  destruct (Z.eqb_spec rin 0), (Z.eqb_spec rout 0); try done. cbn [orb].
  unfold checked_add. destruct (Z.ltb_spec (rin + net) (2 ^ 128)), (Z.leb_spec (2 ^ 128) (rin + net));
    try lia; [|done]. cbn [ok_or mbind res_bind].
  rewrite mul_div_u128_spec by (unfold in_width; lia).
  rewrite (proj2 (Z.eqb_neq (rin + net) 0)) by lia. cbn [orb].
  destruct (Z.leb_spec (2 ^ 128) (rout * net / (rin + net))); [|done].
  enough (rout * net / (rin + net) <= rout) by lia.
  apply Z.div_le_upper_bound; nia.
Qed.

Lemma get_amount_out_Ok net rin rout out :
  in_width 128 net → in_width 128 rin → in_width 128 rout →
  get_amount_out net rin rout = Ok out →
  0 < net ∧ 0 < rin ∧ 0 < rout ∧ rin + net < 2 ^ 128 ∧ 0 <= out < rout ∧
  rin * rout <= (rin + net) * (rout - out).
Proof.
  intros Hn Hi Ho. rewrite get_amount_out_spec by done. unfold in_width in *.
  destruct (Z.eqb_spec net 0), (Z.eqb_spec rin 0), (Z.eqb_spec rout 0),
    (Z.leb_spec (2 ^ 128) (rin + net)); cbn; intros; simplify_eq.
  pose proof (Z.mul_div_le (rout * net) (rin + net) ltac:(lia)).
  assert (0 <= rout * net / (rin + net)) by (apply Z.div_pos; nia).
  assert (rout * net / (rin + net) < rout) by (apply Z.div_lt_upper_bound; nia).
  repeat split; try lia; nia.
Qed.

Lemma calculate_fees_Ok amount fee pfee net lp proto :
  in_width 128 amount → 0 <= pfee <= fee → fee <= 10000 →
  calculate_fees amount fee pfee = Ok (net, lp, proto) →
  0 < amount ∧ net + lp + proto = amount ∧ 0 <= net ∧ 0 <= lp ∧ 0 <= proto ∧
  proto = amount * pfee / 10000 ∧ lp + proto = amount * fee / 10000.
Proof.
  unfold in_width. intros Ha Hp Hf. unfold calculate_fees.
  destruct (Z.eqb_spec amount 0); [done|]. intros H. inv_ok.
  rewrite checked_mul_Some in *. destruct_and!. subst.
  assert (0 <= amount * pfee / 10000) by (apply Z.div_pos; nia).
  assert (amount * pfee / 10000 <= amount * fee / 10000) by (apply Z.div_le_mono; nia).
  assert (amount * fee / 10000 <= amount) by (apply Z.div_le_upper_bound; nia).
  unfold saturating_sub. repeat split; lia.
Qed.

(** ** Properties *)

(** Multiplying two 128-bit amounts into a [U256] and dividing by a 128-bit
    divisor yields exactly the floor of the mathematical quotient; it fails
    with [Overflow] precisely when the divisor is zero or the quotient does not
    fit in 128 bits. *)
Theorem mul_div_floor a b c :
  in_width 128 a → in_width 128 b → in_width 128 c →
  U256.div_u128 (U256.mul_u128 a b) c =
    if (c =? 0) || (2 ^ 128 <=? a * b / c) then Err Overflow else Ok (a * b / c).
Proof. apply mul_div_u128_spec. Qed.

Lemma mul_div_floor_witness :
  U256.div_u128 (U256.mul_u128 (2 ^ 128 - 1) (2 ^ 127 + 3)) (2 ^ 127 + 5)
  = Ok (2 ^ 128 - 5).
Proof.
  assert (∀ x, (0 <=? x) && (x <? 2 ^ 128) = true → in_width 128 x) as Hw
    by (unfold in_width; lia).
  rewrite (mul_div_floor (2 ^ 128 - 1) (2 ^ 127 + 3) (2 ^ 127 + 5)); [|by apply Hw..].
  vm_compute. reflexivity.
Defined.

(** The 256-bit Newton square root terminates on every input and returns
    the exact integer square root while the high word is below
    [(2^64 - 1)^2]; from there on the initial estimate is shifted out of the
    128-bit register and the function returns 0. *)
Theorem sqrt_u256_exact n :
  u256_wf n →
  sqrt_u256 n =
    Some (if hi n <? sqrt_hi_limit then Z.sqrt (u256_value n) else 0).
Proof.
  intros Hn. destruct (Z.ltb_spec (hi n) sqrt_hi_limit).
  - by apply sqrt_u256_below.
  - apply sqrt_u256_overflow; [apply Hn|done].
Qed.

Lemma sqrt_u256_exact_witness :
  sqrt_u256 (MkU256 5 7) = Some (Z.sqrt (5 * 2 ^ 128 + 7)) ∧
  sqrt_u256 (U256.mul_u128 (2 ^ 128 - 1) (2 ^ 128 - 1)) = Some 0.
Proof.
  split.
  - apply (sqrt_u256_exact (MkU256 5 7)). by split.
  - apply (sqrt_u256_exact (MkU256 (2 ^ 128 - 2) 1)). by split.
Defined.

(** For every reserves and net input, [get_amount_out] either reports the
    exact error condition or returns the largest output that keeps the product
    of the reserves from decreasing, strictly below the output reserve. *)
Theorem get_amount_out_optimal net rin rout :
  in_width 128 net → in_width 128 rin → in_width 128 rout →
  match get_amount_out net rin rout with
  | Ok out =>
      0 <= out < rout ∧
      rin * rout <= (rin + net) * (rout - out) ∧
      (rin + net) * (rout - (out + 1)) < rin * rout
  | Err e =>
      (e = ZeroAmount ∧ net = 0) ∨ (e = ZeroLiquidity ∧ (rin = 0 ∨ rout = 0))
      ∨ (e = Overflow ∧ 2 ^ 128 <= rin + net)
  | Panic => False
  end.
Proof.
  intros Hn Hi Ho. destruct (get_amount_out net rin rout) as [out|e|] eqn:E.
  - destruct (get_amount_out_Ok _ _ _ _ Hn Hi Ho E) as (? & ? & ? & ? & ? & ?).
    split; [done|]. split; [done|]. revert E. rewrite get_amount_out_spec by done.
    repeat case_match; intros; simplify_eq.
    pose proof (Z.mul_succ_div_gt (rout * net) (rin + net) ltac:(lia)). nia.
  - revert E. rewrite get_amount_out_spec by done. intros E.
    repeat case_match; simplify_eq; naive_solver lia.
  - revert E. rewrite get_amount_out_spec by done. by repeat case_match.
Qed.

Lemma get_amount_out_optimal_witness :
  get_amount_out 997 100000 200000 = Ok 1974 ∧
  (100000 + 997) * (200000 - 1975) < 100000 * 200000.
Proof.
  pose proof (get_amount_out_optimal 997 100000 200000 ltac:(done) ltac:(done) ltac:(done)) as H.
  split; [vm_compute; reflexivity|].
  replace (get_amount_out 997 100000 200000) with (@Ok DexError Z 1974) in H
    by (vm_compute; reflexivity). apply H.
Defined.

(** With fee rates [protocol <= total <= 100%], the fee split conserves the
    gross input: net input, LP fee and protocol fee are non-negative and add up
    to it, with no unit lost to rounding; the only failures are a zero input
    and an overflowing product. *)
Theorem calculate_fees_conserves amount fee pfee :
  in_width 128 amount → 0 <= pfee <= fee → fee <= 10000 →
  match calculate_fees amount fee pfee with
  | Ok (net, lp, proto) =>
      net + lp + proto = amount ∧ 0 <= net ∧ 0 <= lp ∧ 0 <= proto ∧
      proto = amount * pfee / 10000 ∧ lp + proto = amount * fee / 10000
  | Err e => (e = ZeroAmount ∧ amount = 0) ∨ (e = Overflow ∧ 2 ^ 128 <= amount * fee)
  | Panic => False
  end.
Proof.
  intros Ha Hp Hf. destruct (calculate_fees amount fee pfee) as [[[net lp] proto]|e|] eqn:E.
  - destruct (calculate_fees_Ok _ _ _ _ _ _ Ha Hp Hf E) as (_ & ?). done.
  - revert E. unfold calculate_fees, checked_mul, in_width in *.
    destruct (Z.eqb_spec amount 0); [naive_solver|].
    destruct (Z.ltb_spec (amount * fee) (2 ^ 128)); cbn; [|naive_solver].
    destruct (Z.ltb_spec (amount * pfee) (2 ^ 128)); cbn; [done|]. intros; simplify_eq. nia.
  - revert E. unfold calculate_fees, checked_mul. by repeat (case_match; cbn).
Qed.

Lemma calculate_fees_conserves_witness :
  calculate_fees 1000003 30 5 = Ok (997003, 2500, 500) ∧ 997003 + 2500 + 500 = 1000003.
Proof.
  split; [vm_compute; reflexivity|].
  apply (calculate_fees_conserves 1000003 30 5); done.
Defined.
