(* ===== verification/Storage.v ===== *)
(** * Key-value storage and state tries
    ([crates/vtt-storage/src/lib.rs], [memory.rs], [crates/vtt-state/src/trie.rs])

    [KvStore] is the in-memory backend of the [KeyValueStore] trait, column by
    column; [StateTrie] is the sorted Merkle structure with its cached root. *)

From S2P Require Import Prelude Primitives.

Inductive Column :=
  | BlockHeaders | BlockBodies | Transactions | Receipts | StateTrieCol
  | ContractCode | ChainIndex | CrossChainQueue | Accounts | Assets | Ownership
  | Oracles | ContractStorage | Pools | AssetProposals | MiningStates | ChainMeta.

#[global] Instance Column_eq_dec : EqDecision Column.
Proof. solve_decision. Defined.

Definition Column_ALL : list Column :=
  [BlockHeaders; BlockBodies; Transactions; Receipts; StateTrieCol; ContractCode;
   ChainIndex; CrossChainQueue; Accounts; Assets; Ownership; Oracles;
   ContractStorage; Pools; AssetProposals; MiningStates; ChainMeta].

(** [name]: the column family's name. *)
Definition Column_name (c : Column) : string :=
  match c with
  | BlockHeaders => "block_headers" | BlockBodies => "block_bodies"
  | Transactions => "transactions" | Receipts => "receipts"
  | StateTrieCol => "state_trie" | ContractCode => "contract_code"
  | ChainIndex => "chain_index" | CrossChainQueue => "cross_chain_queue"
  | Accounts => "accounts" | Assets => "assets" | Ownership => "ownership"
  | Oracles => "oracles" | ContractStorage => "contract_storage"
  | Pools => "pools" | AssetProposals => "asset_proposals"
  | MiningStates => "mining_states" | ChainMeta => "chain_meta"
  end.

Definition Column_of_name (s : string) : Column :=
  default BlockHeaders (list_find (λ c, Column_name c = s) Column_ALL ≫= λ p, Some p.2).

#[global] Program Instance Column_countable : Countable Column :=
  inj_countable' Column_name Column_of_name _.
Next Obligation. by intros []. Qed.

Abbreviation KvStore := (gmap Column (gmap bytes bytes)).

Inductive BatchOp :=
  | BPut (column : Column) (key value : bytes)
  | BDelete (column : Column) (key : bytes).

Module Kv.

(** Every column is created up front. *)
Definition new : KvStore := foldr (λ c, insert c ∅) ∅ Column_ALL.

Definition get (st : KvStore) (c : Column) (k : bytes) : option bytes :=
  col ← st !! c; col !! k.

Definition put (c : Column) (k v : bytes) (st : KvStore) : KvStore :=
  <[c := <[k := v]> (default ∅ (st !! c))]> st.

Definition delete (c : Column) (k : bytes) (st : KvStore) : KvStore :=
  match st !! c with
  | Some col => <[c := base.delete k col]> st
  | None => st
  end.

Definition contains (st : KvStore) (c : Column) (k : bytes) : bool :=
  bool_decide (is_Some (get st c k)).

Definition batch_op (st : KvStore) (op : BatchOp) : KvStore :=
  match op with
  | BPut c k v => put c k v st
  | BDelete c k => delete c k st
  end.

Definition write_batch (ops : list BatchOp) (st : KvStore) : KvStore :=
  foldl batch_op st ops.

Definition prefix_scan `{HashIter} (st : KvStore) (c : Column) (prefix : bytes)
    : list (bytes * bytes) :=
  match st !! c with
  | Some col => filter (λ kv, String.prefix prefix kv.1 = true) (hash_iter col)
  | None => []
  end.

End Kv.

Lemma kv_get_put_eq st c k v : Kv.get (Kv.put c k v st) c k = Some v.
Proof. unfold Kv.get, Kv.put. rewrite lookup_insert_eq. cbn. apply lookup_insert_eq. Qed.

Lemma kv_get_put_ne st c k v c' k' :
  (c, k) ≠ (c', k') → Kv.get (Kv.put c k v st) c' k' = Kv.get st c' k'.
Proof.
  intros Hne. unfold Kv.get, Kv.put. destruct (decide (c = c')) as [<-|Hc].
  - rewrite lookup_insert_eq. cbn. rewrite lookup_insert_ne by congruence.
    by destruct (st !! c).
  - by rewrite lookup_insert_ne.
Qed.

Lemma kv_get_delete_eq st c k : Kv.get (Kv.delete c k st) c k = None.
Proof.
  unfold Kv.get, Kv.delete. destruct (st !! c) as [col|] eqn:E; [|by rewrite E].
  rewrite lookup_insert_eq. cbn. apply lookup_delete_eq.
Qed.

Lemma kv_get_delete_ne st c k c' k' :
  (c, k) ≠ (c', k') → Kv.get (Kv.delete c k st) c' k' = Kv.get st c' k'.
Proof.
  intros Hne. unfold Kv.get, Kv.delete. destruct (st !! c) as [col|] eqn:E; [|done].
  destruct (decide (c = c')) as [<-|Hc].
  - rewrite lookup_insert_eq, E. cbn. rewrite lookup_delete_ne by congruence. done.
  - by rewrite lookup_insert_ne.
Qed.

#[export] Hint Rewrite kv_get_put_eq kv_get_delete_eq : vtt.

(** ** State tries *)

Record StateTrie := MkStateTrie {
  st_entries : gmap bytes bytes;
  st_dirty : bool;
  st_cached_root : option H256;
}.

Module Trie.
Section with_crypto.
Context `{Crypto}.

Definition new : StateTrie := MkStateTrie ∅ true None.

Definition from_entries (entries : gmap bytes bytes) : StateTrie :=
  MkStateTrie entries true None.

Definition insert (k v : bytes) (t : StateTrie) : StateTrie :=
  MkStateTrie (<[k := v]> (st_entries t)) true None.

Definition remove (k : bytes) (t : StateTrie) : option bytes * StateTrie :=
  match st_entries t !! k with
  | Some v => (Some v, MkStateTrie (base.delete k (st_entries t)) true None)
  | None => (None, t)
  end.

Definition get (t : StateTrie) (k : bytes) : option bytes := st_entries t !! k.

(** [H(key || value)] *)
Definition leaf_hash (kv : bytes * bytes) : H256 := blake3_hash (kv.1 +:+ kv.2).

Definition compute_root (t : StateTrie) : H256 :=
  if bool_decide (st_entries t = ∅) then H256_ZERO
  else merkle_root (leaf_hash <$> btree_iter (st_entries t)).

Definition root (t : StateTrie) : H256 * StateTrie :=
  match st_cached_root t with
  | Some cached =>
      if negb (st_dirty t) then (cached, t)
      else let r := compute_root t in (r, MkStateTrie (st_entries t) false (Some r))
  | None => let r := compute_root t in (r, MkStateTrie (st_entries t) false (Some r))
  end.

(** The operations a client can perform, and the states they reach. *)
Inductive reachable : StateTrie → Prop :=
  | reach_new : reachable new
  | reach_from_entries m : reachable (from_entries m)
  | reach_insert k v t : reachable t → reachable (insert k v t)
  | reach_remove k t : reachable t → reachable (remove k t).2
  | reach_root t : reachable t → reachable (root t).2.

Definition cache_ok (t : StateTrie) : Prop :=
  ∀ r, st_dirty t = false → st_cached_root t = Some r → r = compute_root t.

Lemma reachable_cache_ok t : reachable t → cache_ok t.
Proof.
  unfold cache_ok.
  induction 1 as [|m|k v t _ IH|k t _ IH|t _ IH]; intros r; cbn; try done.
  - unfold remove. destruct (st_entries t !! k); cbn; [done|apply IH].
  - unfold root. destruct (st_cached_root t) as [c|] eqn:Ec; cbn.
    + destruct (st_dirty t) eqn:Ed; cbn; [by intros; simplify_eq|].
      rewrite Ec. intros _ ?. simplify_eq. by apply IH.
    + intros. simplify_eq. done.
Qed.

(** In every state a client can reach, the root returned is the Merkle root
    of the entries present at that moment: neither the cache nor the dirty flag
    ever yields a stale root, and asking for the root changes no entry. *)
Theorem root_never_stale t :
  reachable t →
  (root t).1 = compute_root t ∧ st_entries (root t).2 = st_entries t ∧
  (root (root t).2).1 = (root t).1.
Proof.
  intros Hr. pose proof (reachable_cache_ok t Hr) as Hc. unfold root.
  destruct (st_cached_root t) as [c|] eqn:Ec; cbn; [|done].
  destruct (st_dirty t) eqn:Ed; cbn; [done|].
  rewrite Ec, Ed. cbn. split; [by apply Hc|done].
Qed.

(** The leaf hash does not separate key from value, so, whatever the hash
    function, two tries that disagree on a key have the same root: equality of
    roots does not imply equality of contents. *)
Theorem root_not_injective :
  ∃ t1 t2, reachable t1 ∧ reachable t2 ∧
    get t1 "ab" ≠ get t2 "ab" ∧ (root t1).1 = (root t2).1.
Proof.
  exists (insert "a" "bc" new), (insert "ab" "c" new).
  split; [|split; [|split]].
  - apply reach_insert, reach_new.
  - apply reach_insert, reach_new.
  - by vm_compute.
  - by vm_compute.
Qed.

End with_crypto.
End Trie.

#[local] Existing Instance prefix_crypto.

Lemma root_never_stale_witness :
  let t := Trie.insert "k" "v2" (Trie.root (Trie.insert "k" "v1" Trie.new)).2 in
  (Trie.root t).1 = h256_from_slice "kv2".
Proof.
  intros t. destruct (Trie.root_never_stale t) as [-> _].
  - apply Trie.reach_insert, Trie.reach_root, Trie.reach_insert, Trie.reach_new.
  - vm_compute. reflexivity.
Defined.
