(* ===== verification/RocksStore.v ===== *)
(** * The RocksDB store

    [RocksStore] of vtt-storage/src/rocks.rs over the RocksDB library, the
    interface [KeyValueStore] that it shares with the in-memory store of
    [Storage], and that the two give the same answers. *)

From S2P Require Import Prelude Primitives Storage.

Inductive StorageError :=
  | Io (msg : bytes)
  | ColumnNotFound (name : bytes)
  | Serialization (msg : bytes).

(** ** The interface of the stores *)

Class KeyValueStore (S : Type) : Type := {
  kv_get : Column → bytes → S → res StorageError (option bytes);
  kv_put : Column → bytes → bytes → M S StorageError unit;
  kv_delete : Column → bytes → M S StorageError unit;
  kv_write_batch : list BatchOp → M S StorageError unit;
  kv_prefix_scan : Column → bytes → S → res StorageError (list (bytes * bytes));
}.

Definition kv_contains {S : Type} `{!KeyValueStore S} (c : Column) (k : bytes) (s : S) : res StorageError bool :=
  v ← kv_get c k s; Ok (bool_decide (is_Some v)).

(** The store in memory never fails. *)
#[global] Instance in_memory_store `{HashIter} : KeyValueStore KvStore := {
  kv_get := λ c k st, Ok (Kv.get st c k);
  kv_put := λ c k v, modify (Kv.put c k v);
  kv_delete := λ c k, modify (Kv.delete c k);
  kv_write_batch := λ ops, modify (Kv.write_batch ops);
  kv_prefix_scan := λ c p st, Ok (Kv.prefix_scan st c p);
}.

(** ** Pruning

    [prune_old_blocks], a method of [RocksStore], on the contents of the store. *)

Module Rocks.

Definition prune_key (column : Column) (acc : Z * KvStore) (height : Z) : Z * KvStore :=
  let key := to_be_bytes 8 height in
  if Kv.contains acc.2 column key then (wrap 64 (acc.1 + 1), Kv.delete column key acc.2) else acc.

(** The number of entries removed, and the store. *)
Definition prune_old_blocks (keep_recent current_height : Z) (st : KvStore) : Z * KvStore :=
  if current_height <=? keep_recent then (0, st)
  else
    let prune_below := current_height - keep_recent in
    foldl (λ acc column, foldl (prune_key column) acc (seqZ 0 prune_below)) (0, st)
      [BlockBodies; Receipts].

End Rocks.

(** ** RocksDB

    The calls the store makes; an error is its text. *)

Class RocksDb : Type := {
  DB : Type;
  ColumnFamily : Type;
  Path : Type;
  open_cf_descriptors : Path → list bytes → res bytes DB;
  cf_handle : DB → bytes → option ColumnFamily;
  get_cf : DB → ColumnFamily → bytes → res bytes (option bytes);
  put_cf : ColumnFamily → bytes → bytes → M DB bytes unit;
  delete_cf : ColumnFamily → bytes → M DB bytes unit;
  db_write : list (ColumnFamily * bytes * option bytes) → M DB bytes unit;
  iterator_cf : DB → ColumnFamily → list (res bytes (bytes * bytes));
  prefix_iterator_cf : DB → ColumnFamily → bytes → list (res bytes (bytes * bytes));
  compact_range_cf : ColumnFamily → DB → DB;
}.

(** A batch as it is applied: [None] deletes. *)
Definition batch_entry (fams : gmap bytes (gmap bytes bytes)) (e : bytes * bytes * option bytes) :=
  alter (λ col, match e.2 with Some v => <[e.1.2 := v]> col | None => delete e.1.2 col end) e.1.1 fams.

(** What its documentation says of successful calls: a column family is an
    ordered map from keys to values; a batch is applied as a whole; an iterator
    goes through the keys in byte order, one with a prefix starts at the first
    key not below the prefix and may run past the keys that carry it; no call
    removes a family. *)
Class RocksDbLaws `{!RocksDb} : Type := {
  contents : DB → gmap bytes (gmap bytes bytes);
  family : ColumnFamily → bytes;
  open_families : ∀ path names db, open_cf_descriptors path names = Ok db →
    ∀ n, n ∈ names → is_Some (contents db !! n);
  handle_known : ∀ db n, is_Some (contents db !! n) → ∃ cf, cf_handle db n = Some cf ∧ family cf = n;
  get_reads : ∀ db cf k v, get_cf db cf k = Ok v → v = contents db !! family cf ≫= (.!! k);
  put_writes : ∀ db db' cf k v, put_cf cf k v db = (Ok tt, db') →
    contents db' = alter <[k := v]> (family cf) (contents db);
  delete_removes : ∀ db db' cf k, delete_cf cf k db = (Ok tt, db') →
    contents db' = alter (delete k) (family cf) (contents db);
  write_applies : ∀ db db' batch, db_write batch db = (Ok tt, db') →
    contents db' = foldl batch_entry (contents db) ((λ e, (family e.1.1, e.1.2, e.2)) <$> batch);
  iterator_all : ∀ db cf col l, contents db !! family cf = Some col →
    iterator_cf db cf = Ok <$> l → l ≡ₚ map_to_list col;
  prefix_iterator_from : ∀ db cf col prefix, contents db !! family cf = Some col →
    ∃ full, full ≡ₚ filter (λ kv, bytes_le prefix kv.1) (map_to_list col)
      ∧ StronglySorted (λ x y, bytes_le x.1 y.1) full
      ∧ ∀ l rest, prefix_iterator_cf db cf prefix = (Ok <$> l) ++ rest →
          ∃ l', full = l ++ l'
            ∧ (rest = [] → Forall (λ kv, String.prefix prefix kv.1 = false) l');
  put_families : ∀ db cf k v, dom (contents (put_cf cf k v db).2) = dom (contents db);
  delete_families : ∀ db cf k, dom (contents (delete_cf cf k db).2) = dom (contents db);
  write_families : ∀ db batch, dom (contents (db_write batch db).2) = dom (contents db);
  compact_keeps : ∀ db cf, contents (compact_range_cf cf db) = contents db;
}.

(** ** [RocksStore] *)

Module RocksStore.
Section with_rocksdb.
Context `{!RocksDb}.

Definition open (path : Path) : res StorageError DB :=
  match open_cf_descriptors path (Column_name <$> Column_ALL) with
  | Ok db => Ok db
  | Err e => Err (Io e)
  | Panic => Panic
  end.

Definition handle (db : DB) (column : Column) : res StorageError ColumnFamily :=
  ok_or (ColumnNotFound (Column_name column)) (cf_handle db (Column_name column)).

Definition get (column : Column) (key : bytes) (db : DB) : res StorageError (option bytes) :=
  cf ← handle db column;
  match get_cf db cf key with Ok v => Ok v | Err e => Err (Io e) | Panic => Panic end.

Definition put (column : Column) (key value : bytes) : M DB StorageError unit :=
  h ← gets (λ db, handle db column);
  cf ← lift h;
  map_err Io (put_cf cf key value).

Definition delete (column : Column) (key : bytes) : M DB StorageError unit :=
  h ← gets (λ db, handle db column);
  cf ← lift h;
  map_err Io (delete_cf cf key).

(** The batch the loop of [write_batch] builds. *)
Fixpoint collect_batch (db : DB) (ops : list BatchOp)
    : res StorageError (list (ColumnFamily * bytes * option bytes)) :=
  match ops with
  | [] => Ok []
  | BPut column key value :: ops =>
      cf ← handle db column; batch ← collect_batch db ops; Ok ((cf, key, Some value) :: batch)
  | BDelete column key :: ops =>
      cf ← handle db column; batch ← collect_batch db ops; Ok ((cf, key, None) :: batch)
  end.

Definition write_batch (ops : list BatchOp) : M DB StorageError unit :=
  b ← gets (λ db, collect_batch db ops);
  batch ← lift b;
  map_err Io (db_write batch).

(** The two loops of [prefix_scan]. *)
Fixpoint scan_all (items : list (res bytes (bytes * bytes))) : res StorageError (list (bytes * bytes)) :=
  match items with
  | [] => Ok []
  | Ok kv :: items => out ← scan_all items; Ok (kv :: out)
  | Err e :: _ => Err (Io e)
  | Panic :: _ => Panic
  end.

Fixpoint scan_while (prefix : bytes) (items : list (res bytes (bytes * bytes)))
    : res StorageError (list (bytes * bytes)) :=
  match items with
  | [] => Ok []
  | Ok kv :: items =>
      if negb (String.prefix prefix kv.1) then Ok []
      else out ← scan_while prefix items; Ok (kv :: out)
  | Err e :: _ => Err (Io e)
  | Panic :: _ => Panic
  end.

Definition prefix_scan (column : Column) (prefix : bytes) (db : DB) : res StorageError (list (bytes * bytes)) :=
  cf ← handle db column;
  if bool_decide (prefix = "") then scan_all (iterator_cf db cf)
  else scan_while prefix (prefix_iterator_cf db cf prefix).

Definition compact (db : DB) : DB :=
  foldl (λ db column, match cf_handle db (Column_name column) with
                      | Some cf => compact_range_cf cf db
                      | None => db
                      end) db Column_ALL.

(** [contains] of the interface. *)
Definition contains (column : Column) (key : bytes) (db : DB) : res StorageError bool :=
  v ← get column key db; Ok (bool_decide (is_Some v)).

Fixpoint prune_heights (column : Column) (pruned : Z) (heights : list Z) : M DB StorageError Z :=
  match heights with
  | [] => mret pruned
  | height :: heights =>
      let key := to_be_bytes 8 height in
      r ← gets (contains column key);
      present ← lift r;
      if present : bool then
        _ ← delete column key;
        prune_heights column (wrap 64 (pruned + 1)) heights
      else prune_heights column pruned heights
  end.

Definition prune_old_blocks (keep_recent current_height : Z) : M DB StorageError Z :=
  if current_height <=? keep_recent then mret 0
  else
    let heights := seqZ 0 (current_height - keep_recent) in
    pruned ← prune_heights BlockBodies 0 heights;
    prune_heights Receipts pruned heights.

#[global] Instance rocks_store : KeyValueStore DB := {
  kv_get := get; kv_put := put; kv_delete := delete;
  kv_write_batch := write_batch; kv_prefix_scan := prefix_scan;
}.
End with_rocksdb.
End RocksStore.

(** ** Keys with a prefix lie together *)

Lemma prefix_cons a p b k :
  String.prefix (String a p) (String b k) = true ↔ a = b ∧ String.prefix p k = true.
Proof. cbn. destruct (Ascii.ascii_dec a b); naive_solver. Qed.

Lemma prefix_le p k : String.prefix p k = true → bytes_le p k.
Proof.
  revert k. induction p as [|a p IH]; intros [|b k]; try done.
  rewrite prefix_cons, bytes_le_cons. intros [-> ?]. right. auto.
Qed.

Lemma prefix_interval p k k' :
  bytes_le p k → bytes_le k k' → String.prefix p k' = true → String.prefix p k = true.
Proof.
  revert k k'. induction p as [|a p IH]; intros [|b k] [|c k']; try done.
  rewrite !bytes_le_cons, !prefix_cons. intros [?|[-> ?]] [?|[-> ?]] [Hac ?]; subst; try lia. eauto.
Qed.

Section scans.
Context `{!RocksDb}.

Lemma scan_while_reads p items out :
  RocksStore.scan_while p items = Ok out →
  ∃ l rest, items = (Ok <$> out ++ l) ++ rest ∧ Forall (λ kv, String.prefix p kv.1 = true) out
    ∧ ((l = [] ∧ rest = []) ∨ ∃ kv, l = [kv] ∧ String.prefix p kv.1 = false).
Proof.
  revert out. induction items as [|[kv|e|] items IH]; intros out; cbn; try done.
  { intros [= <-]. exists [], []. auto. }
  destruct (String.prefix p kv.1) eqn:Hp; cbn.
  2:{ intros [= <-]. exists [kv], items. eauto 10. }
  destruct (RocksStore.scan_while p items) as [out'|e|]; try done. intros [= <-].
  destruct (IH out' eq_refl) as (l & rest & -> & Hall & Hend). exists l, rest. auto.
Qed.

Lemma scan_all_reads items out : RocksStore.scan_all items = Ok out → items = Ok <$> out.
Proof.
  revert out. induction items as [|[kv|e|] items IH]; intros out; cbn; try done.
  { by intros [= <-]. }
  destruct (RocksStore.scan_all items) as [out'|e|]; try done. intros [= <-]. cbn. by rewrite (IH out').
Qed.

Lemma filter_takes {A} (P : A → Prop) `{∀ x, Decision (P x)} l l' :
  Forall P l → Forall (λ x, ¬ P x) l' → filter P (l ++ l') = l.
Proof.
  intros Hl Hl'. rewrite filter_app.
  assert (filter P l' = []) as -> by (induction Hl'; [done|by rewrite filter_cons_False]).
  rewrite app_nil_r. induction Hl; [done|]. rewrite filter_cons_True by done. by f_equal.
Qed.

(** What the loop collects before it breaks off is what has the prefix. *)
Lemma sorted_prefix_filter p full out l l' :
  StronglySorted (λ x y, bytes_le x.1 y.1) full → Forall (λ kv, bytes_le p kv.1) full →
  full = (out ++ l) ++ l' → Forall (λ kv, String.prefix p kv.1 = true) out →
  (l = [] ∧ Forall (λ kv, String.prefix p kv.1 = false) l')
    ∨ (∃ kv, l = [kv] ∧ String.prefix p kv.1 = false) →
  filter (λ kv : bytes * bytes, String.prefix p kv.1 = true) full = out.
Proof.
  intros Hs Hle -> Hout Hend. rewrite <-app_assoc in *. apply filter_takes; [done|].
  destruct Hend as [[-> Hl']|(kv & -> & Hkv)].
  { eapply Forall_impl; [exact Hl'|]. cbn. congruence. }
  constructor; [cbn; congruence|]. apply Forall_forall. intros kv' Hkv' Hp'.
  assert (String.prefix p kv.1 = true); [|congruence].
  apply (prefix_interval p kv.1 kv'.1); [|..|done].
  - rewrite Forall_forall in Hle. apply (Hle kv). set_solver.
  - rewrite app_assoc in Hs.
    by apply (StronglySorted_app_1_elem_of _ _ _ kv kv' Hs); [set_solver|].
Qed.
End scans.

(** ** The two backends give the same answers *)

Section agreement.
Context `{!RocksDb, !RocksDbLaws, !HashIter}.
Implicit Types (db : DB) (st : KvStore) (c : Column).

(** Every column is a family, with the same entries. *)
Definition mirrors (fams : gmap bytes (gmap bytes bytes)) st : Prop :=
  ∀ c, ∃ col, fams !! Column_name c = Some col ∧ st !! c = Some col.

Definition covered db : Prop := ∀ c, is_Some (contents db !! Column_name c).

Lemma mirrors_covered db st : mirrors (contents db) st → covered db.
Proof. intros Hr c. destruct (Hr c) as (col & -> & _). eauto. Qed.

Lemma Column_name_eq c c' : Column_name c = Column_name c' ↔ c = c'.
Proof. split; [by destruct c, c'|by intros ->]. Qed.

Lemma covered_handle db c :
  covered db → ∃ cf, RocksStore.handle db c = Ok cf ∧ family cf = Column_name c.
Proof.
  intros Hr. destruct (handle_known db (Column_name c) (Hr c)) as (cf & Hcf & Hf).
  exists cf. unfold RocksStore.handle. by rewrite Hcf.
Qed.

(** Changing one family is changing one column. *)
Lemma mirrors_alter fams st c f :
  mirrors fams st → mirrors (alter f (Column_name c) fams) (alter f c st).
Proof.
  intros Hr c'. destruct (Hr c') as (col & Hc & Hst). destruct (decide (c = c')) as [->|Hne].
  - rewrite !lookup_alter_eq, Hc, Hst. cbn. eauto.
  - rewrite !lookup_alter_ne by (rewrite ?Column_name_eq; done). eauto.
Qed.

Lemma put_alter st c k v col : st !! c = Some col → Kv.put c k v st = alter <[k := v]> c st.
Proof.
  intros Hc. unfold Kv.put. apply map_eq. intros c'. destruct (decide (c = c')) as [<-|Hne].
  - by rewrite lookup_insert_eq, lookup_alter_eq, Hc.
  - by rewrite lookup_insert_ne, lookup_alter_ne.
Qed.

Lemma delete_alter st c k col : st !! c = Some col → Kv.delete c k st = alter (delete k) c st.
Proof.
  intros Hc. unfold Kv.delete. rewrite Hc. apply map_eq. intros c'. destruct (decide (c = c')) as [<-|Hne].
  - by rewrite lookup_insert_eq, lookup_alter_eq, Hc.
  - by rewrite lookup_insert_ne, lookup_alter_ne.
Qed.
Lemma get_agrees db st c k v :
  mirrors (contents db) st → RocksStore.get c k db = Ok v → v = Kv.get st c k.
Proof.
  intros Hr. destruct (covered_handle db c (mirrors_covered db st Hr)) as (cf & Hcf & Hf).
  unfold RocksStore.get. rewrite Hcf. cbn. destruct (get_cf db cf k) eqn:Hg; try done. intros [= <-].
  apply get_reads in Hg as ->. rewrite Hf. unfold Kv.get. destruct (Hr c) as (col & -> & ->). done.
Qed.

Lemma scan_agrees db st c p l :
  mirrors (contents db) st → RocksStore.prefix_scan c p db = Ok l → l ≡ₚ Kv.prefix_scan st c p.
Proof.
  intros Hr. destruct (covered_handle db c (mirrors_covered db st Hr)) as (cf & Hcf & Hf).
  destruct (Hr c) as (col & Hc & Hst). unfold RocksStore.prefix_scan. rewrite Hcf. cbn.
  unfold Kv.prefix_scan. rewrite Hst, hash_iter_perm. rewrite <-Hf in Hc.
  case_bool_decide as Hp; [subst p|]; intros Hs.
  - apply scan_all_reads in Hs. rewrite (iterator_all db cf col l Hc Hs).
    pose proof (filter_takes (λ kv : bytes * bytes, String.prefix "" kv.1 = true) (map_to_list col) []) as Hall.
    rewrite app_nil_r in Hall. rewrite Hall; [done| |constructor].
    apply Forall_forall. intros [[|a k] v] _; done.
  - apply scan_while_reads in Hs as (l1 & rest & Hi & Hl & Hend).
    destruct (prefix_iterator_from db cf col p Hc) as (full & Hperm & Hsort & Hfrom).
    destruct (Hfrom _ _ Hi) as (l' & Hfull & Hrest).
    rewrite <-(sorted_prefix_filter p full l l1 l' Hsort); try done.
    + rewrite Hperm, list_filter_filter. apply Permutation_refl', list_filter_iff.
      intros kv. split; [naive_solver|]. intros Hkv. split; [done|by apply prefix_le].
    + apply Forall_forall. intros kv. rewrite Hperm, list_elem_of_filter. naive_solver.
    + destruct Hend as [[-> ->]|Hend]; [left|by right]. auto.
Qed.

Lemma put_agrees db db' st c k v :
  mirrors (contents db) st → RocksStore.put c k v db = (Ok tt, db') →
  mirrors (contents db') (Kv.put c k v st).
Proof.
  intros Hr. destruct (covered_handle db c (mirrors_covered db st Hr)) as (cf & Hcf & Hf).
  destruct (Hr c) as (col & _ & Hst). unfold RocksStore.put, mbind, M_bind, gets, lift, map_err. rewrite Hcf.
  destruct (put_cf cf k v db) as [[[]|e|] db1] eqn:Hp; try done. intros [= <-].
  rewrite (put_writes _ _ _ _ _ Hp), Hf, (put_alter _ _ _ _ _ Hst). by apply mirrors_alter.
Qed.

Lemma delete_agrees db db' st c k :
  mirrors (contents db) st → RocksStore.delete c k db = (Ok tt, db') →
  mirrors (contents db') (Kv.delete c k st).
Proof.
  intros Hr. destruct (covered_handle db c (mirrors_covered db st Hr)) as (cf & Hcf & Hf).
  destruct (Hr c) as (col & _ & Hst). unfold RocksStore.delete, mbind, M_bind, gets, lift, map_err. rewrite Hcf.
  destruct (delete_cf cf k db) as [[[]|e|] db1] eqn:Hp; try done. intros [= <-].
  rewrite (delete_removes _ _ _ _ Hp), Hf, (delete_alter _ _ _ _ Hst). by apply mirrors_alter.
Qed.
(** *** Batches *)

Definition op_entry (op : BatchOp) : bytes * bytes * option bytes :=
  match op with
  | BPut c k v => (Column_name c, k, Some v)
  | BDelete c k => (Column_name c, k, None)
  end.

Lemma collect_batch_ops db ops :
  covered db → ∃ batch, RocksStore.collect_batch db ops = Ok batch
    ∧ ((λ e, (family e.1.1, e.1.2, e.2)) <$> batch) = (op_entry <$> ops).
Proof.
  intros Hc. induction ops as [|[c k v|c k] ops (batch & IH & Hb)]; [by exists []|..];
    destruct (covered_handle db c Hc) as (cf & Hcf & Hf); cbn; rewrite Hcf; cbn; rewrite IH; cbn;
    (eexists; split; [done|]); cbn; by rewrite Hf, Hb.
Qed.

Lemma mirrors_batch fams st ops :
  mirrors fams st → mirrors (foldl batch_entry fams (op_entry <$> ops)) (Kv.write_batch ops st).
Proof.
  unfold Kv.write_batch. revert fams st. induction ops as [|op ops IH]; intros fams st Hr; [done|].
  cbn. apply IH. destruct op as [c k v|c k]; destruct (Hr c) as (col & _ & Hst);
    unfold batch_entry; cbn; [rewrite (put_alter _ _ _ _ _ Hst)|rewrite (delete_alter _ _ _ _ Hst)];
    by apply mirrors_alter.
Qed.

Lemma write_batch_agrees db db' st ops :
  mirrors (contents db) st → RocksStore.write_batch ops db = (Ok tt, db') →
  mirrors (contents db') (Kv.write_batch ops st).
Proof.
  intros Hr. destruct (collect_batch_ops db ops (mirrors_covered db st Hr)) as (batch & Hb & Hops).
  unfold RocksStore.write_batch, mbind, M_bind, gets, lift, map_err. rewrite Hb.
  destruct (db_write batch db) as [[[]|e|] db1] eqn:Hw; try done. intros [= <-].
  rewrite (write_applies _ _ _ Hw), Hops. by apply mirrors_batch.
Qed.

(** *** Pruning *)

Lemma prune_heights_agrees db db' st c n n' hs :
  mirrors (contents db) st → RocksStore.prune_heights c n hs db = (Ok n', db') →
  ∃ st', foldl (Rocks.prune_key c) (n, st) hs = (n', st') ∧ mirrors (contents db') st'.
Proof.
  revert n db st. induction hs as [|h hs IH]; intros n db st Hr; cbn [RocksStore.prune_heights foldl].
  { intros [= <- <-]. eauto. }
  unfold Rocks.prune_key at 2. cbv zeta. cbn [fst snd]. generalize (to_be_bytes 8 h). intros key.
  unfold mbind at 1 2, M_bind at 1 2, gets, lift, RocksStore.contains, Kv.contains.
  destruct (RocksStore.get c key db) as [v|e|] eqn:Hg; cbn; try done.
  apply (get_agrees db st) in Hg as ->; [|done]. case_bool_decide; [|by apply IH].
  unfold mbind, M_bind. destruct (RocksStore.delete c key db) as [[[]|e|] db1] eqn:Hd; try done.
  apply IH. by eapply delete_agrees.
Qed.

(** Pruning RocksDB is pruning the contents. *)
Lemma prune_agrees db db' st keep height n :
  mirrors (contents db) st → RocksStore.prune_old_blocks keep height db = (Ok n, db') →
  ∃ st', Rocks.prune_old_blocks keep height st = (n, st') ∧ mirrors (contents db') st'.
Proof.
  intros Hr. unfold RocksStore.prune_old_blocks, Rocks.prune_old_blocks.
  destruct (height <=? keep); [intros [= <- <-]; eauto|]. cbv zeta. cbn [foldl].
  unfold mbind at 1, M_bind at 1.
  destruct (RocksStore.prune_heights BlockBodies 0 _ db) as [[n1|e|] db1] eqn:Hbodies; try done.
  destruct (prune_heights_agrees _ _ _ _ _ _ _ Hr Hbodies) as (st1 & -> & Hr1).
  intros Hreceipts. by apply (prune_heights_agrees _ _ _ _ _ _ _ Hr1 Hreceipts).
Qed.

(** *** Histories *)

Inductive StoreOp :=
  | OGet (c : Column) (k : bytes)
  | OContains (c : Column) (k : bytes)
  | OPut (c : Column) (k v : bytes)
  | ODelete (c : Column) (k : bytes)
  | OBatch (ops : list BatchOp)
  | OScan (c : Column) (prefix : bytes).

Inductive Answer :=
  | AValue (v : option bytes)
  | APresent (b : bool)
  | ADone
  | AEntries (l : list (bytes * bytes)).

Definition perform {S : Type} `{!KeyValueStore S} (op : StoreOp) : M S StorageError Answer :=
  match op with
  | OGet c k => r ← gets (kv_get c k); v ← lift r; mret (AValue v)
  | OContains c k => r ← gets (kv_contains c k); b ← lift r; mret (APresent b)
  | OPut c k v => _ ← kv_put c k v; mret ADone
  | ODelete c k => _ ← kv_delete c k; mret ADone
  | OBatch ops => _ ← kv_write_batch ops; mret ADone
  | OScan c p => r ← gets (kv_prefix_scan c p); l ← lift r; mret (AEntries l)
  end.

Fixpoint answers {S : Type} `{!KeyValueStore S} (ops : list StoreOp) (s : S) : list (res StorageError Answer) :=
  match ops with
  | [] => []
  | op :: ops => (perform op s).1 :: answers ops (perform op s).2
  end.

(** The order of a scan is unspecified. *)
Definition same_answer (a b : res StorageError Answer) : Prop :=
  match a, b with
  | Ok (AEntries l), Ok (AEntries l') => l ≡ₚ l'
  | _, _ => a = b
  end.

(** An operation that succeeds on RocksDB does what it does in memory. *)
Lemma perform_agrees op db db' st a :
  mirrors (contents db) st → perform op db = (Ok a, db') →
  same_answer (Ok a) (perform op st).1 ∧ mirrors (contents db') (perform op st).2.
Proof.
  intros Hr. destruct op as [c k|c k|c k v|c k|ops|c p]; cbn;
    unfold mbind, M_bind, gets, lift, modify, kv_contains; cbn.
  - destruct (RocksStore.get c k db) as [v|e|] eqn:Hg; try done. intros [= <- <-].
    by rewrite (get_agrees db st c k v Hr Hg).
  - destruct (RocksStore.get c k db) as [v|e|] eqn:Hg; try done. cbn. intros [= <- <-].
    by rewrite (get_agrees db st c k v Hr Hg).
  - destruct (RocksStore.put c k v db) as [[[]|e|] db1] eqn:Hp; try done. intros [= <- <-].
    split; [done|by eapply put_agrees].
  - destruct (RocksStore.delete c k db) as [[[]|e|] db1] eqn:Hp; try done. intros [= <- <-].
    split; [done|by eapply delete_agrees].
  - destruct (RocksStore.write_batch ops db) as [[[]|e|] db1] eqn:Hp; try done. intros [= <- <-].
    split; [done|by eapply write_batch_agrees].
  - destruct (RocksStore.prefix_scan c p db) as [l|e|] eqn:Hs; try done. intros [= <- <-].
    split; [by apply (scan_agrees db st)|done].
Qed.

(** No operation, failed or not, loses a column or misses one. *)
Definition found (r : res StorageError Answer) : Prop := ∀ n, r ≠ Err (ColumnNotFound n).

Lemma covered_dom db db' : dom (contents db') = dom (contents db) → covered db → covered db'.
Proof. intros Hd Hc c. apply elem_of_dom. rewrite Hd. by apply elem_of_dom. Qed.

Lemma scan_found p items n :
  RocksStore.scan_while p items ≠ Err (ColumnNotFound n) ∧ RocksStore.scan_all items ≠ Err (ColumnNotFound n).
Proof.
  induction items as [|[kv|e|] items [IH1 IH2]]; cbn; try done.
  destruct (negb _), (RocksStore.scan_while p items), (RocksStore.scan_all items); cbn; split; congruence.
Qed.

Lemma perform_covered op db : covered db → covered (perform op db).2 ∧ found (perform op db).1.
Proof.
  intros Hc. destruct op as [c k|c k|c k v|c k|ops|c p]; cbn;
    unfold mbind, M_bind, gets, lift, kv_contains; cbn; unfold found.
  1,2: destruct (covered_handle db c Hc) as (cf & Hcf & _); unfold RocksStore.get; rewrite Hcf; cbn;
    by destruct (get_cf db cf k).
  1: destruct (covered_handle db c Hc) as (cf & Hcf & _); pose proof (put_families db cf k v) as Hd;
    unfold RocksStore.put, mbind, M_bind, gets, lift, map_err; rewrite Hcf;
    destruct (put_cf cf k v db) as [[[]|e|] db1]; cbn in *; split; try done; by eapply covered_dom.
  1: destruct (covered_handle db c Hc) as (cf & Hcf & _); pose proof (delete_families db cf k) as Hd;
    unfold RocksStore.delete, mbind, M_bind, gets, lift, map_err; rewrite Hcf;
    destruct (delete_cf cf k db) as [[[]|e|] db1]; cbn in *; split; try done; by eapply covered_dom.
  1: destruct (collect_batch_ops db ops Hc) as (batch & Hb & _); pose proof (write_families db batch) as Hd;
    unfold RocksStore.write_batch, mbind, M_bind, gets, lift, map_err; rewrite Hb;
    destruct (db_write batch db) as [[[]|e|] db1]; cbn in *; split; try done; by eapply covered_dom.
  destruct (covered_handle db c Hc) as (cf & Hcf & _). unfold RocksStore.prefix_scan. rewrite Hcf. cbn.
  destruct (if bool_decide (p = "") then _ else _) as [l|e|] eqn:Hs; try done. split; [done|].
  intros n [= ->]. revert Hs. case_bool_decide; by apply scan_found.
Qed.

(** The contents of an open database, by column. *)
Definition view db : KvStore :=
  list_to_map ((λ c, (c, default ∅ (contents db !! Column_name c))) <$> Column_ALL).

Lemma view_mirrors db : covered db → mirrors (contents db) (view db).
Proof.
  intros Hc c. destruct (Hc c) as [col Hcol]. exists col. split; [done|]. unfold view.
  apply elem_of_list_to_map_1.
  - rewrite <-list_fmap_compose. apply (bool_decide_unpack _). vm_compute. exact I.
  - apply list_elem_of_fmap. exists c. rewrite Hcol. split; [done|].
    destruct c; apply (bool_decide_unpack _); vm_compute; exact I.
Qed.

(** C20: The two backends are interchangeable.  A database that was opened has every
    column, and keeps them through any operations, also when RocksDB reports
    errors: no operation fails for want of a column.  As long as RocksDB reports
    no error, any sequence of operations gets the answers the store in memory
    gives on the same contents, scans up to their order. *)
Theorem backends_agree path db ops :
  RocksStore.open path = Ok db →
  Forall found (answers ops db)
  ∧ (Forall (λ r, ∃ a, r = Ok a) (answers ops db) →
     Forall2 same_answer (answers ops db) (answers ops (view db))).
Proof.
  intros Hopen. assert (Hc : covered db).
  { unfold RocksStore.open in Hopen. destruct (open_cf_descriptors _ _) as [db1|e|] eqn:Ho; try done.
    injection Hopen as ->. intros c. eapply open_families; [exact Ho|]. apply list_elem_of_fmap_2.
    destruct c; apply (bool_decide_unpack _); vm_compute; exact I. }
  split.
  - clear Hopen. revert db Hc. induction ops as [|op ops IH]; intros db Hc; cbn; [constructor|].
    destruct (perform_covered op db Hc). constructor; auto.
  - generalize (view_mirrors db Hc). generalize (view db). clear Hopen Hc. revert db.
    induction ops as [|op ops IH]; intros db st Hr Hall; cbn in *; [constructor|].
    apply Forall_cons in Hall as [[a Ha] Hall].
    destruct (perform op db) as [r db'] eqn:Hp; cbn in *. subst r.
    destruct (perform_agrees op db db' st a Hr Hp). constructor; auto.
Qed.
End agreement.

(** ** An ideal database *)

Definition col_of (db : gmap bytes (gmap bytes bytes)) (cf : bytes) : gmap bytes bytes := default ∅ (db !! cf).

Lemma col_of_lookup db cf k : col_of db cf !! k = db !! cf ≫= (.!! k).
Proof. unfold col_of. destruct (db !! cf); cbn; [done|apply lookup_empty]. Qed.

#[local] Instance ideal_db : RocksDb := {
  DB := gmap bytes (gmap bytes bytes);
  ColumnFamily := bytes;
  Path := unit;
  open_cf_descriptors := λ _ names, Ok (list_to_map ((λ n, (n, ∅)) <$> names));
  cf_handle := λ db n, if bool_decide (is_Some (db !! n)) then Some n else None;
  get_cf := λ db cf k, Ok (col_of db cf !! k);
  put_cf := λ cf k v, modify (alter <[k := v]> cf);
  delete_cf := λ cf k, modify (alter (delete k) cf);
  db_write := λ batch, modify (λ db, foldl batch_entry db batch);
  iterator_cf := λ db cf, Ok <$> btree_iter (col_of db cf);
  prefix_iterator_cf := λ db cf prefix,
    Ok <$> filter (λ kv, bytes_le prefix kv.1) (btree_iter (col_of db cf));
  compact_range_cf := λ _ db, db;
}.

Lemma StronglySorted_filter {A} (R : relation A) (P : A → Prop) `{∀ x, Decision (P x)} l :
  StronglySorted R l → StronglySorted R (filter P l).
Proof.
  induction 1 as [|x l Hs IH Hx]; [constructor|]. rewrite filter_cons. case_decide; [|done].
  constructor; [done|]. apply Forall_forall. intros y [_ Hy]%list_elem_of_filter.
  by eapply Forall_forall in Hx.
Qed.

Lemma Ok_fmap_inj {E A} (l l' : list A) : (Ok <$> l : list (res E A)) = Ok <$> l' → l = l'.
Proof. revert l'. induction l as [|x l IH]; intros [|y l'] [=]; [done|]. subst. f_equal. auto. Qed.

Lemma batch_dom (db : gmap bytes (gmap bytes bytes)) batch : dom (foldl batch_entry db batch) = dom db.
Proof. revert db. induction batch as [|e batch IH]; intros db; cbn; [done|]. rewrite IH. apply dom_alter_L. Qed.

#[local] Program Instance ideal_laws : RocksDbLaws := {
  contents := id;
  family := id;
}.
Next Obligation.
  intros path names db [= <-] n Hn. cbn. apply elem_of_dom. rewrite dom_list_to_map_L, <-list_fmap_compose.
  apply elem_of_list_to_set, list_elem_of_fmap. eauto.
Qed.
Next Obligation. intros db n Hn. exists n. cbn in *. by rewrite bool_decide_eq_true_2. Qed.
Next Obligation. intros db cf k v [= <-]. apply col_of_lookup. Qed.
Next Obligation. by intros db db' cf k v [= <-]. Qed.
Next Obligation. by intros db db' cf k [= <-]. Qed.
Next Obligation.
  intros db db' batch [= <-]. unfold id. f_equal. symmetry. rewrite <-(list_fmap_id batch) at 2.
  apply list_fmap_ext. by intros i [[a b] c].
Qed.
Next Obligation.
  intros db cf col l Hc Hl. cbn in *. unfold col_of in Hl. unfold id in Hc. rewrite Hc in Hl.
  apply Ok_fmap_inj in Hl as <-. apply btree_iter_perm.
Qed.
Next Obligation.
  intros db cf col prefix Hc. unfold id in Hc. exists (filter (λ kv, bytes_le prefix kv.1) (btree_iter col)).
  split_and!; [by rewrite btree_iter_perm|apply StronglySorted_filter, btree_iter_sorted|].
  cbn. unfold col_of. rewrite Hc. cbn. intros l rest Hl.
  apply fmap_app_inv in Hl as (l1 & l2 & Hl & Hrest & ->).
  apply Ok_fmap_inj in Hl as ->.
  exists l2. split; [done|]. intros ->. by destruct l2.
Qed.
Next Obligation. intros. apply dom_alter_L. Qed.
Next Obligation. intros. apply dom_alter_L. Qed.
Next Obligation. intros. apply batch_dom. Qed.
Next Obligation. done. Qed.

#[local] Instance demo_scan_order : HashIter := reverse_order_iter.

(** A history of the ideal database, and that scans stop where the prefix does. *)
Lemma backends_agree_witness :
  let ops := [OPut Accounts "ab" "1"; OBatch [BPut Accounts "aa" "2"; BPut Accounts "b" "3"];
              OScan Accounts "a"; ODelete Accounts "ab"; OGet Accounts "ab"; OContains Accounts "b"] in
  let db : DB := list_to_map ((λ n, (n, ∅)) <$> (Column_name <$> Column_ALL)) in
  Forall2 same_answer (answers ops db) (answers ops (view db)).
Proof.
  intros ops db. apply (@backends_agree ideal_db ideal_laws demo_scan_order tt db ops); [reflexivity|].
  apply (Forall_impl (λ r, match r with Ok _ => true | _ => false end = true)).
  - apply (bool_decide_unpack _). vm_compute. exact I.
  - intros [a|e|]; [eauto|done..].
Defined.
