(* ===== verification/Assets.v ===== *)
(** * Accounts, staking, assets, ownership
    ([crates/vtt-state/src/account.rs], [asset.rs])

    The records the ledger stores per account, per validator, per asset and per
    (asset, holder) pair, with the operations defined on them. *)

From S2P Require Import Prelude Primitives.

(** ** Accounts *)

Record Delegation := MkDelegation { dg_delegator : Address; dg_amount : Amount }.

Record UnbondingEntry := MkUnbondingEntry {
  ub_amount : Amount;
  ub_completion_time : Z;
  ub_validator : Address;
}.

Record StakingState := MkStakingState {
  sk_total_stake : Amount;
  sk_self_stake : Amount;
  sk_commission_bps : Z;
  sk_active : bool;
  sk_delegations : list Delegation;
  sk_unbonding : list UnbondingEntry;
}.

Definition StakingState_default : StakingState :=
  MkStakingState 0 0 0 false [] [].

Definition StakingState_eta (s : StakingState) : StakingState :=
  MkStakingState (sk_total_stake s) (sk_self_stake s) (sk_commission_bps s)
    (sk_active s) (sk_delegations s) (sk_unbonding s).

#[global] Instance upd_sk_total_stake : Updater sk_total_stake.
Proof. derive_updater StakingState_eta. Defined.
#[global] Instance upd_sk_self_stake : Updater sk_self_stake.
Proof. derive_updater StakingState_eta. Defined.
#[global] Instance upd_sk_active : Updater sk_active.
Proof. derive_updater StakingState_eta. Defined.
#[global] Instance upd_sk_delegations : Updater sk_delegations.
Proof. derive_updater StakingState_eta. Defined.

Record AccountState := MkAccountState {
  ac_nonce : Z;
  ac_balance : Amount;
  ac_code_hash : option H256;
  ac_storage_root : H256;
  ac_staking : option StakingState;
}.

Definition AccountState_default : AccountState :=
  MkAccountState 0 0 None H256_ZERO None.

Definition AccountState_eta (a : AccountState) : AccountState :=
  MkAccountState (ac_nonce a) (ac_balance a) (ac_code_hash a) (ac_storage_root a)
    (ac_staking a).

#[global] Instance upd_ac_nonce : Updater ac_nonce.
Proof. derive_updater AccountState_eta. Defined.
#[global] Instance upd_ac_balance : Updater ac_balance.
Proof. derive_updater AccountState_eta. Defined.
#[global] Instance upd_ac_code_hash : Updater ac_code_hash.
Proof. derive_updater AccountState_eta. Defined.
#[global] Instance upd_ac_storage_root : Updater ac_storage_root.
Proof. derive_updater AccountState_eta. Defined.
#[global] Instance upd_ac_staking : Updater ac_staking.
Proof. derive_updater AccountState_eta. Defined.

Module Account.
Definition with_balance (balance : Amount) : AccountState :=
  AccountState_default <| ac_balance := balance |>.

Definition is_empty (a : AccountState) : bool :=
  (ac_nonce a =? 0) && Amount.is_zero (ac_balance a)
  && negb (bool_decide (is_Some (ac_code_hash a))).

Definition is_contract (a : AccountState) : bool :=
  bool_decide (is_Some (ac_code_hash a)).
End Account.

(** ** Assets *)

Inductive AssetClass :=
  | Equity | Debt | RealEstate | Commodity | Fund | IntellectualProperty
  | CarbonCredit | Invoice | ACCustom (name : string).

Inductive AssetStatus :=
  | Draft | Active | Frozen | Matured | RedemptionPending | Redeemed.

Inductive TransferMode := PeerToPeer | RegistrarMediated.

Inductive DocumentType :=
  | Prospectus | TermSheet | LegalOpinion | Valuation | AuditReport
  | RegulatoryApproval | DeedOfTransfer | Encumbrance | DTCustom (name : string).

#[global] Instance AssetClass_eq_dec : EqDecision AssetClass.
Proof. solve_decision. Defined.
#[global] Instance AssetStatus_eq_dec : EqDecision AssetStatus.
Proof. solve_decision. Defined.
#[global] Instance TransferMode_eq_dec : EqDecision TransferMode.
Proof. solve_decision. Defined.
#[global] Instance DocumentType_eq_dec : EqDecision DocumentType.
Proof. solve_decision. Defined.

Record DocumentRecord := MkDocumentRecord {
  dr_doc_type : DocumentType;
  dr_hash : H256;
  dr_uri : string;
  dr_added_at : Z;
  dr_added_by : Address;
}.

(** [documents] is a [BTreeMap] keyed by document type; it is kept as the list
    of its entries, at most one per type. *)
Record AssetRecord := MkAssetRecord {
  as_id : H256;
  as_name : string;
  as_symbol : string;
  as_class : AssetClass;
  as_origin_chain : ChainId;
  as_issuer : Address;
  as_total_supply : Amount;
  as_decimals : Z;
  as_status : AssetStatus;
  as_compliance_policy : option Address;
  as_valuation_oracle : option H256;
  as_documents : list (DocumentType * DocumentRecord);
  as_metadata_uri : string;
  as_jurisdiction : string;
  as_legal_entity : string;
  as_transfer_mode : TransferMode;
  as_registrar : option Address;
  as_redemption_pool : Amount;
  as_requires_kyc : bool;
  as_created_at : Z;
}.

Definition AssetRecord_eta (a : AssetRecord) : AssetRecord :=
  MkAssetRecord (as_id a) (as_name a) (as_symbol a) (as_class a) (as_origin_chain a)
    (as_issuer a) (as_total_supply a) (as_decimals a) (as_status a)
    (as_compliance_policy a) (as_valuation_oracle a) (as_documents a)
    (as_metadata_uri a) (as_jurisdiction a) (as_legal_entity a) (as_transfer_mode a)
    (as_registrar a) (as_redemption_pool a) (as_requires_kyc a) (as_created_at a).

#[global] Instance upd_as_issuer : Updater as_issuer.
Proof. derive_updater AssetRecord_eta. Defined.
#[global] Instance upd_as_total_supply : Updater as_total_supply.
Proof. derive_updater AssetRecord_eta. Defined.
#[global] Instance upd_as_status : Updater as_status.
Proof. derive_updater AssetRecord_eta. Defined.
#[global] Instance upd_as_documents : Updater as_documents.
Proof. derive_updater AssetRecord_eta. Defined.
#[global] Instance upd_as_redemption_pool : Updater as_redemption_pool.
Proof. derive_updater AssetRecord_eta. Defined.

Module Asset.
Definition is_tradeable (a : AssetRecord) : bool := bool_decide (as_status a = Active).

Definition is_redemption_pending (a : AssetRecord) : bool :=
  bool_decide (as_status a = RedemptionPending).

Definition status_str (a : AssetRecord) : string :=
  match as_status a with
  | Draft => "Draft"
  | Active => "Active"
  | Frozen => "Frozen"
  | Matured => "Matured"
  | RedemptionPending => "RedemptionPending"
  | Redeemed => "Redeemed"
  end.

Definition is_frozen (a : AssetRecord) : bool := bool_decide (as_status a = Frozen).

Definition freeze (a : AssetRecord) : AssetRecord := a <| as_status := Frozen |>.

Definition activate (a : AssetRecord) : bool * AssetRecord :=
  if bool_decide (as_status a = Draft) then (true, a <| as_status := Active |>)
  else (false, a).

Definition unfreeze (a : AssetRecord) : bool * AssetRecord :=
  if bool_decide (as_status a = Frozen) then (true, a <| as_status := Active |>)
  else (false, a).

Definition attach_document (doc : DocumentRecord) (a : AssetRecord) : AssetRecord :=
  a <| as_documents := (dr_doc_type doc, doc)
         :: filter (λ e, e.1 ≠ dr_doc_type doc) (as_documents a) |>.
End Asset.

(** ** Ownership *)

Record OwnershipRecord := MkOwnershipRecord {
  ow_asset_id : H256;
  ow_owner : Address;
  ow_available : Amount;
  ow_locked : Amount;
}.

Definition OwnershipRecord_eta (o : OwnershipRecord) : OwnershipRecord :=
  MkOwnershipRecord (ow_asset_id o) (ow_owner o) (ow_available o) (ow_locked o).

#[global] Instance upd_ow_available : Updater ow_available.
Proof. derive_updater OwnershipRecord_eta. Defined.
#[global] Instance upd_ow_locked : Updater ow_locked.
Proof. derive_updater OwnershipRecord_eta. Defined.

Module Own.
Definition new (asset_id : H256) (owner : Address) : OwnershipRecord :=
  MkOwnershipRecord asset_id owner 0 0.

Definition total {E} (o : OwnershipRecord) : res E Amount :=
  Amount.add (ow_available o) (ow_locked o).

Definition credit {E} (amount : Amount) (o : OwnershipRecord) : res E OwnershipRecord :=
  v ← Amount.add (ow_available o) amount;
  Ok (o <| ow_available := v |>).

(** The guard of [debit] makes its subtraction safe, so it cannot panic. *)
Definition debit (amount : Amount) (o : OwnershipRecord) : bool * OwnershipRecord :=
  if amount <=? ow_available o
  then (true, o <| ow_available := ow_available o - amount |>)
  else (false, o).

Definition lock {E} (amount : Amount) (o : OwnershipRecord) : res E (bool * OwnershipRecord) :=
  if amount <=? ow_available o
  then
    l ← Amount.add (ow_locked o) amount;
    Ok (true, o <| ow_available := ow_available o - amount |> <| ow_locked := l |>)
  else Ok (false, o).

Definition unlock {E} (amount : Amount) (o : OwnershipRecord) : res E (bool * OwnershipRecord) :=
  if amount <=? ow_locked o
  then
    v ← Amount.add (ow_available o) amount;
    Ok (true, o <| ow_locked := ow_locked o - amount |> <| ow_available := v |>)
  else Ok (false, o).
End Own.
