(* ===== verification/Oracle.v ===== *)
(** * Oracle feeds ([crates/vtt-state/src/oracle.rs])

    Submission of values by authorised sources, quorum aggregation by median,
    and reading with the staleness check. *)

From S2P Require Import Prelude Primitives.

Inductive OracleFeedType :=
  | AssetValuation (asset : H256)
  | MarketPrice (pair : string)
  | InterestRate (name : string)
  | OFCustom (name : string).

Record OracleSubmission := MkOracleSubmission {
  os_source : Address;
  os_value : Amount;
  os_timestamp : Z;
}.

Record OracleFeed := MkOracleFeed {
  of_feed_id : H256;
  of_name : string;
  of_feed_type : OracleFeedType;
  of_authorized_sources : list Address;
  of_quorum : Z;
  of_max_staleness_ms : Z;
  of_latest_value : option Amount;
  of_decimals : Z;
  of_updated_at : Z;
  of_pending_submissions : list OracleSubmission;
  of_created_at : Z;
}.

Definition OracleFeed_eta (f : OracleFeed) : OracleFeed :=
  MkOracleFeed (of_feed_id f) (of_name f) (of_feed_type f) (of_authorized_sources f)
    (of_quorum f) (of_max_staleness_ms f) (of_latest_value f) (of_decimals f)
    (of_updated_at f) (of_pending_submissions f) (of_created_at f).

#[global] Instance upd_of_latest_value : Updater of_latest_value.
Proof. derive_updater OracleFeed_eta. Defined.
#[global] Instance upd_of_updated_at : Updater of_updated_at.
Proof. derive_updater OracleFeed_eta. Defined.
#[global] Instance upd_of_pending_submissions : Updater of_pending_submissions.
Proof. derive_updater OracleFeed_eta. Defined.
#[global] Instance upd_of_created_at : Updater of_created_at.
Proof. derive_updater OracleFeed_eta. Defined.

Module Oracle.

Definition new_with_decimals (feed_id : H256) (name : string) (feed_type : OracleFeedType)
    (authorized_sources : list Address) (quorum max_staleness_ms decimals : Z) : OracleFeed :=
  MkOracleFeed feed_id name feed_type authorized_sources (Z.max quorum 1)
    max_staleness_ms None decimals 0 [] 0.

Definition new (feed_id : H256) (name : string) (feed_type : OracleFeedType)
    (authorized_sources : list Address) (quorum max_staleness_ms : Z) : OracleFeed :=
  new_with_decimals feed_id name feed_type authorized_sources quorum max_staleness_ms 18.

(** [values.sort(); values[values.len() / 2]]; [0] is never taken on a
    non-empty list. *)
Definition median (values : list Z) : Z :=
  let sorted := merge_sort Z.le values in
  nth (length sorted / 2) sorted 0.

Definition aggregate (f : OracleFeed) : OracleFeed :=
  match of_pending_submissions f with
  | [] => f
  | subs =>
      let m := median (os_value <$> subs) in
      let latest_ts := foldr Z.max 0 (os_timestamp <$> subs) in
      f <| of_latest_value := Some m |>
        <| of_updated_at := latest_ts |>
        <| of_pending_submissions := [] |>
  end.

Definition submit (source : Address) (value : Amount) (timestamp : Z) (f : OracleFeed)
    : bool * OracleFeed :=
  if negb (bool_decide (source ∈ of_authorized_sources f)) then (false, f)
  else
    let kept := filter (λ s, os_source s ≠ source) (of_pending_submissions f) in
    let f1 := f <| of_pending_submissions
                     := kept ++ [MkOracleSubmission source value timestamp] |> in
    if of_quorum f <=? Z.of_nat (length (of_pending_submissions f1))
    then (true, aggregate f1)
    else (false, f1).

(** [updated_at + max_staleness_ms] is a wrapping [u64] addition. *)
Definition read (f : OracleFeed) (current_time : Z) : option (Amount * Z) :=
  value ← of_latest_value f;
  if (0 <? of_max_staleness_ms f)
     && (wrap 64 (of_updated_at f + of_max_staleness_ms f) <? current_time)
  then None
  else Some (value, of_updated_at f).

Definition is_valid (f : OracleFeed) (current_time : Z) : bool :=
  bool_decide (is_Some (read f current_time)).

Definition is_authorized (f : OracleFeed) (source : Address) : bool :=
  bool_decide (source ∈ of_authorized_sources f).

End Oracle.

(** ** The median *)

Lemma filter_all {A} (P : A → Prop) `{∀ x, Decision (P x)} l :
  Forall P l → filter P l = l.
Proof. induction 1; [done|]. rewrite filter_cons_True by done. by f_equal. Qed.

Lemma filter_length_split {A} (P : A → Prop) `{∀ x, Decision (P x)} l i :
  length (filter P l) = (length (filter P (take i l)) + length (filter P (drop i l)))%nat.
Proof. by rewrite <- length_app, <- filter_app, take_drop. Qed.

(** An element of a sorted list splits it into smaller-or-equal and
    larger-or-equal parts. *)
Lemma sorted_split l i x :
  StronglySorted Z.le l → l !! i = Some x →
  Forall (λ y, y <= x) (take (S i) l) ∧ Forall (λ y, x <= y) (drop i l).
Proof.
  intros Hs. revert i. induction Hs as [|a l Hs IH Ha]; intros [|i] Hi; cbn in *; simplify_eq.
  - split; [by repeat constructor|]. constructor; [lia|done].
  - destruct (IH i Hi) as [H1 H2]. split; [|done]. constructor; [|done].
    rewrite Forall_forall in Ha. apply Ha. by eapply list_elem_of_lookup_2.
Qed.

Lemma median_lookup l :
  l ≠ [] → merge_sort Z.le l !! (length l / 2)%nat = Some (Oracle.median l).
Proof.
  intros Hl. unfold Oracle.median.
  assert (Hlen : length (merge_sort Z.le l) = length l) by by rewrite merge_sort_Permutation.
  rewrite Hlen. destruct (lookup_lt_is_Some_2 (merge_sort Z.le l) (length l / 2)) as [x Hx].
  - rewrite Hlen. destruct l; [done|]. apply Nat.div_lt; cbn; lia.
  - by rewrite Hx, (nth_lookup_Some _ _ _ _ Hx).
Qed.

Lemma merge_sort_Zle_sorted l : StronglySorted Z.le (merge_sort Z.le l).
Proof. apply StronglySorted_merge_sort; apply _. Qed.

(** The median is one of the values. *)
Lemma median_elem l : l ≠ [] → Oracle.median l ∈ l.
Proof.
  intros Hl. apply (elem_of_Permutation_proper _ _ _ (merge_sort_Permutation Z.le l)).
  eapply list_elem_of_lookup_2, median_lookup, Hl.
Qed.

(** When fewer than half of the values lie outside an interval, the median lies
    inside it. *)
Lemma median_robust (l : list Z) a b :
  (2 * length (filter (λ x, ¬ (a <= x <= b)%Z) l) < length l)%nat →
  a <= Oracle.median l <= b.
Proof.
  intros Hbad. assert (Hl : l ≠ []) by (intros ->; cbn in Hbad; lia).
  pose proof (median_lookup l Hl) as Hm. set (x := Oracle.median l) in *.
  destruct (sorted_split _ _ _ (merge_sort_Zle_sorted l) Hm) as [Hlow Hhigh].
  set (s := merge_sort Z.le l) in *. set (m := (length l / 2)%nat) in *.
  assert (Hs : s ≡ₚ l) by apply merge_sort_Permutation.
  rewrite <- Hs in Hbad. pose proof (Permutation_length Hs) as Hlen.
  assert (m < length l)%nat by (apply lookup_lt_Some in Hm; lia).
  pose proof (Nat.div_mod_eq (length l) 2) as Hdm. fold m in Hdm.
  pose proof (Nat.mod_upper_bound (length l) 2 ltac:(lia)).
  pose proof (filter_length_split (λ y, ¬ (a <= y <= b)) s) as Hsplit.
  split; apply Z.nlt_ge; intros Hx.
  - specialize (Hsplit (S m)). rewrite (filter_all _ (take (S m) s)), length_take in Hsplit.
    { lia. }
    apply (Forall_impl _ _ _ Hlow). lia.
  - specialize (Hsplit m). rewrite (filter_all _ (drop m s)), length_drop in Hsplit.
    { lia. }
    apply (Forall_impl _ _ _ Hhigh). lia.
Qed.

(** ** Feeds *)

(** At most one pending value per source, all from authorised sources, fewer
    than the quorum: aggregation happens at the moment the quorum is met. *)
Definition feed_inv (f : OracleFeed) : Prop :=
  1 <= of_quorum f ∧
  NoDup (os_source <$> of_pending_submissions f) ∧
  (∀ s, s ∈ of_pending_submissions f → os_source s ∈ of_authorized_sources f) ∧
  Z.of_nat (length (of_pending_submissions f)) < of_quorum f.

Lemma new_feed_inv id name ty srcs q st d :
  feed_inv (Oracle.new_with_decimals id name ty srcs q st d).
Proof. repeat split; cbn; try lia; [constructor|]. by intros s ?%not_elem_of_nil. Qed.

Definition after_submit (source : Address) (value timestamp : Z) (f : OracleFeed)
    : list OracleSubmission :=
  filter (λ s, os_source s ≠ source) (of_pending_submissions f)
  ++ [MkOracleSubmission source value timestamp].

Lemma after_submit_NoDup source v t f :
  NoDup (os_source <$> of_pending_submissions f) →
  NoDup (os_source <$> after_submit source v t f).
Proof.
  intros Hnd. unfold after_submit. rewrite fmap_app. apply NoDup_app.
  split; [|split; [|apply NoDup_singleton]].
  - eapply sublist_NoDup; [exact Hnd|]. apply fmap_sublist, sublist_filter.
  - cbn. intros x (s & -> & Hs)%list_elem_of_fmap. apply list_elem_of_filter in Hs.
    rewrite list_elem_of_singleton. naive_solver.
Qed.

Lemma submit_spec source v t f :
  source ∈ of_authorized_sources f →
  Oracle.submit source v t f =
    let subs := after_submit source v t f in
    if of_quorum f <=? Z.of_nat (length subs)
    then (true, f <| of_latest_value := Some (Oracle.median (os_value <$> subs)) |>
                  <| of_updated_at := foldr Z.max 0 (os_timestamp <$> subs) |>
                  <| of_pending_submissions := [] |>)
    else (false, f <| of_pending_submissions := subs |>).
Proof.
  intros Hs. unfold Oracle.submit. rewrite bool_decide_true by done. cbn [negb].
  fold (after_submit source v t f). cbn zeta. cbn [of_pending_submissions upd upd_of_pending_submissions].
  case_match; [|done]. unfold Oracle.aggregate. cbn.
  destruct (after_submit source v t f) eqn:E; [|done].
  unfold after_submit in E. by destruct (filter _ _).
Qed.

Lemma submit_inv source v t f : feed_inv f → feed_inv (Oracle.submit source v t f).2.
Proof.
  intros (Hq & Hnd & Hauth & Hlen).
  destruct (decide (source ∈ of_authorized_sources f)) as [Hs|Hs].
  - rewrite submit_spec by done. cbn zeta.
    destruct (Z.leb_spec (of_quorum f) (Z.of_nat (length (after_submit source v t f)))).
    + repeat split; cbn; try lia; [constructor|]. by intros s ?%not_elem_of_nil.
    + split; [done|]. split; [by apply after_submit_NoDup|]. split; [|done].
      cbn. intros s. unfold after_submit. rewrite elem_of_app, list_elem_of_singleton, list_elem_of_filter.
      intros [[_ ?]| ->]; [by apply Hauth|done].
  - unfold Oracle.submit. rewrite bool_decide_false by done. by repeat split.
Qed.

(** A feed's history: creation, then submissions by anybody at any time. *)
Inductive feed_reachable : OracleFeed → Prop :=
  | feed_created id name ty srcs q st d :
      feed_reachable (Oracle.new_with_decimals id name ty srcs q st d)
  | feed_submitted source v t f :
      feed_reachable f → feed_reachable (Oracle.submit source v t f).2.

Lemma feed_reachable_inv f : feed_reachable f → feed_inv f.
Proof. induction 1; [apply new_feed_inv|by apply submit_inv]. Qed.

(** Whenever a submission makes a reachable feed publish a value, the value
    comes from at least [quorum] distinct authorised sources, is one of the
    submitted values, and lies in every interval [[a, b]] outside which fewer
    than half of the submissions fall: a minority of dishonest sources cannot
    move it out of the honest range. *)
Theorem published_value_robust f f' source v t a b :
  feed_reachable f →
  Oracle.submit source v t f = (true, f') →
  let subs := after_submit source v t f in
  NoDup (os_source <$> subs) ∧
  (∀ s, s ∈ subs → os_source s ∈ of_authorized_sources f) ∧
  of_quorum f <= Z.of_nat (length subs) ∧
  ∃ m, of_latest_value f' = Some m ∧ m ∈ os_value <$> subs ∧
    ((2 * length (filter (λ x, ¬ (a <= x <= b)%Z) (os_value <$> subs)) < length subs)%nat →
     a <= m <= b).
Proof.
  intros Hr Hsub subs. destruct (feed_reachable_inv f Hr) as (Hq & Hnd & Hauth & _).
  destruct (decide (source ∈ of_authorized_sources f)) as [Hs|Hs].
  2: { unfold Oracle.submit in Hsub. by rewrite bool_decide_false in Hsub. }
  rewrite submit_spec in Hsub by done. fold subs in Hsub. cbn zeta in Hsub.
  destruct (Z.leb_spec (of_quorum f) (Z.of_nat (length subs))); simplify_eq.
  split; [by apply after_submit_NoDup|]. split; [|split; [done|]].
  - intros s. unfold subs, after_submit.
    rewrite elem_of_app, list_elem_of_singleton, list_elem_of_filter.
    intros [[_ ?]| ->]; [by apply Hauth|done].
  - exists (Oracle.median (os_value <$> subs)). split; [done|]. split.
    + apply median_elem. destruct subs eqn:E; [cbn in *; lia|done].
    + intros Hbad. apply median_robust. by rewrite length_fmap.
Qed.

Definition demo_source (n : Z) : Address := MkAddress (to_le_bytes 20 n).

Definition demo_feed : OracleFeed :=
  (Oracle.submit (demo_source 2) 101 60
    (Oracle.submit (demo_source 1) 100 50
      (Oracle.new_with_decimals H256_ZERO "gold" (MarketPrice "XAU/USD")
         [demo_source 1; demo_source 2; demo_source 3] 3 1000 18)).2).2.

Lemma published_value_robust_witness :
  ∃ f', Oracle.submit (demo_source 3) 999999 70 demo_feed = (true, f') ∧
        ∃ m, of_latest_value f' = Some m ∧ 100 <= m <= 101.
Proof.
  eexists. split; [vm_compute; reflexivity|].
  destruct (published_value_robust demo_feed (Oracle.submit (demo_source 3) 999999 70 demo_feed).2
              (demo_source 3) 999999 70 100 101) as (_ & _ & _ & m & Hm & _ & Hr).
  - apply feed_submitted, feed_submitted, feed_created.
  - vm_compute. reflexivity.
  - exists m. split; [exact Hm|]. apply Hr. vm_compute. lia.
Defined.
