(* ===== verification/StateDB.v ===== *)
(** * The state database ([crates/vtt-state/src/statedb.rs])

    [StateDB] with its in-memory caches and its optional backing store.  Every
    write goes through to the store when there is one; accounts, assets, pools,
    code, contract storage and governance proposals are also read through.

    [Env] gathers the third-party code the component relies on: BLAKE3, the
    iteration order of hash maps, and a Borsh codec per stored type. *)

From stdpp Require Import pretty.
From S2P Require Import Prelude Primitives RustStr Storage Assets Oracle.

Class StateCodec : Type := {
  sc_account :: Borsh AccountState;
  sc_asset :: Borsh AssetRecord;
  sc_ownership :: Borsh OwnershipRecord;
  sc_oracle :: Borsh OracleFeed;
  sc_asset_proposal :: Borsh AssetProposal;
  sc_addresses :: Borsh (list Address);
  sc_slashing_seen :: Borsh (list (Address * Z * Z));
  sc_unbonding :: Borsh (list (Address * list UnbondingEntry));
  sc_commitments :: Borsh (list ((Address * Z * Z) * H256));
  sc_missed_slots :: Borsh (list ((Z * Address) * Z));
  sc_slash_history :: Borsh (list (Z * string * Z));
}.

Class Env : Type := {
  env_crypto :: Crypto;
  env_hash_iter :: HashIter;
  env_codec :: StateCodec;
}.

Inductive StateError :=
  | StInsufficientBalance (have need : Amount)
  | AccountNotFound (a : Address)
  | NonceMismatch (expected got : Z)
  | Serialization (msg : string).

Record StateDB := MkStateDB {
  db_accounts : gmap Address AccountState;
  db_assets : gmap H256 AssetRecord;
  db_ownership : gmap (H256 * Address) OwnershipRecord;
  db_oracles : gmap H256 OracleFeed;
  db_contract_code : gmap H256 bytes;
  db_contract_storage : gmap (Address * bytes) bytes;
  db_pools : gmap H256 bytes;
  db_asset_proposals : gmap H256 AssetProposal;
  db_mining_states : gmap H256 bytes;
  db_governance_proposals : gmap H256 bytes;
  db_unbonding_entries : gmap Address (list UnbondingEntry);
  db_slashing_seen : gset (Address * Z * Z);
  db_kyc_approved : gset Address;
  db_block_commitments : gmap (Address * Z * Z) H256;
  db_missed_slots : gmap (Z * Address) Z;
  db_stakers : gset Address;
  db_asset_holder_count : gmap H256 Z;
  db_treasury_address : Address;
  db_epoch_length : Z;
  db_dex_paused : bool;
  db_total_minted_milli : Z;
  db_total_burned_milli : Z;
  db_trie : StateTrie;
  db_dirty : list Address;
  db_dirty_assets : list H256;
  db_dirty_pools : list H256;
  db_storage : option KvStore;
}.

Definition StateDB_eta (s : StateDB) : StateDB :=
  MkStateDB (db_accounts s) (db_assets s) (db_ownership s)
    (db_oracles s) (db_contract_code s) (db_contract_storage s)
    (db_pools s) (db_asset_proposals s) (db_mining_states s)
    (db_governance_proposals s) (db_unbonding_entries s) (db_slashing_seen s)
    (db_kyc_approved s) (db_block_commitments s) (db_missed_slots s)
    (db_stakers s) (db_asset_holder_count s) (db_treasury_address s)
    (db_epoch_length s) (db_dex_paused s) (db_total_minted_milli s)
    (db_total_burned_milli s) (db_trie s) (db_dirty s)
    (db_dirty_assets s) (db_dirty_pools s) (db_storage s).

#[global] Instance upd_db_accounts : Updater db_accounts.
Proof. derive_updater StateDB_eta. Defined.
#[global] Instance upd_db_assets : Updater db_assets.
Proof. derive_updater StateDB_eta. Defined.
#[global] Instance upd_db_ownership : Updater db_ownership.
Proof. derive_updater StateDB_eta. Defined.
#[global] Instance upd_db_oracles : Updater db_oracles.
Proof. derive_updater StateDB_eta. Defined.
#[global] Instance upd_db_contract_code : Updater db_contract_code.
Proof. derive_updater StateDB_eta. Defined.
#[global] Instance upd_db_contract_storage : Updater db_contract_storage.
Proof. derive_updater StateDB_eta. Defined.
#[global] Instance upd_db_pools : Updater db_pools.
Proof. derive_updater StateDB_eta. Defined.
#[global] Instance upd_db_asset_proposals : Updater db_asset_proposals.
Proof. derive_updater StateDB_eta. Defined.
#[global] Instance upd_db_mining_states : Updater db_mining_states.
Proof. derive_updater StateDB_eta. Defined.
#[global] Instance upd_db_governance_proposals : Updater db_governance_proposals.
Proof. derive_updater StateDB_eta. Defined.
#[global] Instance upd_db_unbonding_entries : Updater db_unbonding_entries.
Proof. derive_updater StateDB_eta. Defined.
#[global] Instance upd_db_slashing_seen : Updater db_slashing_seen.
Proof. derive_updater StateDB_eta. Defined.
#[global] Instance upd_db_kyc_approved : Updater db_kyc_approved.
Proof. derive_updater StateDB_eta. Defined.
#[global] Instance upd_db_block_commitments : Updater db_block_commitments.
Proof. derive_updater StateDB_eta. Defined.
#[global] Instance upd_db_missed_slots : Updater db_missed_slots.
Proof. derive_updater StateDB_eta. Defined.
#[global] Instance upd_db_stakers : Updater db_stakers.
Proof. derive_updater StateDB_eta. Defined.
#[global] Instance upd_db_asset_holder_count : Updater db_asset_holder_count.
Proof. derive_updater StateDB_eta. Defined.
#[global] Instance upd_db_treasury_address : Updater db_treasury_address.
Proof. derive_updater StateDB_eta. Defined.
#[global] Instance upd_db_epoch_length : Updater db_epoch_length.
Proof. derive_updater StateDB_eta. Defined.
#[global] Instance upd_db_dex_paused : Updater db_dex_paused.
Proof. derive_updater StateDB_eta. Defined.
#[global] Instance upd_db_total_minted_milli : Updater db_total_minted_milli.
Proof. derive_updater StateDB_eta. Defined.
#[global] Instance upd_db_total_burned_milli : Updater db_total_burned_milli.
Proof. derive_updater StateDB_eta. Defined.
#[global] Instance upd_db_trie : Updater db_trie.
Proof. derive_updater StateDB_eta. Defined.
#[global] Instance upd_db_dirty : Updater db_dirty.
Proof. derive_updater StateDB_eta. Defined.
#[global] Instance upd_db_dirty_assets : Updater db_dirty_assets.
Proof. derive_updater StateDB_eta. Defined.
#[global] Instance upd_db_dirty_pools : Updater db_dirty_pools.
Proof. derive_updater StateDB_eta. Defined.
#[global] Instance upd_db_storage : Updater db_storage.
Proof. derive_updater StateDB_eta. Defined.

Definition StateDB_new : StateDB :=
  MkStateDB ∅ ∅ ∅ ∅ ∅ ∅ ∅ ∅ ∅ ∅ ∅ ∅ ∅ ∅ ∅ ∅ ∅
    Address_ZERO 1200 false 0 0 Trie.new [] [] [] None.

(** Shorthand for the two ways the code reaches the store. *)
Definition persist (c : Column) (k v : bytes) (s : StateDB) : StateDB :=
  match db_storage s with
  | Some st => s <| db_storage := Some (Kv.put c k v st) |>
  | None => s
  end.

Definition disk_get (s : StateDB) (c : Column) (k : bytes) : option bytes :=
  st ← db_storage s; Kv.get st c k.

Module State.
Section with_env.
Context `{Env}.

(** ** Accounts *)

Definition get_account (s : StateDB) (a : Address) : AccountState :=
  match db_accounts s !! a with
  | Some acc => acc
  | None => default AccountState_default
              (disk_get s Accounts (address_bytes a) ≫= from_slice)
  end.

Definition persist_stakers (s : StateDB) : StateDB :=
  persist ChainMeta "stakers:set" (to_vec (set_iter (db_stakers s))) s.

Definition has_self_stake (acc : AccountState) : bool :=
  match ac_staking acc with
  | Some k => negb (Amount.is_zero (sk_self_stake k))
  | None => false
  end.

Definition put_account (a : Address) (acc : AccountState) (s : StateDB) : StateDB :=
  let s := s <| db_dirty := db_dirty s ++ [a] |> in
  let s := persist Accounts (address_bytes a) (to_vec acc) s in
  let changed := if has_self_stake acc then bool_decide (a ∉ db_stakers s)
                 else bool_decide (a ∈ db_stakers s) in
  let s := s <| db_stakers := if has_self_stake acc then {[a]} ∪ db_stakers s
                              else db_stakers s ∖ {[a]} |> in
  let s := if changed then persist_stakers s else s in
  s <| db_accounts := <[a := acc]> (db_accounts s) |>.

Definition with_accounts (accounts : list (Address * AccountState)) : StateDB :=
  foldl (λ s kv, put_account kv.1 kv.2 s) StateDB_new accounts.

Definition account_exists (s : StateDB) (a : Address) : bool :=
  bool_decide (is_Some (db_accounts s !! a))
  || bool_decide (is_Some (disk_get s Accounts (address_bytes a))).

Definition get_balance (s : StateDB) (a : Address) : Amount := ac_balance (get_account s a).
Definition get_nonce (s : StateDB) (a : Address) : Z := ac_nonce (get_account s a).

Definition add_balance (a : Address) (amount : Amount) : M StateDB StateError unit :=
  account ← gets (λ s, get_account s a);
  balance ← lift (ok_or (Serialization "balance overflow")
                    (checked_add 128 (ac_balance account) amount));
  modify (put_account a (account <| ac_balance := balance |>)).

Definition sub_balance (a : Address) (amount : Amount) : M StateDB StateError unit :=
  account ← gets (λ s, get_account s a);
  balance ← lift (ok_or (StInsufficientBalance (ac_balance account) amount)
                    (checked_sub (ac_balance account) amount));
  modify (put_account a (account <| ac_balance := balance |>)).

Definition transfer (from to : Address) (amount : Amount) : M StateDB StateError unit :=
  if Amount.is_zero amount then mret tt
  else
    _ ← sub_balance from amount;
    add_balance to amount.

(** [account.nonce += 1] wraps. *)
Definition increment_nonce {E} (a : Address) : M StateDB E Z :=
  account ← gets (λ s, get_account s a);
  let old_nonce := ac_nonce account in
  _ ← modify (put_account a (account <| ac_nonce := wrap 64 (old_nonce + 1) |>));
  mret old_nonce.

(** ** Assets and ownership *)

Definition register_asset (asset : AssetRecord) : M StateDB StateError unit :=
  cached ← gets (λ s, bool_decide (is_Some (db_assets s !! as_id asset)));
  _ ← fail_if cached (Serialization ("asset already exists: " +:+ h256_to_string (as_id asset)));
  on_disk ← gets (λ s, bool_decide (is_Some (disk_get s Assets (h256_bytes (as_id asset)))));
  _ ← fail_if on_disk (Serialization ("asset already exists: " +:+ h256_to_string (as_id asset)));
  modify (λ s,
    let s := s <| db_dirty_assets := db_dirty_assets s ++ [as_id asset] |> in
    let s := persist Assets (h256_bytes (as_id asset)) (to_vec asset) s in
    s <| db_assets := <[as_id asset := asset]> (db_assets s) |>).

Definition get_asset (s : StateDB) (id : H256) : option AssetRecord := db_assets s !! id.

Definition get_asset_owned (s : StateDB) (id : H256) : option AssetRecord :=
  match db_assets s !! id with
  | Some a => Some a
  | None => disk_get s Assets (h256_bytes id) ≫= from_slice
  end.

(** [get_asset_mut] hands out a reference into the cache: what the caller
    writes through it ([f]) reaches the cache and not the store. *)
Definition get_asset_mut (id : H256) (f : AssetRecord → AssetRecord) (s : StateDB) : StateDB :=
  match db_assets s !! id with
  | Some a => s <| db_dirty_assets := db_dirty_assets s ++ [id] |>
                <| db_assets := <[id := f a]> (db_assets s) |>
  | None => s
  end.

Definition put_asset (id : H256) (asset : AssetRecord) (s : StateDB) : StateDB :=
  let s := s <| db_dirty_assets := db_dirty_assets s ++ [id] |> in
  let s := persist Assets (h256_bytes id) (to_vec asset) s in
  s <| db_assets := <[id := asset]> (db_assets s) |>.

Definition get_ownership (s : StateDB) (asset_id : H256) (owner : Address) : OwnershipRecord :=
  default (Own.new asset_id owner) (db_ownership s !! (asset_id, owner)).

Definition asset_holder_count (s : StateDB) (asset_id : H256) : Z :=
  default 0 (db_asset_holder_count s !! asset_id).

(** The holder counter after a record's total moved between zero and non-zero. *)
Definition bump_holder_count (asset_id : H256) (is_holder : bool) (s : StateDB) : StateDB :=
  let entry := asset_holder_count s asset_id in
  let updated := if is_holder then saturating_add 32 entry 1 else saturating_sub entry 1 in
  let s := s <| db_asset_holder_count := <[asset_id := updated]> (db_asset_holder_count s) |> in
  persist ChainMeta ("holders:" +:+ h256_bytes asset_id) (to_le_bytes 4 updated) s.

Definition put_ownership (record : OwnershipRecord) : M StateDB StateError unit :=
  let key := (ow_asset_id record, ow_owner record) in
  _ ← modify (λ s, s <| db_dirty_assets := db_dirty_assets s ++ [ow_asset_id record] |>);
  prev ← gets (λ s, db_ownership s !! key);
  prev_total ← lift (match prev with Some r => Own.total r | None => Ok 0 end);
  new_total ← lift (Own.total record);
  _ ← modify (persist Ownership (h256_bytes (ow_asset_id record) +:+ address_bytes (ow_owner record))
                (to_vec record));
  _ ← modify (λ s, s <| db_ownership := <[key := record]> (db_ownership s) |>);
  let was_holder := negb (Amount.is_zero prev_total) in
  let is_holder := negb (Amount.is_zero new_total) in
  if Bool.eqb was_holder is_holder then mret tt
  else modify (bump_holder_count (ow_asset_id record) is_holder).

Definition transfer_asset (asset_id : H256) (from to : Address) (amount : Amount)
    : M StateDB StateError unit :=
  if Amount.is_zero amount then mret tt
  else
    asset ← gets (λ s, db_assets s !! asset_id);
    asset ← lift (ok_or (Serialization ("asset not found: " +:+ h256_to_string asset_id)) asset);
    _ ← fail_if (negb (Asset.is_tradeable asset))
          (Serialization ("asset not tradeable: " +:+ Asset.status_str asset));
    from_record ← gets (λ s, get_ownership s asset_id from);
    let '(debited, from_record') := Own.debit amount from_record in
    _ ← fail_if (negb debited) (StInsufficientBalance (ow_available from_record) amount);
    _ ← put_ownership from_record';
    to_record ← gets (λ s, get_ownership s asset_id to);
    to_record' ← lift (Own.credit amount to_record);
    put_ownership to_record'.

Definition iter_ownership_for_asset (s : StateDB) (asset_id : H256) : list OwnershipRecord :=
  snd <$> filter (λ kv, kv.1.1 = asset_id) (hash_iter (db_ownership s)).

Definition put_asset_proposal (p : AssetProposal) (s : StateDB) : StateDB :=
  let s := persist AssetProposals (h256_bytes (ap_id p)) (to_vec p) s in
  s <| db_asset_proposals := <[ap_id p := p]> (db_asset_proposals s) |>.

Definition get_asset_proposal (s : StateDB) (id : H256) : option AssetProposal :=
  db_asset_proposals s !! id.

(** As [get_asset_mut]: [f] reaches the cache and not the store. *)
Definition get_asset_proposal_mut (id : H256) (f : AssetProposal → AssetProposal)
    (s : StateDB) : StateDB :=
  match db_asset_proposals s !! id with
  | Some p => s <| db_asset_proposals := <[id := f p]> (db_asset_proposals s) |>
  | None => s
  end.

Definition iter_asset_proposals (s : StateDB) : list (H256 * AssetProposal) :=
  hash_iter (db_asset_proposals s).

Definition iter_asset_proposals_for_asset (s : StateDB) (asset_id : H256) : list AssetProposal :=
  filter (λ p, ap_asset_id p = asset_id) (snd <$> iter_asset_proposals s).

Definition asset_count (s : StateDB) : Z := Z.of_nat (size (db_assets s)).

Definition iter_assets (s : StateDB) : list (H256 * AssetRecord) := hash_iter (db_assets s).

(** ** Oracles *)

Definition register_oracle (feed : OracleFeed) : M StateDB StateError unit :=
  dup ← gets (λ s, bool_decide (is_Some (db_oracles s !! of_feed_id feed)));
  _ ← fail_if dup (Serialization ("oracle feed already exists: " +:+ h256_to_string (of_feed_id feed)));
  modify (λ s,
    let s := persist Oracles (h256_bytes (of_feed_id feed)) (to_vec feed) s in
    s <| db_oracles := <[of_feed_id feed := feed]> (db_oracles s) |>).

Definition submit_oracle (feed_id : H256) (source : Address) (value : Amount) (timestamp : Z)
    : M StateDB StateError bool :=
  feed ← gets (λ s, db_oracles s !! feed_id);
  feed ← lift (ok_or (Serialization ("oracle feed not found: " +:+ h256_to_string feed_id)) feed);
  _ ← fail_if (negb (Oracle.is_authorized feed source))
        (Serialization ("address is not an authorized source for feed " +:+ h256_to_string feed_id));
  let '(reached, feed') := Oracle.submit source value timestamp feed in
  _ ← modify (λ s, s <| db_oracles := <[feed_id := feed']> (db_oracles s) |>);
  _ ← modify (persist Oracles (h256_bytes feed_id) (to_vec feed'));
  mret reached.

Definition get_oracle (s : StateDB) (feed_id : H256) : option OracleFeed := db_oracles s !! feed_id.

(** As [get_asset_mut]. *)
Definition get_oracle_mut (feed_id : H256) (f : OracleFeed → OracleFeed) (s : StateDB) : StateDB :=
  match db_oracles s !! feed_id with
  | Some feed => s <| db_oracles := <[feed_id := f feed]> (db_oracles s) |>
  | None => s
  end.

Definition oracle_count (s : StateDB) : Z := Z.of_nat (size (db_oracles s)).

Definition iter_oracles (s : StateDB) : list (H256 * OracleFeed) := hash_iter (db_oracles s).

(** ** Contracts, pools, mining states *)

Definition store_code (code : bytes) (s : StateDB) : H256 * StateDB :=
  let hash := blake3_hash code in
  let s := persist ContractCode (h256_bytes hash) code s in
  (hash, s <| db_contract_code := <[hash := code]> (db_contract_code s) |>).

Definition get_code (s : StateDB) (h : H256) : option bytes := db_contract_code s !! h.

Definition get_code_owned (s : StateDB) (h : H256) : option bytes :=
  match db_contract_code s !! h with
  | Some c => Some c
  | None => disk_get s ContractCode (h256_bytes h)
  end.

Definition get_contract_storage (s : StateDB) (a : Address) (k : bytes) : option bytes :=
  match db_contract_storage s !! (a, k) with
  | Some v => Some v
  | None => disk_get s ContractStorage (address_bytes a +:+ k)
  end.

Definition put_contract_storage (a : Address) (k v : bytes) (s : StateDB) : StateDB :=
  let s := s <| db_dirty := db_dirty s ++ [a] |> in
  let s := persist ContractStorage (address_bytes a +:+ k) v s in
  s <| db_contract_storage := <[(a, k) := v]> (db_contract_storage s) |>.

Definition delete_contract_storage (a : Address) (k : bytes) (s : StateDB) : StateDB :=
  let s := s <| db_dirty := db_dirty s ++ [a] |> in
  let s := match db_storage s with
           | Some st =>
               s <| db_storage := Some (Kv.delete ContractStorage (address_bytes a +:+ k) st) |>
           | None => s
           end in
  s <| db_contract_storage := delete (a, k) (db_contract_storage s) |>.

(** At most 10,000 entries, in iteration order. *)
Definition load_contract_storage (s : StateDB) (a : Address) : gmap bytes bytes :=
  list_to_map ((λ kv, (kv.1.2, kv.2)) <$>
    take (Z.to_nat 10000) (filter (λ kv, kv.1.1 = a) (hash_iter (db_contract_storage s)))).

Definition get_pool_raw (s : StateDB) (id : H256) : option bytes := db_pools s !! id.

Definition get_pool_raw_owned (s : StateDB) (id : H256) : option bytes :=
  match db_pools s !! id with
  | Some d => Some d
  | None => disk_get s Pools (h256_bytes id)
  end.

Definition put_pool_raw (id : H256) (data : bytes) (s : StateDB) : StateDB :=
  let s := persist Pools (h256_bytes id) data s in
  let s := s <| db_pools := <[id := data]> (db_pools s) |> in
  s <| db_dirty_pools := db_dirty_pools s ++ [id] |>.

Definition has_pool (s : StateDB) (id : H256) : bool :=
  bool_decide (is_Some (db_pools s !! id))
  || bool_decide (is_Some (disk_get s Pools (h256_bytes id))).

Definition iter_pools (s : StateDB) : list (H256 * bytes) := hash_iter (db_pools s).

Definition get_mining_state_raw (s : StateDB) (id : H256) : option bytes :=
  db_mining_states s !! id.

Definition put_mining_state_raw (id : H256) (data : bytes) (s : StateDB) : StateDB :=
  let s := persist MiningStates (h256_bytes id) data s in
  s <| db_mining_states := <[id := data]> (db_mining_states s) |>.

Definition has_mining_state (s : StateDB) (id : H256) : bool :=
  bool_decide (is_Some (db_mining_states s !! id))
  || bool_decide (is_Some (disk_get s MiningStates (h256_bytes id))).

(** ** Parameters and flags *)

Definition bool_byte (b : bool) : bytes := to_le_bytes 1 (if b then 1 else 0).

Definition set_treasury_address (a : Address) (s : StateDB) : StateDB :=
  let s := persist ChainMeta "treasury_address" (address_bytes a) s in
  s <| db_treasury_address := a |>.

Definition set_epoch_length (length : Z) (s : StateDB) : StateDB :=
  let s := persist ChainMeta "epoch_length" (to_le_bytes 8 length) s in
  s <| db_epoch_length := length |>.

Definition set_dex_paused (paused : bool) (s : StateDB) : StateDB :=
  let s := persist ChainMeta "dex:paused" (bool_byte paused) s in
  s <| db_dex_paused := paused |>.

Definition record_mint_milli (milli : Z) (s : StateDB) : StateDB :=
  let total := saturating_add 64 (db_total_minted_milli s) milli in
  let s := s <| db_total_minted_milli := total |> in
  persist ChainMeta "supply:minted_milli" (to_le_bytes 8 total) s.

Definition record_burn_milli (milli : Z) (s : StateDB) : StateDB :=
  let total := saturating_add 64 (db_total_burned_milli s) milli in
  let s := s <| db_total_burned_milli := total |> in
  persist ChainMeta "supply:burned_milli" (to_le_bytes 8 total) s.

Definition is_bridge_paused (s : StateDB) : bool :=
  match disk_get s ChainMeta "bridge:paused" with
  | Some v => bool_decide (v = bool_byte true)
  | None => false
  end.

Definition set_bridge_paused (paused : bool) (s : StateDB) : StateDB :=
  persist ChainMeta "bridge:paused" (bool_byte paused) s.

Definition bridge_relayer (s : StateDB) : Address :=
  match disk_get s ChainMeta "bridge:relayer" with
  | Some v => if blen v =? 20 then MkAddress v else Address_ZERO
  | None => Address_ZERO
  end.

Definition set_bridge_relayer (relayer : Address) (s : StateDB) : StateDB :=
  persist ChainMeta "bridge:relayer" (address_bytes relayer) s.

Definition get_param_raw (s : StateDB) (key : string) : option bytes :=
  disk_get s ChainMeta ("param:" +:+ key).

Definition set_param_raw (key : string) (value : bytes) (s : StateDB) : StateDB :=
  persist ChainMeta ("param:" +:+ key) value s.

(** A parameter stored as an [n]-byte little-endian integer. *)
Definition get_param_le (s : StateDB) (key : string) (n : nat) : option Z :=
  raw ← get_param_raw s key;
  if blen raw =? Z.of_nat n then Some (from_le_bytes raw) else None.

Definition get_min_gas_price_override s := get_param_le s "min_gas_price" 16.
Definition set_min_gas_price (v : Amount) := set_param_raw "min_gas_price" (to_le_bytes 16 v).
Definition get_base_transfer_cost_override s := get_param_le s "base_transfer_cost" 8.
Definition set_base_transfer_cost (v : Z) := set_param_raw "base_transfer_cost" (to_le_bytes 8 v).
Definition get_cost_per_byte_override s := get_param_le s "cost_per_byte" 8.
Definition set_cost_per_byte (v : Z) := set_param_raw "cost_per_byte" (to_le_bytes 8 v).
Definition get_slash_double_sign_bps_override s := get_param_le s "slash_double_sign_bps" 2.
Definition set_slash_double_sign_bps (v : Z) := set_param_raw "slash_double_sign_bps" (to_le_bytes 2 v).
Definition get_slash_downtime_bps_override s := get_param_le s "slash_downtime_bps" 2.
Definition set_slash_downtime_bps (v : Z) := set_param_raw "slash_downtime_bps" (to_le_bytes 2 v).
Definition get_downtime_threshold_pct_override s := get_param_le s "downtime_threshold_pct" 1.
Definition set_downtime_threshold_pct (v : Z) := set_param_raw "downtime_threshold_pct" (to_le_bytes 1 v).
Definition get_unbonding_period_secs_override s := get_param_le s "unbonding_period_secs" 8.
Definition set_unbonding_period_secs (v : Z) := set_param_raw "unbonding_period_secs" (to_le_bytes 8 v).
Definition get_max_holders_per_asset s : Z := default 0 (get_param_le s "max_holders_per_asset" 4).
Definition set_max_holders_per_asset (v : Z) := set_param_raw "max_holders_per_asset" (to_le_bytes 4 v).

Definition effective_unbonding_period_ms (s : StateDB) (fallback_secs : Z) : Z :=
  saturating_mul 64 (default fallback_secs (get_unbonding_period_secs_override s)) 1000.

(** ** Jurisdictions *)

Definition decode_country_list (raw : option bytes) : list bytes :=
  match raw ≫= Str.from_utf8 with
  | Some s => filter (λ c, c ≠ "")
                ((λ c, Str.to_ascii_uppercase (Str.trim c)) <$> Str.split Str.comma s)
  | None => []
  end.

Definition get_jurisdiction_whitelist s := decode_country_list (get_param_raw s "jurisdiction_whitelist").
Definition set_jurisdiction_whitelist (csv : bytes) := set_param_raw "jurisdiction_whitelist" csv.
Definition get_jurisdiction_blacklist s := decode_country_list (get_param_raw s "jurisdiction_blacklist").
Definition set_jurisdiction_blacklist (csv : bytes) := set_param_raw "jurisdiction_blacklist" csv.

Definition get_address_jurisdiction (s : StateDB) (a : Address) : option bytes :=
  disk_get s ChainMeta ("jur:" +:+ address_bytes a) ≫= Str.from_utf8.

Definition set_address_jurisdiction (a : Address) (country : bytes) (s : StateDB) : StateDB :=
  let key := "jur:" +:+ address_bytes a in
  if bool_decide (country = "") then
    match db_storage s with
    | Some st => s <| db_storage := Some (Kv.delete ChainMeta key st) |>
    | None => s
    end
  else persist ChainMeta key country s.

(** ** Registered chains *)

Definition registered_chain_key (chain_id : Z) : bytes :=
  "chain:registered:" +:+ to_le_bytes 4 chain_id.

Definition put_registered_chain (chain_id : Z) (data : bytes) (s : StateDB) : StateDB :=
  persist ChainMeta (registered_chain_key chain_id) data s.

Definition get_registered_chain (s : StateDB) (chain_id : Z) : option bytes :=
  disk_get s ChainMeta (registered_chain_key chain_id).

Definition iter_registered_chains (s : StateDB) : list (Z * bytes) :=
  match db_storage s with
  | None => []
  | Some st =>
      omap (λ kv, suffix ← Str.strip_prefix "chain:registered:" kv.1;
                  if blen suffix =? 4 then Some (from_le_bytes suffix, kv.2) else None)
        (Kv.prefix_scan st ChainMeta "chain:registered:")
  end.

Definition next_registered_chain_id (s : StateDB) : Z * StateDB :=
  let key := "chain:registered:next_id" in
  let current := match disk_get s ChainMeta key with
                 | Some b => if blen b =? 4 then from_le_bytes b else 1
                 | None => 1
                 end in
  (current, persist ChainMeta key (to_le_bytes 4 (wrap 32 (current + 1))) s).

(** ** Bridge deposits and governance ids *)

Definition bridge_deposit_key (source_chain : Z) (source_tx_hash : H256) : bytes :=
  "bridge:deposit:v2:" +:+ to_le_bytes 4 source_chain +:+ h256_bytes source_tx_hash.

Definition bridge_deposit_processed (s : StateDB) (source_chain : Z) (h : H256) : bool :=
  bool_decide (is_Some (disk_get s ChainMeta (bridge_deposit_key source_chain h)))
  || bool_decide (is_Some (disk_get s ChainMeta ("bridge:deposit:" +:+ h256_bytes h))).

Definition mark_bridge_deposit_processed (source_chain : Z) (h : H256) (s : StateDB) : StateDB :=
  persist ChainMeta (bridge_deposit_key source_chain h) (to_le_bytes 1 1) s.

(** [copy_from_slice] panics on a stored value that is not 8 bytes long. *)
Definition next_governance_id {E} : M StateDB E Z :=
  stored ← gets (λ s, disk_get s ChainMeta "governance:next_id");
  current ← lift (match stored with
                  | Some v => if blen v =? 8 then Ok (from_be_bytes v) else Panic
                  | None => Ok 0
                  end);
  _ ← modify (persist ChainMeta "governance:next_id" (to_be_bytes 8 (wrap 64 (current + 1))));
  mret current.

Definition put_governance_proposal (id : H256) (data : bytes) (s : StateDB) : StateDB :=
  let s := persist ChainMeta ("gov:" +:+ h256_bytes id) data s in
  s <| db_governance_proposals := <[id := data]> (db_governance_proposals s) |>.

Definition get_governance_proposal_owned (s : StateDB) (id : H256) : option bytes :=
  match db_governance_proposals s !! id with
  | Some d => Some d
  | None => disk_get s ChainMeta ("gov:" +:+ h256_bytes id)
  end.

Definition iter_governance_proposals (s : StateDB) : list (H256 * bytes) :=
  hash_iter (db_governance_proposals s).

Definition iter_accounts (s : StateDB) : list (Address * AccountState) :=
  hash_iter (db_accounts s).

Definition get_account_opt (s : StateDB) (a : Address) : option AccountState := db_accounts s !! a.

Definition account_count (s : StateDB) : Z := Z.of_nat (size (db_accounts s)).

Definition stakers_empty (s : StateDB) : bool := bool_decide (db_stakers s = ∅).

Definition get_governance_proposal (s : StateDB) (id : H256) : option bytes :=
  db_governance_proposals s !! id.

Definition set_finalized_block (number : Z) (s : StateDB) : StateDB :=
  persist ChainMeta "finalized_block" (to_be_bytes 8 number) s.

Definition finalized_block (s : StateDB) : Z :=
  match disk_get s ChainMeta "finalized_block" with
  | Some v => if blen v =? 8 then from_be_bytes v else 0
  | None => 0
  end.

(** ** KYC, slashing evidence, block commitments, missed slots *)

Definition set_kyc_approved (a : Address) (approved : bool) (s : StateDB) : StateDB :=
  let s := s <| db_kyc_approved := if approved then {[a]} ∪ db_kyc_approved s
                                   else db_kyc_approved s ∖ {[a]} |> in
  persist ChainMeta "kyc:approved" (to_vec (set_iter (db_kyc_approved s))) s.

Definition is_kyc_approved (s : StateDB) (a : Address) : bool :=
  bool_decide (a ∈ db_kyc_approved s).

Definition persist_slashing_seen (s : StateDB) : StateDB :=
  persist ChainMeta "slashing:seen" (to_vec (set_iter (db_slashing_seen s))) s.

Definition slashing_evidence_seen (s : StateDB) (offender : Address) (epoch slot : Z) : bool :=
  bool_decide ((offender, epoch, slot) ∈ db_slashing_seen s).

Definition mark_slashing_evidence (offender : Address) (epoch slot : Z) (s : StateDB) : StateDB :=
  persist_slashing_seen
    (s <| db_slashing_seen := {[(offender, epoch, slot)]} ∪ db_slashing_seen s |>).

Definition persist_block_commitments (s : StateDB) : StateDB :=
  persist ChainMeta "block:commitments" (to_vec (hash_iter (db_block_commitments s))) s.

Definition record_block_commitment (validator : Address) (epoch slot : Z) (hash : H256)
    (s : StateDB) : option H256 * StateDB :=
  let key := (validator, epoch, slot) in
  let prior := db_block_commitments s !! key in
  let s := s <| db_block_commitments := <[key := hash]> (db_block_commitments s) |> in
  (prior, match prior with Some _ => s | None => persist_block_commitments s end).

Definition persist_missed_slots (s : StateDB) : StateDB :=
  persist ChainMeta "missed:slots" (to_vec (hash_iter (db_missed_slots s))) s.

Definition record_missed_slot (epoch : Z) (validator : Address) (s : StateDB) : StateDB :=
  let counter := default 0 (db_missed_slots s !! (epoch, validator)) in
  persist_missed_slots
    (s <| db_missed_slots := <[(epoch, validator) := saturating_add 32 counter 1]>
                               (db_missed_slots s) |>).

Definition take_missed_slots_for_epoch (epoch : Z) (s : StateDB) : list (Address * Z) * StateDB :=
  let out := (λ kv, (kv.1.2, kv.2)) <$>
               filter (λ kv, kv.1.1 = epoch) (hash_iter (db_missed_slots s)) in
  let s := s <| db_missed_slots := filter (λ kv, kv.1.1 ≠ epoch) (db_missed_slots s) |> in
  (out, persist_missed_slots s).

Definition slashing_history_raw (s : StateDB) (validator : Address) : list (Z * string * Z) :=
  default [] (disk_get s ChainMeta ("slash:history:" +:+ address_bytes validator) ≫= from_slice).

Definition record_slash (validator : Address) (epoch : Z) (reason : string) (amount : Amount)
    (s : StateDB) : StateDB :=
  let s := persist ChainMeta ("slash:" +:+ address_bytes validator +:+ to_be_bytes 8 epoch)
             (reason +:+ ":" +:+ pretty (Z.to_N amount)) s in
  let history := slashing_history_raw s validator ++ [(epoch, reason, amount)] in
  persist ChainMeta ("slash:history:" +:+ address_bytes validator) (to_vec history) s.

(** ** Unbonding and slashing *)

Definition persist_unbonding_entries (s : StateDB) : StateDB :=
  persist ChainMeta "unbonding:all" (to_vec (hash_iter (db_unbonding_entries s))) s.

Definition get_unbonding_entries (s : StateDB) (a : Address) : list UnbondingEntry :=
  default [] (db_unbonding_entries s !! a).

Definition add_unbonding_entry (a : Address) (e : UnbondingEntry) (s : StateDB) : StateDB :=
  persist_unbonding_entries
    (s <| db_unbonding_entries := <[a := get_unbonding_entries s a ++ [e]]>
                                    (db_unbonding_entries s) |>).

(** Drop the addresses left without entries. *)
Definition retain_nonempty (m : gmap Address (list UnbondingEntry))
    : gmap Address (list UnbondingEntry) :=
  filter (λ kv, kv.2 ≠ []) m.

Definition matured (now : Z) (e : UnbondingEntry) : bool := ub_completion_time e <=? now.

(** The sum accumulated by [entries.retain]; an overflow panics. *)
Definition released_of {E} (now : Z) (entries : list UnbondingEntry) : res E Amount :=
  fold_res (λ acc e, if matured now e then Amount.add acc (ub_amount e) else Ok acc) 0 entries.

(** The loop over [unbonding_entries.iter_mut()]: releases in iteration order
    and their total. *)
Definition collect_step {E} (now : Z) (acc : list (Address * Amount) * Amount)
    (kv : Address * list UnbondingEntry) : res E (list (Address * Amount) * Amount) :=
  released ← released_of now kv.2;
  if Amount.is_zero released then Ok acc
  else
    total ← Amount.add acc.2 released;
    Ok (acc.1 ++ [(kv.1, released)], total).

Definition collect_releases {E} (now : Z) (l : list (Address * list UnbondingEntry))
    : res E (list (Address * Amount) * Amount) :=
  fold_res (collect_step now) ([], 0) l.

Definition process_unbonding (now : Z) : M StateDB StateError Amount :=
  entries ← gets (λ s, hash_iter (db_unbonding_entries s));
  rt ← lift (collect_releases now entries);
  _ ← modify (λ s, s <| db_unbonding_entries :=
        (filter (λ e, matured now e = false)) <$> db_unbonding_entries s |>);
  _ ← for_each rt.1 (λ r, ignore_err (add_balance r.1 r.2));
  _ ← modify (λ s, s <| db_unbonding_entries := retain_nonempty (db_unbonding_entries s) |>);
  _ ← (if Amount.is_zero rt.2 then mret tt else modify persist_unbonding_entries);
  mret rt.2.

Definition slash_target (validator : Address) (e : UnbondingEntry) : bool :=
  bool_decide (ub_validator e ≠ Address_ZERO) && bool_decide (ub_validator e = validator).

(** [values().flat_map(..).filter(..).map(..).sum()]: a wrapping [u128] sum. *)
Definition pending_unbonding (s : StateDB) (validator : Address) : Z :=
  wrap 128 (map_sumZ (λ _ entries,
    list_sumZ ub_amount (filter (λ e, slash_target validator e = true) entries))
    (db_unbonding_entries s)).

Definition entry_slash (slash_unbonding pending entry_raw : Z) : Z :=
  Z.min (default 0 (checked_div (saturating_mul 128 entry_raw slash_unbonding) pending)) entry_raw.

Definition slash_entry (validator : Address) (slash_unbonding pending : Z) (e : UnbondingEntry)
    : UnbondingEntry :=
  if slash_target validator e
  then MkUnbondingEntry (ub_amount e - entry_slash slash_unbonding pending (ub_amount e))
         (ub_completion_time e) (ub_validator e)
  else e.

(** One address's entries: slash each, then drop those reduced to zero. *)
Definition slash_entries (validator : Address) (slash_unbonding pending : Z)
    (l : list UnbondingEntry) : list UnbondingEntry :=
  filter (λ e, ub_amount e ≠ 0) (slash_entry validator slash_unbonding pending <$> l).

Definition slash_changes (validator : Address) (slash_unbonding pending : Z)
    (m : gmap Address (list UnbondingEntry)) : bool :=
  existsb (λ kv, existsb (λ e, slash_target validator e &&
    (0 <? entry_slash slash_unbonding pending (ub_amount e))) kv.2) (map_to_list m).

(** The excess over the stake, charged to the in-flight withdrawals. *)
Definition slash_pending {E} (validator : Address) (slash_unbonding pending : Z)
    : M StateDB E unit :=
  if (0 <? slash_unbonding) && (0 <? pending) then
    changed ← gets (λ s, slash_changes validator slash_unbonding pending
                           (db_unbonding_entries s));
    _ ← modify (λ s, s <| db_unbonding_entries := retain_nonempty
          (slash_entries validator slash_unbonding pending <$> db_unbonding_entries s) |>);
    if (changed : bool) then modify persist_unbonding_entries else mret tt
  else mret tt.

Definition apply_slash {E} (validator : Address) (amount : Amount) : M StateDB E Amount :=
  account ← gets (λ s, get_account s validator);
  match ac_staking account with
  | None => mret 0
  | Some staking =>
      pending ← gets (λ s, pending_unbonding s validator);
      let combined := saturating_add 128 (sk_total_stake staking) pending in
      if combined =? 0 then mret 0
      else
        let requested := Z.min amount combined in
        let slash_stake := Z.min requested (sk_total_stake staking) in
        let from_self := if sk_self_stake staking <? slash_stake then sk_self_stake staking
                         else slash_stake in
        self' ← lift (Amount.sub (sk_self_stake staking) from_self);
        total' ← lift (Amount.sub (sk_total_stake staking) slash_stake);
        _ ← modify (put_account validator
              (account <| ac_staking := Some (staking <| sk_self_stake := self' |>
                                                       <| sk_total_stake := total' |>) |>));
        let slash_unbonding := saturating_sub requested slash_stake in
        _ ← slash_pending validator slash_unbonding pending;
        mret requested
  end.

End with_env.
End State.

(** ** What a write changes *)

Lemma persist_unfold c k v s :
  persist c k v s = s <| db_storage := Kv.put c k v <$> db_storage s |>.
Proof. unfold persist. destruct s as []; cbn. by case_match. Qed.

Lemma disk_get_persist_eq c k v s :
  is_Some (db_storage s) → disk_get (persist c k v s) c k = Some v.
Proof.
  intros [st Hst]. rewrite persist_unfold. unfold disk_get. cbn. rewrite Hst. cbn.
  apply kv_get_put_eq.
Qed.

Lemma disk_get_persist_ne c k v s c' k' :
  (c, k) ≠ (c', k') → disk_get (persist c k v s) c' k' = disk_get s c' k'.
Proof.
  intros Hne. rewrite persist_unfold. unfold disk_get. cbn.
  destruct (db_storage s); cbn; [by apply kv_get_put_ne|done].
Qed.

Section state_lemmas.
Context `{Env}.

(** The store after [put_account]. *)
Definition put_account_storage (a : Address) (acc : AccountState) (s : StateDB) : option KvStore :=
  db_storage (State.put_account a acc s).

Lemma put_account_unfold a acc s :
  State.put_account a acc s =
    s <| db_dirty := db_dirty s ++ [a] |>
      <| db_storage := put_account_storage a acc s |>
      <| db_stakers := if State.has_self_stake acc then {[a]} ∪ db_stakers s
                       else db_stakers s ∖ {[a]} |>
      <| db_accounts := <[a := acc]> (db_accounts s) |>.
Proof.
  unfold put_account_storage, State.put_account, State.persist_stakers.
  rewrite !persist_unfold. by destruct (if State.has_self_stake acc then _ else _).
Qed.

Lemma put_account_storage_Some a acc s :
  is_Some (put_account_storage a acc s) ↔ is_Some (db_storage s).
Proof.
  unfold put_account_storage, State.put_account, State.persist_stakers.
  rewrite !persist_unfold.
  by destruct (if State.has_self_stake acc then _ else _); cbn; rewrite ?fmap_is_Some.
Qed.

Lemma address_bytes_inj a b : address_bytes a = address_bytes b → a = b.
Proof. destruct a, b. cbn. by intros ->. Qed.

(** On disk, [put_account] writes the account's own key and possibly the
    staker index. *)
Lemma put_account_disk_other a acc s c k :
  (c, k) ≠ (ChainMeta, "stakers:set") → (c, k) ≠ (Accounts, address_bytes a) →
  disk_get (State.put_account a acc s) c k = disk_get s c k.
Proof.
  intros Hc Hk. unfold State.put_account, State.persist_stakers.
  assert (∀ s m, disk_get (s <| db_accounts := m |>) c k = disk_get s c k) as Hd by done.
  rewrite Hd. destruct (if State.has_self_stake acc then _ else _).
  - rewrite disk_get_persist_ne by congruence.
    change (disk_get (persist Accounts (address_bytes a) (to_vec acc)
      (s <| db_dirty := db_dirty s ++ [a] |>)) c k = disk_get s c k).
    by rewrite disk_get_persist_ne by congruence.
  - change (disk_get (persist Accounts (address_bytes a) (to_vec acc)
      (s <| db_dirty := db_dirty s ++ [a] |>)) c k = disk_get s c k).
    by rewrite disk_get_persist_ne by congruence.
Qed.

Lemma put_account_disk_eq a acc s :
  is_Some (db_storage s) →
  disk_get (State.put_account a acc s) Accounts (address_bytes a) = Some (to_vec acc).
Proof.
  intros Hs. unfold State.put_account, State.persist_stakers.
  assert (∀ s m c k, disk_get (s <| db_accounts := m |>) c k = disk_get s c k) as Hd by done.
  rewrite Hd. destruct (if State.has_self_stake acc then _ else _);
    [rewrite disk_get_persist_ne by congruence|];
    change (disk_get (persist Accounts (address_bytes a) (to_vec acc)
      (s <| db_dirty := db_dirty s ++ [a] |>)) Accounts (address_bytes a) = Some (to_vec acc));
    by apply disk_get_persist_eq.
Qed.

Lemma get_account_put_eq a acc s : State.get_account (State.put_account a acc s) a = acc.
Proof. unfold State.get_account. rewrite put_account_unfold. cbn. by rewrite lookup_insert_eq. Qed.

Lemma get_account_put_ne a b acc s :
  a ≠ b → State.get_account (State.put_account a acc s) b = State.get_account s b.
Proof.
  intros Hab. unfold State.get_account.
  replace (db_accounts (State.put_account a acc s)) with (<[a := acc]> (db_accounts s))
    by (by rewrite put_account_unfold).
  rewrite lookup_insert_ne by done. destruct (db_accounts s !! b); [done|].
  rewrite put_account_disk_other; [done|congruence|]. intros [=]. by apply Hab, address_bytes_inj.
Qed.

Lemma get_account_put a b acc s :
  State.get_account (State.put_account a acc s) b =
    if decide (a = b) then acc else State.get_account s b.
Proof. case_decide; [subst; apply get_account_put_eq|by apply get_account_put_ne]. Qed.

(** [get_account] only reads the account cache and the store. *)
Lemma get_account_frame s s' a :
  db_accounts s' = db_accounts s → db_storage s' = db_storage s →
  State.get_account s' a = State.get_account s a.
Proof. intros H1 H2. unfold State.get_account, disk_get. by rewrite H1, H2. Qed.

Lemma get_account_persist c k v s a :
  c ≠ Accounts → State.get_account (persist c k v s) a = State.get_account s a.
Proof.
  intros Hc. unfold State.get_account. rewrite disk_get_persist_ne by congruence.
  by rewrite persist_unfold.
Qed.

(** ** Balances *)

Definition balances_ok (s : StateDB) : Prop := ∀ a, in_width 128 (State.get_balance s a).

Lemma add_balance_spec a v s :
  State.add_balance a v s =
    if State.get_balance s a + v <? 2 ^ 128
    then (Ok tt, State.put_account a
                   ((State.get_account s a) <| ac_balance := State.get_balance s a + v |>) s)
    else (Err (Serialization "balance overflow"), s).
Proof.
  unfold State.add_balance, State.get_balance, checked_add. mrun. by destruct (_ <? _).
Qed.

Lemma sub_balance_spec a v s :
  State.sub_balance a v s =
    if v <=? State.get_balance s a
    then (Ok tt, State.put_account a
                   ((State.get_account s a) <| ac_balance := State.get_balance s a - v |>) s)
    else (Err (StInsufficientBalance (State.get_balance s a) v), s).
Proof.
  unfold State.sub_balance, State.get_balance, checked_sub. mrun. by destruct (_ <=? _).
Qed.

Lemma get_balance_put a b acc s :
  State.get_balance (State.put_account a acc s) b =
    if decide (a = b) then ac_balance acc else State.get_balance s b.
Proof. unfold State.get_balance. rewrite get_account_put. by case_decide. Qed.
End state_lemmas.
