(* ===== verification/Dex.v ===== *)
(** * The AMM ([crates/vtt-dex/src]: [pool.rs], [liquidity.rs], [swap.rs],
    [mining.rs], [revenue.rs])

    Liquidity pools over [StateDB]: creation, deposits, withdrawals, swaps,
    protocol fees and liquidity mining.  The tokens of every pool sit at the
    zero address (assets) or are debited from the sender (native VTT). *)

From S2P Require Import Prelude Primitives DexMath Storage Assets Oracle StateDB.

Record PoolState := MkPoolState {
  pl_pool_id : H256;
  pl_token_a : H256;
  pl_token_b : H256;
  pl_reserve_a : Amount;
  pl_reserve_b : Amount;
  pl_lp_token_id : H256;
  pl_lp_total_supply : Amount;
  pl_fee_bps : Z;
  pl_protocol_fee_bps : Z;
  pl_protocol_fees_a : Amount;
  pl_protocol_fees_b : Amount;
  pl_creator : Address;
  pl_created_at_epoch : Z;
}.

Definition PoolState_eta (p : PoolState) : PoolState :=
  MkPoolState (pl_pool_id p) (pl_token_a p) (pl_token_b p) (pl_reserve_a p) (pl_reserve_b p)
    (pl_lp_token_id p) (pl_lp_total_supply p) (pl_fee_bps p) (pl_protocol_fee_bps p)
    (pl_protocol_fees_a p) (pl_protocol_fees_b p) (pl_creator p) (pl_created_at_epoch p).

#[global] Instance upd_pl_reserve_a : Updater pl_reserve_a.
Proof. derive_updater PoolState_eta. Defined.
#[global] Instance upd_pl_reserve_b : Updater pl_reserve_b.
Proof. derive_updater PoolState_eta. Defined.
#[global] Instance upd_pl_lp_total_supply : Updater pl_lp_total_supply.
Proof. derive_updater PoolState_eta. Defined.
#[global] Instance upd_pl_protocol_fees_a : Updater pl_protocol_fees_a.
Proof. derive_updater PoolState_eta. Defined.
#[global] Instance upd_pl_protocol_fees_b : Updater pl_protocol_fees_b.
Proof. derive_updater PoolState_eta. Defined.

Definition NATIVE_VTT : H256 := H256_ZERO.
Definition is_native (token : H256) : bool := bool_decide (token = NATIVE_VTT).
Definition MINIMUM_LIQUIDITY : Z := 1000.
Definition DEFAULT_FEE_BPS : Z := 30.
Definition DEFAULT_PROTOCOL_FEE_BPS : Z := 5.

(** ** Liquidity mining records ([mining.rs]) *)

Record MiningPhase := MkMiningPhase { mp_duration_epochs : Z; mp_reward_per_epoch : Amount }.

Record MiningConfig := MkMiningConfig {
  mc_pool_id : H256;
  mc_total_budget : Amount;
  mc_source : Address;
  mc_phases : list MiningPhase;
}.

Record MiningClaim := MkMiningClaim { cl_reward_debt : Z; cl_unclaimed : Z }.

Record MiningState := MkMiningState {
  ms_config : MiningConfig;
  ms_start_epoch : Z;
  ms_reward_per_lp_accumulated : Z;
  ms_last_update_epoch : Z;
  ms_total_distributed : Amount;
  ms_claims : gmap bytes MiningClaim;
}.

Definition MiningState_eta (m : MiningState) : MiningState :=
  MkMiningState (ms_config m) (ms_start_epoch m) (ms_reward_per_lp_accumulated m)
    (ms_last_update_epoch m) (ms_total_distributed m) (ms_claims m).

#[global] Instance upd_ms_reward_per_lp_accumulated : Updater ms_reward_per_lp_accumulated.
Proof. derive_updater MiningState_eta. Defined.
#[global] Instance upd_ms_last_update_epoch : Updater ms_last_update_epoch.
Proof. derive_updater MiningState_eta. Defined.
#[global] Instance upd_ms_total_distributed : Updater ms_total_distributed.
Proof. derive_updater MiningState_eta. Defined.
#[global] Instance upd_ms_claims : Updater ms_claims.
Proof. derive_updater MiningState_eta. Defined.

Definition PRECISION : Z := 10 ^ 18.

Module Mining.

(** [boundary] is a wrapping [u64] sum. *)
Fixpoint phase_reward (elapsed boundary : Z) (phases : list MiningPhase) : Z :=
  match phases with
  | [] => 0
  | phase :: rest =>
      let boundary := wrap 64 (boundary + mp_duration_epochs phase) in
      if elapsed <? boundary then mp_reward_per_epoch phase
      else phase_reward elapsed boundary rest
  end.

Definition reward_at_epoch (m : MiningState) (epoch : Z) : Z :=
  phase_reward (saturating_sub epoch (ms_start_epoch m)) 0 (mc_phases (ms_config m)).

(** One epoch of [update_to_epoch]'s loop. *)
Definition accumulate (lp_total_supply : Z) (m : MiningState) (epoch : Z) : MiningState :=
  let reward := reward_at_epoch m epoch in
  if (0 <? reward) && (0 <? lp_total_supply) then
    let delta := match U256.div_u128 (U256.mul_u128 reward PRECISION) lp_total_supply with
                 | Ok d => d | _ => 0 end in
    m <| ms_reward_per_lp_accumulated
           := saturating_add 128 (ms_reward_per_lp_accumulated m) delta |>
  else m.

Definition update_to_epoch (current_epoch lp_total_supply : Z) (m : MiningState) : MiningState :=
  if (current_epoch <=? ms_last_update_epoch m) || (lp_total_supply =? 0)
  then m <| ms_last_update_epoch := current_epoch |>
  else
    let epochs := seqZ (ms_last_update_epoch m + 1) (current_epoch - ms_last_update_epoch m) in
    let m := foldl (accumulate lp_total_supply) m epochs in
    m <| ms_last_update_epoch := current_epoch |>.

Definition earned (m : MiningState) (user_lp_balance : Z) : Z :=
  match U256.div_u128 (U256.mul_u128 user_lp_balance (ms_reward_per_lp_accumulated m)) PRECISION with
  | Ok v => v | _ => 0 end.

Definition pending_rewards (m : MiningState) (user_lp_balance : Z) (user : Address) : Z :=
  let claim := default (MkMiningClaim 0 0) (ms_claims m !! address_bytes user) in
  wrap 128 (saturating_sub (earned m user_lp_balance) (cl_reward_debt claim) + cl_unclaimed claim).

Definition claim (user_lp_balance : Z) (user : Address) (m : MiningState) : Z * MiningState :=
  let pending := pending_rewards m user_lp_balance user in
  let new_debt := earned m user_lp_balance in
  (pending,
   m <| ms_claims := <[address_bytes user := MkMiningClaim new_debt 0]> (ms_claims m) |>
     <| ms_total_distributed := saturating_add 128 (ms_total_distributed m) pending |>).

End Mining.

(** [{:02x}] *)
Definition hex_digit (n : Z) : Ascii.ascii :=
  byte_of_Z (if n <? 10 then 48 + n else 87 + n).
Definition hex2 (c : Ascii.ascii) : string :=
  String (hex_digit (Z_of_byte c / 16)) (String (hex_digit (Z_of_byte c mod 16)) "").
Definition byte_at (s : bytes) (n : nat) : Ascii.ascii := default Ascii.zero (String.get n s).

Module Dex.
Section with_env.
Context `{Env, !Borsh PoolState}.

Definition compute_pool_id (token_a token_b : H256) : H256 :=
  let '(first, second) :=
    match H256_compare token_a token_b with
    | Gt => (token_b, token_a)
    | _ => (token_a, token_b)
    end in
  blake3_hash (h256_bytes first +:+ h256_bytes second).

Definition compute_lp_token_id (pool_id : H256) : H256 :=
  blake3_hash ("lp:" +:+ h256_bytes pool_id).

Definition load_pool (s : StateDB) (pool_id : H256) : res DexError PoolState :=
  data ← ok_or (PoolNotFound pool_id) (State.get_pool_raw s pool_id);
  ok_or (PoolNotFound pool_id) (from_slice data).

Definition save_pool (pool : PoolState) : M StateDB DexError unit :=
  modify (State.put_pool_raw (pl_pool_id pool) (to_vec pool)).

Definition transfer_token_in (sender : Address) (token : H256) (amount : Amount)
    : M StateDB DexError unit :=
  if is_native token
  then map_err (λ _, InsufficientBalance) (State.sub_balance sender amount)
  else map_err (λ _, InsufficientBalance)
         (State.transfer_asset token sender Address_ZERO amount).

Definition transfer_token_out (recipient : Address) (token : H256) (amount : Amount)
    : M StateDB DexError unit :=
  if is_native token
  then map_err (λ _, Overflow) (State.add_balance recipient amount)
  else map_err (λ _, InsufficientLiquidity)
         (State.transfer_asset token Address_ZERO recipient amount).

Definition lp_asset (lp_token_id pool_id : H256) (total_supply : Amount) : AssetRecord :=
  let b := λ n, hex2 (byte_at (h256_bytes pool_id) n) in
  MkAssetRecord lp_token_id
    ("LP-" +:+ b 0%nat +:+ b 1%nat +:+ b 2%nat +:+ b 3%nat)
    ("LP-" +:+ b 0%nat +:+ b 1%nat)
    Fund ChainId_RELAY Address_ZERO total_supply 18 Active None None [] "" "" ""
    PeerToPeer None 0 false 0.

Definition register_lp_asset (lp_token_id pool_id : H256) (total_supply : Amount)
    : M StateDB DexError unit :=
  map_err (λ _, Overflow) (State.register_asset (lp_asset lp_token_id pool_id total_supply)).

(** [put_ownership] has no error of its own, only panics. *)
Definition mint_lp_to (lp_token_id : H256) (recipient : Address) (amount : Amount)
    : M StateDB DexError unit :=
  record ← gets (λ s, State.get_ownership s lp_token_id recipient);
  record' ← lift (Own.credit amount record);
  map_err (λ _, Overflow) (State.put_ownership record').

Definition burn_lp_from (lp_token_id : H256) (sender : Address) (amount : Amount)
    : M StateDB DexError unit :=
  record ← gets (λ s, State.get_ownership s lp_token_id sender);
  let '(debited, record') := Own.debit amount record in
  _ ← fail_if (negb debited) InsufficientBalance;
  map_err (λ _, Overflow) (State.put_ownership record').

Definition create_pool (sender : Address) (token_a token_b : H256)
    (amount_a amount_b : Amount) (current_epoch : Z) : M StateDB DexError PoolState :=
  paused ← gets db_dex_paused;
  _ ← fail_if paused DexPaused;
  _ ← fail_if (bool_decide (token_a = token_b)) SameToken;
  _ ← fail_if ((amount_a =? 0) || (amount_b =? 0)) ZeroAmount;
  let pool_id := compute_pool_id token_a token_b in
  exists_ ← gets (λ s, State.has_pool s pool_id);
  _ ← fail_if exists_ (PoolAlreadyExists pool_id);
  _ ← transfer_token_in sender token_a amount_a;
  _ ← transfer_token_in sender token_b amount_b;
  (* [sqrt_u256_below]/[sqrt_u256_overflow]: the square root always returns *)
  lp_minted ← lift (expect (sqrt_u256 (U256.mul_u128 amount_a amount_b)));
  _ ← fail_if (lp_minted <=? MINIMUM_LIQUIDITY) ZeroLiquidity;
  let lp_token_id := compute_lp_token_id pool_id in
  let lp_for_user := lp_minted - MINIMUM_LIQUIDITY in
  _ ← register_lp_asset lp_token_id pool_id lp_minted;
  _ ← mint_lp_to lp_token_id sender lp_for_user;
  let pool := MkPoolState pool_id token_a token_b amount_a amount_b lp_token_id lp_minted
                DEFAULT_FEE_BPS DEFAULT_PROTOCOL_FEE_BPS 0 0 sender current_epoch in
  _ ← modify (State.put_pool_raw pool_id (to_vec pool));
  mret pool.

(** The amounts taken from an offer so that the pool keeps its ratio. *)
Definition optimal_amounts (pool : PoolState) (amount_a amount_b : Amount)
    : res DexError (Z * Z) :=
  optimal_b ← U256.div_u128 (U256.mul_u128 amount_a (pl_reserve_b pool)) (pl_reserve_a pool);
  if optimal_b <=? amount_b then Ok (amount_a, optimal_b)
  else
    optimal_a ← U256.div_u128 (U256.mul_u128 amount_b (pl_reserve_a pool)) (pl_reserve_b pool);
    Ok (optimal_a, amount_b).

Definition add_liquidity (sender : Address) (pool_id : H256)
    (amount_a amount_b min_lp : Amount) : M StateDB DexError Amount :=
  paused ← gets db_dex_paused;
  _ ← fail_if paused DexPaused;
  loaded ← gets (λ s, load_pool s pool_id);
  pool ← lift loaded;
  _ ← fail_if ((pl_reserve_a pool =? 0) || (pl_reserve_b pool =? 0)) ZeroLiquidity;
  actual ← lift (optimal_amounts pool amount_a amount_b);
  let '(actual_a, actual_b) := actual in
  _ ← fail_if ((actual_a =? 0) || (actual_b =? 0)) ZeroAmount;
  lp_a ← lift (U256.div_u128 (U256.mul_u128 actual_a (pl_lp_total_supply pool)) (pl_reserve_a pool));
  lp_b ← lift (U256.div_u128 (U256.mul_u128 actual_b (pl_lp_total_supply pool)) (pl_reserve_b pool));
  let lp_minted := Z.min lp_a lp_b in
  _ ← fail_if (lp_minted <? min_lp) (SlippageExceeded min_lp lp_minted);
  _ ← transfer_token_in sender (pl_token_a pool) actual_a;
  _ ← transfer_token_in sender (pl_token_b pool) actual_b;
  _ ← mint_lp_to (pl_lp_token_id pool) sender lp_minted;
  _ ← save_pool
        (pool <| pl_reserve_a := wrap 128 (pl_reserve_a pool + actual_a) |>
              <| pl_reserve_b := wrap 128 (pl_reserve_b pool + actual_b) |>
              <| pl_lp_total_supply := wrap 128 (pl_lp_total_supply pool + lp_minted) |>);
  mret lp_minted.

Definition remove_liquidity (sender : Address) (pool_id : H256)
    (lp_amount min_a min_b : Amount) : M StateDB DexError (Amount * Amount) :=
  paused ← gets db_dex_paused;
  _ ← fail_if paused DexPaused;
  loaded ← gets (λ s, load_pool s pool_id);
  pool ← lift loaded;
  _ ← fail_if (lp_amount =? 0) ZeroAmount;
  amount_a ← lift (U256.div_u128 (U256.mul_u128 lp_amount (pl_reserve_a pool)) (pl_lp_total_supply pool));
  amount_b ← lift (U256.div_u128 (U256.mul_u128 lp_amount (pl_reserve_b pool)) (pl_lp_total_supply pool));
  _ ← fail_if (amount_a <? min_a) (SlippageExceeded min_a amount_a);
  _ ← fail_if (amount_b <? min_b) (SlippageExceeded min_b amount_b);
  _ ← burn_lp_from (pl_lp_token_id pool) sender lp_amount;
  _ ← transfer_token_out sender (pl_token_a pool) amount_a;
  _ ← transfer_token_out sender (pl_token_b pool) amount_b;
  _ ← save_pool
        (pool <| pl_reserve_a := wrap 128 (pl_reserve_a pool - amount_a) |>
              <| pl_reserve_b := wrap 128 (pl_reserve_b pool - amount_b) |>
              <| pl_lp_total_supply := wrap 128 (pl_lp_total_supply pool - lp_amount) |>);
  mret (amount_a, amount_b).

(** [(reserve_in, reserve_out, is_a_to_b)] *)
Definition swap_direction (pool : PoolState) (token_in : H256) : res DexError (Z * Z * bool) :=
  if bool_decide (token_in = pl_token_a pool) then Ok (pl_reserve_a pool, pl_reserve_b pool, true)
  else if bool_decide (token_in = pl_token_b pool)
  then Ok (pl_reserve_b pool, pl_reserve_a pool, false)
  else Err InvalidTokenPair.

(** The pool after a swap. *)
Definition swapped_pool (pool : PoolState) (is_a_to_b : bool)
    (effective_in amount_out protocol_fee : Z) : PoolState :=
  if is_a_to_b then
    pool <| pl_reserve_a := wrap 128 (pl_reserve_a pool + effective_in) |>
         <| pl_reserve_b := wrap 128 (pl_reserve_b pool - amount_out) |>
         <| pl_protocol_fees_a := wrap 128 (pl_protocol_fees_a pool + protocol_fee) |>
  else
    pool <| pl_reserve_b := wrap 128 (pl_reserve_b pool + effective_in) |>
         <| pl_reserve_a := wrap 128 (pl_reserve_a pool - amount_out) |>
         <| pl_protocol_fees_b := wrap 128 (pl_protocol_fees_b pool + protocol_fee) |>.

Definition execute_swap (sender : Address) (pool_id token_in : H256)
    (amount_in min_amount_out : Amount) : M StateDB DexError Amount :=
  paused ← gets db_dex_paused;
  _ ← fail_if paused DexPaused;
  loaded ← gets (λ s, load_pool s pool_id);
  pool ← lift loaded;
  _ ← fail_if (amount_in =? 0) ZeroAmount;
  dir ← lift (swap_direction pool token_in);
  let '(reserve_in, reserve_out, is_a_to_b) := dir in
  fees ← lift (calculate_fees amount_in (pl_fee_bps pool) (pl_protocol_fee_bps pool));
  let '(amount_in_net, lp_fee, protocol_fee) := fees in
  amount_out ← lift (get_amount_out amount_in_net reserve_in reserve_out);
  _ ← fail_if (amount_out <? min_amount_out) (SlippageExceeded min_amount_out amount_out);
  _ ← fail_if (amount_out =? 0) ZeroAmount;
  _ ← transfer_token_in sender token_in amount_in;
  let token_out := if (is_a_to_b : bool) then pl_token_b pool else pl_token_a pool in
  _ ← transfer_token_out sender token_out amount_out;
  let effective_in := wrap 128 (amount_in_net + lp_fee) in
  _ ← save_pool (swapped_pool pool is_a_to_b effective_in amount_out protocol_fee);
  mret amount_out.

Definition claim_protocol_fees (sender : Address) (pool_id : H256) (treasury : Address)
    : M StateDB DexError (Amount * Amount) :=
  _ ← fail_if (bool_decide (sender ≠ treasury)) NotAuthorized;
  loaded ← gets (λ s, load_pool s pool_id);
  pool ← lift loaded;
  let fees_a := pl_protocol_fees_a pool in
  let fees_b := pl_protocol_fees_b pool in
  _ ← fail_if ((fees_a =? 0) && (fees_b =? 0)) NothingToClaim;
  _ ← (if 0 <? fees_a then transfer_token_out treasury (pl_token_a pool) fees_a else mret tt);
  _ ← (if 0 <? fees_b then transfer_token_out treasury (pl_token_b pool) fees_b else mret tt);
  _ ← save_pool (pool <| pl_protocol_fees_a := 0 |> <| pl_protocol_fees_b := 0 |>);
  mret (fees_a, fees_b).

(** The updated mining state is returned next to the reward; the caller drops
    it when an error is returned. *)
Definition claim_mining_rewards (sender : Address) (pool_id : H256) (current_epoch : Z)
    (mining_state : MiningState) : M StateDB DexError (Amount * MiningState) :=
  loaded ← gets (λ s, load_pool s pool_id);
  pool ← lift loaded;
  let m := Mining.update_to_epoch current_epoch (pl_lp_total_supply pool) mining_state in
  user_lp ← gets (λ s, ow_available (State.get_ownership s (pl_lp_token_id pool) sender));
  _ ← fail_if (user_lp =? 0) NothingToClaim;
  let '(reward, m) := Mining.claim user_lp sender m in
  _ ← fail_if (reward =? 0) NothingToClaim;
  _ ← map_err (λ _, InsufficientBalance) (State.sub_balance (mc_source (ms_config m)) reward);
  _ ← map_err (λ _, Overflow) (State.add_balance sender reward);
  mret (reward, m).

End with_env.
End Dex.
