(* ===== verification/Codecs.v ===== *)
(** * Codecs

    Borsh is third-party code of which only the round trip is assumed.  This
    file builds one concrete environment with such a codec for every stored
    type, so that the models can be evaluated on concrete states. *)

From S2P Require Import Prelude Primitives Storage Assets Oracle StateDB Dex.

#[global] Instance Delegation_eq_dec : EqDecision Delegation.
Proof. solve_decision. Defined.
#[global] Instance Delegation_countable : Countable Delegation.
Proof.
  refine (inj_countable' (λ r, (dg_delegator r, dg_amount r))
    (λ '(x1, x2), MkDelegation x1 x2) _).
  by intros [].
Defined.
#[global] Instance UnbondingEntry_eq_dec : EqDecision UnbondingEntry.
Proof. solve_decision. Defined.
#[global] Instance UnbondingEntry_countable : Countable UnbondingEntry.
Proof.
  refine (inj_countable (λ r, [encode (ub_amount r); encode (ub_completion_time r); encode (ub_validator r)])
    (λ l, match l with
          | [e1; e2; e3] =>
        x1 ← decode e1;
        x2 ← decode e2;
        x3 ← decode e3;
        Some (MkUnbondingEntry x1 x2 x3)
          | _ => None end) _).
  intros []. cbn. by rewrite !decode_encode.
Defined.
#[global] Instance StakingState_eq_dec : EqDecision StakingState.
Proof. solve_decision. Defined.
#[global] Instance StakingState_countable : Countable StakingState.
Proof.
  refine (inj_countable (λ r, [encode (sk_total_stake r); encode (sk_self_stake r); encode (sk_commission_bps r); encode (sk_active r); encode (sk_delegations r); encode (sk_unbonding r)])
    (λ l, match l with
          | [e1; e2; e3; e4; e5; e6] =>
        x1 ← decode e1;
        x2 ← decode e2;
        x3 ← decode e3;
        x4 ← decode e4;
        x5 ← decode e5;
        x6 ← decode e6;
        Some (MkStakingState x1 x2 x3 x4 x5 x6)
          | _ => None end) _).
  intros []. cbn. by rewrite !decode_encode.
Defined.
#[global] Instance AccountState_eq_dec : EqDecision AccountState.
Proof. solve_decision. Defined.
#[global] Instance AccountState_countable : Countable AccountState.
Proof.
  refine (inj_countable (λ r, [encode (ac_nonce r); encode (ac_balance r); encode (ac_code_hash r); encode (ac_storage_root r); encode (ac_staking r)])
    (λ l, match l with
          | [e1; e2; e3; e4; e5] =>
        x1 ← decode e1;
        x2 ← decode e2;
        x3 ← decode e3;
        x4 ← decode e4;
        x5 ← decode e5;
        Some (MkAccountState x1 x2 x3 x4 x5)
          | _ => None end) _).
  intros []. cbn. by rewrite !decode_encode.
Defined.

#[global] Instance AssetClass_countable : Countable AssetClass.
Proof.
  refine (inj_countable'
    (λ c, match c with
          | Equity => (0, "") | Debt => (1, "") | RealEstate => (2, "") | Commodity => (3, "")
          | Fund => (4, "") | IntellectualProperty => (5, "") | CarbonCredit => (6, "")
          | Invoice => (7, "") | ACCustom n => (8, n) end)
    (λ '(i, n), match i with
          | 0 => Equity | 1 => Debt | 2 => RealEstate | 3 => Commodity | 4 => Fund
          | 5 => IntellectualProperty | 6 => CarbonCredit | 7 => Invoice
          | _ => ACCustom n end) _).
  by intros [].
Defined.

#[global] Instance AssetStatus_countable : Countable AssetStatus.
Proof.
  refine (inj_countable'
    (λ c, match c with Draft => 0 | Active => 1 | Frozen => 2 | Matured => 3
          | RedemptionPending => 4 | Redeemed => 5 end)
    (λ i, match i with 0 => Draft | 1 => Active | 2 => Frozen | 3 => Matured
          | 4 => RedemptionPending | _ => Redeemed end) _).
  by intros [].
Defined.

#[global] Instance TransferMode_countable : Countable TransferMode.
Proof.
  refine (inj_countable' (λ c, match c with PeerToPeer => true | RegistrarMediated => false end)
    (λ b : bool, if b then PeerToPeer else RegistrarMediated) _).
  by intros [].
Defined.

#[global] Instance DocumentType_countable : Countable DocumentType.
Proof.
  refine (inj_countable'
    (λ c, match c with
          | Prospectus => (0, "") | TermSheet => (1, "") | LegalOpinion => (2, "")
          | Valuation => (3, "") | AuditReport => (4, "") | RegulatoryApproval => (5, "")
          | DeedOfTransfer => (6, "") | Encumbrance => (7, "") | DTCustom n => (8, n) end)
    (λ '(i, n), match i with
          | 0 => Prospectus | 1 => TermSheet | 2 => LegalOpinion | 3 => Valuation
          | 4 => AuditReport | 5 => RegulatoryApproval | 6 => DeedOfTransfer
          | 7 => Encumbrance | _ => DTCustom n end) _).
  by intros [].
Defined.

#[global] Instance DocumentRecord_eq_dec : EqDecision DocumentRecord.
Proof. solve_decision. Defined.
#[global] Instance DocumentRecord_countable : Countable DocumentRecord.
Proof.
  refine (inj_countable (λ r, [encode (dr_doc_type r); encode (dr_hash r); encode (dr_uri r); encode (dr_added_at r); encode (dr_added_by r)])
    (λ l, match l with
          | [e1; e2; e3; e4; e5] =>
        x1 ← decode e1;
        x2 ← decode e2;
        x3 ← decode e3;
        x4 ← decode e4;
        x5 ← decode e5;
        Some (MkDocumentRecord x1 x2 x3 x4 x5)
          | _ => None end) _).
  intros []. cbn. by rewrite !decode_encode.
Defined.
#[global] Instance AssetRecord_eq_dec : EqDecision AssetRecord.
Proof. solve_decision. Defined.
#[global] Instance AssetRecord_countable : Countable AssetRecord.
Proof.
  refine (inj_countable (λ r, [encode (as_id r); encode (as_name r); encode (as_symbol r); encode (as_class r); encode (as_origin_chain r); encode (as_issuer r); encode (as_total_supply r); encode (as_decimals r); encode (as_status r); encode (as_compliance_policy r); encode (as_valuation_oracle r); encode (as_documents r); encode (as_metadata_uri r); encode (as_jurisdiction r); encode (as_legal_entity r); encode (as_transfer_mode r); encode (as_registrar r); encode (as_redemption_pool r); encode (as_requires_kyc r); encode (as_created_at r)])
    (λ l, match l with
          | [e1; e2; e3; e4; e5; e6; e7; e8; e9; e10; e11; e12; e13; e14; e15; e16; e17; e18; e19; e20] =>
        x1 ← decode e1;
        x2 ← decode e2;
        x3 ← decode e3;
        x4 ← decode e4;
        x5 ← decode e5;
        x6 ← decode e6;
        x7 ← decode e7;
        x8 ← decode e8;
        x9 ← decode e9;
        x10 ← decode e10;
        x11 ← decode e11;
        x12 ← decode e12;
        x13 ← decode e13;
        x14 ← decode e14;
        x15 ← decode e15;
        x16 ← decode e16;
        x17 ← decode e17;
        x18 ← decode e18;
        x19 ← decode e19;
        x20 ← decode e20;
        Some (MkAssetRecord x1 x2 x3 x4 x5 x6 x7 x8 x9 x10 x11 x12 x13 x14 x15 x16 x17 x18 x19 x20)
          | _ => None end) _).
  intros []. cbn. by rewrite !decode_encode.
Defined.
#[global] Instance OwnershipRecord_eq_dec : EqDecision OwnershipRecord.
Proof. solve_decision. Defined.
#[global] Instance OwnershipRecord_countable : Countable OwnershipRecord.
Proof.
  refine (inj_countable (λ r, [encode (ow_asset_id r); encode (ow_owner r); encode (ow_available r); encode (ow_locked r)])
    (λ l, match l with
          | [e1; e2; e3; e4] =>
        x1 ← decode e1;
        x2 ← decode e2;
        x3 ← decode e3;
        x4 ← decode e4;
        Some (MkOwnershipRecord x1 x2 x3 x4)
          | _ => None end) _).
  intros []. cbn. by rewrite !decode_encode.
Defined.

#[global] Instance OracleFeedType_eq_dec : EqDecision OracleFeedType.
Proof. solve_decision. Defined.
#[global] Instance OracleFeedType_countable : Countable OracleFeedType.
Proof.
  refine (inj_countable'
    (λ c, match c with
          | AssetValuation h => inl h
          | MarketPrice n => inr (0, n) | InterestRate n => inr (1, n)
          | OFCustom n => inr (2, n) end)
    (λ x, match x with
          | inl h => AssetValuation h
          | inr (0, n) => MarketPrice n | inr (1, n) => InterestRate n
          | inr (_, n) => OFCustom n end) _).
  by intros [].
Defined.

#[global] Instance OracleSubmission_eq_dec : EqDecision OracleSubmission.
Proof. solve_decision. Defined.
#[global] Instance OracleSubmission_countable : Countable OracleSubmission.
Proof.
  refine (inj_countable (λ r, [encode (os_source r); encode (os_value r); encode (os_timestamp r)])
    (λ l, match l with
          | [e1; e2; e3] =>
        x1 ← decode e1;
        x2 ← decode e2;
        x3 ← decode e3;
        Some (MkOracleSubmission x1 x2 x3)
          | _ => None end) _).
  intros []. cbn. by rewrite !decode_encode.
Defined.
#[global] Instance OracleFeed_eq_dec : EqDecision OracleFeed.
Proof. solve_decision. Defined.
#[global] Instance OracleFeed_countable : Countable OracleFeed.
Proof.
  refine (inj_countable (λ r, [encode (of_feed_id r); encode (of_name r); encode (of_feed_type r); encode (of_authorized_sources r); encode (of_quorum r); encode (of_max_staleness_ms r); encode (of_latest_value r); encode (of_decimals r); encode (of_updated_at r); encode (of_pending_submissions r); encode (of_created_at r)])
    (λ l, match l with
          | [e1; e2; e3; e4; e5; e6; e7; e8; e9; e10; e11] =>
        x1 ← decode e1;
        x2 ← decode e2;
        x3 ← decode e3;
        x4 ← decode e4;
        x5 ← decode e5;
        x6 ← decode e6;
        x7 ← decode e7;
        x8 ← decode e8;
        x9 ← decode e9;
        x10 ← decode e10;
        x11 ← decode e11;
        Some (MkOracleFeed x1 x2 x3 x4 x5 x6 x7 x8 x9 x10 x11)
          | _ => None end) _).
  intros []. cbn. by rewrite !decode_encode.
Defined.

#[global] Instance AssetProposalAction_countable : Countable AssetProposalAction.
Proof.
  refine (inj_countable'
    (λ c, match c with
          | APDistributeRevenue v => inl (inl v) | APChangeIssuer a => inl (inr a)
          | APSignal n => inr (0, n) | APDisposeAsset n => inr (1, n)
          | APFinalizeRedemption n => inr (2, n) end)
    (λ x, match x with
          | inl (inl v) => APDistributeRevenue v | inl (inr a) => APChangeIssuer a
          | inr (0, n) => APSignal n | inr (1, n) => APDisposeAsset n
          | inr (_, n) => APFinalizeRedemption n end) _).
  by intros [].
Defined.

#[global] Instance AssetProposalStatus_countable : Countable AssetProposalStatus.
Proof.
  refine (inj_countable'
    (λ c, match c with APActive => 0 | APPassed => 1 | APRejected => 2 | APExecuted => 3 end)
    (λ i, match i with 0 => APActive | 1 => APPassed | 2 => APRejected | _ => APExecuted end) _).
  by intros [].
Defined.

#[global] Instance AssetProposal_eq_dec : EqDecision AssetProposal.
Proof. solve_decision. Defined.
#[global] Instance AssetProposal_countable : Countable AssetProposal.
Proof.
  refine (inj_countable (λ r, [encode (ap_id r); encode (ap_asset_id r); encode (ap_proposer r); encode (ap_action r); encode (ap_description r); encode (ap_created_at r); encode (ap_voting_end r); encode (ap_status r); encode (ap_votes_yes r); encode (ap_votes_no r); encode (ap_votes_abstain r); encode (ap_voters r)])
    (λ l, match l with
          | [e1; e2; e3; e4; e5; e6; e7; e8; e9; e10; e11; e12] =>
        x1 ← decode e1;
        x2 ← decode e2;
        x3 ← decode e3;
        x4 ← decode e4;
        x5 ← decode e5;
        x6 ← decode e6;
        x7 ← decode e7;
        x8 ← decode e8;
        x9 ← decode e9;
        x10 ← decode e10;
        x11 ← decode e11;
        x12 ← decode e12;
        Some (MkAssetProposal x1 x2 x3 x4 x5 x6 x7 x8 x9 x10 x11 x12)
          | _ => None end) _).
  intros []. cbn. by rewrite !decode_encode.
Defined.

#[global] Instance PoolState_eq_dec : EqDecision PoolState.
Proof. solve_decision. Defined.
#[global] Instance PoolState_countable : Countable PoolState.
Proof.
  refine (inj_countable (λ r, [encode (pl_pool_id r); encode (pl_token_a r); encode (pl_token_b r);
      encode (pl_reserve_a r); encode (pl_reserve_b r); encode (pl_lp_token_id r);
      encode (pl_lp_total_supply r); encode (pl_fee_bps r); encode (pl_protocol_fee_bps r);
      encode (pl_protocol_fees_a r); encode (pl_protocol_fees_b r); encode (pl_creator r);
      encode (pl_created_at_epoch r)])
    (λ l, match l with
          | [e1; e2; e3; e4; e5; e6; e7; e8; e9; e10; e11; e12; e13] =>
        x1 ← decode e1; x2 ← decode e2; x3 ← decode e3; x4 ← decode e4; x5 ← decode e5;
        x6 ← decode e6; x7 ← decode e7; x8 ← decode e8; x9 ← decode e9; x10 ← decode e10;
        x11 ← decode e11; x12 ← decode e12; x13 ← decode e13;
        Some (MkPoolState x1 x2 x3 x4 x5 x6 x7 x8 x9 x10 x11 x12 x13)
          | _ => None end) _).
  intros []. cbn. by rewrite !decode_encode.
Defined.

#[global] Instance Signature_countable : Countable Signature.
Proof. refine (inj_countable' signature_bytes MkSignature _). by intros []. Defined.

#[global] Instance BlockHeader_eq_dec : EqDecision BlockHeader.
Proof. solve_decision. Defined.
#[global] Instance BlockHeader_countable : Countable BlockHeader.
Proof.
  refine (inj_countable (λ r, [encode (bh_version r); encode (bh_chain_id r);
      encode (bh_number r); encode (bh_parent_hash r); encode (bh_transactions_root r);
      encode (bh_state_root r); encode (bh_receipts_root r); encode (bh_validator r);
      encode (bh_epoch r); encode (bh_slot r); encode (bh_timestamp r);
      encode (bh_gas_limit r); encode (bh_gas_used r); encode (bh_cross_chain_root r);
      encode (bh_signature r)])
    (λ l, match l with
          | [e1; e2; e3; e4; e5; e6; e7; e8; e9; e10; e11; e12; e13; e14; e15] =>
        x1 ← decode e1; x2 ← decode e2; x3 ← decode e3; x4 ← decode e4; x5 ← decode e5;
        x6 ← decode e6; x7 ← decode e7; x8 ← decode e8; x9 ← decode e9; x10 ← decode e10;
        x11 ← decode e11; x12 ← decode e12; x13 ← decode e13; x14 ← decode e14;
        x15 ← decode e15;
        Some (MkBlockHeader x1 x2 x3 x4 x5 x6 x7 x8 x9 x10 x11 x12 x13 x14 x15)
          | _ => None end) _).
  intros []. cbn. by rewrite !decode_encode.
Defined.

Definition demo_header_codec : Borsh BlockHeader := countable_borsh _.

Definition demo_pool_codec : Borsh PoolState := countable_borsh _.

Definition demo_codec : StateCodec := {|
  sc_account := countable_borsh _;
  sc_asset := countable_borsh _;
  sc_ownership := countable_borsh _;
  sc_oracle := countable_borsh _;
  sc_asset_proposal := countable_borsh _;
  sc_addresses := countable_borsh _;
  sc_slashing_seen := countable_borsh _;
  sc_unbonding := countable_borsh _;
  sc_commitments := countable_borsh _;
  sc_missed_slots := countable_borsh _;
  sc_slash_history := countable_borsh _;
|}.

Definition demo_env : Env :=
  {| env_crypto := prefix_crypto; env_hash_iter := key_order_iter; env_codec := demo_codec |}.

(** The same environment with hash maps iterated in the opposite order. *)
Definition demo_env_rev : Env :=
  {| env_crypto := prefix_crypto; env_hash_iter := reverse_order_iter; env_codec := demo_codec |}.

Definition demo_address (n : Z) : Address := MkAddress (to_le_bytes 20 n).
Definition demo_hash (n : Z) : H256 := MkH256 (to_le_bytes 32 n).

Definition demo_asset (id : H256) (issuer : Address) (supply : Amount) : AssetRecord :=
  MkAssetRecord id "Palazzo" "PLZ" RealEstate 0 issuer supply 0 Active None None [] ""
    "IT" "SPV" PeerToPeer None 0 false 1.
