(* ===== verification/Ledger.v ===== *)
(** * Properties of the ledger

    A VTT transfer moves balances exactly, and after every history of ledger
    operations the account cache agrees with the backing store and the staker
    index lists the accounts with a self-stake. *)

From S2P Require Import Prelude Primitives Storage Assets Oracle StateDB Codecs.

Section transfers.
Context `{Env}.

(** The account [x] after [delta] was added to its balance. *)
Definition with_delta (acc : AccountState) (delta : Z) : AccountState :=
  acc <| ac_balance := ac_balance acc + delta |>.

Lemma with_delta_0 acc : with_delta acc 0 = acc.
Proof. destruct acc. unfold with_delta. cbn. by rewrite Z.add_0_r. Qed.

Definition moved (from to : Address) (amt : Z) (x : Address) : Z :=
  (if decide (x = to) then amt else 0) - (if decide (x = from) then amt else 0).

(** C13: a VTT transfer moves exactly the amount from the sender to the
    recipient, leaves every other field of every account alone, and never
    panics.  It fails with the state untouched when the sender's balance is
    short; the only other failure is an overflow of the recipient's balance,
    and then the sender has already been debited: the caller must roll back. *)
Theorem transfer_exact s from to amt :
  balances_ok s → 0 <= amt →
  match State.transfer from to amt s with
  | (Ok _, s') =>
      amt <= State.get_balance s from ∧ balances_ok s' ∧
      ∀ x, State.get_account s' x = with_delta (State.get_account s x) (moved from to amt x)
  | (Err (StInsufficientBalance have need), s') =>
      have = State.get_balance s from ∧ need = amt ∧ have < need ∧ s' = s
  | (Err _, s') =>
      from ≠ to ∧ 2 ^ 128 <= State.get_balance s to + amt ∧
      ∀ x, State.get_account s' x =
           with_delta (State.get_account s x) (if decide (x = from) then - amt else 0)
  | (Panic, _) => False
  end.
Proof.
  intros Hok Hamt. unfold State.transfer, Amount.is_zero.
  destruct (Z.eqb_spec amt 0) as [->|Hnz].
  { cbn. pose proof (Hok from) as []. split; [done|]. split; [done|]. intros x.
    replace (moved from to 0 x) with 0 by (unfold moved; repeat case_decide; lia).
    by rewrite with_delta_0. }
  unfold mbind, M_bind. rewrite sub_balance_spec.
  pose proof (Hok from) as Hf. pose proof (Hok to) as Ht. unfold in_width in *.
  destruct (Z.leb_spec amt (State.get_balance s from)) as [Hle|Hgt]; [|done].
  rewrite add_balance_spec, get_balance_put.
  set (s1 := State.put_account from _ s).
  assert (Hs1 : ∀ x, State.get_account s1 x =
    with_delta (State.get_account s x) (if decide (x = from) then - amt else 0)).
  { intros x. unfold s1. rewrite get_account_put.
    case_decide; subst; [by rewrite decide_True by done|].
    rewrite decide_False by done. by rewrite with_delta_0. }
  cbn [ac_balance upd upd_ac_balance].
  destruct (Z.ltb_spec ((if decide (from = to) then State.get_balance s from - amt
                         else State.get_balance s to) + amt) (2 ^ 128)) as [Hlt|Hge].
  - split; [done|].
    assert (Hacc : ∀ x, State.get_account (State.put_account to
      ((State.get_account s1 to) <| ac_balance := (if decide (from = to)
         then State.get_balance s from - amt else State.get_balance s to) + amt |>) s1) x =
      with_delta (State.get_account s x) (moved from to amt x)).
    { intros x. rewrite get_account_put, !Hs1. unfold moved, State.get_balance in *.
      repeat case_decide; subst; try done; unfold with_delta, upd, upd_ac_balance; cbn; f_equal; lia. }
    split; [|done]. intros x. unfold State.get_balance. rewrite Hacc.
    pose proof (Hok x) as Hx. unfold with_delta, moved, in_width, State.get_balance in *. cbn.
    repeat case_decide; subst; try done; lia.
  - case_decide; [lia|]. by split_and!.
Qed.
End transfers.

#[local] Existing Instance demo_env.

Lemma transfer_exact_witness :
  let s := State.with_accounts [(demo_address 1, Account.with_balance 100)] in
  State.get_balance (State.transfer (demo_address 1) (demo_address 2) 30 s).2 (demo_address 2) = 30.
Proof.
  intros s.
  pose proof (transfer_exact s (demo_address 1) (demo_address 2) 30) as Ht.
  assert (Hok : balances_ok s).
  { intros a. unfold State.get_balance, s, State.with_accounts, State.get_account. cbn.
    destruct (decide (a = demo_address 1)) as [->|Ha].
    - vm_compute. by split.
    - rewrite lookup_insert_ne by done. by vm_compute. }
  specialize (Ht Hok ltac:(lia)).
  destruct (State.transfer (demo_address 1) (demo_address 2) 30 s) as [r s'] eqn:E. cbn in Ht.
  assert (r = Ok tt) as -> by (change r with (r, s').1; rewrite <- E; vm_compute; reflexivity).
  unfold State.get_balance. cbn. destruct Ht as (_ & _ & ->). vm_compute. reflexivity.
Defined.

(** ** Cache, store and staker index *)

Section coherence.
Context `{Env}.

(** Every cached account is on disk as cached. *)
Definition coherent (s : StateDB) : Prop :=
  ∀ a acc, db_accounts s !! a = Some acc → is_Some (db_storage s) →
    disk_get s Accounts (address_bytes a) = Some (to_vec acc).

(** The staker index holds exactly the cached accounts with a self-stake. *)
Definition stakers_ok (s : StateDB) : Prop :=
  ∀ a, a ∈ db_stakers s ↔
       ∃ acc, db_accounts s !! a = Some acc ∧ State.has_self_stake acc = true.

Definition accounts_inv (s : StateDB) : Prop := coherent s ∧ stakers_ok s.

Lemma put_account_inv a acc s : accounts_inv s → accounts_inv (State.put_account a acc s).
Proof.
  intros [Hc Hst]. split.
  - intros b acc' Hb Hs.
    assert (is_Some (db_storage s)) by (by apply (put_account_storage_Some a acc)).
    replace (db_accounts (State.put_account a acc s)) with (<[a := acc]> (db_accounts s))
      in Hb by (by rewrite put_account_unfold).
    apply lookup_insert_Some in Hb as [[-> ->]|[Hab Hb]]; [by apply put_account_disk_eq|].
    rewrite put_account_disk_other; [by apply Hc|done|].
    intros [=]. by apply Hab, address_bytes_inj.
  - intros b. rewrite put_account_unfold. cbn.
    destruct (decide (a = b)) as [<-|Hab].
    + rewrite lookup_insert_eq. destruct (State.has_self_stake acc) eqn:E.
      * split; [by exists acc|]. intros _. set_solver.
      * split; [set_solver|]. intros (acc' & Hacc & ?). congruence.
    + rewrite lookup_insert_ne by done. rewrite <- (Hst b).
      destruct (State.has_self_stake acc); set_solver.
Qed.

(** A change that leaves the account cache, the staker index and the accounts
    column alone. *)
Lemma accounts_inv_frame s s' :
  db_accounts s' = db_accounts s → db_stakers s' = db_stakers s →
  (is_Some (db_storage s') → is_Some (db_storage s)) →
  (∀ k, disk_get s' Accounts k = disk_get s Accounts k) →
  accounts_inv s → accounts_inv s'.
Proof.
  intros H1 H2 H3 H4 [Hc Hst]. split.
  - intros a acc. rewrite H1, H4. intros Ha Hs. by apply Hc, H3.
  - intros a. rewrite H2, H1. apply Hst.
Qed.

Lemma persist_inv c k v s :
  c ≠ Accounts → accounts_inv s → accounts_inv (persist c k v s).
Proof.
  intros Hc. apply accounts_inv_frame; [by rewrite persist_unfold..| |].
  - rewrite persist_unfold. cbn. by rewrite fmap_is_Some.
  - intros k'. apply disk_get_persist_ne. congruence.
Qed.

Lemma persist_unbonding_inv s :
  accounts_inv s → accounts_inv (State.persist_unbonding_entries s).
Proof. by apply persist_inv. Qed.

Lemma add_balance_keeps a v : keeps accounts_inv (State.add_balance a v).
Proof. unfold State.add_balance. solve_keeps. by apply put_account_inv. Qed.

Lemma sub_balance_keeps a v : keeps accounts_inv (State.sub_balance a v).
Proof. unfold State.sub_balance. solve_keeps. by apply put_account_inv. Qed.

Hint Resolve add_balance_keeps sub_balance_keeps : keeps_db.

Lemma transfer_keeps from to v : keeps accounts_inv (State.transfer from to v).
Proof. unfold State.transfer. solve_keeps. Qed.

Lemma increment_nonce_keeps E a : keeps accounts_inv (State.increment_nonce (E:=E) a).
Proof. unfold State.increment_nonce. solve_keeps. by apply put_account_inv. Qed.

Lemma set_unbonding_inv s m :
  accounts_inv s → accounts_inv (s <| db_unbonding_entries := m |>).
Proof. by apply accounts_inv_frame. Qed.

Hint Resolve set_unbonding_inv persist_unbonding_inv put_account_inv : keeps_db.

Lemma process_unbonding_keeps now : keeps accounts_inv (State.process_unbonding now).
Proof. unfold State.process_unbonding. solve_keeps. Qed.

Lemma apply_slash_keeps E v amount : keeps accounts_inv (State.apply_slash (E:=E) v amount).
Proof. unfold State.apply_slash, State.slash_pending. solve_keeps. Qed.

Lemma put_ownership_keeps r : keeps accounts_inv (State.put_ownership r).
Proof.
  unfold State.put_ownership, State.bump_holder_count. solve_keeps; try by apply persist_inv.
  all: try by eapply accounts_inv_frame; last eassumption.
Qed.

Hint Resolve transfer_keeps put_ownership_keeps : keeps_db.

Lemma transfer_asset_keeps id from to v : keeps accounts_inv (State.transfer_asset id from to v).
Proof. unfold State.transfer_asset. solve_keeps. Qed.

(** The mutators of the ledger, as a client may call them. *)
Inductive ledger_op :=
  | OpPutAccount (a : Address) (acc : AccountState)
  | OpAddBalance (a : Address) (v : Amount)
  | OpSubBalance (a : Address) (v : Amount)
  | OpTransfer (from to : Address) (v : Amount)
  | OpIncrementNonce (a : Address)
  | OpAddUnbonding (a : Address) (e : UnbondingEntry)
  | OpProcessUnbonding (now : Z)
  | OpApplySlash (v : Address) (amount : Amount)
  | OpPutOwnership (r : OwnershipRecord)
  | OpTransferAsset (id : H256) (from to : Address) (v : Amount).

Definition run_ledger_op (op : ledger_op) (s : StateDB) : StateDB :=
  match op with
  | OpPutAccount a acc => State.put_account a acc s
  | OpAddBalance a v => (State.add_balance a v s).2
  | OpSubBalance a v => (State.sub_balance a v s).2
  | OpTransfer from to v => (State.transfer from to v s).2
  | OpIncrementNonce a => (State.increment_nonce (E:=StateError) a s).2
  | OpAddUnbonding a e => State.add_unbonding_entry a e s
  | OpProcessUnbonding now => (State.process_unbonding now s).2
  | OpApplySlash v amount => (State.apply_slash (E:=StateError) v amount s).2
  | OpPutOwnership r => (State.put_ownership r s).2
  | OpTransferAsset id from to v => (State.transfer_asset id from to v s).2
  end.

Lemma run_ledger_op_inv op s : accounts_inv s → accounts_inv (run_ledger_op op s).
Proof.
  destruct op; cbn [run_ledger_op]; intros Hs.
  - by apply put_account_inv.
  - by apply add_balance_keeps.
  - by apply sub_balance_keeps.
  - by apply transfer_keeps.
  - by apply increment_nonce_keeps.
  - by apply persist_unbonding_inv, set_unbonding_inv.
  - by apply process_unbonding_keeps.
  - by apply apply_slash_keeps.
  - by apply put_ownership_keeps.
  - by apply transfer_asset_keeps.
Qed.

(** After any sequence of ledger operations, successful or failing, on a
    fresh state over any store: the staker index lists exactly the cached
    accounts with a self-stake, and dropping the whole account cache (a
    restart) changes no account that is read. *)
Theorem cache_store_agree (store : option KvStore) (ops : list ledger_op) :
  let s := foldl (λ s op, run_ledger_op op s) (StateDB_new <| db_storage := store |>) ops in
  (∀ a, a ∈ db_stakers s ↔
        ∃ acc, db_accounts s !! a = Some acc ∧ State.has_self_stake acc = true) ∧
  (is_Some (db_storage s) →
   ∀ a, State.get_account (s <| db_accounts := ∅ |>) a = State.get_account s a).
Proof.
  intros s. assert (Hinv : accounts_inv s).
  { unfold s. clear s. set (s0 := StateDB_new <| db_storage := store |>).
    assert (H0 : accounts_inv s0).
    { split; [by intros ???|]. intros a. split; [set_solver|]. by intros (? & ? & ?). }
    revert H0. generalize s0. induction ops as [|op ops IH]; intros s1 Hs1; [done|].
    cbn. apply IH. by apply run_ledger_op_inv. }
  destruct Hinv as [Hc Hst]. split; [exact Hst|]. intros Hs a.
  assert (Hd : State.get_account (s <| db_accounts := ∅ |>) a =
    default AccountState_default (disk_get s Accounts (address_bytes a) ≫= from_slice)) by done.
  rewrite Hd. unfold State.get_account. destruct (db_accounts s !! a) as [acc|] eqn:Ea; [|done].
  rewrite (Hc a acc Ea Hs). cbn. by rewrite from_slice_to_vec.
Qed.
End coherence.
