(* ===== verification/Holdings.v ===== *)
(** * Asset holdings

    The ownership table of [StateDB]: asset transfers conserve each asset's
    outstanding units and the holder index counts the holders. *)

From S2P Require Import Prelude Primitives Storage Assets Oracle StateDB Codecs.

Section holdings.
Context `{Env}.

Definition rec_total (r : OwnershipRecord) : Z := ow_available r + ow_locked r.

Definition rec_ok (r : OwnershipRecord) : Prop :=
  0 <= ow_available r ∧ 0 <= ow_locked r ∧ rec_total r < 2 ^ 128.

(** Units of an asset outstanding, and the number of its holders. *)
Definition asset_total (s : StateDB) (id : H256) : Z :=
  map_sumZ (λ k r, if decide (k.1 = id) then rec_total r else 0) (db_ownership s).

Definition is_holding (id : H256) (k : H256 * Address) (r : OwnershipRecord) : Z :=
  if decide (k.1 = id ∧ rec_total r ≠ 0) then 1 else 0.

Definition holders (s : StateDB) (id : H256) : Z := map_sumZ (is_holding id) (db_ownership s).

Definition own_inv (s : StateDB) : Prop :=
  (∀ k r, db_ownership s !! k = Some r → k = (ow_asset_id r, ow_owner r) ∧ rec_ok r) ∧
  (∀ id, State.asset_holder_count s id = holders s id).

(** The previous record at a key, zero units when there is none. *)
Definition rec_at (s : StateDB) (k : H256 * Address) : OwnershipRecord :=
  State.get_ownership s k.1 k.2.

Lemma rec_at_total s k :
  own_inv s → rec_total (rec_at s k) = from_option rec_total 0 (db_ownership s !! k) ∧
              rec_ok (rec_at s k) ∧ (ow_asset_id (rec_at s k), ow_owner (rec_at s k)) = k.
Proof.
  intros [Hr _]. unfold rec_at, State.get_ownership.
  replace (k.1, k.2) with k by by destruct k.
  destruct (db_ownership s !! k) as [r|] eqn:E; cbn.
  - destruct (Hr k r E) as [-> Hok]. done.
  - split; [done|]. split; [|by destruct k]. unfold rec_ok, rec_total; cbn; lia.
Qed.

Lemma total_Ok {E} r : rec_ok r → Own.total (E:=E) r = Ok (rec_total r).
Proof.
  intros (? & ? & Hlt). unfold Own.total, Amount.add, checked_add, rec_total in *.
  by rewrite (proj2 (Z.ltb_lt _ _)) by done.
Qed.

(** The ownership table and the holder index after [put_ownership]. *)
Lemma put_ownership_spec r s :
  own_inv s → rec_ok r →
  let key := (ow_asset_id r, ow_owner r) in
  ∃ s', State.put_ownership r s = (Ok tt, s') ∧
    db_ownership s' = <[key := r]> (db_ownership s) ∧
    db_assets s' = db_assets s ∧
    ∀ id, State.asset_holder_count s' id =
      if decide (ow_asset_id r = id) then
        if decide (rec_total (rec_at s key) ≠ 0) then
          if decide (rec_total r ≠ 0) then State.asset_holder_count s id
          else saturating_sub (State.asset_holder_count s id) 1
        else
          if decide (rec_total r ≠ 0) then saturating_add 32 (State.asset_holder_count s id) 1
          else State.asset_holder_count s id
      else State.asset_holder_count s id.
Proof.
  intros Hinv Hok key. destruct (rec_at_total s key Hinv) as (Htot & _ & _).
  unfold State.put_ownership. fold key. mrun.
  replace (match db_ownership _ !! key with Some r0 => Own.total r0 | None => Ok 0 end)
    with (@Ok StateError Z (rec_total (rec_at s key))).
  2: { cbn. rewrite Htot. destruct (db_ownership s !! key) as [p|] eqn:E; [|done].
       rewrite total_Ok; [done|]. by apply (proj1 Hinv key). }
  cbv beta iota. rewrite (total_Ok r Hok). cbv beta iota.
  unfold Amount.is_zero. rewrite persist_unfold.
  destruct (Z.eqb_spec (rec_total (rec_at s key)) 0), (Z.eqb_spec (rec_total r) 0); cbn [negb Bool.eqb];
    (eexists; split; [reflexivity|]); repeat split; unfold State.bump_holder_count;
    rewrite ?persist_unfold; try done;
    intros id; repeat (case_decide; try done || lia);
    unfold State.asset_holder_count; cbn; subst;
    rewrite ?lookup_insert_eq, ?lookup_insert_ne by done; done.
Qed.

Lemma asset_total_put s s' r id :
  own_inv s → db_ownership s' = <[(ow_asset_id r, ow_owner r) := r]> (db_ownership s) →
  asset_total s' id = asset_total s id +
    (if decide (ow_asset_id r = id)
     then rec_total r - rec_total (rec_at s (ow_asset_id r, ow_owner r)) else 0).
Proof.
  intros Hinv Hs'. unfold asset_total. rewrite Hs', map_sumZ_insert.
  destruct (rec_at_total s (ow_asset_id r, ow_owner r) Hinv) as (-> & _). cbn.
  destruct (db_ownership s !! _); cbn; case_decide; lia.
Qed.

Lemma holders_put s s' r id :
  own_inv s → db_ownership s' = <[(ow_asset_id r, ow_owner r) := r]> (db_ownership s) →
  holders s' id = holders s id + is_holding id (ow_asset_id r, ow_owner r) r
    - is_holding id (ow_asset_id r, ow_owner r) (rec_at s (ow_asset_id r, ow_owner r)).
Proof.
  intros Hinv Hs'. set (key := (ow_asset_id r, ow_owner r)) in *.
  assert (Hp : is_holding id key (rec_at s key)
               = from_option (is_holding id key) 0 (db_ownership s !! key)).
  { destruct (rec_at_total s key Hinv) as (Htot & _). unfold is_holding. rewrite Htot.
    destruct (db_ownership s !! key); cbn; [done|]. by rewrite decide_False by naive_solver. }
  unfold holders. by rewrite Hs', map_sumZ_insert, Hp.
Qed.

Lemma holders_bounds s id : 0 <= holders s id <= Z.of_nat (size (db_ownership s)).
Proof.
  unfold holders, map_sumZ. rewrite <- length_map_to_list.
  induction (map_to_list (db_ownership s)) as [|[k r] l IH]; cbn; [lia|].
  unfold is_holding at 1 3. cbn. case_decide; lia.
Qed.

Lemma holder_counted s k :
  own_inv s → rec_total (rec_at s k) ≠ 0 → 1 <= holders s k.1.
Proof.
  intros Hinv Hnz. destruct (rec_at_total s k Hinv) as (Htot & _). rewrite Htot in Hnz.
  destruct (db_ownership s !! k) as [r|] eqn:E; [|done]. cbn in Hnz.
  assert (is_holding k.1 k r = 1) as <- by (unfold is_holding; by rewrite decide_True).
  apply map_sumZ_lookup_le; [|done]. intros. unfold is_holding. case_decide; lia.
Qed.

(** Storing a well-formed record keeps the table well formed and the index exact. *)
Lemma put_ownership_inv r s s' :
  own_inv s → rec_ok r → Z.of_nat (size (db_ownership s)) + 1 < 2 ^ 32 →
  State.put_ownership r s = (Ok tt, s') → own_inv s'.
Proof.
  intros Hinv Hok Hsz Hput.
  destruct (put_ownership_spec r s Hinv Hok) as (s2 & Heq & Hown & _ & Hcnt).
  rewrite Hput in Heq. simplify_eq. split.
  - intros k r'. rewrite Hown, lookup_insert_Some. intros [[<- <-]|[_ Hk]]; [done|].
    by apply (proj1 Hinv).
  - intros id. rewrite Hcnt, (holders_put s _ r id Hinv Hown), (proj2 Hinv).
    pose proof (holders_bounds s id). unfold is_holding, saturating_add, saturating_sub, umax. cbn.
    destruct (decide (ow_asset_id r = id)).
    2: { rewrite !decide_False by naive_solver. lia. }
    destruct (decide (rec_total (rec_at s (ow_asset_id r, ow_owner r)) ≠ 0)) as [Hp|Hp],
      (decide (rec_total r ≠ 0)) as [Hr|Hr];
      repeat case_decide; destruct_and?; try lia; try (exfalso; tauto).
    enough (1 <= holders s id) by lia.
    subst id. by apply (holder_counted s (ow_asset_id r, ow_owner r)).
Qed.

Lemma put_ownership_size r s s' :
  own_inv s → rec_ok r → State.put_ownership r s = (Ok tt, s') →
  Z.of_nat (size (db_ownership s')) <= Z.of_nat (size (db_ownership s)) + 1.
Proof.
  intros Hinv Hok Hput. destruct (put_ownership_spec r s Hinv Hok) as (s2 & Heq & Hown & _).
  rewrite Hput in Heq. simplify_eq. rewrite Hown.
  destruct (db_ownership s !! (ow_asset_id r, ow_owner r)) eqn:E.
  - rewrite map_size_insert_Some by eauto. lia.
  - rewrite map_size_insert_None by done. lia.
Qed.

Lemma rec_total_le s k : own_inv s → rec_total (rec_at s k) <= asset_total s k.1.
Proof.
  intros Hinv. destruct (rec_at_total s k Hinv) as (Htot & _). rewrite Htot.
  assert (Hnn : ∀ k' r, db_ownership s !! k' = Some r →
            0 <= (if decide (k'.1 = k.1) then rec_total r else 0)).
  { intros k' r Hk. destruct (proj1 Hinv k' r Hk) as [_ (? & ? & _)].
    unfold rec_total. case_decide; lia. }
  destruct (db_ownership s !! k) as [r|] eqn:E; cbn.
  - pose proof (map_sumZ_lookup_le _ _ k r Hnn E) as Hle. cbn in Hle.
    by rewrite decide_True in Hle by done.
  - by apply map_sumZ_nonneg.
Qed.

(** Rewriting one holder's available balance. *)
Lemma set_available_spec s id x v :
  own_inv s → 0 <= v → v + ow_locked (State.get_ownership s id x) < 2 ^ 128 →
  Z.of_nat (size (db_ownership s)) + 1 < 2 ^ 32 →
  let r := State.get_ownership s id x in
  ∃ s', State.put_ownership (r <| ow_available := v |>) s = (Ok tt, s') ∧ own_inv s' ∧
    Z.of_nat (size (db_ownership s')) <= Z.of_nat (size (db_ownership s)) + 1 ∧
    (∀ id', asset_total s' id' =
            asset_total s id' + if decide (id = id') then v - ow_available r else 0) ∧
    (∀ y, State.get_ownership s' id y =
          if decide (x = y) then r <| ow_available := v |> else State.get_ownership s id y).
Proof.
  intros Hinv Hv Hlt Hsz r. destruct (rec_at_total s (id, x) Hinv) as (_ & (_ & Hl & _) & Hk).
  change (rec_at s (id, x)) with r in *. injection Hk as Hid Hx.
  fold r in Hlt. set (r' := r <| ow_available := v |>).
  assert (Hok : rec_ok r') by (unfold rec_ok, rec_total, r'; cbn; lia).
  destruct (put_ownership_spec r' s Hinv Hok) as (s' & Hput & Hown & _ & _).
  exists s'. split; [done|]. split; [by eapply put_ownership_inv|].
  split; [by eapply put_ownership_size|]. split.
  - intros id'. rewrite (asset_total_put s s' r' id' Hinv Hown). cbn. rewrite Hid, Hx.
    change (rec_at s (id, x)) with r. unfold rec_total, r'. cbn. case_decide; lia.
  - intros y. unfold State.get_ownership at 1. rewrite Hown. cbn. rewrite Hid, Hx.
    destruct (decide (x = y)) as [Hxy|Hxy].
    + rewrite <- Hxy. by rewrite lookup_insert_eq.
    + by rewrite lookup_insert_ne by congruence.
Qed.

(** The effect of an asset transfer on one holding. *)
Definition own_moved (from to : Address) (amt : Z) (x : Address) : Z :=
  (if decide (x = to) then amt else 0) - (if decide (x = from) then amt else 0).

(** C14: on a well-formed ownership table whose outstanding units of the asset
    fit in 128 bits, an asset transfer never panics; when it succeeds it moves
    exactly the amount between the two available balances, conserves the units
    of every asset, and keeps the table well formed with the holder index equal
    to the number of addresses holding a non-zero total; when it fails the
    state is unchanged. *)
Theorem transfer_asset_conserves s id from to amt :
  own_inv s → 0 <= amt → asset_total s id < 2 ^ 128 →
  Z.of_nat (size (db_ownership s)) + 2 < 2 ^ 32 →
  match State.transfer_asset id from to amt s with
  | (Ok _, s') =>
      own_inv s' ∧ (∀ id', asset_total s' id' = asset_total s id') ∧
      (∀ x, ow_available (State.get_ownership s' id x) =
            ow_available (State.get_ownership s id x) + own_moved from to amt x)
  | (Err _, s') => s' = s
  | (Panic, _) => False
  end.
Proof.
  intros Hinv Hamt Htot Hsz. unfold State.transfer_asset, Amount.is_zero.
  destruct (Z.eqb_spec amt 0) as [->|Hnz].
  { cbn. split; [done|]. split; [done|]. intros x. unfold own_moved. repeat case_decide; lia. }
  mrun. destruct (db_assets s !! id) as [asset|]; [|done].
  destruct (Asset.is_tradeable asset); cbn [negb]; [|done].
  unfold Own.debit. set (fr := State.get_ownership s id from).
  destruct (Z.leb_spec amt (ow_available fr)) as [Hle|Hgt]; cbn [negb]; [|done].
  destruct (rec_at_total s (id, from) Hinv) as (_ & (_ & _ & Hf) & _).
  change (rec_at s (id, from)) with fr in Hf. unfold rec_total in Hf.
  destruct (set_available_spec s id from (ow_available fr - amt) Hinv ltac:(lia)
    ltac:(fold fr; lia) ltac:(lia)) as (s1 & Hput1 & Hinv1 & Hsz1 & Htot1 & Hget1).
  fold fr in Hput1, Htot1, Hget1. rewrite Hput1. cbv beta iota.
  set (tr := State.get_ownership s1 id to).
  destruct (rec_at_total s1 (id, to) Hinv1) as (_ & (Ht1 & Ht2 & _) & _).
  pose proof (rec_total_le s1 (id, to) Hinv1) as Hcap. cbn [fst] in Hcap.
  change (rec_at s1 (id, to)) with tr in *. unfold rec_total in Hcap.
  rewrite Htot1, decide_True in Hcap by done.
  unfold Own.credit, Amount.add, checked_add. mrun.
  rewrite (proj2 (Z.ltb_lt _ _)) by lia. cbv beta iota.
  destruct (set_available_spec s1 id to (ow_available tr + amt) Hinv1 ltac:(lia)
    ltac:(fold tr; lia) ltac:(lia)) as (s2 & Hput2 & Hinv2 & _ & Htot2 & Hget2).
  fold tr in Hput2, Htot2, Hget2. rewrite Hput2. split; [done|]. split.
  - intros id'. rewrite Htot2, Htot1. case_decide; lia.
  - intros x. rewrite Hget2, Hget1. unfold tr, own_moved. rewrite Hget1.
    unfold fr. repeat case_decide; subst; cbn; try done; lia.
Qed.
End holdings.

#[local] Existing Instance demo_env.

Definition demo_holdings : StateDB :=
  let id := demo_hash 7 in
  (State.put_ownership (MkOwnershipRecord id (demo_address 1) 100 20)
    (StateDB_new <| db_assets := {[id := demo_asset id (demo_address 1) 120]} |>)).2.

Lemma transfer_asset_conserves_witness :
  match State.transfer_asset (demo_hash 7) (demo_address 1) (demo_address 2) 40 demo_holdings with
  | (Ok _, s') => own_inv s' ∧ asset_total s' (demo_hash 7) = 120
                  ∧ State.asset_holder_count s' (demo_hash 7) = 2
  | _ => False
  end.
Proof.
  pose proof (transfer_asset_conserves demo_holdings (demo_hash 7) (demo_address 1)
    (demo_address 2) 40) as Ht.
  assert (Hinv : own_inv demo_holdings).
  { eapply (put_ownership_inv (MkOwnershipRecord (demo_hash 7) (demo_address 1) 100 20)
      (StateDB_new <| db_assets := {[demo_hash 7 := demo_asset (demo_hash 7) (demo_address 1) 120]} |>)).
    - split; [done|]. intros id. reflexivity.
    - unfold rec_ok, rec_total. cbn. lia.
    - reflexivity.
    - vm_compute. reflexivity. }
  specialize (Ht Hinv ltac:(lia) ltac:(vm_compute; reflexivity) ltac:(vm_compute; reflexivity)).
  destruct (State.transfer_asset _ _ _ _ _) as [r s'] eqn:E.
  assert (r = Ok tt) as -> by (change r with (r, s').1; rewrite <- E; vm_compute; reflexivity).
  destruct Ht as (Hi & Htot & _). split; [exact Hi|]. split.
  - rewrite Htot. vm_compute. reflexivity.
  - change s' with (@Ok StateError unit tt, s').2. rewrite <- E. vm_compute. reflexivity.
Defined.
