(* ===== verification/Staking.v ===== *)
(** * Unbonding and slashing

    The unbonding queue of [StateDB] pays out exactly the matured entries, in
    any iteration order of the queue, and a slash removes exactly what it
    reports from the stake and the in-flight withdrawals. *)

From S2P Require Import Prelude Primitives Storage Assets Oracle StateDB Codecs Ledger.

(** ** Paying out matured entries *)

Section unbonding.
Context `{Env}.
Variable now : Z.

Definition due (entries : list UnbondingEntry) : Z :=
  list_sumZ ub_amount (filter (λ e, ub_completion_time e <= now) entries).

Definition entries_ok (l : list UnbondingEntry) : Prop := ∀ e, e ∈ l → 0 <= ub_amount e.

Lemma due_nonneg l : entries_ok l → 0 <= due l.
Proof.
  intros Hl. apply list_sumZ_nonneg. intros e [_ He]%list_elem_of_filter. by apply Hl.
Qed.

Lemma due_cons e l :
  due (e :: l) = (if State.matured now e then ub_amount e else 0) + due l.
Proof.
  unfold due, State.matured. rewrite filter_cons.
  destruct (Z.leb_spec (ub_completion_time e) now); [by rewrite decide_True|].
  by rewrite decide_False by lia.
Qed.

Lemma kept_entries (l : list UnbondingEntry) :
  filter (λ e, State.matured now e = false) l = filter (λ e, now < ub_completion_time e) l.
Proof. apply list_filter_iff. intros e. unfold State.matured. apply Z.leb_gt. Qed.

Lemma released_of_aux {E} l acc :
  entries_ok l → 0 <= acc → acc + due l < 2 ^ 128 →
  fold_res (E:=E) (λ acc e, if State.matured now e then Amount.add acc (ub_amount e) else Ok acc)
    acc l = Ok (acc + due l).
Proof.
  revert acc. induction l as [|e l IH]; intros acc Hl Ha Hlt; cbn [fold_res].
  { unfold due. cbn. by rewrite Z.add_0_r. }
  assert (He : 0 <= ub_amount e) by (apply Hl; left).
  assert (Hl' : entries_ok l) by (intros x Hx; apply Hl; by right).
  pose proof (due_nonneg l Hl'). rewrite due_cons in *.
  destruct (State.matured now e).
  - rewrite amount_add_Ok by lia. cbn [mbind res_bind].
    rewrite IH; [f_equal; lia|done|lia|lia].
  - cbn [mbind res_bind]. rewrite IH; [done|done|done|lia].
Qed.

Lemma released_of_Ok {E} l :
  entries_ok l → due l < 2 ^ 128 → State.released_of (E:=E) now l = Ok (due l).
Proof. intros Hl Hlt. unfold State.released_of. by rewrite released_of_aux. Qed.

(** The payouts of a queue, in its iteration order. *)
Definition payouts (l : list (Address * list UnbondingEntry)) : list (Address * Amount) :=
  filter (λ r, r.2 ≠ 0) ((λ kv, (kv.1, due kv.2)) <$> l).

Lemma payouts_cons a es l :
  payouts ((a, es) :: l) = (if decide (due es ≠ 0) then [(a, due es)] else []) ++ payouts l.
Proof. unfold payouts. rewrite fmap_cons, filter_cons. by repeat case_decide. Qed.

Lemma collect_step_Ok {E} rs t a es :
  entries_ok es → 0 <= t → t + due es < 2 ^ 128 →
  State.collect_step (E:=E) now (rs, t) (a, es) =
    Ok (rs ++ (if decide (due es ≠ 0) then [(a, due es)] else []), t + due es).
Proof.
  intros Hes Ht Hlt. unfold State.collect_step. cbn [fst snd].
  rewrite released_of_Ok by (done || lia). cbn [mbind res_bind].
  change (Amount.is_zero (due es)) with (due es =? 0).
  destruct (Z.eqb_spec (due es) 0) as [E0|E0].
  - rewrite decide_False by lia. by rewrite app_nil_r, E0, Z.add_0_r.
  - rewrite decide_True by lia. by rewrite amount_add_Ok by lia.
Qed.

Lemma collect_releases_aux {E} l rs t :
  (∀ kv, kv ∈ l → entries_ok kv.2) → 0 <= t →
  t + list_sumZ (λ kv, due kv.2) l < 2 ^ 128 →
  fold_res (State.collect_step (E:=E) now) (rs, t) l
  = Ok (rs ++ payouts l, t + list_sumZ (λ kv, due kv.2) l).
Proof.
  revert rs t. induction l as [|[a es] l IH]; intros rs t Hl Ht Hlt; cbn [fold_res list_sumZ snd] in *.
  { by rewrite app_nil_r, Z.add_0_r. }
  pose proof (due_nonneg es (Hl (a, es) ltac:(left))).
  assert (0 <= list_sumZ (λ kv, due kv.2) l).
  { apply list_sumZ_nonneg. intros kv Hkv. apply due_nonneg, Hl. by right. }
  rewrite collect_step_Ok; [|apply (Hl (a, es)); left|lia|lia].
  cbn [mbind res_bind]. rewrite IH; [|intros kv Hkv; apply Hl; by right|lia|lia].
  rewrite payouts_cons, app_assoc. do 2 f_equal. lia.
Qed.

Lemma collect_releases_Ok {E} l :
  (∀ kv, kv ∈ l → entries_ok kv.2) → list_sumZ (λ kv, due kv.2) l < 2 ^ 128 →
  State.collect_releases (E:=E) now l = Ok (payouts l, list_sumZ (λ kv, due kv.2) l).
Proof. intros Hl Hlt. unfold State.collect_releases. by rewrite collect_releases_aux by (try done; lia). Qed.

(** What a list of payouts owes to one address. *)
Definition owed (rs : list (Address * Amount)) (a : Address) : Z :=
  list_sumZ (λ r, if decide (r.1 = a) then r.2 else 0) rs.

Lemma owed_payouts l a :
  owed (payouts l) a = list_sumZ (λ kv, if decide (kv.1 = a) then due kv.2 else 0) l.
Proof.
  induction l as [|[b es] l IH]; [done|]. unfold owed in *.
  rewrite payouts_cons, list_sumZ_app, IH. cbn [list_sumZ fst snd].
  destruct (decide (due es ≠ 0)) as [Hd|Hd]; cbn [list_sumZ fst snd]; case_decide; lia.
Qed.

(** Crediting a list of payouts, errors ignored, when no balance overflows. *)
Lemma pay_all {E} rs s :
  (∀ r, r ∈ rs → 0 <= r.2) → (∀ a, State.get_balance s a + owed rs a < 2 ^ 128) →
  ∃ s', for_each rs (λ r, ignore_err (E':=E) (State.add_balance r.1 r.2)) s = (Ok tt, s') ∧
    (∀ a, State.get_account s' a = with_delta (State.get_account s a) (owed rs a)) ∧
    db_unbonding_entries s' = db_unbonding_entries s.
Proof.
  revert s. induction rs as [|[b v] rs IH]; intros s Hnn Hlt; cbn [for_each].
  { exists s. split; [done|]. split; [|done]. intros a. by rewrite with_delta_0. }
  assert (Hown : ∀ a, 0 <= owed rs a).
  { intros a. apply list_sumZ_nonneg. intros r Hr. case_decide; [|lia]. apply Hnn. by right. }
  pose proof (Hlt b) as Hb. unfold owed in Hb. cbn in Hb. rewrite decide_True in Hb by done.
  fold (owed rs b) in Hb. specialize (Hown b).
  unfold mbind, M_bind, ignore_err. cbn [fst snd]. rewrite add_balance_spec.
  rewrite (proj2 (Z.ltb_lt _ _)) by lia.
  set (s1 := State.put_account b _ s).
  assert (Hs1 : ∀ a, State.get_account s1 a =
    with_delta (State.get_account s a) (if decide (b = a) then v else 0)).
  { intros a. unfold s1. rewrite get_account_put.
    case_decide; subst; [done|by rewrite with_delta_0]. }
  destruct (IH s1) as (s2 & Hrun & Hacc & Hub).
  - intros r Hr. apply Hnn. by right.
  - intros a. unfold State.get_balance. rewrite Hs1. specialize (Hlt a).
    unfold with_delta, State.get_balance, owed in *. cbn in *. lia.
  - exists s2. split; [done|]. split.
    + intros a. rewrite Hacc, Hs1. unfold with_delta, owed, upd, upd_ac_balance. cbn.
      f_equal. lia.
    + rewrite Hub. unfold s1. by rewrite put_account_unfold.
Qed.

Lemma get_unbonding_retain s a m :
  State.get_unbonding_entries
    (s <| db_unbonding_entries := State.retain_nonempty m |>) a = default [] (m !! a).
Proof.
  unfold State.get_unbonding_entries, State.retain_nonempty. cbn.
  rewrite map_lookup_filter. destruct (m !! a) as [l|]; [|done]. cbn.
  case_guard as Hg; cbn; [done|]. cbn in Hg. by destruct l.
Qed.

(** C15: with non-negative entries and no overflowing sum, processing the
    unbonding queue never panics and, whatever the iteration order of the
    queue, releases exactly the matured entries: each owner's balance grows by
    the sum of its matured entries and nothing else in its account changes, the
    entries that remain are exactly those still pending, in order, and the
    returned total is the sum of all payouts. *)
Theorem process_unbonding_exact s :
  (∀ a l, db_unbonding_entries s !! a = Some l → entries_ok l) →
  map_sumZ (λ _ l, due l) (db_unbonding_entries s) < 2 ^ 128 →
  (∀ a, State.get_balance s a + due (State.get_unbonding_entries s a) < 2 ^ 128) →
  ∃ s', State.process_unbonding now s
        = (Ok (map_sumZ (λ _ l, due l) (db_unbonding_entries s)), s') ∧
    (∀ a, State.get_account s' a =
          with_delta (State.get_account s a) (due (State.get_unbonding_entries s a))) ∧
    (∀ a, State.get_unbonding_entries s' a =
          filter (λ e, now < ub_completion_time e) (State.get_unbonding_entries s a)).
Proof.
  intros Hok Hsum Hbal. set (m := db_unbonding_entries s) in *.
  assert (Hl : ∀ kv, kv ∈ hash_iter m → entries_ok kv.2).
  { intros [a l] Hin. rewrite hash_iter_perm in Hin. apply elem_of_map_to_list in Hin. by eapply Hok. }
  assert (Htot : list_sumZ (λ kv, due kv.2) (hash_iter m) = map_sumZ (λ _ l, due l) m)
    by apply (map_sumZ_hash_iter (λ _ l, due l) m).
  assert (Howed : ∀ a, owed (payouts (hash_iter m)) a = due (State.get_unbonding_entries s a)).
  { intros a. rewrite owed_payouts.
    pose proof (map_sumZ_hash_iter (λ k l, if decide (k = a) then due l else 0) m) as Hs.
    cbv beta in Hs. rewrite Hs, map_sumZ_single. unfold State.get_unbonding_entries. fold m. by destruct (m !! a). }
  set (s1 := s <| db_unbonding_entries := filter (λ e, State.matured now e = false) <$> m |>).
  destruct (pay_all (E:=StateError) (payouts (hash_iter m)) s1) as (s2 & Hpay & Hacc & Hub).
  { intros r [_ Hr]%list_elem_of_filter. apply list_elem_of_fmap in Hr as ([a l] & -> & Hin).
    apply due_nonneg. by apply (Hl (a, l)). }
  { intros a. rewrite Howed. apply Hbal. }
  unfold State.process_unbonding. mrun. fold m.
  rewrite collect_releases_Ok; [|exact Hl|by rewrite Htot]. cbv beta iota. cbn [fst snd]. fold m s1. rewrite Hpay, Htot. cbv beta iota.
  set (s3 := s2 <| db_unbonding_entries := State.retain_nonempty (db_unbonding_entries s2) |>).
  assert (Hs3 : ∀ a, State.get_unbonding_entries s3 a =
    filter (λ e, now < ub_completion_time e) (State.get_unbonding_entries s a)).
  { intros a. rewrite <- kept_entries. unfold s3. rewrite get_unbonding_retain, Hub. unfold s1. cbn.
    rewrite lookup_fmap. unfold State.get_unbonding_entries. fold m. by destruct (m !! a). }
  assert (Hg3 : ∀ a, State.get_account s3 a =
    with_delta (State.get_account s a) (due (State.get_unbonding_entries s a))).
  { intros a. rewrite <- Howed. apply (Hacc a). }
  destruct (Amount.is_zero _); (eexists; split; [reflexivity|]); [done|].
  split; intros a.
  - rewrite <- Hg3. by apply get_account_persist.
  - rewrite <- Hs3. unfold State.persist_unbonding_entries. by rewrite persist_unfold.
Qed.
End unbonding.

(** ** Slashing *)

Section slashing.
Context `{Env}.
Variable validator : Address.

(** The part of an unbonding list withdrawn from [validator]. *)
Definition targeted (l : list UnbondingEntry) : Z :=
  list_sumZ (λ e, if State.slash_target validator e then ub_amount e else 0) l.

Definition pending (s : StateDB) : Z := map_sumZ (λ _ l, targeted l) (db_unbonding_entries s).

Lemma targeted_filter l :
  list_sumZ ub_amount (filter (λ e, State.slash_target validator e = true) l) = targeted l.
Proof.
  induction l as [|e l IH]; [done|]. rewrite filter_cons. unfold targeted in *.
  cbn [list_sumZ]. destruct (State.slash_target validator e).
  - rewrite decide_True by done. cbn [list_sumZ]. by rewrite IH.
  - rewrite decide_False by done. by rewrite IH.
Qed.

Lemma pending_unbonding_spec s :
  in_width 128 (pending s) → State.pending_unbonding s validator = pending s.
Proof.
  intros Hw. unfold State.pending_unbonding. rewrite <- (wrap_small 128 (pending s) Hw).
  f_equal. apply map_sumZ_ext. intros ? l ?. apply targeted_filter.
Qed.

Section amounts.
Variables Q P : Z.
Hypothesis Q_nonneg : 0 <= Q.
Hypothesis P_pos : 0 < P.

Lemma entry_slash_bounds x :
  0 <= x → 0 <= State.entry_slash Q P x <= x ∧ P * State.entry_slash Q P x <= Q * x.
Proof.
  intros Hx. unfold State.entry_slash, checked_div, saturating_mul, umax.
  rewrite (proj2 (Z.eqb_neq P 0)) by lia. cbn [from_option id]. unfold id.
  pose proof (Z.mul_div_le (Z.min (x * Q) (2 ^ 128 - 1)) P P_pos).
  assert (0 <= Z.min (x * Q) (2 ^ 128 - 1) / P) by (apply Z.div_pos; nia).
  split; [lia|]. nia.
Qed.

Definition slashed (l : list UnbondingEntry) : Z :=
  list_sumZ (λ e, if State.slash_target validator e
                  then State.entry_slash Q P (ub_amount e) else 0) l.

Lemma targeted_slash_entries l :
  targeted (State.slash_entries validator Q P l) = targeted l - slashed l.
Proof.
  unfold State.slash_entries. induction l as [|e l IH]; [done|].
  rewrite fmap_cons, filter_cons. unfold targeted, slashed in *. cbn [list_sumZ].
  assert (Ht : State.slash_target validator (State.slash_entry validator Q P e)
               = State.slash_target validator e).
  { unfold State.slash_entry. by destruct (State.slash_target validator e) eqn:E. }
  assert (Ha : ub_amount (State.slash_entry validator Q P e) = ub_amount e -
    if State.slash_target validator e then State.entry_slash Q P (ub_amount e) else 0).
  { unfold State.slash_entry. destruct (State.slash_target validator e); cbn; lia. }
  case_decide as Hz; cbn [list_sumZ]; rewrite ?Ht, ?IH;
    destruct (State.slash_target validator e); lia.
Qed.

Lemma slashed_scaled l : entries_ok l → P * slashed l <= Q * targeted l.
Proof.
  intros Hl. induction l as [|e l IH]; unfold slashed, targeted in *; cbn [list_sumZ]; [lia|].
  specialize (IH ltac:(intros x Hx; apply Hl; by right)).
  pose proof (entry_slash_bounds (ub_amount e) ltac:(apply Hl; left)).
  destruct (State.slash_target validator e); lia.
Qed.

Lemma slashed_bounds l : entries_ok l → 0 <= slashed l <= targeted l.
Proof.
  intros Hl. induction l as [|e l IH]; unfold slashed, targeted in *; cbn [list_sumZ]; [lia|].
  specialize (IH ltac:(intros x Hx; apply Hl; by right)).
  pose proof (entry_slash_bounds (ub_amount e) ltac:(apply Hl; left)).
  destruct (State.slash_target validator e); lia.
Qed.

(** The whole queue: what is taken is bounded by the amount asked for. *)
Lemma pending_after_slash s :
  (∀ a l, db_unbonding_entries s !! a = Some l → entries_ok l) → pending s = P →
  P - Q <= map_sumZ (λ _ l, targeted l) (State.retain_nonempty
    (State.slash_entries validator Q P <$> db_unbonding_entries s)) <= P.
Proof.
  intros Hok HP. unfold State.retain_nonempty. rewrite map_sumZ_filter.
  2: { intros ? l Hl. cbn in Hl. destruct l; [done|]. exfalso. by apply Hl. }
  rewrite map_sumZ_fmap, (map_sumZ_ext _ (λ _ l, targeted l - slashed l)).
  2: { intros _ l _. apply targeted_slash_entries. }
  rewrite map_sumZ_sub. fold (pending s). rewrite HP.
  assert (0 <= map_sumZ (λ _ l, slashed l) (db_unbonding_entries s)).
  { apply map_sumZ_nonneg. intros a l Hl. by apply slashed_bounds, (Hok a). }
  assert (P * map_sumZ (λ _ l, slashed l) (db_unbonding_entries s) <= Q * P).
  { rewrite <- HP at 2. apply map_sumZ_scale_le. intros a l Hl. by apply slashed_scaled, (Hok a). }
  nia.
Qed.
End amounts.

Lemma min_self T S R :
  0 <= S <= T → 0 <= R →
  (if S <? Z.min R T then S else Z.min R T) = Z.min S (Z.min R T).
Proof. intros. destruct (Z.ltb_spec S (Z.min R T)); lia. Qed.

(** The withdrawal half of [apply_slash]. *)
Lemma slash_pending_spec Q s :
  (∀ a l, db_unbonding_entries s !! a = Some l → entries_ok l) → 0 <= Q → 0 <= pending s →
  ∃ s', State.slash_pending (E:=StateError) validator Q (pending s) s = (Ok tt, s') ∧
    pending s - Q <= pending s' <= pending s ∧
    ∀ a, State.get_account s' a = State.get_account s a.
Proof.
  intros Hok HQ HP. unfold State.slash_pending.
  destruct (Z.ltb_spec 0 Q), (Z.ltb_spec 0 (pending s)); cbn [andb].
  2, 3, 4: exists s; split; [done|]; split; [lia|done].
  pose proof (pending_after_slash Q (pending s) HQ ltac:(lia) s Hok eq_refl) as Hps.
  mrun. destruct (State.slash_changes _ _ _ _); (eexists; split; [reflexivity|]).
  - unfold State.persist_unbonding_entries. split; [|intros a; by rewrite get_account_persist].
    rewrite persist_unfold. exact Hps.
  - by split.
Qed.

(** A slash never panics and reports the smaller of the requested amount
    and everything at stake (stake plus in-flight withdrawals from this
    validator).  The stake is reduced by exactly the reported amount, self-stake
    first, as far as it reaches; only the excess is charged to the pending
    withdrawals, which lose at most that excess.  Other accounts and the
    delegation list are untouched. *)
Theorem apply_slash_accounting s stk amount :
  ac_staking (State.get_account s validator) = Some stk →
  0 <= sk_self_stake stk <= sk_total_stake stk → sk_total_stake stk < 2 ^ 128 →
  (∀ a l, db_unbonding_entries s !! a = Some l → entries_ok l) →
  pending s < 2 ^ 128 → 0 <= amount →
  ∃ R s' stk', State.apply_slash (E:=StateError) validator amount s = (Ok R, s') ∧
    R = Z.min amount (Z.min (sk_total_stake stk + pending s) (2 ^ 128 - 1)) ∧
    ac_staking (State.get_account s' validator) = Some stk' ∧
    sk_total_stake stk' = sk_total_stake stk - Z.min R (sk_total_stake stk) ∧
    sk_self_stake stk' = sk_self_stake stk - Z.min (sk_self_stake stk) (Z.min R (sk_total_stake stk)) ∧
    sk_delegations stk' = sk_delegations stk ∧
    pending s - (R - Z.min R (sk_total_stake stk)) <= pending s' <= pending s ∧
    (∀ a, a ≠ validator → State.get_account s' a = State.get_account s a).
Proof.
  intros Hstk Hself Htot Hok Hpend Hamt.
  assert (Hp0 : 0 <= pending s).
  { apply map_sumZ_nonneg. intros a l Hl. apply list_sumZ_nonneg. intros e He.
    case_match; [by apply (Hok a l Hl)|lia]. }
  unfold State.apply_slash. mrun. rewrite Hstk, pending_unbonding_spec by done.
  unfold saturating_add, umax. set (T := sk_total_stake stk) in *. set (S := sk_self_stake stk) in *.
  destruct (Z.eqb_spec (Z.min (T + pending s) (2 ^ 128 - 1)) 0) as [Hz|Hnz].
  { exists 0, s, stk. fold T S. repeat split; try done; lia. }
  set (R := Z.min amount (Z.min (T + pending s) (2 ^ 128 - 1))).
  assert (0 <= R) by lia. rewrite min_self by lia.
  rewrite !amount_sub_Ok by lia. cbv beta iota.
  set (stk' := stk <| sk_self_stake := _ |> <| sk_total_stake := _ |>).
  set (s1 := State.put_account validator _ s).
  assert (Hacc : ∀ a, State.get_account s1 a = if decide (validator = a) then
    (State.get_account s validator) <| ac_staking := Some stk' |> else State.get_account s a)
    by (intros a; apply get_account_put).
  assert (Hub : db_unbonding_entries s1 = db_unbonding_entries s)
    by (unfold s1; by rewrite put_account_unfold).
  replace (saturating_sub R (Z.min R T)) with (R - Z.min R T) by (unfold saturating_sub; lia).
  destruct (slash_pending_spec (R - Z.min R T) s1) as (s2 & Hrun & Hps & Hacc2).
  { intros a l. rewrite Hub. apply Hok. }
  { lia. }
  { unfold pending. by rewrite Hub. }
  replace (pending s1) with (pending s) in * by (unfold pending; by rewrite Hub).
  rewrite Hrun. exists R, s2, stk'. split_and!; try done; try lia.
  - by rewrite Hacc2, Hacc, decide_True.
  - intros a Ha. by rewrite Hacc2, Hacc, decide_False.
Qed.
End slashing.

(** ** Concrete runs *)

Definition demo_queue : StateDB :=
  StateDB_new <| db_unbonding_entries :=
    {[ demo_address 1 := [MkUnbondingEntry 100 50 (demo_address 9);
                          MkUnbondingEntry 200 150 (demo_address 9)];
       demo_address 2 := [MkUnbondingEntry 7 10 (demo_address 8)] ]} |>.

Lemma demo_queue_cases a l :
  db_unbonding_entries demo_queue !! a = Some l →
  (a = demo_address 1 ∧ l = [MkUnbondingEntry 100 50 (demo_address 9);
                             MkUnbondingEntry 200 150 (demo_address 9)]) ∨
  (a = demo_address 2 ∧ l = [MkUnbondingEntry 7 10 (demo_address 8)]).
Proof.
  unfold demo_queue. cbn. rewrite !lookup_insert_Some, lookup_empty. naive_solver.
Qed.

Lemma demo_queue_entries_ok a l :
  db_unbonding_entries demo_queue !! a = Some l → entries_ok l.
Proof.
  intros [[_ ->]|[_ ->]]%demo_queue_cases e He;
    repeat (apply elem_of_cons in He as [-> |He]; [cbn; lia|]); by apply not_elem_of_nil in He.
Qed.

#[local] Existing Instance demo_env_rev.

Lemma process_unbonding_exact_witness :
  ∃ s', State.process_unbonding 100 demo_queue = (Ok 107, s') ∧
    State.get_balance s' (demo_address 1) = 100 ∧
    State.get_unbonding_entries s' (demo_address 1)
      = [MkUnbondingEntry 200 150 (demo_address 9)].
Proof.
  destruct (process_unbonding_exact 100 demo_queue) as (s' & Hrun & Hacc & Hub).
  - exact demo_queue_entries_ok.
  - vm_compute. reflexivity.
  - intros a. unfold State.get_unbonding_entries.
    assert (State.get_balance demo_queue a = 0) as -> by done.
    destruct (db_unbonding_entries demo_queue !! a) eqn:E; [|done].
    apply demo_queue_cases in E as [[_ ->]|[_ ->]]; vm_compute; reflexivity.
  - exists s'. rewrite Hrun. split; [|split].
    + f_equal.
    + unfold State.get_balance. rewrite Hacc. vm_compute. reflexivity.
    + rewrite Hub. vm_compute. reflexivity.
Defined.

(** The validator [demo_address 9] of [demo_queue], with 50 at stake. *)
Definition demo_slashable : StateDB :=
  State.put_account (demo_address 9)
    (AccountState_default <| ac_staking := Some (MkStakingState 50 30 0 true
       [MkDelegation (demo_address 3) 20] []) |>) demo_queue.

Lemma apply_slash_accounting_witness :
  ∃ s' stk', State.apply_slash (E:=StateError) (demo_address 9) 110 demo_slashable = (Ok 110, s') ∧
    ac_staking (State.get_account s' (demo_address 9)) = Some stk' ∧ sk_total_stake stk' = 0.
Proof.
  destruct (apply_slash_accounting (demo_address 9) demo_slashable
    (MkStakingState 50 30 0 true [MkDelegation (demo_address 3) 20] []) 110)
    as (R & s' & stk' & Hrun & HR & Hstk & Htot & _).
  - vm_compute. reflexivity.
  - cbn. lia.
  - cbn. lia.
  - unfold demo_slashable. rewrite put_account_unfold. exact demo_queue_entries_ok.
  - vm_compute. reflexivity.
  - lia.
  - assert (R = 110) as -> by (rewrite HR; vm_compute; reflexivity).
    exists s', stk'. split; [exact Hrun|]. split; [exact Hstk|]. rewrite Htot. reflexivity.
Defined.

(** A validator that withdrew its whole stake of 1000 VTT. *)
Definition demo_withdrawn : StateDB :=
  let v := demo_address 9 in
  State.put_account v (AccountState_default <| ac_staking := Some StakingState_default |>)
    (StateDB_new <| db_unbonding_entries := {[ v := [MkUnbondingEntry (Amount.from_vtt 1000) 50 v] ]} |>).

(** The pro-rata charge to in-flight withdrawals saturates at 128 bits: a
    slash of the whole 1000 VTT that a validator is withdrawing reports 1000
    VTT taken, and takes less than one VTT. *)
Theorem slash_of_withdrawals_saturates :
  ∃ s', State.apply_slash (E:=StateError) (demo_address 9) (Amount.from_vtt 1000) demo_withdrawn
        = (Ok (Amount.from_vtt 1000), s') ∧
    Amount.from_vtt 999 < pending (demo_address 9) s'.
Proof. eexists. split; [vm_compute; reflexivity|]. vm_compute. reflexivity. Qed.
