(* ===== verification/Snapshot.v ===== *)
(** * State root, snapshots and roll-back ([crates/vtt-state/src/statedb.rs])

    [compute_state_root] folds the dirty accounts, assets and pools and every
    other table into the trie; [snapshot] and [restore] are the roll-back
    mechanism used around transactions and blocks. *)

From S2P Require Import Prelude Primitives Storage Assets Oracle StateDB Codecs Ledger.

Record StateSnapshot := MkStateSnapshot {
  sn_accounts : gmap Address AccountState;
  sn_assets : gmap H256 AssetRecord;
  sn_ownership : gmap (H256 * Address) OwnershipRecord;
  sn_oracles : gmap H256 OracleFeed;
  sn_contract_code : gmap H256 bytes;
  sn_contract_storage : gmap (Address * bytes) bytes;
  sn_pools : gmap H256 bytes;
  sn_asset_proposals : gmap H256 AssetProposal;
  sn_mining_states : gmap H256 bytes;
  sn_governance_proposals : gmap H256 bytes;
  sn_unbonding_entries : gmap Address (list UnbondingEntry);
  sn_treasury_address : Address;
  sn_epoch_length : Z;
  sn_dex_paused : bool;
  sn_dirty_pools : list H256;
  sn_asset_holder_count : gmap H256 Z;
  sn_slashing_seen : gset (Address * Z * Z);
  sn_kyc_approved : gset Address;
  sn_stakers : gset Address;
  sn_total_minted_milli : Z;
  sn_total_burned_milli : Z;
}.

Module Snapshot.
Section with_env.
Context `{Env}.

(** ** The state root *)

Definition root_accounts (s : StateDB) (t : StateTrie) : StateTrie :=
  foldl (λ t a,
    match db_accounts s !! a with
    | Some acc =>
        if Account.is_empty acc then (Trie.remove (address_bytes a) t).2
        else Trie.insert (address_bytes a) (to_vec acc) t
    | None => t
    end) t (db_dirty s).

Definition root_assets (s : StateDB) (t : StateTrie) : StateTrie :=
  foldl (λ t id,
    match db_assets s !! id with
    | Some asset => Trie.insert ("asset:" +:+ h256_bytes id) (to_vec asset) t
    | None => t
    end) t (db_dirty_assets s).

Definition root_pools (s : StateDB) (t : StateTrie) : StateTrie :=
  foldl (λ t id,
    match db_pools s !! id with
    | Some data => Trie.insert ("pool:" +:+ h256_bytes id) data t
    | None => t
    end) t (db_dirty_pools s).

(** [for (k, v) in &self.table { self.trie.insert(key(k), value(v)) }] *)
Definition insert_all {K V} `{Countable K} (key : K → bytes) (val : V → bytes)
    (m : gmap K V) (t : StateTrie) : StateTrie :=
  foldl (λ t kv, Trie.insert (key kv.1) (val kv.2) t) t (hash_iter m).

Definition ownership_key (k : H256 * Address) : bytes :=
  h256_bytes k.1 +:+ address_bytes k.2.

Definition contract_key (k : Address * bytes) : bytes := address_bytes k.1 +:+ k.2.

Definition root_tables (s : StateDB) (t : StateTrie) : StateTrie :=
  let t := insert_all (λ k, "own:" +:+ ownership_key k) to_vec (db_ownership s) t in
  let t := insert_all (λ k, "oracle:" +:+ h256_bytes k) to_vec (db_oracles s) t in
  let t := insert_all (λ k, "mining:" +:+ h256_bytes k) id (db_mining_states s) t in
  let t := insert_all (λ k, "code:" +:+ h256_bytes k) id (db_contract_code s) t in
  let t := insert_all (λ k, "cs:" +:+ contract_key k) id (db_contract_storage s) t in
  let t := insert_all (λ k, "aprop:" +:+ h256_bytes k) to_vec (db_asset_proposals s) t in
  insert_all (λ k, "gprop:" +:+ h256_bytes k) id (db_governance_proposals s) t.

Definition compute_state_root (s : StateDB) : H256 * StateDB :=
  let t := root_accounts s (db_trie s) in
  let t := root_assets s t in
  let t := root_pools s t in
  let t := root_tables s t in
  let '(r, t) := Trie.root t in
  (r, s <| db_trie := t |> <| db_dirty := [] |> <| db_dirty_assets := [] |>
        <| db_dirty_pools := [] |>).

(** ** Snapshots *)

Definition snapshot (s : StateDB) : StateSnapshot :=
  MkStateSnapshot (db_accounts s) (db_assets s) (db_ownership s)
    (db_oracles s) (db_contract_code s) (db_contract_storage s)
    (db_pools s) (db_asset_proposals s) (db_mining_states s)
    (db_governance_proposals s) (db_unbonding_entries s) (db_treasury_address s)
    (db_epoch_length s) (db_dex_paused s) (db_dirty_pools s)
    (db_asset_holder_count s) (db_slashing_seen s) (db_kyc_approved s)
    (db_stakers s) (db_total_minted_milli s) (db_total_burned_milli s).

(** The in-memory half of [restore]. *)
Definition restore_memory (sn : StateSnapshot) (s : StateDB) : StateDB :=
  s <| db_dirty := db_dirty s ++ (hash_iter (db_accounts s)).*1 ++ (hash_iter (sn_accounts sn)).*1 |>
    <| db_dirty_assets := db_dirty_assets s ++ (hash_iter (db_assets s)).*1
                            ++ (hash_iter (sn_assets sn)).*1 |>
    <| db_accounts := sn_accounts sn |>
    <| db_assets := sn_assets sn |>
    <| db_ownership := sn_ownership sn |>
    <| db_oracles := sn_oracles sn |>
    <| db_contract_code := sn_contract_code sn |>
    <| db_contract_storage := sn_contract_storage sn |>
    <| db_pools := sn_pools sn |>
    <| db_asset_proposals := sn_asset_proposals sn |>
    <| db_mining_states := sn_mining_states sn |>
    <| db_governance_proposals := sn_governance_proposals sn |>
    <| db_unbonding_entries := sn_unbonding_entries sn |>
    <| db_treasury_address := sn_treasury_address sn |>
    <| db_epoch_length := sn_epoch_length sn |>
    <| db_dex_paused := sn_dex_paused sn |>
    <| db_dirty_pools := sn_dirty_pools sn |>
    <| db_asset_holder_count := sn_asset_holder_count sn |>
    <| db_slashing_seen := sn_slashing_seen sn |>
    <| db_kyc_approved := sn_kyc_approved sn |>
    <| db_stakers := sn_stakers sn |>
    <| db_total_minted_milli := sn_total_minted_milli sn |>
    <| db_total_burned_milli := sn_total_burned_milli sn |>.

(** [for (k, v) in &self.table { storage.put(column, key(k), value(v)) }] *)
Definition table_writes {K V} `{Countable K} (c : Column) (key : K → bytes) (val : V → bytes)
    (m : gmap K V) : list (Column * bytes * bytes) :=
  (λ kv, (c, key kv.1, val kv.2)) <$> hash_iter m.

(** The write-back half of [restore], as the sequence of its [put]s; nothing is
    deleted from the store. *)
Definition restore_writes (s : StateDB) : list (Column * bytes * bytes) :=
  [(ChainMeta, "supply:minted_milli", to_le_bytes 8 (db_total_minted_milli s));
   (ChainMeta, "supply:burned_milli", to_le_bytes 8 (db_total_burned_milli s))]
  ++ table_writes Accounts address_bytes to_vec (db_accounts s)
  ++ table_writes Assets h256_bytes to_vec (db_assets s)
  ++ table_writes Ownership ownership_key to_vec (db_ownership s)
  ++ table_writes Oracles h256_bytes to_vec (db_oracles s)
  ++ table_writes ContractCode h256_bytes id (db_contract_code s)
  ++ table_writes ContractStorage contract_key id (db_contract_storage s)
  ++ table_writes Pools h256_bytes id (db_pools s)
  ++ table_writes MiningStates h256_bytes id (db_mining_states s)
  ++ table_writes AssetProposals h256_bytes to_vec (db_asset_proposals s)
  ++ table_writes ChainMeta (λ k, "gov:" +:+ h256_bytes k) id (db_governance_proposals s)
  ++ table_writes ChainMeta (λ k, "holders:" +:+ h256_bytes k) (to_le_bytes 4)
       (db_asset_holder_count s)
  ++ [(ChainMeta, "slashing:seen", to_vec (set_iter (db_slashing_seen s)));
      (ChainMeta, "stakers:set", to_vec (set_iter (db_stakers s)));
      (ChainMeta, "kyc:approved", to_vec (set_iter (db_kyc_approved s)))].

Definition write_all (ws : list (Column * bytes * bytes)) (s : StateDB) : StateDB :=
  foldl (λ s w, persist w.1.1 w.1.2 w.2 s) s ws.

Definition restore_disk (s : StateDB) : StateDB := write_all (restore_writes s) s.

Definition restore (sn : StateSnapshot) (s : StateDB) : StateDB :=
  restore_disk (restore_memory sn s).

End with_env.
End Snapshot.

(** ** What roll-back restores *)

Section rollback.
Context `{Env}.

(** Writing to the store changes nothing else. *)
Definition same_memory (s s' : StateDB) : Prop :=
  ∃ st, s' = s <| db_storage := st |>.

#[local] Instance same_memory_refl : Reflexive same_memory.
Proof. intros []. by eexists. Qed.

#[local] Instance same_memory_trans : Transitive same_memory.
Proof. intros ??? [? ->] [? ->]. by eexists. Qed.

Lemma persist_same c k v s : same_memory s (persist c k v s).
Proof. rewrite persist_unfold. by eexists. Qed.

Lemma write_all_same ws s : same_memory s (Snapshot.write_all ws s).
Proof.
  revert s. induction ws as [|w ws IH]; intros s; cbn; [done|].
  etransitivity; [apply persist_same|apply IH].
Qed.

Lemma restore_disk_same s : same_memory s (Snapshot.restore_disk s).
Proof. apply write_all_same. Qed.

Lemma snapshot_same s s' : same_memory s s' → Snapshot.snapshot s' = Snapshot.snapshot s.
Proof. by intros [st ->]. Qed.

Lemma restore_accounts sn s : db_accounts (Snapshot.restore sn s) = sn_accounts sn.
Proof. unfold Snapshot.restore. by destruct (restore_disk_same (Snapshot.restore_memory sn s)) as [st ->]. Qed.

Lemma persist_None c k v s : db_storage s = None → persist c k v s = s.
Proof. intros Hs. unfold persist. by rewrite Hs. Qed.

Lemma restore_disk_None s : db_storage s = None → Snapshot.restore_disk s = s.
Proof.
  intros Hs. unfold Snapshot.restore_disk, Snapshot.write_all.
  induction (Snapshot.restore_writes s) as [|w ws IH]; cbn; [done|]. by rewrite persist_None.
Qed.

Lemma restore_snapshot s s' :
  Snapshot.snapshot (Snapshot.restore (Snapshot.snapshot s) s') = Snapshot.snapshot s.
Proof.
  unfold Snapshot.restore. rewrite (snapshot_same _ _ (restore_disk_same _)). reflexivity.
Qed.

Lemma restore_cached s s' a :
  is_Some (db_accounts s !! a) →
  State.get_account (Snapshot.restore (Snapshot.snapshot s) s') a = State.get_account s a.
Proof.
  intros [acc Ha]. unfold State.get_account. rewrite restore_accounts.
  change (sn_accounts (Snapshot.snapshot s)) with (db_accounts s). by rewrite Ha.
Qed.

(** After any changes, [restore] brings back every table of the snapshot
    and, for every account that was in the cache when the snapshot was taken,
    the account that is read; without a backing store that holds of every
    account. *)
Theorem restore_undoes s s' :
  let r := Snapshot.restore (Snapshot.snapshot s) s' in
  Snapshot.snapshot r = Snapshot.snapshot s ∧
  (∀ a, is_Some (db_accounts s !! a) → State.get_account r a = State.get_account s a) ∧
  (db_storage s = None → db_storage s' = None →
   ∀ a, State.get_account r a = State.get_account s a).
Proof.
  intros r. split; [apply restore_snapshot|]. split; [intros a; apply restore_cached|].
  intros Hs Hs' a. apply get_account_frame; [apply restore_accounts|].
  unfold r, Snapshot.restore. by rewrite restore_disk_None, Hs.
Qed.
End rollback.

#[local] Existing Instance demo_env.

(** A store holding one account of 100 that is not in the cache, as after a
    restart. *)
Definition demo_restarted : StateDB :=
  StateDB_new <| db_storage := Some (Kv.put Accounts (address_bytes (demo_address 1))
    (to_vec (Account.with_balance 100)) Kv.new) |>.

(** With a backing store, an account that was on disk but not in the cache
    when the snapshot was taken is not rolled back: the debit made after the
    snapshot survives [restore]. *)
Theorem restore_leaks_uncached :
  let s := demo_restarted in
  let s' := (State.sub_balance (demo_address 1) 40 s).2 in
  State.get_balance s (demo_address 1) = 100 ∧
  State.get_balance (Snapshot.restore (Snapshot.snapshot s) s') (demo_address 1) = 60.
Proof. vm_compute. done. Qed.

Definition demo_committed : StateDB :=
  (Snapshot.compute_state_root (State.with_accounts [(demo_address 1, Account.with_balance 100)])).2.

(** Rolling back a block after its state root was computed leaves the
    block's new accounts in the trie: the account is gone from the state, yet
    the recomputed root differs from the root before the block and still
    commits to that account. *)
Theorem restore_leaves_trie_entries :
  let s := demo_committed in
  let s' := (Snapshot.compute_state_root
               (State.put_account (demo_address 256) (Account.with_balance 5) s)).2 in
  let r := Snapshot.restore (Snapshot.snapshot s) s' in
  State.get_account r (demo_address 256) = AccountState_default ∧
  is_Some (Trie.get (db_trie (Snapshot.compute_state_root r).2) (address_bytes (demo_address 256))) ∧
  (Snapshot.compute_state_root r).1 ≠ (Snapshot.compute_state_root s).1.
Proof. vm_compute. split; [done|]. split; [by eexists|done]. Qed.
