(* ===== verification/Restart.v ===== *)
(** * Starting from a store ([crates/vtt-state/src/statedb.rs])

    [with_storage] opens a state over an existing store: it checks the schema
    version, loads the tables that are not read through, and rebuilds the trie.
    [attach_storage] does the opposite: it flushes an in-memory state into a
    store and goes on over it. *)

From S2P Require Import Prelude Primitives RustStr Storage Assets Oracle StateDB Codecs Snapshot.

Definition DB_SCHEMA_VERSION : Z := 1.
Definition SCHEMA_VERSION_KEY : bytes := "schema:version".

(** [into_iter().collect()] into a [HashMap]: a later entry replaces an earlier
    one with the same key. *)
Definition collect_map {K V} `{Countable K} (l : list (K * V)) : gmap K V :=
  foldl (λ m kv, <[kv.1 := kv.2]> m) ∅ l.

Module Restart.
Section with_env.
Context `{Env, !Borsh (list (Address * list (Amount * Z)))}.

(** ** Schema version *)

(** Panics unless the version on disk is the expected one. *)
Definition verify_or_stamp_schema_version {E} : M StateDB E unit :=
  storage ← gets db_storage;
  match storage with
  | None => mret tt
  | Some st =>
      match Kv.get st ChainMeta SCHEMA_VERSION_KEY with
      | Some v => if (blen v =? 4) && (from_le_bytes v =? DB_SCHEMA_VERSION) then mret tt
                  else lift Panic
      | None => modify (persist ChainMeta SCHEMA_VERSION_KEY (to_le_bytes 4 DB_SCHEMA_VERSION))
      end
  end.

(** ** Loading *)

(** A Borsh value under a key of the chain metadata; ignored when it does not
    decode. *)
Definition load_meta {A} `{!Borsh A} (st : KvStore) (key : bytes) : option A :=
  Kv.get st ChainMeta key ≫= from_slice.

Definition load_le (st : KvStore) (key : bytes) (n : Z) : option Z :=
  v ← Kv.get st ChainMeta key;
  if blen v =? n then Some (from_le_bytes v) else None.

Definition migrate_entries (kv : Address * list (Amount * Z)) : Address * list UnbondingEntry :=
  (kv.1, (λ e, MkUnbondingEntry e.1 e.2 Address_ZERO) <$> kv.2).

(** The unbonding table, or its older layout without the validator. *)
Definition load_unbonding (st : KvStore) : option (gmap Address (list UnbondingEntry)) :=
  v ← Kv.get st ChainMeta "unbonding:all";
  match from_slice (A:=list (Address * list UnbondingEntry)) v with
  | Some items => Some (collect_map items)
  | None =>
      legacy ← from_slice (A:=list (Address * list (Amount * Z))) v;
      Some (collect_map (migrate_entries <$> legacy))
  end.

(** [for (key, value) in prefix_scan(column, prefix) { if .. { table.insert(..) } }] *)
Definition scan_table {K V} `{Countable K} (st : KvStore) (c : Column) (prefix : bytes)
    (key : bytes → option K) (val : bytes → option V) : gmap K V :=
  collect_map (omap (λ kv, k ← key kv.1; v ← val kv.2; Some (k, v)) (Kv.prefix_scan st c prefix)).

Definition h256_key (b : bytes) : option H256 := if blen b =? 32 then Some (MkH256 b) else None.

(** The digest after a prefix of [n] bytes. *)
Definition prefixed_key (n : nat) (b : bytes) : option H256 := h256_key (bdrop n b).

Definition ownership_key_of (b : bytes) : option (H256 * Address) :=
  if blen b =? 52 then Some (MkH256 (btake 32 b), MkAddress (bdrop 32 b)) else None.

Definition contract_key_of (b : bytes) : option (Address * bytes) :=
  if 20 <=? blen b then Some (MkAddress (btake 20 b), bdrop 20 b) else None.

Definition holder_value (v : bytes) : option Z :=
  if blen v =? 4 then Some (from_le_bytes v) else None.

(** One turn per ownership record; [total] panics on overflow, [+= 1] wraps. *)
Definition count_holders {E : Type} (m : gmap (H256 * Address) OwnershipRecord)
    : res E (gmap H256 Z) :=
  fold_res (λ counts kv,
    total ← Own.total kv.2;
    Ok (if Amount.is_zero total then counts
        else <[kv.1.1 := wrap 32 (default 0 (counts !! kv.1.1) + 1)]> counts)) ∅ (hash_iter m).

Definition holder_writes (counts : gmap H256 Z) : list (Column * bytes * bytes) :=
  Snapshot.table_writes ChainMeta (λ k, "holders:" +:+ h256_bytes k) (to_le_bytes 4) counts.

(** The backfill of the holder index of an older store. *)
Definition backfill_holders {E} : M StateDB E unit :=
  s ← gets (λ s, s);
  if bool_decide (db_asset_holder_count s = ∅) && negb (bool_decide (db_ownership s = ∅)) then
    counts ← lift (count_holders (db_ownership s));
    modify (λ s, Snapshot.write_all (holder_writes counts)
                   (s <| db_asset_holder_count := counts |>))
  else mret tt.

(** The stakers' accounts; the other accounts are read through. *)
Definition warm_stakers (st : KvStore) (stakers : gset Address) : gmap Address AccountState :=
  collect_map (omap (λ a, acc ← (Kv.get st Accounts (address_bytes a) ≫= from_slice); Some (a, acc))
                 (set_iter stakers)).

Definition rebuild_trie_from_cache (s : StateDB) : StateDB :=
  let t := foldl (λ t kv, if Account.is_empty kv.2 then t
                          else Trie.insert (address_bytes kv.1) (to_vec kv.2) t)
             (db_trie s) (hash_iter (db_accounts s)) in
  let t := Snapshot.insert_all (λ k, "asset:" +:+ h256_bytes k) to_vec (db_assets s) t in
  let t := Snapshot.insert_all (λ k, "pool:" +:+ h256_bytes k) id (db_pools s) t in
  s <| db_trie := Snapshot.root_tables s t |>.

(** What [load_non_fallthrough_state] reads before the backfill. *)
Definition load_tables (st : KvStore) (s : StateDB) : StateDB :=
  let or_same {A} (o : option A) (a : A) := default a o in
  let s := s <| db_slashing_seen := or_same (list_to_set <$> load_meta st "slashing:seen")
                                      (db_slashing_seen s) |>
             <| db_unbonding_entries := or_same (load_unbonding st) (db_unbonding_entries s) |>
             <| db_kyc_approved := or_same (list_to_set <$> load_meta st "kyc:approved")
                                     (db_kyc_approved s) |>
             <| db_block_commitments := or_same (collect_map <$> load_meta st "block:commitments")
                                          (db_block_commitments s) |>
             <| db_missed_slots := or_same (collect_map <$> load_meta st "missed:slots")
                                     (db_missed_slots s) |>
             <| db_stakers := or_same (list_to_set <$> load_meta st "stakers:set")
                                (db_stakers s) |>
             <| db_total_minted_milli := or_same (load_le st "supply:minted_milli" 8)
                                           (db_total_minted_milli s) |>
             <| db_total_burned_milli := or_same (load_le st "supply:burned_milli" 8)
                                           (db_total_burned_milli s) |> in
  s <| db_asset_holder_count := scan_table st ChainMeta "holders:" (prefixed_key 8) holder_value |>
    <| db_accounts := warm_stakers st (db_stakers s) |>
    <| db_assets := scan_table st Assets "" h256_key from_slice |>
    <| db_pools := scan_table st Pools "" h256_key Some |>
    <| db_mining_states := scan_table st MiningStates "" h256_key Some |>
    <| db_asset_proposals := scan_table st AssetProposals "" h256_key from_slice |>
    <| db_oracles := scan_table st Oracles "" h256_key from_slice |>
    <| db_governance_proposals := scan_table st ChainMeta "gov:" (prefixed_key 4) Some |>
    <| db_ownership := scan_table st Ownership "" ownership_key_of from_slice |>.

Definition load_contracts (st : KvStore) (s : StateDB) : StateDB :=
  s <| db_contract_code := scan_table st ContractCode "" h256_key Some |>
    <| db_contract_storage := scan_table st ContractStorage "" contract_key_of Some |>.

Definition load_non_fallthrough_state {E} : M StateDB E unit :=
  storage ← gets db_storage;
  match storage with
  | None => mret tt
  | Some st =>
      _ ← modify (load_tables st);
      _ ← backfill_holders;
      _ ← modify (load_contracts st);
      modify rebuild_trie_from_cache
  end.

Definition with_storage {E} (st : KvStore) : res E StateDB :=
  match (_ ← verify_or_stamp_schema_version; load_non_fallthrough_state)
          (StateDB_new <| db_storage := Some st |>) with
  | (Ok _, s) => Ok s
  | (Err e, _) => Err e
  | (Panic, _) => Panic
  end.

(** ** Flushing *)

(** The [put]s of [attach_storage] before the store is installed. *)
Definition attach_writes (s : StateDB) : list (Column * bytes * bytes) :=
  Snapshot.table_writes Accounts address_bytes to_vec (db_accounts s)
  ++ Snapshot.table_writes Assets h256_bytes to_vec (db_assets s)
  ++ Snapshot.table_writes Ownership Snapshot.ownership_key to_vec (db_ownership s)
  ++ holder_writes (db_asset_holder_count s)
  ++ Snapshot.table_writes Oracles h256_bytes to_vec (db_oracles s)
  ++ Snapshot.table_writes ContractCode h256_bytes id (db_contract_code s)
  ++ Snapshot.table_writes ContractStorage Snapshot.contract_key id (db_contract_storage s)
  ++ Snapshot.table_writes Pools h256_bytes id (db_pools s)
  ++ Snapshot.table_writes MiningStates h256_bytes id (db_mining_states s)
  ++ Snapshot.table_writes AssetProposals h256_bytes to_vec (db_asset_proposals s)
  ++ Snapshot.table_writes ChainMeta (λ k, "gov:" +:+ h256_bytes k) id (db_governance_proposals s)
  ++ (if bool_decide (db_treasury_address s = Address_ZERO) then []
      else [(ChainMeta, "treasury_address", address_bytes (db_treasury_address s))])
  ++ [(ChainMeta, "epoch_length", to_le_bytes 8 (db_epoch_length s));
      (ChainMeta, "dex:paused", State.bool_byte (db_dex_paused s))].

(** The staker index from the cached accounts. *)
Definition stakers_of (accounts : gmap Address AccountState) : gset Address :=
  dom (filter (λ kv, State.has_self_stake kv.2 = true) accounts).

Definition attach_storage {E} (st : KvStore) : M StateDB E unit :=
  ownership ← gets db_ownership;
  counts ← lift (count_holders ownership);
  _ ← modify (λ s, s <| db_asset_holder_count := counts |>);
  _ ← modify (λ s, Snapshot.write_all (attach_writes s) (s <| db_storage := Some st |>));
  _ ← verify_or_stamp_schema_version;
  _ ← modify State.persist_unbonding_entries;
  _ ← modify State.persist_slashing_seen;
  _ ← modify (λ s, if bool_decide (db_kyc_approved s = ∅) then s
                   else persist ChainMeta "kyc:approved" (to_vec (set_iter (db_kyc_approved s))) s);
  _ ← modify State.persist_block_commitments;
  _ ← modify State.persist_missed_slots;
  _ ← modify (λ s, s <| db_stakers := stakers_of (db_accounts s) |>);
  modify State.persist_stakers.

(** Warms the cache with the stakers of a freshly built genesis state; what is
    on disk for them takes precedence. *)
Definition bootstrap_stakers_from (source s : StateDB) : StateDB :=
  State.persist_stakers
    (foldl (λ s kv,
       if State.has_self_stake kv.2 then
         let existing := State.get_account s kv.1 in
         let account_to_cache := match ac_staking existing with
                                 | Some _ => existing
                                 | None => kv.2
                                 end in
         s <| db_accounts := <[kv.1 := account_to_cache]> (db_accounts s) |>
           <| db_stakers := {[kv.1]} ∪ db_stakers s |>
       else s) s (hash_iter (db_accounts source))).

End with_env.
End Restart.

(** ** Generic facts: collecting, writing, scanning *)

(** At most one value per key. *)
Definition functional {K V} (l : list (K * V)) : Prop :=
  ∀ k v v', (k, v) ∈ l → (k, v') ∈ l → v = v'.

Lemma collect_map_app {K V} `{Countable K} (l : list (K * V)) kv :
  collect_map (l ++ [kv]) = <[kv.1 := kv.2]> (collect_map l).
Proof. unfold collect_map. by rewrite foldl_app. Qed.

Lemma functional_app {K V} (l l' : list (K * V)) : functional (l ++ l') → functional l.
Proof. intros Hf k v v' ??. eapply Hf; apply elem_of_app; by left. Qed.

Lemma collect_map_lookup {K V} `{Countable K} (l : list (K * V)) k v :
  functional l → collect_map l !! k = Some v ↔ (k, v) ∈ l.
Proof.
  revert k v. induction l as [|[k' v'] l IH] using rev_ind; intros k v Hf.
  { cbn. rewrite lookup_empty. split; [done|]. by intros ?%not_elem_of_nil. }
  rewrite collect_map_app, elem_of_app, list_elem_of_singleton. cbn.
  specialize (IH k v (functional_app _ _ Hf)). destruct (decide (k' = k)) as [->|Hne].
  - rewrite lookup_insert_eq. split; [intros [= ->]; by right|].
    intros Hin. f_equal. eapply (Hf k); [apply elem_of_app; right; by left|].
    by apply elem_of_app; destruct Hin as [|[= ->]]; [left|right; left].
  - rewrite lookup_insert_ne by done. rewrite IH. naive_solver.
Qed.

Section iteration.
Context `{HashIter}.

Lemma elem_of_hash_iter {K V} `{Countable K} (m : gmap K V) k v :
  (k, v) ∈ hash_iter m ↔ m !! k = Some v.
Proof. rewrite hash_iter_perm. apply elem_of_map_to_list. Qed.

Lemma collect_hash_iter {K V} `{Countable K} (m : gmap K V) : collect_map (hash_iter m) = m.
Proof.
  apply map_eq. intros k. apply option_eq. intros v.
  rewrite collect_map_lookup; [apply elem_of_hash_iter|].
  intros k' v1 v2 ??. rewrite elem_of_hash_iter in *. congruence.
Qed.

Lemma collect_set_iter {K} `{Countable K} (m : gset K) : list_to_set (set_iter m) = m.
Proof. rewrite set_iter_perm. apply list_to_set_elements_L. Qed.
End iteration.

(** A sequence of [put]s on a store. *)
Definition kv_writes (ws : list (Column * bytes * bytes)) (st : KvStore) : KvStore :=
  foldl (λ st w, Kv.put w.1.1 w.1.2 w.2 st) st ws.

Lemma write_all_storage `{Env} ws s :
  Snapshot.write_all ws s = s <| db_storage := kv_writes ws <$> db_storage s |>.
Proof.
  revert s. induction ws as [|w ws IH]; intros s.
  { unfold upd, upd_db_storage. destruct s as [? ? ? ? ? ? ? ? ? ? ? ? ? ? ? ? ? ? ? ? ? ? ? ? ? ? st]. by destruct st. }
  change (Snapshot.write_all (w :: ws) s) with (Snapshot.write_all ws (persist w.1.1 w.1.2 w.2 s)).
  rewrite IH, persist_unfold. unfold upd, upd_db_storage. cbn. by destruct (db_storage s).
Qed.

Lemma kv_writes_snoc ws c k v st :
  kv_writes (ws ++ [(c, k, v)]) st = Kv.put c k v (kv_writes ws st).
Proof. unfold kv_writes. by rewrite foldl_app. Qed.

Lemma kv_get_writes ws c k v :
  functional ws → Kv.get (kv_writes ws Kv.new) c k = Some v ↔ (c, k, v) ∈ ws.
Proof.
  revert c k v. induction ws as [|[[c' k'] v'] ws IH] using rev_ind; intros c k v Hf.
  { split; [|by intros ?%not_elem_of_nil]. unfold Kv.get, Kv.new. cbn. by destruct c. }
  rewrite kv_writes_snoc.
  rewrite elem_of_app, list_elem_of_singleton.
  specialize (IH c k v (functional_app _ _ Hf)).
  destruct (decide ((c', k') = (c, k))) as [[= -> ->]|Hne].
  - rewrite kv_get_put_eq. split; [intros [= ->]; by right|].
    intros Hin. f_equal. eapply (Hf (c, k)); [apply elem_of_app; right; by left|].
    by apply elem_of_app; destruct Hin as [|[= ->]]; [left|right; left].
  - rewrite kv_get_put_ne by done. rewrite IH. naive_solver.
Qed.

Lemma scan_table_lookup `{Env} {K V} `{Countable K} st c prefix
    (key : bytes → option K) (val : bytes → option V) x y :
  (∀ k k', key k = key k' → is_Some (key k) → String.prefix prefix k = true →
           String.prefix prefix k' = true → k = k') →
  Restart.scan_table st c prefix key val !! x = Some y ↔
    ∃ k v, Kv.get st c k = Some v ∧ String.prefix prefix k = true ∧ key k = Some x ∧ val v = Some y.
Proof.
  intros Hinj. unfold Restart.scan_table.
  assert (Hscan : ∀ k v, (k, v) ∈ Kv.prefix_scan st c prefix ↔
    Kv.get st c k = Some v ∧ String.prefix prefix k = true).
  { intros k v. unfold Kv.prefix_scan, Kv.get. destruct (st !! c) as [col|]; cbn.
    - rewrite list_elem_of_filter, elem_of_hash_iter. cbn. naive_solver.
    - split; [by intros ?%not_elem_of_nil|by intros []]. }
  assert (Hmem : ∀ x y, (x, y) ∈ omap (λ kv, k ← key kv.1; v ← val kv.2; Some (k, v))
      (Kv.prefix_scan st c prefix) ↔
    ∃ k v, Kv.get st c k = Some v ∧ String.prefix prefix k = true ∧ key k = Some x ∧ val v = Some y).
  { intros x' y'. rewrite list_elem_of_omap. split.
    - intros ([k v] & Hin%Hscan & Hkv). cbn in Hkv. exists k, v.
      destruct (key k); [|done]. destruct (val v); naive_solver.
    - intros (k & v & ? & ? & Hk & Hv). exists (k, v). rewrite Hscan. cbn. by rewrite Hk, Hv. }
  rewrite collect_map_lookup; [apply Hmem|].
  intros x' v1 v2 (k1 & w1 & ? & ? & ? & ?)%Hmem (k2 & w2 & ? & ? & ? & ?)%Hmem.
  assert (k1 = k2) as <- by (apply Hinj; [congruence|by eexists|done..]). congruence.
Qed.

Lemma btake_bdrop n s : btake n s +:+ bdrop n s = s.
Proof.
  revert s. induction n as [|n IH]; intros [|c s]; try done.
  exact (f_equal (String c) (IH s)).
Qed.

Lemma prefix_bdrop p k : String.prefix p k = true → k = p +:+ bdrop (String.length p) k.
Proof.
  revert k. induction p as [|c p IH]; intros [|c' k]; try done. cbn.
  destruct (Ascii.ascii_dec c c') as [<-|]; [|done]. intros Hp.
  exact (f_equal (String c) (IH k Hp)).
Qed.

Lemma prefix_app p s : String.prefix p (p +:+ s) = true.
Proof.
  induction p as [|c p IH]; [by destruct s|].
  change (String.prefix (String c p) (String c (p +:+ s)) = true). cbn.
  destruct (Ascii.ascii_dec c c) as [_|[]]; [exact IH|done].
Qed.

(** ** A restart brings the tables back *)

Section roundtrip.
Context `{Env, !Borsh (list (Address * list (Amount * Z)))}.

Definition h256_sized (h : H256) : Prop := String.length (h256_bytes h) = 32%nat.
Definition address_sized (a : Address) : Prop := String.length (address_bytes a) = 20%nat.

(** The keys of the tables have the length of their types. *)
Record sized (s : StateDB) : Prop := {
  sz_assets : ∀ k, is_Some (db_assets s !! k) → h256_sized k;
  sz_ownership : ∀ k, is_Some (db_ownership s !! k) → h256_sized k.1 ∧ address_sized k.2;
  sz_oracles : ∀ k, is_Some (db_oracles s !! k) → h256_sized k;
  sz_code : ∀ k, is_Some (db_contract_code s !! k) → h256_sized k;
  sz_contracts : ∀ k, is_Some (db_contract_storage s !! k) → address_sized k.1;
  sz_pools : ∀ k, is_Some (db_pools s !! k) → h256_sized k;
  sz_mining : ∀ k, is_Some (db_mining_states s !! k) → h256_sized k;
  sz_asset_proposals : ∀ k, is_Some (db_asset_proposals s !! k) → h256_sized k;
  sz_governance : ∀ k, is_Some (db_governance_proposals s !! k) → h256_sized k;
  sz_holders : ∀ k, is_Some (db_asset_holder_count s !! k) → h256_sized k;
  sz_holder_counts : ∀ k n, db_asset_holder_count s !! k = Some n → in_width 32 n;
}.

(** Everything [attach_storage] writes. *)
Definition final_writes (s : StateDB) : list (Column * bytes * bytes) :=
  Restart.attach_writes s
  ++ [(ChainMeta, SCHEMA_VERSION_KEY, to_le_bytes 4 DB_SCHEMA_VERSION);
      (ChainMeta, "unbonding:all", to_vec (hash_iter (db_unbonding_entries s)));
      (ChainMeta, "slashing:seen", to_vec (set_iter (db_slashing_seen s)))]
  ++ (if bool_decide (db_kyc_approved s = ∅) then []
      else [(ChainMeta, "kyc:approved", to_vec (set_iter (db_kyc_approved s)))])
  ++ [(ChainMeta, "block:commitments", to_vec (hash_iter (db_block_commitments s)));
      (ChainMeta, "missed:slots", to_vec (hash_iter (db_missed_slots s)));
      (ChainMeta, "stakers:set", to_vec (set_iter (db_stakers s)))].

Lemma elem_table_writes {K V} `{Countable K} c c' key (val : V → bytes) (m : gmap K V) k v :
  (c, k, v) ∈ Snapshot.table_writes c' key val m ↔
    c = c' ∧ ∃ x y, m !! x = Some y ∧ k = key x ∧ v = val y.
Proof.
  unfold Snapshot.table_writes. rewrite list_elem_of_fmap. split.
  - intros ([x y] & [= -> -> ->] & Hin). rewrite elem_of_hash_iter in Hin. split; [done|].
    by exists x, y.
  - intros (-> & x & y & Hm & -> & ->). exists (x, y). by rewrite elem_of_hash_iter.
Qed.

(** The writes to one column. *)
Definition in_column (c : Column) (ws : list (Column * bytes * bytes))
    : list (Column * bytes * bytes) := filter (λ w, w.1.1 = c) ws.

Lemma in_column_app c ws ws' : in_column c (ws ++ ws') = in_column c ws ++ in_column c ws'.
Proof. apply filter_app. Qed.

Lemma in_column_table {K V} `{Countable K} c c' key (val : V → bytes) (m : gmap K V) :
  in_column c (Snapshot.table_writes c' key val m) =
    if decide (c' = c) then Snapshot.table_writes c' key val m else [].
Proof.
  unfold in_column, Snapshot.table_writes. induction (hash_iter m) as [|kv l IH].
  { by case_decide. }
  rewrite fmap_cons, filter_cons. cbn [fst]. rewrite IH. by case_decide.
Qed.

Lemma kv_get_in_column c ws st k :
  Kv.get (kv_writes ws st) c k = Kv.get (kv_writes (in_column c ws) st) c k.
Proof.
  revert st. induction ws as [|[[c' k'] v'] ws IH] using rev_ind; intros st; [done|].
  rewrite in_column_app, kv_writes_snoc. unfold in_column at 2.
  rewrite filter_cons, filter_nil. cbn [fst snd]. case_decide as Hc.
  - subst c'. rewrite kv_writes_snoc. destruct (decide (k = k')) as [->|].
    + by rewrite !kv_get_put_eq.
    + rewrite !kv_get_put_ne by congruence. apply IH.
  - rewrite app_nil_r, <- IH. apply kv_get_put_ne. congruence.
Qed.

Definition meta_writes (s : StateDB) : list (Column * bytes * bytes) :=
  Restart.holder_writes (db_asset_holder_count s)
  ++ Snapshot.table_writes ChainMeta (λ k, "gov:" +:+ h256_bytes k) id (db_governance_proposals s)
  ++ (if bool_decide (db_treasury_address s = Address_ZERO) then []
      else [(ChainMeta, "treasury_address", address_bytes (db_treasury_address s))])
  ++ [(ChainMeta, "epoch_length", to_le_bytes 8 (db_epoch_length s));
      (ChainMeta, "dex:paused", State.bool_byte (db_dex_paused s));
      (ChainMeta, SCHEMA_VERSION_KEY, to_le_bytes 4 DB_SCHEMA_VERSION);
      (ChainMeta, "unbonding:all", to_vec (hash_iter (db_unbonding_entries s)));
      (ChainMeta, "slashing:seen", to_vec (set_iter (db_slashing_seen s)))]
  ++ (if bool_decide (db_kyc_approved s = ∅) then []
      else [(ChainMeta, "kyc:approved", to_vec (set_iter (db_kyc_approved s)))])
  ++ [(ChainMeta, "block:commitments", to_vec (hash_iter (db_block_commitments s)));
      (ChainMeta, "missed:slots", to_vec (hash_iter (db_missed_slots s)));
      (ChainMeta, "stakers:set", to_vec (set_iter (db_stakers s)))].

Lemma final_writes_column s c :
  in_column c (final_writes s) =
    match c with
    | Accounts => Snapshot.table_writes Accounts address_bytes to_vec (db_accounts s)
    | Assets => Snapshot.table_writes Assets h256_bytes to_vec (db_assets s)
    | Ownership => Snapshot.table_writes Ownership Snapshot.ownership_key to_vec (db_ownership s)
    | Oracles => Snapshot.table_writes Oracles h256_bytes to_vec (db_oracles s)
    | ContractCode => Snapshot.table_writes ContractCode h256_bytes id (db_contract_code s)
    | ContractStorage =>
        Snapshot.table_writes ContractStorage Snapshot.contract_key id (db_contract_storage s)
    | Pools => Snapshot.table_writes Pools h256_bytes id (db_pools s)
    | MiningStates => Snapshot.table_writes MiningStates h256_bytes id (db_mining_states s)
    | AssetProposals =>
        Snapshot.table_writes AssetProposals h256_bytes to_vec (db_asset_proposals s)
    | ChainMeta => meta_writes s
    | _ => []
    end.
Proof.
  unfold final_writes, Restart.attach_writes, meta_writes, Restart.holder_writes.
  rewrite !in_column_app, !in_column_table.
  destruct c; destruct (bool_decide (db_treasury_address s = _)),
    (bool_decide (db_kyc_approved s = _)); cbn -[to_le_bytes Snapshot.table_writes State.bool_byte];
    by rewrite ?app_nil_r, <- ?app_assoc.
Qed.

Lemma table_functional {K V} `{Countable K} c key (val : V → bytes) (m : gmap K V) :
  (∀ x x', is_Some (m !! x) → is_Some (m !! x') → key x = key x' → x = x') →
  functional (Snapshot.table_writes c key val m).
Proof.
  intros Hinj [c' k] v v' (? & x & y & ? & ? & ?)%elem_table_writes
    (_ & x' & y' & ? & ? & ?)%elem_table_writes.
  assert (x = x') as <- by (apply Hinj; [by eexists..|congruence]). congruence.
Qed.

(** The value of a key of the chain metadata. *)
Definition meta_lookup (s : StateDB) (k : bytes) : option bytes :=
  if String.prefix "holders:" k
  then to_le_bytes 4 <$> db_asset_holder_count s !! MkH256 (bdrop 8 k)
  else if String.prefix "gov:" k then db_governance_proposals s !! MkH256 (bdrop 4 k)
  else if bool_decide (k = "treasury_address") then Some (address_bytes (db_treasury_address s))
  else if bool_decide (k = "epoch_length") then Some (to_le_bytes 8 (db_epoch_length s))
  else if bool_decide (k = "dex:paused") then Some (State.bool_byte (db_dex_paused s))
  else if bool_decide (k = SCHEMA_VERSION_KEY) then Some (to_le_bytes 4 DB_SCHEMA_VERSION)
  else if bool_decide (k = "unbonding:all")
  then Some (to_vec (hash_iter (db_unbonding_entries s)))
  else if bool_decide (k = "slashing:seen") then Some (to_vec (set_iter (db_slashing_seen s)))
  else if bool_decide (k = "kyc:approved") then Some (to_vec (set_iter (db_kyc_approved s)))
  else if bool_decide (k = "block:commitments")
  then Some (to_vec (hash_iter (db_block_commitments s)))
  else if bool_decide (k = "missed:slots") then Some (to_vec (hash_iter (db_missed_slots s)))
  else if bool_decide (k = "stakers:set") then Some (to_vec (set_iter (db_stakers s)))
  else None.

Lemma meta_writes_lookup s : Forall (λ w, meta_lookup s w.1.2 = Some w.2) (meta_writes s).
Proof.
  unfold meta_writes, Restart.holder_writes. rewrite !Forall_app. split_and!.
  - apply Forall_forall. intros [[c k] v] (_ & x & y & Hx & -> & ->)%elem_table_writes.
    unfold meta_lookup. cbn [fst snd]. rewrite prefix_app.
    change 8%nat with (String.length "holders:"). rewrite bdrop_app. by destruct x; cbn; rewrite Hx.
  - apply Forall_forall. intros [[c k] v] (_ & x & y & Hx & -> & ->)%elem_table_writes.
    unfold meta_lookup. cbn [fst snd]. rewrite prefix_app.
    replace (String.prefix "holders:" _) with false by reflexivity.
    change 4%nat with (String.length "gov:"). rewrite bdrop_app. by destruct x.
  - case_bool_decide; by repeat constructor.
  - by repeat constructor.
  - case_bool_decide; by repeat constructor.
  - by repeat constructor.
Qed.

Lemma meta_writes_functional s : functional (meta_writes s).
Proof.
  intros [c k] v v' H1 H2. pose proof (meta_writes_lookup s) as Hl. rewrite Forall_forall in Hl.
  apply Hl in H1, H2. cbn in H1, H2. congruence.
Qed.

(** The keys of every table are as long as their types say, so that distinct
    entries are written to distinct keys. *)
Lemma ownership_key_inj x x' :
  h256_sized x.1 → h256_sized x'.1 → Snapshot.ownership_key x = Snapshot.ownership_key x' → x = x'.
Proof.
  destruct x as [[h] [a]], x' as [[h'] [a']]. unfold h256_sized, Snapshot.ownership_key. cbn.
  intros H1 H2 He. apply bapp_inj_l in He as [-> ->]; [done|congruence].
Qed.

Lemma contract_key_inj x x' :
  address_sized x.1 → address_sized x'.1 → Snapshot.contract_key x = Snapshot.contract_key x' → x = x'.
Proof.
  destruct x as [[a] k], x' as [[a'] k']. unfold address_sized, Snapshot.contract_key. cbn.
  intros H1 H2 He. apply bapp_inj_l in He as [-> ->]; [done|congruence].
Qed.

Lemma h256_bytes_inj (x x' : H256) : h256_bytes x = h256_bytes x' → x = x'.
Proof. destruct x, x'. by cbn; intros ->. Qed.

Lemma column_functional s c : sized s → functional (in_column c (final_writes s)).
Proof.
  intros []. rewrite final_writes_column. destruct c; try (by intros ???[]%elem_of_nil);
    try apply meta_writes_functional; apply table_functional; intros x x' Hx Hx';
    eauto using address_bytes_inj, h256_bytes_inj.
  - apply ownership_key_inj; by apply sz_ownership0.
  - apply contract_key_inj; by apply sz_contracts0.
Qed.

(** The store [st] holds exactly what was written. *)
Definition holds (s : StateDB) (st : KvStore) : Prop :=
  ∀ c k v, Kv.get st c k = Some v ↔ (c, k, v) ∈ in_column c (final_writes s).

Lemma final_holds s : sized s → holds s (kv_writes (final_writes s) Kv.new).
Proof. intros Hs c k v. rewrite kv_get_in_column. by apply kv_get_writes, column_functional. Qed.

(** A scan that finds exactly the entries of a table rebuilds the table. *)
Lemma scan_roundtrip {K V} `{Countable K} st c prefix (key : K → bytes) (val : V → bytes)
    (dk : bytes → option K) (dv : bytes → option V) (m : gmap K V) :
  (∀ k v, String.prefix prefix k = true →
     Kv.get st c k = Some v ↔ ∃ x y, m !! x = Some y ∧ k = key x ∧ v = val y) →
  (∀ x, String.prefix prefix (key x) = true) →
  (∀ x, is_Some (m !! x) → dk (key x) = Some x) →
  (∀ x y, m !! x = Some y → dv (val y) = Some y) →
  (∀ k k', dk k = dk k' → is_Some (dk k) → String.prefix prefix k = true →
           String.prefix prefix k' = true → k = k') →
  Restart.scan_table st c prefix dk dv = m.
Proof.
  intros Hget Hpre Hdk Hdv Hinj. apply map_eq. intros x. apply option_eq. intros y.
  rewrite scan_table_lookup by done. split.
  - intros (k & v & Hk & Hp & Hx & Hy).
    apply Hget in Hk as (x' & y' & Hm & -> & ->); [|done].
    rewrite Hdk in Hx by (by eexists). rewrite (Hdv x') in Hy by done. congruence.
  - intros Hm. exists (key x), (val y). split_and!; [|done|apply Hdk; by eexists|by eapply Hdv].
    apply Hget; [done|]. eauto.
Qed.

Lemma h256_key_bytes h : h256_sized h → Restart.h256_key (h256_bytes h) = Some h.
Proof. intros Hh. unfold Restart.h256_key, blen. rewrite Hh. by destruct h. Qed.

Lemma h256_key_inj k k' :
  Restart.h256_key k = Restart.h256_key k' → is_Some (Restart.h256_key k) → k = k'.
Proof.
  unfold Restart.h256_key. intros He [x Hx]. rewrite Hx in He.
  destruct (_ =? _) in Hx; [|done]. destruct (_ =? _) in He; congruence.
Qed.

Lemma split_inj n k k' : btake n k = btake n k' → bdrop n k = bdrop n k' → k = k'.
Proof. intros H1 H2. by rewrite <- (btake_bdrop n k), <- (btake_bdrop n k'), H1, H2. Qed.

Lemma ownership_split_inj n k k' :
  Some (MkH256 (btake n k), MkAddress (bdrop n k)) = Some (MkH256 (btake n k'), MkAddress (bdrop n k')) →
  k = k'.
Proof. intros [= H1 H2]. by eapply split_inj. Qed.

Lemma contract_split_inj n k k' :
  Some (MkAddress (btake n k), bdrop n k) = Some (MkAddress (btake n k'), bdrop n k') → k = k'.
Proof. intros [= H1 H2]. by eapply split_inj. Qed.

Section columns.
Context (s : StateDB) (Hs : sized s).
Context (st : KvStore) (Hst : holds s st).

(** A column whose only writes are those of one table. *)
Lemma scan_column {K V} `{Countable K} c (key : K → bytes) (val : V → bytes)
    (dk : bytes → option K) (dv : bytes → option V) (m : gmap K V) :
  in_column c (final_writes s) = Snapshot.table_writes c key val m →
  (∀ x, is_Some (m !! x) → dk (key x) = Some x) →
  (∀ y, dv (val y) = Some y) →
  (∀ k k', dk k = dk k' → is_Some (dk k) → k = k') →
  Restart.scan_table st c "" dk dv = m.
Proof.
  intros Hc Hdk Hdv Hinj. apply (scan_roundtrip _ _ _ key val).
  - intros k v _. rewrite (Hst _ _ _). rewrite Hc, elem_table_writes. naive_solver.
  - intros x. by destruct (key x).
  - done.
  - by intros x y _.
  - by intros k k' ?? _ _; apply Hinj.
Qed.

(** A table kept in the chain metadata under a prefix. *)
Lemma scan_meta {V} prefix (val : V → bytes) (dv : bytes → option V) (m : gmap H256 V) :
  (∀ k v, String.prefix prefix k = true →
     (ChainMeta, k, v) ∈ meta_writes s ↔
     ∃ x y, m !! x = Some y ∧ k = prefix +:+ h256_bytes x ∧ v = val y) →
  (∀ x, is_Some (m !! x) → h256_sized x) →
  (∀ x y, m !! x = Some y → dv (val y) = Some y) →
  Restart.scan_table st ChainMeta prefix (Restart.prefixed_key (String.length prefix)) dv = m.
Proof.
  intros Hm Hsz Hdv. apply (scan_roundtrip _ _ _ (λ x, prefix +:+ h256_bytes x) val).
  - intros k v Hp. rewrite (Hst _ _ _). rewrite final_writes_column. by apply Hm.
  - intros x. apply prefix_app.
  - intros x Hx. unfold Restart.prefixed_key. rewrite bdrop_app. by apply h256_key_bytes, Hsz.
  - done.
  - intros k k' He Hk Hp Hp'. unfold Restart.prefixed_key in *.
    rewrite (prefix_bdrop _ _ Hp), (prefix_bdrop _ _ Hp'). f_equal. by apply h256_key_inj.
Qed.

Lemma meta_elem w : w ∈ meta_writes s → meta_lookup s w.1.2 = Some w.2.
Proof. pose proof (meta_writes_lookup s) as Hl. rewrite Forall_forall in Hl. apply Hl. Qed.

Lemma scan_holders :
  Restart.scan_table st ChainMeta "holders:" (Restart.prefixed_key 8) Restart.holder_value
    = db_asset_holder_count s.
Proof.
  apply (scan_meta "holders:" (to_le_bytes 4)).
  - intros k v Hp. split.
    + intros Hl%meta_elem. unfold meta_lookup in Hl. cbn [fst snd] in Hl. rewrite Hp in Hl.
      apply fmap_Some in Hl as (n & Hn & ->). exists (MkH256 (bdrop 8 k)), n. split_and!; [done| |done].
      exact (prefix_bdrop _ _ Hp).
    + intros (x & y & Hx & -> & ->). apply elem_of_app. left. apply elem_table_writes. split; [done|]. by exists x, y.
  - by destruct Hs.
  - intros x y Hx. unfold Restart.holder_value, blen. rewrite to_le_bytes_length.
    rewrite from_to_le_bytes; [done|]. by apply (sz_holder_counts s Hs x).
Qed.

Lemma scan_governance :
  Restart.scan_table st ChainMeta "gov:" (Restart.prefixed_key 4) Some = db_governance_proposals s.
Proof.
  apply (scan_meta "gov:" id).
  - intros k v Hp. split.
    + intros Hl%meta_elem. unfold meta_lookup in Hl. cbn [fst snd] in Hl.
      rewrite (prefix_bdrop _ _ Hp) in Hl.
      replace (String.prefix "holders:" ("gov:" +:+ _)) with false in Hl by reflexivity.
      rewrite prefix_app in Hl. change 4%nat with (String.length "gov:") in Hl.
      rewrite bdrop_app in Hl. eexists (MkH256 _), v. split_and!; [done| |done].
      exact (prefix_bdrop _ _ Hp).
    + intros (x & y & Hx & -> & ->). apply elem_of_app. right. apply elem_of_app. left.
      apply elem_table_writes. split; [done|]. by exists x, y.
  - by destruct Hs.
  - done.
Qed.

(** A fixed key of the chain metadata. *)
Lemma meta_get k v : (ChainMeta, k, v) ∈ meta_writes s → Kv.get st ChainMeta k = Some v.
Proof. intros Hin. rewrite (Hst _ _ _). by rewrite final_writes_column. Qed.
End columns.

Lemma kv_get_writes_other ws st c k :
  Forall (λ w, (w.1.1, w.1.2) ≠ (c, k)) ws → Kv.get (kv_writes ws st) c k = Kv.get st c k.
Proof.
  induction ws as [|[[c' k'] v'] ws IH] using rev_ind; intros Hf; [done|].
  apply Forall_app in Hf as [Hf Hw]. inversion_clear Hw as [|? ? Hne _]. cbn in Hne.
  rewrite kv_writes_snoc, kv_get_put_ne by done. by apply IH.
Qed.

Lemma schema_unwritten s :
  Kv.get (kv_writes (Restart.attach_writes s) Kv.new) ChainMeta SCHEMA_VERSION_KEY = None.
Proof.
  rewrite kv_get_writes_other; [by vm_compute|].
  assert (Ht : ∀ {K V} `{Countable K} c key (val : V → bytes) (m : gmap K V),
    (c ≠ ChainMeta ∨ ∀ x, key x ≠ SCHEMA_VERSION_KEY) →
    Forall (λ w, (w.1.1, w.1.2) ≠ (ChainMeta, SCHEMA_VERSION_KEY)) (Snapshot.table_writes c key val m)).
  { intros K V ?? c key val m Hc. apply Forall_fmap, Forall_true. intros [x y]. cbn.
    intros [= -> Hx]. destruct Hc as [Hc|Hc]; [done|]. by apply (Hc x). }
  unfold Restart.attach_writes, Restart.holder_writes. rewrite !Forall_app.
  split_and!; try (apply Ht; first [by left | right; intros x; discriminate]).
  - case_bool_decide; by repeat constructor.
  - by repeat constructor.
Qed.

(** The state over which the store is installed. *)
Definition indexed (counts : gmap H256 Z) (s : StateDB) : StateDB :=
  s <| db_asset_holder_count := counts |> <| db_stakers := Restart.stakers_of (db_accounts s) |>.

(** [s] over the store [st]. *)
Definition over (s : StateDB) (st : KvStore) : StateDB := s <| db_storage := Some st |>.

Lemma persist_over c k v s st : persist c k v (over s st) = over s (Kv.put c k v st).
Proof. reflexivity. Qed.

Lemma unbonding_over s st :
  State.persist_unbonding_entries (over s st) =
    over s (Kv.put ChainMeta "unbonding:all" (to_vec (hash_iter (db_unbonding_entries s))) st).
Proof. reflexivity. Qed.

Lemma slashing_over s st :
  State.persist_slashing_seen (over s st) =
    over s (Kv.put ChainMeta "slashing:seen" (to_vec (set_iter (db_slashing_seen s))) st).
Proof. reflexivity. Qed.

Lemma commitments_over s st :
  State.persist_block_commitments (over s st) =
    over s (Kv.put ChainMeta "block:commitments" (to_vec (hash_iter (db_block_commitments s))) st).
Proof. reflexivity. Qed.

Lemma missed_over s st :
  State.persist_missed_slots (over s st) =
    over s (Kv.put ChainMeta "missed:slots" (to_vec (hash_iter (db_missed_slots s))) st).
Proof. reflexivity. Qed.

Lemma stakers_over s st :
  State.persist_stakers ((over s st) <| db_stakers := Restart.stakers_of (db_accounts (over s st)) |>) =
    over (s <| db_stakers := Restart.stakers_of (db_accounts s) |>)
      (Kv.put ChainMeta "stakers:set" (to_vec (set_iter (Restart.stakers_of (db_accounts s)))) st).
Proof. reflexivity. Qed.

Lemma kyc_over s st :
  (if bool_decide (db_kyc_approved (over s st) = ∅) then over s st
   else persist ChainMeta "kyc:approved" (to_vec (set_iter (db_kyc_approved (over s st)))) (over s st)) =
    over s (kv_writes (if bool_decide (db_kyc_approved s = ∅) then []
      else [(ChainMeta, "kyc:approved", to_vec (set_iter (db_kyc_approved s)))]) st).
Proof. change (db_kyc_approved (over s st)) with (db_kyc_approved s). by case_bool_decide. Qed.

Lemma account_over s st a :
  State.get_account (over s st) a =
    match db_accounts s !! a with
    | Some acc => acc
    | None => default AccountState_default (Kv.get st Accounts (address_bytes a) ≫= from_slice)
    end.
Proof. reflexivity. Qed.

Lemma write_all_over ws s st : Snapshot.write_all ws (over s st) = over s (kv_writes ws st).
Proof. by rewrite write_all_storage. Qed.

Lemma attach_run {E} s counts :
  Restart.count_holders (E:=E) (db_ownership s) = Ok counts →
  Restart.attach_storage (E:=E) Kv.new s =
    (Ok tt, over (indexed counts s) (kv_writes (final_writes (indexed counts s)) Kv.new)).
Proof.
  intros Hc. unfold Restart.attach_storage, Restart.verify_or_stamp_schema_version. mrun.
  rewrite Hc. fold (over (s <| db_asset_holder_count := counts |>) Kv.new).
  set (s1 := s <| db_asset_holder_count := counts |>). rewrite write_all_over.
  change (db_storage (over s1 ?st)) with (Some st). cbn beta iota.
  rewrite schema_unwritten. cbn beta iota.
  rewrite persist_over, unbonding_over, slashing_over, kyc_over, commitments_over, missed_over,
    stakers_over.
  change (s1 <| db_stakers := Restart.stakers_of (db_accounts s1) |>) with (indexed counts s).
  f_equal. unfold over. f_equal. unfold final_writes. unfold kv_writes. rewrite !foldl_app. reflexivity.
Qed.

(** The tables of [s2] are those of [s1]. *)
Record same_tables (s1 s2 : StateDB) : Prop := {
  same_assets : db_assets s2 = db_assets s1;
  same_ownership : db_ownership s2 = db_ownership s1;
  same_oracles : db_oracles s2 = db_oracles s1;
  same_code : db_contract_code s2 = db_contract_code s1;
  same_contract_storage : db_contract_storage s2 = db_contract_storage s1;
  same_pools : db_pools s2 = db_pools s1;
  same_mining : db_mining_states s2 = db_mining_states s1;
  same_asset_proposals : db_asset_proposals s2 = db_asset_proposals s1;
  same_governance : db_governance_proposals s2 = db_governance_proposals s1;
  same_unbonding : db_unbonding_entries s2 = db_unbonding_entries s1;
  same_slashing : db_slashing_seen s2 = db_slashing_seen s1;
  same_kyc : db_kyc_approved s2 = db_kyc_approved s1;
  same_commitments : db_block_commitments s2 = db_block_commitments s1;
  same_missed : db_missed_slots s2 = db_missed_slots s1;
  same_stakers : db_stakers s2 = db_stakers s1;
  same_holders : db_asset_holder_count s2 = db_asset_holder_count s1;
}.

Lemma same_tables_finish st s0 s :
  db_assets s = db_assets s0 ∧ db_ownership s = db_ownership s0 ∧ db_oracles s = db_oracles s0 ∧
  db_pools s = db_pools s0 ∧ db_mining_states s = db_mining_states s0 ∧
  db_asset_proposals s = db_asset_proposals s0 ∧
  db_governance_proposals s = db_governance_proposals s0 ∧
  db_asset_holder_count s = db_asset_holder_count s0 →
  db_unbonding_entries s = db_unbonding_entries s0 ∧ db_slashing_seen s = db_slashing_seen s0 ∧
  db_kyc_approved s = db_kyc_approved s0 ∧ db_block_commitments s = db_block_commitments s0 ∧
  db_missed_slots s = db_missed_slots s0 ∧ db_stakers s = db_stakers s0 ∧
  db_total_minted_milli s = 0 ∧ db_total_burned_milli s = 0 →
  db_contract_code (Restart.load_contracts st s) = db_contract_code s0 ∧
  db_contract_storage (Restart.load_contracts st s) = db_contract_storage s0 →
  same_tables s0 (Restart.rebuild_trie_from_cache (Restart.load_contracts st s)).
Proof. intros ???. destruct_and!. split; assumption. Qed.

(** What loading leaves as it was. *)
Lemma finish_fields st s :
  let s' := Restart.rebuild_trie_from_cache (Restart.load_contracts st s) in
  db_contract_code s' = db_contract_code (Restart.load_contracts st s) ∧
  db_contract_storage s' = db_contract_storage (Restart.load_contracts st s) ∧
  db_accounts s' = db_accounts s ∧
  db_storage s' = db_storage s ∧ db_treasury_address s' = db_treasury_address s ∧
  db_epoch_length s' = db_epoch_length s ∧ db_dex_paused s' = db_dex_paused s.
Proof. split_and!; reflexivity. Qed.

Lemma load_fields st s :
  let s' := Restart.load_tables st s in
  db_accounts s' = Restart.warm_stakers st (db_stakers s') ∧
  db_storage s' = db_storage s ∧ db_treasury_address s' = db_treasury_address s ∧
  db_epoch_length s' = db_epoch_length s ∧ db_dex_paused s' = db_dex_paused s.
Proof. split_and!; reflexivity. Qed.

Section restart.
Context (s : StateDB) (Hs : sized s).
Context (Hcounts : Restart.count_holders (E:=Empty_set) (db_ownership s) = Ok (db_asset_holder_count s)).
Context (st : KvStore) (Hst : holds s st).

Lemma load_meta_get {A} `{!Borsh A} k (x : A) :
  (ChainMeta, k, to_vec x) ∈ meta_writes s → Restart.load_meta st k = Some x.
Proof.
  intros Hin. unfold Restart.load_meta. rewrite (meta_get s st Hst k _ Hin). cbn.
  apply from_slice_to_vec.
Qed.

Lemma load_kyc : default ∅ (list_to_set <$> Restart.load_meta st "kyc:approved") = db_kyc_approved s.
Proof.
  unfold Restart.load_meta. destruct (Kv.get st ChainMeta "kyc:approved") as [v|] eqn:E; cbn.
  - rewrite (Hst _ _ _), final_writes_column in E.
    apply (meta_elem s) in E as [= <-]. rewrite from_slice_to_vec. cbn. apply collect_set_iter.
  - destruct (decide (db_kyc_approved s = ∅)) as [|Hne]; [done|].
    rewrite (meta_get s st Hst "kyc:approved" (to_vec (set_iter (db_kyc_approved s)))) in E; [done|].
    unfold meta_writes. rewrite (bool_decide_false (db_kyc_approved s = ∅)) by done.
    rewrite !elem_of_app. set_solver.
Qed.

Lemma load_no_supply k : meta_lookup s k = None → Restart.load_le st k 8 = None.
Proof.
  intros Hk. unfold Restart.load_le. destruct (Kv.get st ChainMeta k) as [v|] eqn:E; [|done].
  rewrite (Hst _ _ _), final_writes_column in E.
  apply (meta_elem s) in E. cbn in E. congruence.
Qed.

Lemma load_unbonding_get : Restart.load_unbonding st = Some (db_unbonding_entries s).
Proof.
  unfold Restart.load_unbonding.
  rewrite (meta_get s st Hst "unbonding:all" (to_vec (hash_iter (db_unbonding_entries s)))).
  - cbn. rewrite from_slice_to_vec. by rewrite collect_hash_iter.
  - unfold meta_writes. rewrite !elem_of_app. set_solver.
Qed.

Lemma read_account a :
  Kv.get st Accounts (address_bytes a) ≫= from_slice = db_accounts s !! a.
Proof.
  destruct (Kv.get st Accounts (address_bytes a)) as [v|] eqn:E; cbn.
  - rewrite (Hst _ _ _), final_writes_column in E.
    apply elem_table_writes in E as (_ & x & acc & Hx & ->%address_bytes_inj & ->).
    by rewrite from_slice_to_vec, Hx.
  - destruct (db_accounts s !! a) as [acc|] eqn:Ha; [|done].
    assert (Kv.get st Accounts (address_bytes a) = Some (to_vec acc)); [|congruence].
    rewrite (Hst _ _ _), final_writes_column. apply elem_table_writes.
    split; [done|]. by exists a, acc.
Qed.

Lemma warm_stakers_lookup stakers a acc :
  Restart.warm_stakers st stakers !! a = Some acc → db_accounts s !! a = Some acc.
Proof.
  unfold Restart.warm_stakers. intros Hl.
  assert (Hmem : ∀ x y, (x, y) ∈ omap (λ a, acc ← (Kv.get st Accounts (address_bytes a) ≫= from_slice);
      Some (a, acc)) (set_iter stakers) → db_accounts s !! x = Some y).
  { intros x y (b & _ & Hb)%list_elem_of_omap. rewrite read_account in Hb.
    destruct (db_accounts s !! b) eqn:E; [|done]. cbn in Hb. by injection Hb as <- <-. }
  apply Hmem. apply collect_map_lookup; [|done].
  intros k v v' H1%Hmem H2%Hmem. congruence.
Qed.

(** The tables after loading are those that were written. *)
Lemma load_tables_state s' :
  s' = Restart.load_tables st (over StateDB_new st) →
  db_assets s' = db_assets s ∧ db_ownership s' = db_ownership s ∧ db_oracles s' = db_oracles s ∧
  db_pools s' = db_pools s ∧ db_mining_states s' = db_mining_states s ∧
  db_asset_proposals s' = db_asset_proposals s ∧
  db_governance_proposals s' = db_governance_proposals s ∧
  db_asset_holder_count s' = db_asset_holder_count s.
Proof.
  intros ->. split_and!.
  - apply (scan_column s st Hst Assets h256_bytes to_vec);
      [by rewrite final_writes_column|by intros; apply h256_key_bytes, (sz_assets s Hs)|apply from_slice_to_vec
      |apply h256_key_inj].
  - apply (scan_column s st Hst Ownership Snapshot.ownership_key to_vec);
      [by rewrite final_writes_column| |apply from_slice_to_vec|].
    + intros [h a] [Hh Ha]%(sz_ownership s Hs). cbn in Hh, Ha.
      unfold Restart.ownership_key_of, Snapshot.ownership_key, blen. cbn [fst snd].
      rewrite blen_app, Hh, Ha, (btake_app_n 32), (bdrop_app_n 32) by done. by destruct h, a.
    + unfold Restart.ownership_key_of. intros k k' He [x Hx].
      destruct (blen k =? 52); [|done]. destruct (blen k' =? 52); [|done].
      by eapply ownership_split_inj.
  - apply (scan_column s st Hst Oracles h256_bytes to_vec);
      [by rewrite final_writes_column|by intros; apply h256_key_bytes, (sz_oracles s Hs)|apply from_slice_to_vec
      |apply h256_key_inj].
  - apply (scan_column s st Hst Pools h256_bytes id);
      [by rewrite final_writes_column|by intros; apply h256_key_bytes, (sz_pools s Hs)|done|apply h256_key_inj].
  - apply (scan_column s st Hst MiningStates h256_bytes id);
      [by rewrite final_writes_column|by intros; apply h256_key_bytes, (sz_mining s Hs)|done|apply h256_key_inj].
  - apply (scan_column s st Hst AssetProposals h256_bytes to_vec);
      [by rewrite final_writes_column|by intros; apply h256_key_bytes, (sz_asset_proposals s Hs)|apply from_slice_to_vec
      |apply h256_key_inj].
  - by apply scan_governance.
  - by apply scan_holders.
Qed.

Lemma load_metadata_state s' :
  s' = Restart.load_tables st (over StateDB_new st) →
  db_unbonding_entries s' = db_unbonding_entries s ∧ db_slashing_seen s' = db_slashing_seen s ∧
  db_kyc_approved s' = db_kyc_approved s ∧ db_block_commitments s' = db_block_commitments s ∧
  db_missed_slots s' = db_missed_slots s ∧ db_stakers s' = db_stakers s ∧
  db_total_minted_milli s' = 0 ∧ db_total_burned_milli s' = 0.
Proof.
  intros ->. unfold Restart.load_tables.
  rewrite load_unbonding_get, (load_no_supply "supply:minted_milli"), (load_no_supply "supply:burned_milli")
    by done.
  rewrite (load_meta_get "slashing:seen" (set_iter (db_slashing_seen s))),
    (load_meta_get "block:commitments" (hash_iter (db_block_commitments s))),
    (load_meta_get "missed:slots" (hash_iter (db_missed_slots s))),
    (load_meta_get "stakers:set" (set_iter (db_stakers s)))
    by (unfold meta_writes; rewrite !elem_of_app; set_solver).
  split_and!; try done;
    [apply collect_set_iter|exact load_kyc|apply collect_hash_iter..|apply collect_set_iter].
Qed.

Lemma backfill_same {E} s' :
  Restart.count_holders (E:=E) (db_ownership s') = Ok (db_asset_holder_count s') →
  Restart.backfill_holders (E:=E) s' = (Ok tt, s').
Proof.
  intros Hc. unfold Restart.backfill_holders. mrun.
  destruct (decide (db_asset_holder_count s' = ∅)) as [He|He].
  2: { by rewrite bool_decide_false. }
  rewrite bool_decide_true by done. cbn [andb]. case_bool_decide; [done|]. cbn [negb].
  rewrite Hc, He. f_equal. unfold Restart.holder_writes, Snapshot.table_writes.
  assert (hash_iter (∅ : gmap H256 Z) = []) as -> by (apply Permutation_nil; by rewrite hash_iter_perm).
  destruct s'. cbn in *. by subst.
Qed.

Lemma with_storage_run s1 :
  s1 = Restart.load_tables st (over StateDB_new st) →
  Restart.with_storage (E:=Empty_set) st =
    Ok (Restart.rebuild_trie_from_cache (Restart.load_contracts st s1)).
Proof.
  intros H1. pose proof (load_tables_state s1 H1) as (_ & Ho & _ & _ & _ & _ & _ & Hh).
  unfold Restart.with_storage, Restart.verify_or_stamp_schema_version,
    Restart.load_non_fallthrough_state. mrun.
  fold (over StateDB_new st). change (db_storage (over StateDB_new st)) with (Some st).
  cbn beta iota.
  rewrite (meta_get s st Hst SCHEMA_VERSION_KEY (to_le_bytes 4 DB_SCHEMA_VERSION))
    by (unfold meta_writes; rewrite !elem_of_app; set_solver).
  replace (_ && _) with true by (by vm_compute).
  change (db_storage (over StateDB_new st)) with (Some st). cbn beta iota.
  rewrite <- H1. rewrite backfill_same; [done|]. by rewrite Ho, Hh.
Qed.

Lemma load_contracts_state s' :
  db_contract_code (Restart.load_contracts st s') = db_contract_code s ∧
  db_contract_storage (Restart.load_contracts st s') = db_contract_storage s.
Proof.
  split.
  - apply (scan_column s st Hst ContractCode h256_bytes id);
      [by rewrite final_writes_column|by intros; apply h256_key_bytes, (sz_code s Hs)|done
      |apply h256_key_inj].
  - apply (scan_column s st Hst ContractStorage Snapshot.contract_key id);
      [by rewrite final_writes_column| |done|].
    + intros [a k] Ha%(sz_contracts s Hs). cbn in Ha.
      unfold Restart.contract_key_of, Snapshot.contract_key, blen. cbn [fst snd].
      rewrite blen_app, Ha, (btake_app_n 20), (bdrop_app_n 20) by done.
      replace (20 <=? _) with true by (symmetry; apply Z.leb_le; lia). by destruct a.
    + unfold Restart.contract_key_of. intros k k' He [x Hx].
      destruct (20 <=? blen k); [|done]. destruct (20 <=? blen k'); [|done].
      by eapply contract_split_inj.
Qed.

Lemma restarted_account s' a :
  db_accounts s' = Restart.warm_stakers st (db_stakers s) → db_storage s' = Some st →
  State.get_account s' a = default AccountState_default (db_accounts s !! a).
Proof.
  intros Hw Hsto. unfold State.get_account. rewrite Hw.
  destruct (Restart.warm_stakers st (db_stakers s) !! a) as [acc|] eqn:E.
  - apply warm_stakers_lookup in E. by rewrite E.
  - unfold disk_get. rewrite Hsto. cbn. by rewrite read_account.
Qed.

Lemma restart_state :
  ∃ s2, Restart.with_storage (E:=Empty_set) st = Ok s2 ∧ same_tables s s2 ∧
    (∀ a, State.get_account s2 a = default AccountState_default (db_accounts s !! a)) ∧
    db_treasury_address s2 = Address_ZERO ∧ db_epoch_length s2 = 1200 ∧ db_dex_paused s2 = false.
Proof.
  destruct (load_fields st (over StateDB_new st)) as (Hacc & Hsto & Htr & Hep & Hpa).
  remember (Restart.load_tables st (over StateDB_new st)) as sl eqn:Hsl.
  pose proof (with_storage_run sl Hsl) as Hw.
  pose proof (same_tables_finish st s sl (load_tables_state sl Hsl) (load_metadata_state sl Hsl)
    (load_contracts_state sl)) as Hfin.
  assert (Hsk : db_stakers sl = db_stakers s) by apply (load_metadata_state sl Hsl).
  destruct (finish_fields st sl) as (_ & _ & Hacc' & Hsto' & Htr' & Hep' & Hpa'). clear Hsl.
  revert Hw Hacc' Hsto' Htr' Hep' Hpa' Hfin.
  generalize (Restart.rebuild_trie_from_cache (Restart.load_contracts st sl)) as s2.
  intros s2 Hw Hacc' Hsto' Htr' Hep' Hpa' Hfin. exists s2. split; [exact Hw|]. split; [exact Hfin|].
  rewrite Htr', Htr, Hep', Hep, Hpa', Hpa. split; [|done].
  intros a. apply restarted_account; [|by rewrite Hsto', Hsto]. by rewrite Hacc', <- Hsk.
Qed.
End restart.

Lemma count_holders_sized {E} m counts :
  Restart.count_holders (E:=E) m = Ok counts →
  (∀ k, is_Some (counts !! k) → ∃ a, is_Some (m !! (k, a))) ∧
  (∀ k n, counts !! k = Some n → in_width 32 n).
Proof.
  unfold Restart.count_holders.
  assert (Hm : ∀ kv, kv ∈ hash_iter m → m !! kv.1 = Some kv.2)
    by (intros [] ?; by apply elem_of_hash_iter).
  assert (Hi : (∀ k, is_Some ((∅ : gmap H256 Z) !! k) → ∃ a, is_Some (m !! (k, a))) ∧
    (∀ k n, (∅ : gmap H256 Z) !! k = Some n → in_width 32 n)).
  { split; intros k; rewrite lookup_empty; [by intros []|done]. }
  revert Hm Hi. generalize (∅ : gmap H256 Z). induction (hash_iter m) as [|[[h a] r] l IH];
    intros acc Hm [Hk Hn] Hf; cbn in Hf; [by injection Hf as <-|].
  destruct (Own.total r) as [total| |]; try done. cbn in Hf. eapply IH in Hf; [done|..].
  { intros kv ?. apply Hm. by right. }
  destruct (Amount.is_zero total); [done|]. split.
  - intros k [n [[<- _]|[_ Hx]]%lookup_insert_Some]; [|by apply Hk; eexists].
    exists a. exists r. apply (Hm (h, a, r)). by left.
  - intros k n [[_ <-]|[_ Hx]]%lookup_insert_Some; [|by eapply Hn].
    by apply wrap_in_width.
Qed.

Lemma sized_indexed {E} s counts :
  Restart.count_holders (E:=E) (db_ownership s) = Ok counts →
  sized (s <| db_asset_holder_count := ∅ |>) → sized (indexed counts s).
Proof.
  intros [Hk Hn]%count_holders_sized [Ho]. split; try done.
  intros k [a Ha]%Hk. by apply (sz_ownership0 (k, a)).
Qed.

(** C19: what a fresh store receives from [attach_storage] is what [with_storage]
    reads back: after a restart each of the sixteen tables is the one that was
    flushed and every account reads as before.  Three settings are not read back, although
    they were written: the treasury address is zero again, the epoch length is
    1200 and a paused exchange is open. *)
Theorem restart_roundtrip s s1 :
  sized (s <| db_asset_holder_count := ∅ |>) →
  Restart.attach_storage (E:=Empty_set) Kv.new s = (Ok tt, s1) →
  ∃ st s2, db_storage s1 = Some st ∧ Restart.with_storage (E:=Empty_set) st = Ok s2 ∧
    same_tables s1 s2 ∧ (∀ a, State.get_account s2 a = State.get_account s1 a) ∧
    db_treasury_address s2 = Address_ZERO ∧ db_epoch_length s2 = 1200 ∧ db_dex_paused s2 = false.
Proof.
  intros Hsz Ha.
  assert (∃ counts, Restart.count_holders (E:=Empty_set) (db_ownership s) = Ok counts) as [counts Hc].
  { unfold Restart.attach_storage in Ha. revert Ha. mrun.
    destruct (Restart.count_holders (db_ownership s)) as [counts|[]|]; [by exists counts|done]. }
  rewrite (attach_run s counts Hc) in Ha. injection Ha as <-.
  pose proof (sized_indexed s counts Hc Hsz) as Hs.
  assert (Hc0 : Restart.count_holders (E:=Empty_set) (db_ownership (indexed counts s))
    = Ok (db_asset_holder_count (indexed counts s))) by exact Hc.
  pose proof (final_holds _ Hs) as Hst. revert Hs Hc0 Hst.
  generalize (kv_writes (final_writes (indexed counts s)) Kv.new) as st.
  generalize (indexed counts s) as s0. intros s0 st Hs Hc0 Hst.
  exists st. destruct (restart_state s0 Hs Hc0 st Hst) as (s2 & Hw & Ht & Ha & Hr).
  exists s2. split; [done|]. split; [done|]. split; [by destruct Ht|]. split; [|done].
  intros a. rewrite Ha, account_over, (read_account s0 st Hst). by destruct (db_accounts s0 !! a).
Qed.
End roundtrip.

#[local] Existing Instance demo_env.

Definition demo_legacy_codec : Borsh (list (Address * list (Amount * Z))) := countable_borsh _.

#[local] Existing Instance demo_legacy_codec.

(** A node with an account, a pool, a treasury and a paused exchange. *)
Definition demo_flushed : StateDB :=
  StateDB_new <| db_accounts := {[demo_address 1 := Account.with_balance 5]} |>
              <| db_pools := {[demo_hash 3 := "reserves"]} |>
              <| db_treasury_address := demo_address 7 |>
              <| db_dex_paused := true |>.

Lemma demo_flushed_sized : sized (demo_flushed <| db_asset_holder_count := ∅ |>).
Proof.
  split; try (by intros k [? ?]); try (by intros k n ?).
  - intros k. change (is_Some (({[demo_hash 3 := "reserves"]} : gmap H256 bytes) !! k) → h256_sized k).
    intros [_ [<- _]%lookup_singleton_Some]. apply to_le_bytes_length.
Qed.

Lemma restart_roundtrip_witness :
  ∃ st s2, Restart.with_storage (E:=Empty_set) st = Ok s2
    ∧ State.get_balance s2 (demo_address 1) = 5 ∧ db_pools s2 !! demo_hash 3 = Some "reserves"
    ∧ db_dex_paused s2 = false.
Proof.
  assert (Ha : (Restart.attach_storage (E:=Empty_set) Kv.new demo_flushed).1 = Ok tt) by (by vm_compute).
  apply run_Ok in Ha.
  destruct (restart_roundtrip demo_flushed _ demo_flushed_sized Ha)
    as (st & s2 & _ & Hw & Ht & Hacc & _ & _ & Hp).
  exists st, s2. split; [exact Hw|]. split; [|split; [|exact Hp]].
  - unfold State.get_balance. rewrite Hacc. by vm_compute.
  - rewrite (same_pools _ _ Ht). by vm_compute.
Defined.
