(* ===== verification/DexProps.v ===== *)
(** * Properties of the AMM

    Swaps never decrease the product of the reserves, deposits and withdrawals
    never decrease what a unit of the LP token is worth, and every unit paid in
    is accounted for in the pool. *)

From S2P Require Import Prelude Primitives DexMath Storage Assets Oracle StateDB Codecs Dex.

#[local] Opaque U256.div_u128 U256.mul_u128 get_amount_out calculate_fees sqrt_u256.

Section pools.
Context `{Env, !Borsh PoolState}.

Record pool_wf (p : PoolState) (id : H256) : Prop := {
  wf_id : pl_pool_id p = id;
  wf_ra : in_width 128 (pl_reserve_a p);
  wf_rb : in_width 128 (pl_reserve_b p);
  wf_lp : in_width 128 (pl_lp_total_supply p);
  wf_fa : in_width 128 (pl_protocol_fees_a p);
  wf_fb : in_width 128 (pl_protocol_fees_b p);
  wf_fee : 0 <= pl_protocol_fee_bps p <= pl_fee_bps p ∧ pl_fee_bps p <= 10000;
}.

(** ** Operations that leave the pools alone *)

Section frames.
Variable pools : gmap H256 bytes.
Let P (s : StateDB) : Prop := db_pools s = pools.

Lemma persist_pools c k v s : P s → P (persist c k v s).
Proof. unfold P. by rewrite persist_unfold. Qed.

Lemma put_account_pools a acc s : P s → P (State.put_account a acc s).
Proof. unfold P. by rewrite put_account_unfold. Qed.

Lemma add_balance_pools a v : keeps P (State.add_balance a v).
Proof. unfold State.add_balance. solve_keeps. by apply put_account_pools. Qed.

Lemma sub_balance_pools a v : keeps P (State.sub_balance a v).
Proof. unfold State.sub_balance. solve_keeps. by apply put_account_pools. Qed.

Lemma put_ownership_pools r : keeps P (State.put_ownership r).
Proof.
  unfold State.put_ownership, State.bump_holder_count. solve_keeps;
    rewrite ?persist_unfold; done.
Qed.

Hint Resolve add_balance_pools sub_balance_pools put_ownership_pools : keeps_db.

Lemma transfer_asset_pools id from to v : keeps P (State.transfer_asset id from to v).
Proof. unfold State.transfer_asset. solve_keeps. Qed.

Hint Resolve transfer_asset_pools : keeps_db.

Lemma token_in_pools a t v : keeps P (Dex.transfer_token_in a t v).
Proof. unfold Dex.transfer_token_in. solve_keeps. Qed.

Lemma token_out_pools a t v : keeps P (Dex.transfer_token_out a t v).
Proof. unfold Dex.transfer_token_out. solve_keeps. Qed.

Lemma mint_lp_pools t a v : keeps P (Dex.mint_lp_to t a v).
Proof. unfold Dex.mint_lp_to. solve_keeps. Qed.

Lemma burn_lp_pools t a v : keeps P (Dex.burn_lp_from t a v).
Proof. unfold Dex.burn_lp_from. solve_keeps. Qed.
End frames.

Lemma load_saved p s :
  Dex.load_pool (State.put_pool_raw (pl_pool_id p) (to_vec p) s) (pl_pool_id p) = Ok p.
Proof.
  unfold Dex.load_pool, State.get_pool_raw, State.put_pool_raw. rewrite persist_unfold. cbn.
  rewrite lookup_insert_eq. cbn. by rewrite from_slice_to_vec.
Qed.

Lemma put_pool_raw_other id id' d s :
  id ≠ id' → db_pools (State.put_pool_raw id d s) !! id' = db_pools s !! id'.
Proof. intros Hne. unfold State.put_pool_raw. rewrite persist_unfold. cbn. by rewrite lookup_insert_ne. Qed.

(** ** Swaps *)

Definition reserve_of (p : PoolState) (a_side : bool) : Z :=
  if a_side then pl_reserve_a p else pl_reserve_b p.
Definition fees_of (p : PoolState) (a_side : bool) : Z :=
  if a_side then pl_protocol_fees_a p else pl_protocol_fees_b p.

Lemma swap_direction_Ok p t rin rout d :
  Dex.swap_direction p t = Ok (rin, rout, d) →
  t = (if d then pl_token_a p else pl_token_b p) ∧
  rin = reserve_of p d ∧ rout = reserve_of p (negb d).
Proof. unfold Dex.swap_direction. repeat case_bool_decide; intros; simplify_eq; done. Qed.

(** The steps of a successful swap. *)
Lemma execute_swap_Ok s s' sender id token_in amount_in min_out out :
  Dex.execute_swap sender id token_in amount_in min_out s = (Ok out, s') →
  ∃ p rin rout d net lp proto s1 s2,
    Dex.load_pool s id = Ok p ∧ Dex.swap_direction p token_in = Ok (rin, rout, d) ∧
    calculate_fees amount_in (pl_fee_bps p) (pl_protocol_fee_bps p) = Ok (net, lp, proto) ∧
    get_amount_out net rin rout = Ok out ∧ min_out <= out ∧ out ≠ 0 ∧
    Dex.transfer_token_in sender token_in amount_in s = (Ok tt, s1) ∧
    Dex.transfer_token_out sender (if d then pl_token_b p else pl_token_a p) out s1 = (Ok tt, s2) ∧
    s' = (let p' := Dex.swapped_pool p d (wrap 128 (net + lp)) out proto in
          State.put_pool_raw (pl_pool_id p') (to_vec p') s2).
Proof.
  unfold Dex.execute_swap, Dex.save_pool. intros Hrun. inv_ok.
  repeat match goal with u : unit |- _ => destruct u end.
  repeat eexists; try eassumption; lia.
Qed.

Lemma execute_swap_frame s s1 s2 sender t t' v v' :
  Dex.transfer_token_in sender t v s = (Ok tt, s1) →
  Dex.transfer_token_out sender t' v' s1 = (Ok tt, s2) → db_pools s2 = db_pools s.
Proof.
  intros H1 H2. pose proof (token_in_pools (db_pools s) sender t v s eq_refl) as K1.
  rewrite H1 in K1. pose proof (token_out_pools (db_pools s) sender t' v' s1 K1) as K2.
  by rewrite H2 in K2.
Qed.

(** C5: a successful swap on a well-formed pool never decreases the product of
    the reserves: the output honours the caller's minimum and stays below the
    reserve, the input reserve and the protocol fee together grow by exactly
    the amount paid in, the output reserve shrinks by exactly the amount paid
    out, and supply, fees of the other side and every other pool are
    unchanged. *)
Theorem swap_preserves_product s s' sender id token_in amount_in min_out out p :
  Dex.load_pool s id = Ok p → pool_wf p id → in_width 128 amount_in →
  Dex.execute_swap sender id token_in amount_in min_out s = (Ok out, s') →
  ∃ p' (d : bool), Dex.load_pool s' id = Ok p' ∧
    token_in = (if d then pl_token_a p else pl_token_b p) ∧
    (reserve_of p d + amount_in < 2 ^ 128 → fees_of p d + amount_in < 2 ^ 128 →
     pl_reserve_a p * pl_reserve_b p <= pl_reserve_a p' * pl_reserve_b p' ∧
     reserve_of p' d + fees_of p' d = reserve_of p d + fees_of p d + amount_in ∧
     reserve_of p' (negb d) = reserve_of p (negb d) - out ∧
     fees_of p' (negb d) = fees_of p (negb d) ∧
     pl_lp_total_supply p' = pl_lp_total_supply p) ∧
    min_out <= out ∧ 0 < out < reserve_of p (negb d) ∧
    (∀ id', id' ≠ id → db_pools s' !! id' = db_pools s !! id').
Proof.
  intros Hload Hwf Hin Hrun.
  destruct (execute_swap_Ok _ _ _ _ _ _ _ _ Hrun)
    as (q & rin & rout & d & net & lp & proto & s1 & s2 & Hq & Hdir & Hfee & Hout & Hmin & Hnz & Ht1 & Ht2 & ->).
  rewrite Hload in Hq. injection Hq as <-.
  destruct (swap_direction_Ok _ _ _ _ _ Hdir) as (-> & -> & ->).
  destruct Hwf as [Hid Hra Hrb Hlp Hfa Hfb [Hfee1 Hfee2]].
  destruct (calculate_fees_Ok _ _ _ _ _ _ Hin Hfee1 Hfee2 Hfee) as (? & Hsum & ? & ? & ? & _ & _).
  destruct (get_amount_out_Ok net (reserve_of p d) (reserve_of p (negb d)) out)
    as (? & ? & ? & ? & ? & Hk); [unfold in_width in *; lia|by destruct d..|done|].
  set (p' := Dex.swapped_pool p d (wrap 128 (net + lp)) out proto).
  assert (Hid' : pl_pool_id p' = id) by (unfold p', Dex.swapped_pool; by destruct d).
  exists p', d. rewrite <- Hid' at 1. split; [apply load_saved|]. split; [done|].
  unfold in_width in *. split; [|split; [done|split; [lia|]]].
  - intros Hr Hf. unfold p', Dex.swapped_pool.
    destruct d; unfold reserve_of, fees_of in *; cbn in *;
      rewrite !wrap_small by (unfold in_width; rewrite ?wrap_small; unfold in_width; lia);
      repeat split; try lia; nia.
  - intros id' Hne. cbv zeta. rewrite put_pool_raw_other by congruence.
    by rewrite (execute_swap_frame _ _ _ _ _ _ _ _ Ht1 Ht2).
Qed.

(** ** Deposits and withdrawals *)

Lemma optimal_amounts_Ok p a b aa ab :
  in_width 128 a → in_width 128 b → in_width 128 (pl_reserve_a p) → in_width 128 (pl_reserve_b p) →
  Dex.optimal_amounts p a b = Ok (aa, ab) →
  0 <= aa <= a ∧ 0 <= ab <= b.
Proof.
  intros Ha Hb Hra Hrb Hopt. unfold Dex.optimal_amounts in Hopt.
  apply res_bind_Ok in Hopt as (ob & Hob & Hopt).
  apply mul_div_u128_Ok in Hob as (Hnz & -> & Hobw); [|done..].
  destruct (Z.leb_spec (a * pl_reserve_b p / pl_reserve_a p) b).
  { simplify_eq. unfold in_width in *. lia. }
  apply res_bind_Ok in Hopt as (oa & Hoa & Hopt). simplify_eq.
  apply mul_div_u128_Ok in Hoa as (Hnz' & -> & Hoaw); [|done..].
  unfold in_width in *. split; [|lia]. split; [lia|].
  pose proof (Z.mul_div_le (a * pl_reserve_b p) (pl_reserve_a p) ltac:(lia)).
  apply Z.div_le_upper_bound; nia.
Qed.

(** The steps of a successful deposit. *)
Lemma add_liquidity_Ok s s' sender id a b min_lp m :
  Dex.add_liquidity sender id a b min_lp s = (Ok m, s') →
  ∃ p aa ab lpa lpb s3,
    Dex.load_pool s id = Ok p ∧ pl_reserve_a p ≠ 0 ∧ pl_reserve_b p ≠ 0 ∧
    Dex.optimal_amounts p a b = Ok (aa, ab) ∧ aa ≠ 0 ∧ ab ≠ 0 ∧
    U256.div_u128 (U256.mul_u128 aa (pl_lp_total_supply p)) (pl_reserve_a p) = Ok lpa ∧
    U256.div_u128 (U256.mul_u128 ab (pl_lp_total_supply p)) (pl_reserve_b p) = Ok lpb ∧
    m = Z.min lpa lpb ∧ min_lp <= m ∧ db_pools s3 = db_pools s ∧
    s' = (let p' := p <| pl_reserve_a := wrap 128 (pl_reserve_a p + aa) |>
                      <| pl_reserve_b := wrap 128 (pl_reserve_b p + ab) |>
                      <| pl_lp_total_supply := wrap 128 (pl_lp_total_supply p + m) |> in
          State.put_pool_raw (pl_pool_id p') (to_vec p') s3).
Proof.
  unfold Dex.add_liquidity, Dex.save_pool.
  generalize U256.div_u128, U256.mul_u128. intros dv mu Hrun. inv_ok.
  repeat match goal with u : unit |- _ => destruct u end.
  match goal with
  | H1 : Dex.transfer_token_in ?x ?t ?v s = (Ok tt, ?s1), H2 : Dex.transfer_token_in _ ?t' ?v' ?s1 = (Ok tt, ?s2),
    H3 : Dex.mint_lp_to ?l _ ?w ?s2 = (Ok tt, ?s3) |- _ =>
      pose proof (token_in_pools (db_pools s) x t v s eq_refl) as K1; rewrite H1 in K1;
      pose proof (token_in_pools (db_pools s) x t' v' s1 K1) as K2; rewrite H2 in K2;
      pose proof (mint_lp_pools (db_pools s) l x w s2 K2) as K3; rewrite H3 in K3; cbn in K3; clear K1 K2
  end.
  do 6 eexists; repeat match goal with |- _ ∧ _ => split end;
    first [eassumption | lia | reflexivity].
Qed.

(** The steps of a successful withdrawal. *)
Lemma remove_liquidity_Ok s s' sender id lp min_a min_b oa ob :
  Dex.remove_liquidity sender id lp min_a min_b s = (Ok (oa, ob), s') →
  ∃ p s3,
    Dex.load_pool s id = Ok p ∧ lp ≠ 0 ∧
    U256.div_u128 (U256.mul_u128 lp (pl_reserve_a p)) (pl_lp_total_supply p) = Ok oa ∧
    U256.div_u128 (U256.mul_u128 lp (pl_reserve_b p)) (pl_lp_total_supply p) = Ok ob ∧
    min_a <= oa ∧ min_b <= ob ∧ db_pools s3 = db_pools s ∧
    s' = (let p' := p <| pl_reserve_a := wrap 128 (pl_reserve_a p - oa) |>
                      <| pl_reserve_b := wrap 128 (pl_reserve_b p - ob) |>
                      <| pl_lp_total_supply := wrap 128 (pl_lp_total_supply p - lp) |> in
          State.put_pool_raw (pl_pool_id p') (to_vec p') s3).
Proof.
  unfold Dex.remove_liquidity, Dex.save_pool.
  generalize U256.div_u128, U256.mul_u128. intros dv mu Hrun. inv_ok.
  repeat match goal with u : unit |- _ => destruct u end.
  match goal with
  | H1 : Dex.burn_lp_from ?l ?x ?w s = (Ok tt, ?s1), H2 : Dex.transfer_token_out _ ?t ?v ?s1 = (Ok tt, ?s2),
    H3 : Dex.transfer_token_out _ ?t' ?v' ?s2 = (Ok tt, ?s3) |- _ =>
      pose proof (burn_lp_pools (db_pools s) l x w s eq_refl) as K1; rewrite H1 in K1;
      pose proof (token_out_pools (db_pools s) x t v s1 K1) as K2; rewrite H2 in K2;
      pose proof (token_out_pools (db_pools s) x t' v' s2 K2) as K3; rewrite H3 in K3; cbn in K3; clear K1 K2
  end.
  do 2 eexists; repeat match goal with |- _ ∧ _ => split end;
    first [eassumption | lia | reflexivity].
Qed.

(** [worth_more p p']: a unit of the LP token stands for at least as much of
    both reserves in [p'] as in [p]. *)
Definition worth_more (p p' : PoolState) : Prop :=
  pl_reserve_a p * pl_lp_total_supply p' <= pl_reserve_a p' * pl_lp_total_supply p ∧
  pl_reserve_b p * pl_lp_total_supply p' <= pl_reserve_b p' * pl_lp_total_supply p.

(** The pool after a deposit, in terms of the amounts taken. *)
Lemma add_liquidity_pool s s' sender id a b min_lp m p :
  Dex.load_pool s id = Ok p → pool_wf p id → in_width 128 a → in_width 128 b →
  pl_reserve_a p + a < 2 ^ 128 → pl_reserve_b p + b < 2 ^ 128 →
  pl_lp_total_supply p + m < 2 ^ 128 →
  Dex.add_liquidity sender id a b min_lp s = (Ok m, s') →
  ∃ p' aa ab, Dex.load_pool s' id = Ok p' ∧ pool_wf p' id ∧
    0 < aa <= a ∧ 0 < ab <= b ∧ min_lp <= m ∧ 0 <= m ∧
    pl_reserve_a p' = pl_reserve_a p + aa ∧ pl_reserve_b p' = pl_reserve_b p + ab ∧
    pl_lp_total_supply p' = pl_lp_total_supply p + m ∧
    m * pl_reserve_a p <= aa * pl_lp_total_supply p ∧
    m * pl_reserve_b p <= ab * pl_lp_total_supply p.
Proof.
  intros Hload Hwf Ha Hb Hca Hcb Hcl Hrun.
  destruct (add_liquidity_Ok _ _ _ _ _ _ _ _ Hrun)
    as (q & aa & ab & lpa & lpb & s3 & Hq & Hra0 & Hrb0 & Hopt & Haa0 & Hab0 & Hlpa & Hlpb & Hm & Hmin & Hpools & ->).
  rewrite Hload in Hq. injection Hq as <-.
  destruct Hwf as [<- Hra Hrb Hlp Hfa Hfb Hfee].
  destruct (optimal_amounts_Ok _ _ _ _ _ Ha Hb Hra Hrb Hopt) as [Haa Hab].
  apply mul_div_u128_Ok in Hlpa as (_ & -> & Hwa); [|unfold in_width in *; lia|done..].
  apply mul_div_u128_Ok in Hlpb as (_ & -> & Hwb); [|unfold in_width in *; lia|done..].
  unfold in_width in *.
  pose proof (Z.mul_div_le (aa * pl_lp_total_supply p) (pl_reserve_a p) ltac:(lia)).
  pose proof (Z.mul_div_le (ab * pl_lp_total_supply p) (pl_reserve_b p) ltac:(lia)).
  rewrite !wrap_small by (unfold in_width; lia).
  eexists _, aa, ab. split; [exact (load_saved _ s3)|].
  split; [constructor; unfold in_width; cbn; try done; lia|]. cbn. repeat split; try lia; nia.
Qed.

(** The pool after a withdrawal. *)
Lemma remove_liquidity_pool s s' sender id lp min_a min_b oa ob p :
  Dex.load_pool s id = Ok p → pool_wf p id → 0 <= lp <= pl_lp_total_supply p →
  Dex.remove_liquidity sender id lp min_a min_b s = (Ok (oa, ob), s') →
  ∃ p', Dex.load_pool s' id = Ok p' ∧ pool_wf p' id ∧
    0 <= oa ∧ 0 <= ob ∧ min_a <= oa ∧ min_b <= ob ∧
    pl_reserve_a p' = pl_reserve_a p - oa ∧ pl_reserve_b p' = pl_reserve_b p - ob ∧
    pl_lp_total_supply p' = pl_lp_total_supply p - lp ∧
    oa = lp * pl_reserve_a p / pl_lp_total_supply p ∧
    ob = lp * pl_reserve_b p / pl_lp_total_supply p ∧ pl_lp_total_supply p ≠ 0.
Proof.
  intros Hload Hwf Hle Hrun.
  destruct (remove_liquidity_Ok _ _ _ _ _ _ _ _ _ Hrun)
    as (q & s3 & Hq & Hnz & Hoa & Hob & Hmina & Hminb & Hpools & ->).
  rewrite Hload in Hq. injection Hq as <-.
  destruct Hwf as [<- Hra Hrb Hlp Hfa Hfb Hfee].
  apply mul_div_u128_Ok in Hoa as (HL & -> & Hwa); [|unfold in_width in *; lia|done..].
  apply mul_div_u128_Ok in Hob as (_ & -> & Hwb); [|unfold in_width in *; lia|done..].
  unfold in_width in *.
  assert (lp * pl_reserve_a p / pl_lp_total_supply p <= pl_reserve_a p)
    by (apply Z.div_le_upper_bound; nia).
  assert (lp * pl_reserve_b p / pl_lp_total_supply p <= pl_reserve_b p)
    by (apply Z.div_le_upper_bound; nia).
  rewrite !wrap_small by (unfold in_width; lia).
  eexists. split; [exact (load_saved _ s3)|].
  split; [constructor; unfold in_width; cbn; try done; lia|]. cbn. repeat split; lia || done.
Qed.

(** C18: deposits and withdrawals never decrease what a unit of the LP token
    stands for: after either, the reserves per LP unit of both tokens are at
    least what they were, the amounts taken respect the offer and the limits
    the caller set, and the pool stays well formed. *)
Theorem liquidity_worth_preserved s s' sender id p :
  Dex.load_pool s id = Ok p → pool_wf p id →
  (∀ a b min_lp m, in_width 128 a → in_width 128 b →
     pl_reserve_a p + a < 2 ^ 128 → pl_reserve_b p + b < 2 ^ 128 →
     pl_lp_total_supply p + m < 2 ^ 128 →
     Dex.add_liquidity sender id a b min_lp s = (Ok m, s') →
     min_lp <= m ∧ ∃ p', Dex.load_pool s' id = Ok p' ∧ pool_wf p' id ∧ worth_more p p') ∧
  (∀ lp min_a min_b oa ob, 0 <= lp <= pl_lp_total_supply p →
     Dex.remove_liquidity sender id lp min_a min_b s = (Ok (oa, ob), s') →
     min_a <= oa ∧ min_b <= ob ∧
     ∃ p', Dex.load_pool s' id = Ok p' ∧ pool_wf p' id ∧ worth_more p p').
Proof.
  intros Hload Hwf. split.
  - intros a b min_lp m Ha Hb Hca Hcb Hcl Hrun.
    destruct (add_liquidity_pool _ _ _ _ _ _ _ _ _ Hload Hwf Ha Hb Hca Hcb Hcl Hrun)
      as (p' & aa & ab & Hl' & Hwf' & ? & ? & ? & ? & Hra & Hrb & Hlp & ? & ?).
    split; [done|]. exists p'. split; [done|]. split; [done|].
    unfold worth_more. rewrite Hra, Hrb, Hlp. nia.
  - intros lp min_a min_b oa ob Hle Hrun.
    destruct (remove_liquidity_pool _ _ _ _ _ _ _ _ _ _ Hload Hwf Hle Hrun)
      as (p' & Hl' & Hwf' & ? & ? & ? & ? & Hra & Hrb & Hlp & Hoa & Hob & HL).
    split; [done|]. split; [done|]. exists p'. split; [done|]. split; [done|].
    unfold worth_more. rewrite Hra, Hrb, Hlp.
    pose proof (Z.mul_div_le (lp * pl_reserve_a p) (pl_lp_total_supply p) ltac:(lia)).
    pose proof (Z.mul_div_le (lp * pl_reserve_b p) (pl_lp_total_supply p) ltac:(lia)).
    split; nia.
Qed.

(** C24: depositing and at once withdrawing the LP units received never pays
    out more of either token than was taken, and brings the LP supply back to
    where it was. *)
Theorem deposit_withdraw_no_profit s s1 s2 sender id a b min_lp m min_a min_b oa ob p :
  Dex.load_pool s id = Ok p → pool_wf p id → in_width 128 a → in_width 128 b →
  pl_reserve_a p + a < 2 ^ 128 → pl_reserve_b p + b < 2 ^ 128 →
  pl_lp_total_supply p + m < 2 ^ 128 →
  Dex.add_liquidity sender id a b min_lp s = (Ok m, s1) →
  Dex.remove_liquidity sender id m min_a min_b s1 = (Ok (oa, ob), s2) →
  ∃ p1 p2, Dex.load_pool s1 id = Ok p1 ∧ Dex.load_pool s2 id = Ok p2 ∧
    oa <= pl_reserve_a p1 - pl_reserve_a p ∧ ob <= pl_reserve_b p1 - pl_reserve_b p ∧
    pl_reserve_a p <= pl_reserve_a p2 ∧ pl_reserve_b p <= pl_reserve_b p2 ∧
    pl_lp_total_supply p2 = pl_lp_total_supply p.
Proof.
  intros Hload Hwf Ha Hb Hca Hcb Hcl Hadd Hrem.
  destruct (add_liquidity_pool _ _ _ _ _ _ _ _ _ Hload Hwf Ha Hb Hca Hcb Hcl Hadd)
    as (p1 & aa & ab & Hl1 & Hwf1 & ? & ? & ? & Hm & Hra & Hrb & Hlp & Hna & Hnb).
  pose proof (wf_lp _ _ Hwf) as Hw. unfold in_width in Hw.
  assert (Hle : 0 <= m <= pl_lp_total_supply p1) by lia.
  destruct (remove_liquidity_pool _ _ _ _ _ _ _ _ _ _ Hl1 Hwf1 Hle Hrem)
    as (p2 & Hl2 & _ & ? & ? & ? & ? & Hra2 & Hrb2 & Hlp2 & Hoa & Hob & HL).
  rewrite Hlp in *. rewrite Hra in Hoa. rewrite Hrb in Hob.
  assert (oa <= aa) by (rewrite Hoa; apply Z.div_le_upper_bound; nia).
  assert (ob <= ab) by (rewrite Hob; apply Z.div_le_upper_bound; nia).
  exists p1, p2. split_and!; [done|done|lia..].
Qed.
End pools.

(** ** Concrete runs *)

#[local] Existing Instance demo_env.
#[local] Existing Instance demo_pool_codec.

Definition demo_token : H256 := demo_hash 7.
Definition demo_lp : Address := demo_address 1.
Definition demo_pool_id : H256 := Dex.compute_pool_id NATIVE_VTT demo_token.

(** 1,000,000 VTT units and 4,000,000 asset units, pooled by [demo_lp]. *)
Definition demo_pool_state : StateDB :=
  let s0 := State.with_accounts [(demo_lp, Account.with_balance 5000000)] in
  let s1 := s0 <| db_assets := {[demo_token := demo_asset demo_token demo_lp 9000000]} |> in
  let s2 := (State.put_ownership (MkOwnershipRecord demo_token demo_lp 9000000 0) s1).2 in
  (Dex.create_pool demo_lp NATIVE_VTT demo_token 1000000 4000000 3 s2).2.

Definition demo_pool : PoolState :=
  MkPoolState demo_pool_id NATIVE_VTT demo_token 1000000 4000000
    (Dex.compute_lp_token_id demo_pool_id) 2000000 30 5 0 0 demo_lp 3.

Lemma demo_pool_loaded : Dex.load_pool demo_pool_state demo_pool_id = Ok demo_pool.
Proof. vm_compute. reflexivity. Qed.

Lemma demo_pool_wf : pool_wf demo_pool demo_pool_id.
Proof. constructor; unfold in_width; cbn; try lia. reflexivity. Qed.

Lemma swap_preserves_product_witness :
  ∃ out s' p' d,
    Dex.execute_swap demo_lp demo_pool_id NATIVE_VTT 1000 3900 demo_pool_state = (Ok out, s') ∧
    Dex.load_pool s' demo_pool_id = Ok p' ∧
    1000000 * 4000000 <= pl_reserve_a p' * pl_reserve_b p' ∧ 3900 <= out < reserve_of demo_pool d.
Proof.
  assert (Hrun : (Dex.execute_swap demo_lp demo_pool_id NATIVE_VTT 1000 3900 demo_pool_state).1 = Ok 3984)
    by (vm_compute; reflexivity).
  apply run_Ok in Hrun.
  set (s' := (Dex.execute_swap demo_lp demo_pool_id NATIVE_VTT 1000 3900 demo_pool_state).2) in Hrun.
  clearbody s'. set (out := 3984) in Hrun.
  destruct (swap_preserves_product demo_pool_state s' demo_lp demo_pool_id NATIVE_VTT 1000 3900 out demo_pool)
    as (p' & d & Hl & Ht & Hk & Hmin & Hout & _).
  - exact demo_pool_loaded.
  - exact demo_pool_wf.
  - unfold in_width. lia.
  - exact Hrun.
  - exists out, s', p', (negb d). split; [exact Hrun|]. split; [exact Hl|]. split; [|lia].
    apply Hk; destruct d; cbn; lia.
Defined.

Lemma liquidity_worth_preserved_witness :
  ∃ m s', Dex.add_liquidity demo_lp demo_pool_id 500 2500 900 demo_pool_state = (Ok m, s') ∧
    900 <= m ∧ ∃ p', Dex.load_pool s' demo_pool_id = Ok p' ∧ worth_more demo_pool p'.
Proof.
  assert (Hrun : (Dex.add_liquidity demo_lp demo_pool_id 500 2500 900 demo_pool_state).1 = Ok 1000)
    by (vm_compute; reflexivity).
  apply run_Ok in Hrun.
  set (s' := (Dex.add_liquidity demo_lp demo_pool_id 500 2500 900 demo_pool_state).2) in Hrun.
  clearbody s'. exists 1000, s'. split; [exact Hrun|].
  destruct (liquidity_worth_preserved demo_pool_state s' demo_lp demo_pool_id demo_pool
    demo_pool_loaded demo_pool_wf) as [Hadd _].
  destruct (Hadd 500 2500 900 1000) as (? & p' & Hl & _ & Hw);
    try (unfold in_width; cbn; lia); [exact Hrun|].
  split; [lia|]. exists p'. split; [exact Hl|exact Hw].
Defined.

Lemma deposit_withdraw_no_profit_witness :
  ∃ s1 s2 oa ob,
    Dex.add_liquidity demo_lp demo_pool_id 501 2500 900 demo_pool_state = (Ok 1002, s1) ∧
    Dex.remove_liquidity demo_lp demo_pool_id 1002 0 0 s1 = (Ok (oa, ob), s2) ∧
    ∃ p1 p2, Dex.load_pool s1 demo_pool_id = Ok p1 ∧ Dex.load_pool s2 demo_pool_id = Ok p2 ∧
      oa <= pl_reserve_a p1 - 1000000 ∧ pl_lp_total_supply p2 = 2000000.
Proof.
  set (s1 := (Dex.add_liquidity demo_lp demo_pool_id 501 2500 900 demo_pool_state).2).
  assert (H1 : (Dex.add_liquidity demo_lp demo_pool_id 501 2500 900 demo_pool_state).1 = Ok 1002)
    by (vm_compute; reflexivity).
  apply run_Ok in H1. fold s1 in H1.
  assert (H2 : (Dex.remove_liquidity demo_lp demo_pool_id 1002 0 0 s1).1 = Ok (501, 2004))
    by (vm_compute; reflexivity).
  apply run_Ok in H2.
  set (s2 := (Dex.remove_liquidity demo_lp demo_pool_id 1002 0 0 s1).2) in H2.
  clearbody s2. clearbody s1. set (oa := 501) in H2. set (ob := 2004) in H2. exists s1, s2, oa, ob. split; [exact H1|]. split; [exact H2|].
  destruct (deposit_withdraw_no_profit demo_pool_state s1 s2 demo_lp demo_pool_id 501 2500 900 1002
    0 0 oa ob demo_pool demo_pool_loaded demo_pool_wf) as (p1 & p2 & Hl1 & Hl2 & Ha & _ & _ & _ & Hlp);
    try (unfold in_width; cbn; lia); [exact H1|exact H2|].
  exists p1, p2. split; [exact Hl1|]. split; [exact Hl2|]. split; [exact Ha|exact Hlp].
Defined.
