(* ===== verification/Consensus.v ===== *)
(** * Delegated proof of stake
    ([crates/vtt-consensus/src/validator.rs], [engine.rs], [slashing.rs],
     [rewards.rs])

    The election of the active validators from the staking state, the
    round-robin slot schedule, header verification, double-sign evidence, and
    the arithmetic of rewards and penalties. *)

From stdpp Require Import sorting.
From S2P Require Import Prelude Primitives Storage Assets Oracle StateDB Dex Codecs.

(** ** Validator sets ([validator.rs]) *)

Record ValidatorInfo := MkValidatorInfo {
  vi_address : Address;
  vi_public_key : option PublicKey;
  vi_total_stake : Amount;
  vi_self_stake : Amount;
  vi_commission_bps : Z;
}.

Record ValidatorSet := MkValidatorSet {
  vs_epoch : Z;
  vs_validators : list ValidatorInfo;
}.

Module VSet.
Definition empty (epoch : Z) : ValidatorSet := MkValidatorSet epoch [].

Definition len (vs : ValidatorSet) : Z := Z.of_nat (length (vs_validators vs)).

Definition is_empty (vs : ValidatorSet) : bool := len vs =? 0.

(** The index is reduced below the length, so indexing never panics. *)
Definition slot_leader (vs : ValidatorSet) (slot : Z) : option ValidatorInfo :=
  if is_empty vs then None
  else vs_validators vs !! Z.to_nat (slot mod len vs).

Definition contains (vs : ValidatorSet) (a : Address) : bool :=
  existsb (λ v, bool_decide (vi_address v = a)) (vs_validators vs).

Definition get (vs : ValidatorSet) (a : Address) : option ValidatorInfo :=
  find (λ v, bool_decide (vi_address v = a)) (vs_validators vs).

(** [Amount]'s [+] panics on overflow. *)
Definition total_stake {E} (vs : ValidatorSet) : res E Amount :=
  fold_left (λ acc v, a ← acc; Amount.add a (vi_total_stake v)) (vs_validators vs) (Ok 0).
End VSet.

(** ** Evidence and penalties ([slashing.rs]) *)

Record DoubleSignEvidence := MkDoubleSignEvidence {
  header_a : BlockHeader;
  header_b : BlockHeader;
}.

Inductive SlashingReason :=
  | DoubleSigning (evidence : DoubleSignEvidence)
  | Downtime (missed_slots total_slots epoch : Z).

Record SlashRecord := MkSlashRecord {
  sr_validator : Address;
  sr_reason : SlashingReason;
  sr_slashed_amount : Amount;
  sr_epoch : Z;
}.

Module Evidence.
Definition is_valid `{Borsh BlockHeader} (e : DoubleSignEvidence) : bool :=
  bool_decide (bh_validator (header_a e) = bh_validator (header_b e))
  && (bh_epoch (header_a e) =? bh_epoch (header_b e))
  && (bh_slot (header_a e) =? bh_slot (header_b e))
  && negb (bool_decide (signable_bytes (header_a e) = signable_bytes (header_b e))).

Definition offender (e : DoubleSignEvidence) : Address := bh_validator (header_a e).
End Evidence.

Definition calculate_double_sign_slash (total_stake : Amount) (slash_bps : Z) : Amount :=
  wrap 128 (total_stake * slash_bps) / 10000.

Definition calculate_downtime_slash (total_stake : Amount) (slash_bps : Z) : Amount :=
  wrap 128 (total_stake * slash_bps) / 10000.

Definition is_downtime_violation (missed_slots total_slots threshold_pct : Z) : bool :=
  if total_slots =? 0 then false
  else threshold_pct <? wrap 64 (missed_slots * 100) / total_slots.

(** ** Rewards ([rewards.rs]) *)

Definition PRODUCER_SHARE_PCT : Z := 80.
Definition TREASURY_SHARE_PCT : Z := 20.
Definition GAS_BURN_PCT : Z := 70.
Definition GAS_PRODUCER_PCT : Z := 30.

Definition calculate_epoch_reward (total_supply : Amount) (staking_ratio_pct : Z) : Amount :=
  let base_rate_bps := 50 in
  let adjusted :=
    if staking_ratio_pct =? 0 then base_rate_bps * 2
    else
      let ratio := (60 * base_rate_bps) / staking_ratio_pct in
      (ratio `min` (base_rate_bps * 2)) `max` (base_rate_bps / 2) in
  let epochs_per_year := 8760 in
  wrap 128 (total_supply * adjusted) / (1000 * epochs_per_year).

Record BlockRewardSplit := MkBlockRewardSplit {
  brs_producer : Amount;
  brs_treasury : Amount;
}.

Definition split_block_reward (total_reward : Amount) : BlockRewardSplit :=
  {| brs_producer := wrap 128 (total_reward * PRODUCER_SHARE_PCT) / 100;
     brs_treasury := wrap 128 (total_reward * TREASURY_SHARE_PCT) / 100 |}.

Record ProducerRewardSplit := MkProducerRewardSplit {
  validator_commission : Amount;
  staker_rewards : Amount;
}.

Definition split_producer_reward (producer_reward : Amount) (commission_bps : Z)
    : ProducerRewardSplit :=
  let commission_raw := wrap 128 (producer_reward * commission_bps) / 10000 in
  {| validator_commission := commission_raw;
     staker_rewards := wrap 128 (producer_reward - commission_raw) |}.

Record GasFeeSplit := MkGasFeeSplit {
  gfs_burned : Amount;
  gfs_producer : Amount;
}.

Definition split_gas_fees (total_fees : Amount) : GasFeeSplit :=
  {| gfs_burned := wrap 128 (total_fees * GAS_BURN_PCT) / 100;
     gfs_producer := wrap 128 (total_fees * GAS_PRODUCER_PCT) / 100 |}.

(** ** The engine ([engine.rs]) *)

Inductive ConsensusError :=
  | WrongBlockProducer (expected got : Address)
  | CsInvalidSignature
  | InvalidTimestamp (got parent : Z)
  | WrongParentHash (expected got : H256)
  | WrongBlockNumber (expected got : Z)
  | EmptyValidatorSet
  | ValidatorNotInSet (a : Address)
  | InvalidEvidence.

Record ConsensusEngine := MkConsensusEngine { ce_params : ConsensusParams }.

(** The comparator of the election: stake descending, then address ascending. *)
Definition candidate_cmp (a b : ValidatorInfo) : comparison :=
  match Z.compare (vi_total_stake b) (vi_total_stake a) with
  | Eq => Address_compare (vi_address a) (vi_address b)
  | c => c
  end.

Definition ranks_before (a b : ValidatorInfo) : Prop := candidate_cmp a b ≠ Gt.

#[global] Instance ranks_before_dec a b : Decision (ranks_before a b).
Proof. unfold ranks_before. solve_decision. Defined.

Module Engine.
Section engine.
Context `{!Env, !Borsh BlockHeader}.

(** Division and remainder panic on a zero epoch length. *)
Definition epoch_for_block {E} (e : ConsensusEngine) (n : Z) : res E Z :=
  if n =? 0 then Ok 0
  else if epoch_length (ce_params e) =? 0 then Panic
  else Ok (n / epoch_length (ce_params e)).

Definition epoch_start_block (e : ConsensusEngine) (epoch : Z) : Z :=
  wrap 64 (epoch * epoch_length (ce_params e)).

Definition slot_for_block {E} (e : ConsensusEngine) (n : Z) : res E Z :=
  if epoch_length (ce_params e) =? 0 then Panic
  else Ok (wrap 32 (n mod epoch_length (ce_params e))).

(** The closure of the [filter_map]. *)
Definition candidate (e : ConsensusEngine) (kv : Address * AccountState)
    : option ValidatorInfo :=
  st ← ac_staking kv.2;
  if sk_self_stake st <? min_self_stake (ce_params e) then None
  else Some {| vi_address := kv.1; vi_public_key := None;
               vi_total_stake := sk_total_stake st; vi_self_stake := sk_self_stake st;
               vi_commission_bps := sk_commission_bps st |}.

Definition elect_validators (e : ConsensusEngine) (s : StateDB) (epoch : Z) : ValidatorSet :=
  let candidates := omap (candidate e) (hash_iter (db_accounts s)) in
  let sorted := merge_sort ranks_before candidates in
  {| vs_epoch := epoch;
     vs_validators := take (Z.to_nat (active_validators (ce_params e))) sorted |}.

Definition block_producer (e : ConsensusEngine) (vs : ValidatorSet) (n : Z)
    : res ConsensusError ValidatorInfo :=
  slot ← slot_for_block e n;
  ok_or EmptyValidatorSet (VSet.slot_leader vs slot).

Definition verify_header (e : ConsensusEngine) (header parent : BlockHeader)
    (vs : ValidatorSet) : res ConsensusError unit :=
  let next := wrap 64 (bh_number parent + 1) in
  _ ← guard_err (negb (bh_number header =? next)) (WrongBlockNumber next (bh_number header));
  let expected_parent_hash := blake3_hash (signable_bytes parent) in
  _ ← guard_err (negb (bool_decide (bh_parent_hash header = expected_parent_hash)))
        (WrongParentHash expected_parent_hash (bh_parent_hash header));
  _ ← guard_err (bh_timestamp header <=? bh_timestamp parent)
        (InvalidTimestamp (bh_timestamp header) (bh_timestamp parent));
  expected_producer ← block_producer e vs (bh_number header);
  _ ← guard_err (negb (bool_decide (bh_validator header = vi_address expected_producer)))
        (WrongBlockProducer (vi_address expected_producer) (bh_validator header));
  expected_epoch ← epoch_for_block e (bh_number header);
  expected_slot ← slot_for_block e (bh_number header);
  _ ← guard_err (negb (bh_epoch header =? expected_epoch))
        (WrongBlockNumber expected_epoch (bh_epoch header));
  _ ← guard_err (negb (bh_slot header =? expected_slot))
        (WrongBlockNumber expected_slot (bh_slot header));
  match vi_public_key expected_producer with
  | Some pubkey =>
      res_map_err (λ _, CsInvalidSignature)
        (verify (signable_bytes header) (bh_signature header) pubkey)
  | None => Ok tt
  end.

Definition verify_double_sign (e : ConsensusEngine) (ev : DoubleSignEvidence)
    (vs : ValidatorSet) : res ConsensusError Address :=
  _ ← guard_err (negb (Evidence.is_valid ev)) InvalidEvidence;
  let offender := Evidence.offender ev in
  _ ← guard_err (negb (VSet.contains vs offender)) (ValidatorNotInSet offender);
  _ ← match VSet.get vs offender ≫= vi_public_key with
      | Some pubkey =>
          _ ← res_map_err (λ _, CsInvalidSignature)
                (verify (signable_bytes (header_a ev)) (bh_signature (header_a ev)) pubkey);
          res_map_err (λ _, CsInvalidSignature)
            (verify (signable_bytes (header_b ev)) (bh_signature (header_b ev)) pubkey)
      | None => Ok tt
      end;
  Ok offender.
End engine.
End Engine.

(** ** The election *)

Lemma ranks_before_iff a b :
  ranks_before a b ↔
  vi_total_stake b < vi_total_stake a
  ∨ vi_total_stake a = vi_total_stake b
    ∧ bytes_le (address_bytes (vi_address a)) (address_bytes (vi_address b)).
Proof.
  unfold ranks_before, candidate_cmp, bytes_le, String.leb, Address_compare.
  destruct (Z.compare_spec (vi_total_stake b) (vi_total_stake a)); [|naive_solver lia..].
  destruct (String.compare _ _); naive_solver lia.
Qed.

#[global] Instance ranks_before_trans : Transitive ranks_before.
Proof.
  intros a b c. rewrite !ranks_before_iff. intros [?|[? Hab]] [?|[? Hbc]]; [lia..|].
  right. split; [lia|]. by etrans.
Qed.

#[global] Instance ranks_before_total : Total ranks_before.
Proof.
  intros a b. rewrite !ranks_before_iff.
  destruct (Z.lt_trichotomy (vi_total_stake a) (vi_total_stake b)) as [?|[?|?]]; [auto| |auto].
  destruct (total bytes_le (address_bytes (vi_address a)) (address_bytes (vi_address b))); auto.
Qed.

Lemma candidate_cmp_Eq a b : candidate_cmp a b = Eq → ranks_before a b ∧ ranks_before b a.
Proof.
  intros Hc. split; [by unfold ranks_before; rewrite Hc|].
  apply ranks_before_iff. unfold candidate_cmp, Address_compare in Hc.
  destruct (Z.compare_spec (vi_total_stake b) (vi_total_stake a)); [|done..].
  right. split; [done|]. apply String.compare_eq_iff in Hc. rewrite Hc.
  by destruct (total bytes_le (address_bytes (vi_address b)) (address_bytes (vi_address b))).
Qed.

Lemma ranks_before_tie a b :
  ranks_before a b → ranks_before b a → vi_address a = vi_address b.
Proof.
  rewrite !ranks_before_iff. intros [?|[? Hab]] [?|[? Hba]]; [lia..|].
  destruct (vi_address a), (vi_address b); cbn in *. f_equal. by apply (anti_symm bytes_le).
Qed.

(** The validators the staking state offers: stakers with enough self-stake. *)
Definition eligible (e : ConsensusEngine) (s : StateDB) (v : ValidatorInfo) : Prop :=
  ∃ acc st, db_accounts s !! vi_address v = Some acc ∧ ac_staking acc = Some st
    ∧ min_self_stake (ce_params e) <= sk_self_stake st
    ∧ v = MkValidatorInfo (vi_address v) None (sk_total_stake st) (sk_self_stake st)
            (sk_commission_bps st).

Lemma candidate_Some e kv v :
  Engine.candidate e kv = Some v ↔
  kv.1 = vi_address v ∧ ∃ st, ac_staking kv.2 = Some st
    ∧ min_self_stake (ce_params e) <= sk_self_stake st
    ∧ v = MkValidatorInfo (vi_address v) None (sk_total_stake st) (sk_self_stake st)
            (sk_commission_bps st).
Proof.
  destruct kv as [a acc]. unfold Engine.candidate. cbn.
  destruct (ac_staking acc) as [st|]; cbn; [|naive_solver].
  destruct (Z.ltb_spec (sk_self_stake st) (min_self_stake (ce_params e))); split.
  - done.
  - intros (_ & ? & [= <-] & ? & _). lia.
  - intros [= <-]. cbn. naive_solver.
  - intros (<- & ? & [= <-] & _ & ->). done.
Qed.

Section election.
Context `{!Env}.
Implicit Types (e : ConsensusEngine) (s : StateDB).

Definition candidates e s : list ValidatorInfo :=
  omap (Engine.candidate e) (hash_iter (db_accounts s)).

Lemma elem_of_candidates e s v : v ∈ candidates e s ↔ eligible e s v.
Proof.
  unfold candidates, eligible. rewrite list_elem_of_omap. setoid_rewrite hash_iter_perm.
  setoid_rewrite candidate_Some. split.
  - intros ([a acc] & Hin%elem_of_map_to_list & <- & st & ?). naive_solver.
  - intros (acc & st & Hin & ?). exists (vi_address v, acc).
    rewrite elem_of_map_to_list. naive_solver.
Qed.

Lemma omap_candidate_addresses e l :
  NoDup l.*1 → NoDup (vi_address <$> omap (Engine.candidate e) l).
Proof.
  induction l as [|kv l IH]; cbn; [constructor|]. rewrite NoDup_cons. intros [Hkv Hl].
  destruct (Engine.candidate e kv) as [v|] eqn:Ev; cbn; [|auto].
  apply NoDup_cons. split; [|auto]. rewrite list_elem_of_fmap. intros (w & Hw & Hin).
  apply list_elem_of_omap in Hin as (kv' & Hin & Ew).
  apply candidate_Some in Ev as [Ev _]. apply candidate_Some in Ew as [Ew _].
  apply Hkv, list_elem_of_fmap. exists kv'. split; [congruence|done].
Qed.

Lemma candidates_NoDup e s : NoDup (vi_address <$> candidates e s).
Proof.
  apply omap_candidate_addresses. rewrite hash_iter_perm. apply NoDup_fst_map_to_list.
Qed.

Definition ranking e s : list ValidatorInfo := merge_sort ranks_before (candidates e s).

Lemma ranking_perm e s : ranking e s ≡ₚ candidates e s.
Proof. apply merge_sort_Permutation. Qed.

Lemma ranking_sorted e s : StronglySorted ranks_before (ranking e s).
Proof. apply (StronglySorted_merge_sort ranks_before). Qed.

Lemma ranking_NoDup e s : NoDup (vi_address <$> ranking e s).
Proof. rewrite ranking_perm. apply candidates_NoDup. Qed.
End election.

Lemma ranking_unique (E1 E2 : Env) e s :
  @ranking E1 e s = @ranking E2 e s.
Proof.
  apply (StronglySorted_unique_strong ranks_before).
  - intros v w Hv Hw Hvw Hwv. rewrite ranking_perm, elem_of_candidates in Hv.
    rewrite ranking_perm, elem_of_candidates in Hw.
    pose proof (ranks_before_tie _ _ Hvw Hwv) as Ha.
    destruct Hv as (acc & st & Hacc & Hst & _ & ->), Hw as (acc' & st' & Hacc' & Hst' & _ & ->).
    cbn in *. congruence.
  - apply ranking_sorted.
  - apply ranking_sorted.
  - rewrite !ranking_perm. unfold candidates. apply omap_Permutation. by rewrite !hash_iter_perm.
Qed.

Lemma StronglySorted_take_drop {A} (R : relation A) n l x y :
  StronglySorted R l → x ∈ take n l → y ∈ drop n l → R x y.
Proof.
  intros Hs Hx Hy. rewrite <- (take_drop n l) in Hs.
  by eapply StronglySorted_app_1_elem_of.
Qed.

(** The election returns exactly the best candidates.  The elected
    validators are eligible (staked, with at least the minimum self-stake), one
    entry per address, ordered by stake and then address, and there are
    [min(active_validators, candidates)] of them; every eligible validator that
    is left out ranks strictly behind every elected one.  The result does not
    depend on the iteration order of the account table, so every node elects the
    same set. *)
Theorem elect_validators_best (E1 E2 : Env) e s epoch :
  let vs := vs_validators (@Engine.elect_validators E1 e s epoch) in
  @Engine.elect_validators E1 e s epoch = @Engine.elect_validators E2 e s epoch
  ∧ StronglySorted ranks_before vs
  ∧ NoDup (vi_address <$> vs)
  ∧ length vs = Nat.min (Z.to_nat (active_validators (ce_params e)))
                        (length (@candidates E1 e s))
  ∧ (∀ v, v ∈ vs → eligible e s v)
  ∧ (∀ v w, eligible e s v → v ∉ vs → w ∈ vs → candidate_cmp w v = Lt).
Proof.
  cbv zeta. unfold Engine.elect_validators. cbn [vs_validators].
  change (merge_sort ranks_before (omap _ (@hash_iter (@env_hash_iter E1) _ _ _ _ _)))
    with (@ranking E1 e s).
  change (merge_sort ranks_before (omap _ (@hash_iter (@env_hash_iter E2) _ _ _ _ _)))
    with (@ranking E2 e s).
  set (n := Z.to_nat _). split_and!.
  - by rewrite (ranking_unique E1 E2).
  - pose proof (@ranking_sorted E1 e s) as Hs. rewrite <- (take_drop n (@ranking E1 e s)) in Hs.
    by apply StronglySorted_app_1_l in Hs.
  - pose proof (@ranking_NoDup E1 e s) as Hn. rewrite <- (take_drop n (@ranking E1 e s)), fmap_app in Hn.
    by apply NoDup_app in Hn as [? _].
  - rewrite length_take. by rewrite (@ranking_perm E1 e s).
  - intros v Hv. apply (@elem_of_candidates E1). rewrite <- ranking_perm.
    rewrite <- (take_drop n (@ranking E1 e s)). apply elem_of_app. by left.
  - intros v w Hv Hnv Hw.
    rewrite <- (@elem_of_candidates E1), <- ranking_perm, <- (take_drop n (@ranking E1 e s)), elem_of_app in Hv.
    destruct Hv as [?|Hv]; [done|].
    pose proof (@ranking_NoDup E1 e s) as Hn. rewrite <- (take_drop n (@ranking E1 e s)), fmap_app in Hn.
    apply NoDup_app in Hn as (_ & Hn & _).
    pose proof (StronglySorted_take_drop _ _ _ _ _ (@ranking_sorted E1 e s) Hw Hv) as Hwv.
    unfold ranks_before in Hwv. destruct (candidate_cmp w v) eqn:Hc; [exfalso|done..].
    apply (Hn (vi_address w)); [by apply list_elem_of_fmap_2|].
    apply candidate_cmp_Eq in Hc as [??].
    rewrite (ranks_before_tie w v) by done. by apply list_elem_of_fmap_2.
Qed.

(** ** The slot schedule *)

Section schedule.
Context `{!Env, !Borsh BlockHeader}.
Implicit Types (e : ConsensusEngine) (vs : ValidatorSet) (h p : BlockHeader).

Lemma block_producer_Ok e vs n v :
  Engine.block_producer e vs n = Ok v ↔
  epoch_length (ce_params e) ≠ 0
  ∧ VSet.slot_leader vs (wrap 32 (n mod epoch_length (ce_params e))) = Some v.
Proof.
  unfold Engine.block_producer, Engine.slot_for_block.
  destruct (Z.eqb_spec (epoch_length (ce_params e)) 0); cbn; [naive_solver|].
  rewrite ok_or_Ok. naive_solver.
Qed.

Lemma slot_in_epoch b i L :
  0 < L → 0 <= i → b mod L + i < L → (b + i) mod L = b mod L + i.
Proof.
  intros HL Hi Hb. rewrite Z.add_mod by lia.
  pose proof (Z.mod_pos_bound b L HL). rewrite (Z.mod_small i) by lia.
  apply Z.mod_small. lia.
Qed.

Lemma rotate_perm {A} n (l : list A) : rotate n l ≡ₚ l.
Proof. unfold rotate. rewrite Permutation_app_comm. by rewrite take_drop. Qed.

(** The schedule is a fair round robin.  In any window of as many
    consecutive blocks as there are validators, lying within one epoch, every
    block has a producer and every validator produces exactly one block, in the
    cyclic order of the elected set. *)
Theorem schedule_fair e vs b :
  let L := epoch_length (ce_params e) in
  let n := length (vs_validators vs) in
  0 < L <= 2 ^ 32 → b mod L + Z.of_nat n <= L →
  ∃ producers,
    (∀ i v, producers !! i = Some v →
      Engine.block_producer e vs (b + Z.of_nat i) = Ok v)
    ∧ producers ≡ₚ vs_validators vs
    ∧ producers = rotate (Z.to_nat (b mod L)) (vs_validators vs).
Proof.
  cbv zeta. intros HL Hb. set (l := vs_validators vs) in *.
  eexists. split_and!; [|apply rotate_perm|done].
  intros i v Hv. pose proof (lookup_lt_Some _ _ _ Hv) as Hi. rewrite length_rotate in Hi.
  apply block_producer_Ok. split; [lia|].
  pose proof (Z.mod_pos_bound b (epoch_length (ce_params e)) ltac:(lia)).
  rewrite slot_in_epoch by lia. rewrite wrap_small by (unfold in_width; lia).
  unfold VSet.slot_leader, VSet.is_empty, VSet.len. fold l.
  destruct (Z.eqb_spec (Z.of_nat (length l)) 0); [lia|].
  rewrite lookup_rotate_r in Hv by done. unfold rotate_nat_add in Hv. rewrite <- Hv. f_equal.
  rewrite Z2Nat.id by lia. f_equal; f_equal; lia.
Qed.

(** ** Header verification *)

Lemma verify_Ok m sig pk :
  verify m sig pk = Ok tt ↔ ed25519_valid_key pk = true ∧ ed25519_verify pk m sig = true.
Proof.
  unfold verify. destruct (ed25519_valid_key pk); cbn; [|naive_solver].
  destruct (ed25519_verify pk m sig); naive_solver.
Qed.

(** The signature rule: a header is signed by the registered key, when there is
    one. *)
Definition signed_by (v : ValidatorInfo) h : Prop :=
  ∀ pk, vi_public_key v = Some pk →
    ed25519_valid_key pk = true
    ∧ ed25519_verify pk (signable_bytes h) (bh_signature h) = true.

Lemma key_check_Ok v h :
  match vi_public_key v with
  | Some pk => res_map_err (λ _, CsInvalidSignature)
                 (verify (signable_bytes h) (bh_signature h) pk)
  | None => Ok tt
  end = Ok tt ↔ signed_by v h.
Proof.
  unfold signed_by. destruct (vi_public_key v) as [pk|]; [|naive_solver].
  rewrite res_map_err_Ok, verify_Ok. naive_solver.
Qed.

(** What an accepted header is: the whole rule, in both directions. *)
Definition header_rule e h p vs : Prop :=
  let L := epoch_length (ce_params e) in
  let n := bh_number h in
  L ≠ 0 ∧ n = wrap 64 (bh_number p + 1)
  ∧ bh_parent_hash h = blake3_hash (signable_bytes p)
  ∧ bh_timestamp p < bh_timestamp h
  ∧ bh_epoch h = n / L ∧ bh_slot h = wrap 32 (n mod L)
  ∧ ∃ v, VSet.slot_leader vs (bh_slot h) = Some v
      ∧ bh_validator h = vi_address v ∧ signed_by v h.

Lemma epoch_for_block_Ok {E} e n :
  epoch_length (ce_params e) ≠ 0 →
  Engine.epoch_for_block (E:=E) e n = Ok (n / epoch_length (ce_params e)).
Proof.
  intros HL. unfold Engine.epoch_for_block.
  destruct (Z.eqb_spec n 0) as [->|]; [by rewrite Z.div_0_l|].
  by destruct (Z.eqb_spec (epoch_length (ce_params e)) 0).
Qed.

Lemma slot_for_block_Ok {E} e n :
  epoch_length (ce_params e) ≠ 0 →
  Engine.slot_for_block (E:=E) e n = Ok (wrap 32 (n mod epoch_length (ce_params e))).
Proof.
  intros HL. unfold Engine.slot_for_block.
  by destruct (Z.eqb_spec (epoch_length (ce_params e)) 0).
Qed.

Lemma verify_header_Ok e h p vs :
  Engine.verify_header e h p vs = Ok tt ↔ header_rule e h p vs.
Proof.
  unfold header_rule. split.
  - unfold Engine.verify_header. intros Hh. inv_ok.
    repeat match goal with
    | H : negb _ = false |- _ => apply negb_false_iff in H
    | H : bool_decide _ = true |- _ => apply bool_decide_eq_true in H
    | H : (_ =? _) = true |- _ => apply Z.eqb_eq in H
    | H : (_ <=? _) = false |- _ => apply Z.leb_gt in H
    | H : Engine.block_producer _ _ _ = Ok _ |- _ => apply block_producer_Ok in H as [HL ?]
    end.
    rewrite epoch_for_block_Ok, slot_for_block_Ok in * by done. simplify_eq.
    split_and!; [done|done|done|done|done|done|].
    match goal with Hs : wrap 32 _ = _, Hv : VSet.slot_leader _ _ = _ |- _ =>
      rewrite Hs in Hv end.
    eexists. split_and!; [done..|].
    by apply key_check_Ok.
  - intros (HL & Hn & Hp & Ht & He & Hs & v & Hv & Ha & Hk). unfold Engine.verify_header.
    rewrite <- Hn, Z.eqb_refl, (bool_decide_eq_true_2 _ Hp), (proj2 (Z.leb_gt _ _) Ht). cbn.
    rewrite Hs in Hv.
    rewrite (proj2 (block_producer_Ok e vs (bh_number h) v)) by done. cbn.
    rewrite (bool_decide_eq_true_2 _ Ha), epoch_for_block_Ok, slot_for_block_Ok by done. cbn.
    rewrite He, Hs, !Z.eqb_refl. cbn. by apply key_check_Ok.
Qed.

Lemma slot_leader_elem vs slot v : VSet.slot_leader vs slot = Some v → v ∈ vs_validators vs.
Proof.
  unfold VSet.slot_leader. destruct (VSet.is_empty vs); [done|]. apply list_elem_of_lookup_2.
Qed.

Lemma vset_get_elem vs v :
  NoDup (vi_address <$> vs_validators vs) → v ∈ vs_validators vs →
  VSet.contains vs (vi_address v) = true ∧ VSet.get vs (vi_address v) = Some v.
Proof.
  unfold VSet.contains, VSet.get. induction (vs_validators vs) as [|w l IH]; cbn.
  { intros _ ?%elem_of_nil. done. }
  rewrite NoDup_cons, elem_of_cons. intros [Hw Hl] [->|Hv].
  { by rewrite bool_decide_eq_true_2. }
  rewrite bool_decide_eq_false_2; [by apply IH|]. intros Heq. apply Hw. rewrite Heq.
  by apply list_elem_of_fmap_2.
Qed.

Lemma verify_double_sign_Ok e ev v vs :
  bh_validator (header_a ev) = vi_address v → bh_validator (header_b ev) = vi_address v →
  bh_epoch (header_a ev) = bh_epoch (header_b ev) →
  bh_slot (header_a ev) = bh_slot (header_b ev) →
  signable_bytes (header_a ev) ≠ signable_bytes (header_b ev) →
  VSet.contains vs (vi_address v) = true → VSet.get vs (vi_address v) = Some v →
  signed_by v (header_a ev) → signed_by v (header_b ev) →
  Engine.verify_double_sign e ev vs = Ok (vi_address v).
Proof.
  intros Ha Hb He Hs Hd Hc Hg Hka Hkb.
  unfold Engine.verify_double_sign, Evidence.is_valid, Evidence.offender.
  rewrite Ha, Hb, He, Hs, !Z.eqb_refl, bool_decide_eq_true_2, bool_decide_eq_false_2 by done.
  cbn. rewrite Hc, Hg. cbn. apply key_check_Ok in Hka, Hkb.
  destruct (vi_public_key v) as [pk|]; [|done]. by rewrite Hka, Hkb.
Qed.

(** Equivocation is attributable.  Two headers that pass verification on the
    same parent and validator set have the same number, epoch, slot and producer;
    if what they sign differs, the pair is evidence that [verify_double_sign]
    accepts, in either order, and that names this producer. *)
Theorem accepted_headers_accountable e h1 h2 p vs :
  Engine.verify_header e h1 p vs = Ok tt →
  Engine.verify_header e h2 p vs = Ok tt →
  NoDup (vi_address <$> vs_validators vs) →
  bh_number h1 = bh_number h2 ∧ bh_epoch h1 = bh_epoch h2 ∧ bh_slot h1 = bh_slot h2
  ∧ bh_validator h1 = bh_validator h2
  ∧ (signable_bytes h1 ≠ signable_bytes h2 →
     Engine.verify_double_sign e (MkDoubleSignEvidence h1 h2) vs = Ok (bh_validator h1)
     ∧ Engine.verify_double_sign e (MkDoubleSignEvidence h2 h1) vs = Ok (bh_validator h1)).
Proof.
  rewrite !verify_header_Ok.
  intros (_ & Hn1 & _ & _ & He1 & Hs1 & v & Hv1 & Ha1 & Hk1)
    (_ & Hn2 & _ & _ & He2 & Hs2 & w & Hv2 & Ha2 & Hk2) Hnd.
  assert (bh_number h1 = bh_number h2) by congruence.
  assert (bh_epoch h1 = bh_epoch h2) by congruence.
  assert (Hs : bh_slot h1 = bh_slot h2) by congruence.
  assert (w = v) as -> by congruence.
  assert (Ha : bh_validator h1 = bh_validator h2) by congruence.
  split_and!; [done..|]. intros Hd.
  destruct (vset_get_elem vs v Hnd (slot_leader_elem _ _ _ Hv1)) as [Hc Hg].
  rewrite Ha1. split; apply verify_double_sign_Ok; cbn; congruence || done.
Qed.
End schedule.

(** ** Rewards and penalties *)

(** Two complementary percentage shares lose at most one unit to rounding. *)
Lemma pct_split x p q :
  0 <= p → 0 <= q → p + q = 100 → 0 <= x →
  x - 1 <= x * p / 100 + x * q / 100 <= x.
Proof.
  intros Hp Hq Hpq Hx. assert (Hs : x * p + x * q = 100 * x) by nia.
  generalize dependent (x * q). generalize (x * p). intros a b Hs.
  pose proof (Z.div_mod a 100 ltac:(done)). pose proof (Z.mod_pos_bound a 100 ltac:(done)).
  pose proof (Z.div_mod b 100 ltac:(done)). pose proof (Z.mod_pos_bound b 100 ltac:(done)).
  lia.
Qed.

Lemma wrap_mul_small x k B : 0 <= x → 0 <= k <= B → x * B < 2 ^ 128 → wrap 128 (x * k) = x * k.
Proof. intros. apply wrap_small. unfold in_width. nia. Qed.

(** The reward and penalty arithmetic creates nothing.  As long as the
    128-bit products do not overflow: block rewards and gas fees are split into
    shares that sum to the total, up to one unit that rounding destroys; the
    commission split is exact; an epoch mints between 2.5 and 10 percent of the
    supply divided by 8760 epochs; a slash never exceeds the stake; and a validator is down exactly when it missed at least
    [threshold + 1] percent of its slots. *)
Theorem reward_arithmetic x bps ratio missed total threshold :
  0 <= x → x * 10000 < 2 ^ 128 → 0 <= bps <= 10000 → 0 <= ratio →
  in_width 32 missed → 0 < total →
  let b := split_block_reward x in
  let g := split_gas_fees x in
  let c := split_producer_reward x bps in
  x - 1 <= brs_producer b + brs_treasury b <= x
  ∧ x - 1 <= gfs_burned g + gfs_producer g <= x
  ∧ validator_commission c + staker_rewards c = x
  ∧ 0 <= validator_commission c <= x
  ∧ x * 25 / 8760000 <= calculate_epoch_reward x ratio <= x * 100 / 8760000
  ∧ 0 <= calculate_double_sign_slash x bps <= x
  ∧ (is_downtime_violation missed total threshold = true ↔
     (threshold + 1) * total <= missed * 100).
Proof.
  intros Hx Hof Hbps Hr Hm Ht. cbv zeta.
  unfold split_block_reward, split_gas_fees, split_producer_reward, calculate_epoch_reward,
    calculate_double_sign_slash, is_downtime_violation. cbn [brs_producer brs_treasury
    gfs_burned gfs_producer validator_commission staker_rewards].
  unfold PRODUCER_SHARE_PCT, TREASURY_SHARE_PCT, GAS_BURN_PCT, GAS_PRODUCER_PCT.
  change (50 / 2) with 25. change (50 * 2) with 100.
  rewrite !(wrap_mul_small x _ 10000) by (first [done | lia | case_match; lia]).
  assert (0 <= x * bps / 10000 <= x).
  { split; [apply Z.div_pos; nia|]. apply Z.div_le_upper_bound; nia. }
  split_and!; try lia; try (by apply pct_split).
  - rewrite wrap_small by (unfold in_width; lia). lia.
  - apply Z.div_le_mono; [lia|]. apply Z.mul_le_mono_nonneg_l; [done|]. case_match; lia.
  - apply Z.div_le_mono; [lia|]. apply Z.mul_le_mono_nonneg_l; [done|]. case_match; lia.
  - destruct (Z.eqb_spec total 0); [lia|].
    unfold in_width in Hm. rewrite wrap_small by (unfold in_width; lia). rewrite Z.ltb_lt.
    split; intros Hv.
    + pose proof (Z.mul_div_le (missed * 100) total Ht). nia.
    + enough (threshold + 1 <= missed * 100 / total) by lia.
      apply Z.div_le_lower_bound; [done|]. lia.
Qed.

(** ** Concrete headers *)

Definition demo_validator (n : Z) : ValidatorInfo :=
  MkValidatorInfo (demo_address n) (Some (MkPublicKey (to_le_bytes 32 n))) 1000 1000 500.

Definition demo_validators : ValidatorSet :=
  MkValidatorSet 0 [demo_validator 1; demo_validator 2; demo_validator 3].

Definition demo_engine : ConsensusEngine := MkConsensusEngine ConsensusParams_default.

Definition demo_genesis : BlockHeader :=
  MkBlockHeader 1 0 0 H256_ZERO H256_ZERO H256_ZERO H256_ZERO Address_ZERO 0 0 1000 0 0 None
    Signature_ZERO.

Definition demo_header `{!Env, !Borsh BlockHeader} (root : H256) : BlockHeader :=
  let h := MkBlockHeader 1 0 1 (blake3_hash (signable_bytes demo_genesis)) H256_ZERO root
             H256_ZERO (demo_address 2) 0 1 4000 0 0 None Signature_ZERO in
  h <| bh_signature := MkSignature (signable_bytes h) |>.

#[local] Existing Instance demo_env.
#[local] Existing Instance demo_header_codec.

Lemma schedule_fair_witness :
  0 < epoch_length (ce_params demo_engine) <= 2 ^ 32
  ∧ 2405 mod epoch_length (ce_params demo_engine) + 3 <= epoch_length (ce_params demo_engine)
  ∧ ∃ producers,
    (∀ i v, producers !! i = Some v →
      Engine.block_producer demo_engine demo_validators (2405 + Z.of_nat i) = Ok v)
    ∧ producers ≡ₚ vs_validators demo_validators
    ∧ producers = [demo_validator 3; demo_validator 1; demo_validator 2].
Proof.
  split_and!; [vm_compute; intuition congruence..|].
  apply (schedule_fair demo_engine demo_validators 2405); vm_compute; intuition congruence.
Defined.

Lemma accepted_headers_accountable_witness :
  let h1 := demo_header (demo_hash 1) in
  let h2 := demo_header (demo_hash 2) in
  Engine.verify_header demo_engine h1 demo_genesis demo_validators = Ok tt
  ∧ Engine.verify_header demo_engine h2 demo_genesis demo_validators = Ok tt
  ∧ signable_bytes h1 ≠ signable_bytes h2
  ∧ Engine.verify_double_sign demo_engine (MkDoubleSignEvidence h1 h2) demo_validators
    = Ok (demo_address 2).
Proof.
  cbv zeta.
  assert (H1 : Engine.verify_header demo_engine (demo_header (demo_hash 1)) demo_genesis
                 demo_validators = Ok tt) by (vm_compute; reflexivity).
  assert (H2 : Engine.verify_header demo_engine (demo_header (demo_hash 2)) demo_genesis
                 demo_validators = Ok tt) by (vm_compute; reflexivity).
  assert (Hd : signable_bytes (demo_header (demo_hash 1))
               ≠ signable_bytes (demo_header (demo_hash 2))) by (vm_compute; discriminate).
  assert (Hn : NoDup (vi_address <$> vs_validators demo_validators))
    by (apply (bool_decide_unpack _); vm_compute; exact I).
  split_and!; [exact H1|exact H2|exact Hd|].
  exact (proj1 (proj2 (proj2 (proj2 (proj2
    (accepted_headers_accountable _ _ _ _ _ H1 H2 Hn)))) Hd)).
Defined.

Lemma reward_arithmetic_witness :
  let c := split_producer_reward (Amount.from_vtt 1000000000) 500 in
  validator_commission c + staker_rewards c = Amount.from_vtt 1000000000
  ∧ is_downtime_violation 612 1200 50 = true
  ∧ is_downtime_violation 611 1200 50 = false.
Proof.
  cbv zeta. split_and!; [|vm_compute; reflexivity..].
  apply (reward_arithmetic (Amount.from_vtt 1000000000) 500 60 612 1200 50);
    vm_compute; intuition congruence.
Defined.
