(* ===== verification/Finality.v ===== *)
(** * Block finality ([crates/vtt-consensus/src/finality.rs])

    The vote tracker each validator runs.  A block is final once more than two
    thirds of the validators voted for its hash. *)

From S2P Require Import Prelude Primitives Codecs.

Record FinalityVote := MkFinalityVote {
  fv_voter : Address;
  fv_block_hash : H256;
  fv_block_number : Z;
}.

Record FinalityTracker := MkFinalityTracker {
  ft_votes : gmap H256 (gset Address);
  ft_block_numbers : gmap H256 Z;
  ft_finalized_number : Z;
  ft_finalized_hash : H256;
  ft_validator_count : Z;
}.

Definition FinalityTracker_eta (t : FinalityTracker) : FinalityTracker :=
  MkFinalityTracker (ft_votes t) (ft_block_numbers t) (ft_finalized_number t)
    (ft_finalized_hash t) (ft_validator_count t).

#[global] Instance upd_ft_votes : Updater ft_votes.
Proof. derive_updater FinalityTracker_eta. Defined.
#[global] Instance upd_ft_block_numbers : Updater ft_block_numbers.
Proof. derive_updater FinalityTracker_eta. Defined.
#[global] Instance upd_ft_finalized_number : Updater ft_finalized_number.
Proof. derive_updater FinalityTracker_eta. Defined.
#[global] Instance upd_ft_finalized_hash : Updater ft_finalized_hash.
Proof. derive_updater FinalityTracker_eta. Defined.
#[global] Instance upd_ft_validator_count : Updater ft_validator_count.
Proof. derive_updater FinalityTracker_eta. Defined.

Module Finality.
Section finality.
Context `{!HashIter}.

Definition new (validator_count : Z) : FinalityTracker :=
  MkFinalityTracker ∅ ∅ 0 H256_ZERO validator_count.

Definition set_validator_count (count : Z) (t : FinalityTracker) : FinalityTracker :=
  t <| ft_validator_count := count |>.

(** [usize] is 64 bits wide. *)
Definition threshold (t : FinalityTracker) : Z :=
  if ft_validator_count t =? 0 then 0
  else wrap 64 (ft_validator_count t * 2) / 3 + 1.

(** One turn of the removal loop. *)
Definition forget (t : FinalityTracker) (hash : H256) : FinalityTracker :=
  let t := t <| ft_votes := delete hash (ft_votes t) |> in
  t <| ft_block_numbers := delete hash (ft_block_numbers t) |>.

Definition cleanup (t : FinalityTracker) : FinalityTracker :=
  let finalized := ft_finalized_number t in
  let to_remove :=
    (filter (λ kv, kv.2 <= finalized) (hash_iter (ft_block_numbers t))).*1 in
  foldl forget t to_remove.

Definition submit_vote (vote : FinalityVote) (t : FinalityTracker) : bool * FinalityTracker :=
  if fv_block_number vote <=? ft_finalized_number t then (false, t)
  else
    let t := t <| ft_block_numbers :=
      <[fv_block_hash vote := fv_block_number vote]> (ft_block_numbers t) |> in
    let voters := {[fv_voter vote]} ∪ default ∅ (ft_votes t !! fv_block_hash vote) in
    let t := t <| ft_votes := <[fv_block_hash vote := voters]> (ft_votes t) |> in
    if threshold t <=? Z.of_nat (size voters) then
      let t := t <| ft_finalized_number := fv_block_number vote |> in
      let t := t <| ft_finalized_hash := fv_block_hash vote |> in
      (true, cleanup t)
    else (false, t).

Definition finalized_number (t : FinalityTracker) : Z := ft_finalized_number t.
Definition finalized_hash (t : FinalityTracker) : H256 := ft_finalized_hash t.

Definition votes_for (t : FinalityTracker) (h : H256) : Z :=
  default 0 ((λ v : gset Address, Z.of_nat (size v)) <$> ft_votes t !! h).

Definition is_finalized (t : FinalityTracker) (n : Z) : bool := n <=? ft_finalized_number t.

(** A node's history: the votes it received, in order. *)
Definition run (t : FinalityTracker) (votes : list FinalityVote) : FinalityTracker :=
  foldl (λ t v, (submit_vote v t).2) t votes.
End finality.
End Finality.

Section tracker.
Context `{!HashIter}.
Implicit Types (t : FinalityTracker) (v : FinalityVote) (votes : list FinalityVote).
Import Finality.

(** ** What [cleanup] removes *)

Definition stale t (h : H256) : Prop :=
  ∃ k, ft_block_numbers t !! h = Some k ∧ k <= ft_finalized_number t.

#[local] Instance stale_dec t h : Decision (stale t h).
Proof.
  unfold stale. destruct (ft_block_numbers t !! h) as [k|]; [|right; naive_solver].
  destruct (decide (k <= ft_finalized_number t)); [left|right]; naive_solver.
Defined.

Lemma remove_all_lookup l t h :
  let t' := foldl forget t l in
  ft_votes t' !! h = (if decide (h ∈ l) then None else ft_votes t !! h)
  ∧ ft_block_numbers t' !! h = (if decide (h ∈ l) then None else ft_block_numbers t !! h)
  ∧ ft_finalized_number t' = ft_finalized_number t
  ∧ ft_finalized_hash t' = ft_finalized_hash t
  ∧ ft_validator_count t' = ft_validator_count t.
Proof.
  revert t. induction l as [|x l IH]; intros t; cbn; [done|].
  destruct (IH (forget t x)) as (Hv & Hb & ? & ? & ?). cbn in *. rewrite Hv, Hb. split_and!; [| |done..].
  - destruct (decide (h = x)) as [->|]; [|rewrite lookup_delete_ne by done].
    + rewrite lookup_delete_eq. repeat case_decide; set_solver.
    + repeat case_decide; set_solver.
  - destruct (decide (h = x)) as [->|]; [|rewrite lookup_delete_ne by done].
    + rewrite lookup_delete_eq. repeat case_decide; set_solver.
    + repeat case_decide; set_solver.
Qed.

Lemma cleanup_lookup t h :
  ft_votes (cleanup t) !! h = (if decide (stale t h) then None else ft_votes t !! h)
  ∧ ft_block_numbers (cleanup t) !! h
    = (if decide (stale t h) then None else ft_block_numbers t !! h)
  ∧ ft_finalized_number (cleanup t) = ft_finalized_number t
  ∧ ft_finalized_hash (cleanup t) = ft_finalized_hash t
  ∧ ft_validator_count (cleanup t) = ft_validator_count t.
Proof.
  unfold cleanup. cbv zeta. set (l := (filter _ _).*1).
  assert (Hl : h ∈ l ↔ stale t h).
  { unfold l, stale. rewrite list_elem_of_fmap. setoid_rewrite list_elem_of_filter.
    setoid_rewrite hash_iter_perm. split.
    - intros ([h' k] & -> & Hk & Hin%elem_of_map_to_list). eauto.
    - intros (k & Hin & Hk). exists (h, k). by rewrite elem_of_map_to_list. }
  destruct (remove_all_lookup l t h) as (-> & -> & Hr). split_and!; [| |apply Hr..].
  - repeat case_decide; tauto.
  - repeat case_decide; tauto.
Qed.

(** ** The invariant of a run *)

Definition voted votes (a : Address) (h : H256) : Prop :=
  ∃ k, MkFinalityVote a h k ∈ votes.

(** [votes] is the history that led to [t]: every recorded voter voted, block
    numbers are those of votes, and the votes for blocks above the finalized
    height are all recorded. *)
Record records votes t : Prop := {
  rc_sound h S a : ft_votes t !! h = Some S → a ∈ S → voted votes a h;
  rc_number h k : ft_block_numbers t !! h = Some k → ∃ a, MkFinalityVote a h k ∈ votes;
  rc_complete h k a :
    ft_finalized_number t < k → MkFinalityVote a h k ∈ votes →
    (∀ b j, MkFinalityVote b h j ∈ votes → j = k) →
    a ∈ default ∅ (ft_votes t !! h);
}.

(** Moreover no quorum is pending, and a finalized block has one. *)
Record tracks votes t : Prop := {
  tk_records : records votes t;
  tk_pending h S : ft_votes t !! h = Some S → Z.of_nat (size S) < threshold t;
  tk_justified :
    ft_finalized_number t ≠ 0 →
    ∃ Q : gset Address, threshold t <= Z.of_nat (size Q)
      ∧ ∀ a, a ∈ Q → voted votes a (ft_finalized_hash t);
}.

Lemma tracks_new n : tracks [] (new n).
Proof. split; [split|..]; cbn; intros; simplify_map_eq; set_solver. Qed.

Lemma voted_snoc votes v a h :
  voted (votes ++ [v]) a h ↔ voted votes a h ∨ (a = fv_voter v ∧ h = fv_block_hash v).
Proof.
  unfold voted. setoid_rewrite elem_of_app. setoid_rewrite list_elem_of_singleton. split.
  - intros (k & [?|<-]); eauto.
  - intros [(k & ?)|[-> ->]]; [eauto|]. exists (fv_block_number v). right. by destruct v.
Qed.

(** The tracker before a possible finalization. *)
Definition counted v t : FinalityTracker :=
  t <| ft_block_numbers := <[fv_block_hash v := fv_block_number v]> (ft_block_numbers t) |>
    <| ft_votes := <[fv_block_hash v :=
         {[fv_voter v]} ∪ default ∅ (ft_votes t !! fv_block_hash v)]> (ft_votes t) |>.

Definition raised v t : FinalityTracker :=
  counted v t <| ft_finalized_number := fv_block_number v |>
    <| ft_finalized_hash := fv_block_hash v |>.

Definition finalized_by v t : FinalityTracker := cleanup (raised v t).

Lemma submit_vote_unfold v t :
  submit_vote v t =
  if fv_block_number v <=? ft_finalized_number t then (false, t)
  else if threshold t <=?
    Z.of_nat (size ({[fv_voter v]} ∪ default ∅ (ft_votes t !! fv_block_hash v) : gset Address))
  then (true, finalized_by v t) else (false, counted v t).
Proof. reflexivity. Qed.

Lemma submit_vote_cases v t :
  let Q := {[fv_voter v]} ∪ default ∅ (ft_votes t !! fv_block_hash v) in
  (fv_block_number v <= ft_finalized_number t ∧ submit_vote v t = (false, t))
  ∨ (ft_finalized_number t < fv_block_number v ∧ threshold t <= Z.of_nat (size Q)
     ∧ submit_vote v t = (true, finalized_by v t))
  ∨ (ft_finalized_number t < fv_block_number v ∧ Z.of_nat (size Q) < threshold t
     ∧ submit_vote v t = (false, counted v t)).
Proof.
  cbv zeta. rewrite submit_vote_unfold.
  destruct (Z.leb_spec (fv_block_number v) (ft_finalized_number t)); [by left|right].
  match goal with |- context [threshold t <=? ?x] =>
    destruct (Z.leb_spec (threshold t) x); [left|right]; done end.
Qed.

Lemma voted_mono votes v a h : voted votes a h → voted (votes ++ [v]) a h.
Proof. rewrite voted_snoc. auto. Qed.

Lemma records_ignored votes v t :
  records votes t → fv_block_number v <= ft_finalized_number t → records (votes ++ [v]) t.
Proof.
  intros [Hs Hn Hc] Hv. split.
  - eauto using voted_mono.
  - intros h k Hk. destruct (Hn h k Hk) as [a ?]. exists a. set_solver.
  - intros h k a Hk Ha Hall. apply elem_of_app in Ha as [Ha|Ha%list_elem_of_singleton].
    + apply (Hc h k); [done..|]. intros b j Hb. apply (Hall b). set_solver.
    + subst v. cbn in *. lia.
Qed.

Lemma records_counted votes v t : records votes t → records (votes ++ [v]) (counted v t).
Proof.
  intros [Hs Hn Hc]. split; cbn.
  - intros h S a. rewrite lookup_insert_Some, voted_snoc. intros [[<- <-]|[Hne HS]] Ha; [|eauto].
    apply elem_of_union in Ha as [->%elem_of_singleton|Ha]; [auto|].
    destruct (ft_votes t !! fv_block_hash v) as [S'|] eqn:ES; cbn in Ha; [eauto|set_solver].
  - intros h k. rewrite lookup_insert_Some. intros [[<- <-]|[_ Hk]].
    + exists (fv_voter v). destruct v; set_solver.
    + destruct (Hn h k Hk) as [a ?]. exists a. set_solver.
  - intros h k a Hk Ha Hall.
    assert (Hold : MkFinalityVote a h k ∈ votes → a ∈ default ∅ (ft_votes t !! h)).
    { intros Ha'. apply (Hc h k); [done..|]. intros b j Hb. apply (Hall b). set_solver. }
    apply elem_of_app in Ha as [Ha|Ha%list_elem_of_singleton].
    + destruct (decide (fv_block_hash v = h)) as [<-|Hne].
      * rewrite lookup_insert_eq. cbn. set_solver.
      * rewrite lookup_insert_ne by done. auto.
    + subst v. cbn. rewrite lookup_insert_eq. cbn. set_solver.
Qed.

Lemma records_finalized votes v t :
  records votes (counted v t) → ft_finalized_number t < fv_block_number v →
  records votes (finalized_by v t).
Proof.
  intros [Hs Hn Hc] Hv. unfold finalized_by.
  assert (Hl := cleanup_lookup (raised v t)). split.
  - intros h S a. destruct (Hl h) as (-> & _). case_decide; [done|]. apply Hs.
  - intros h k. destruct (Hl h) as (_ & -> & _). case_decide; [done|]. apply Hn.
  - intros h k a. destruct (Hl h) as (-> & _ & -> & _). cbn. intros Hk Ha Hall.
    rewrite decide_False; [apply (Hc h k); cbn; [lia|done..]|].
    intros (k' & Hk' & Hle). destruct (Hn h k' Hk') as [b Hb].
    rewrite (Hall b k' Hb) in Hle. cbn in Hle. lia.
Qed.

Lemma finalized_by_fields v t :
  ft_finalized_number (finalized_by v t) = fv_block_number v
  ∧ ft_finalized_hash (finalized_by v t) = fv_block_hash v
  ∧ threshold (finalized_by v t) = threshold t.
Proof.
  unfold finalized_by, threshold.
  destruct (cleanup_lookup (raised v t) H256_ZERO) as (_ & _ & -> & -> & ->). done.
Qed.

Lemma tracks_step votes v t : tracks votes t → tracks (votes ++ [v]) (submit_vote v t).2.
Proof.
  intros [Hr Hp Hj].
  assert (Hj' : ft_finalized_number t ≠ 0 → ∃ Q : gset Address,
    threshold t <= Z.of_nat (size Q) ∧ ∀ a, a ∈ Q → voted (votes ++ [v]) a (ft_finalized_hash t)).
  { intros Hf. destruct (Hj Hf) as (Q & ? & ?). exists Q. eauto using voted_mono. }
  destruct (submit_vote_cases v t) as [[Hn ->]|[(Hn & Hq & ->)|(Hn & Hq & ->)]]; cbn [snd].
  - split; [by apply records_ignored|done..].
  - assert (Hr' := records_counted _ v _ Hr). split.
    + by apply records_finalized.
    + intros h S HS. destruct (finalized_by_fields v t) as (_ & _ & ->).
      unfold finalized_by in HS. destruct (cleanup_lookup (raised v t) h) as (E & _). rewrite E in HS.
      case_decide as Hst; [done|]. cbn in HS. apply lookup_insert_Some in HS as [[<- _]|[_ HS]].
      * destruct Hst. exists (fv_block_number v). cbn. by rewrite lookup_insert_eq.
      * eauto.
    + destruct (finalized_by_fields v t) as (_ & -> & ->). intros _.
      eexists. split; [exact Hq|]. intros a Ha.
      eapply (rc_sound _ _ Hr'); [|exact Ha]. cbn. apply lookup_insert_eq.
  - split; [by apply records_counted| |done].
    intros h S. cbn. rewrite lookup_insert_Some. intros [[<- <-]|[_ HS]]; [done|eauto].
Qed.

Lemma tracks_run n votes : tracks votes (run (new n) votes).
Proof.
  induction votes as [|v votes IH] using rev_ind; [apply tracks_new|].
  unfold run. rewrite foldl_snoc. by apply tracks_step.
Qed.

Lemma run_threshold n votes : threshold (run (new n) votes) = threshold (new n).
Proof.
  induction votes as [|v votes IH] using rev_ind; [done|].
  unfold run. rewrite foldl_snoc. fold (run (new n) votes).
  destruct (submit_vote_cases v (run (new n) votes)) as [[_ ->]|[(_ & _ & ->)|(_ & _ & ->)]];
    cbn [snd]; [done| |done]. by destruct (finalized_by_fields v (run (new n) votes)) as (_ & _ & ->).
Qed.
End tracker.

Lemma quorum_intersection (V Q1 Q2 : gset Address) :
  Q1 ⊆ V → Q2 ⊆ V → (size Q1 + size Q2 <= size V + size (Q1 ∩ Q2))%nat.
Proof.
  intros H1 H2.
  assert (Hu : (size (Q1 ∪ Q2) <= size V)%nat) by (apply subseteq_size; set_solver).
  rewrite size_union_alt in Hu.
  assert (Hq : Q2 = (Q1 ∩ Q2) ∪ (Q2 ∖ Q1)) by (apply set_eq; intros x; destruct (decide (x ∈ Q1)); set_solver).
  assert (size Q2 = (size (Q1 ∩ Q2) + size (Q2 ∖ Q1))%nat); [|lia].
  rewrite Hq at 1. apply size_union. set_solver.
Qed.

Lemma threshold_new n :
  0 < n < 2 ^ 63 → Finality.threshold (Finality.new n) = 2 * n / 3 + 1.
Proof.
  intros Hn. unfold Finality.threshold. cbn.
  rewrite (proj2 (Z.eqb_neq n 0)) by lia.
  rewrite wrap_small by (unfold in_width; lia). by rewrite Z.mul_comm.
Qed.

(** C8: Accountable safety.  Two nodes that run the tracker for the same
    validators, on any votes received in any order, and that both finalized a
    block: more than a third of the validators voted for both blocks.  So if the
    two blocks are different, more than a third of the validators signed
    conflicting votes; with at most a third faulty, no two nodes finalize
    different blocks of the same height. *)
Theorem finality_accountable_safety (I1 I2 : HashIter) (V : gset Address) votes1 votes2 :
  let n := Z.of_nat (size V) in
  let t1 := @Finality.run I1 (Finality.new n) votes1 in
  let t2 := @Finality.run I2 (Finality.new n) votes2 in
  0 < n < 2 ^ 63 →
  (∀ v, v ∈ votes1 ++ votes2 → fv_voter v ∈ V) →
  Finality.finalized_number t1 ≠ 0 → Finality.finalized_number t2 ≠ 0 →
  ∃ D : gset Address, D ⊆ V ∧ n < 3 * Z.of_nat (size D)
    ∧ ∀ a, a ∈ D → voted votes1 a (Finality.finalized_hash t1)
                   ∧ voted votes2 a (Finality.finalized_hash t2).
Proof.
  cbv zeta. intros Hn HV Hf1 Hf2.
  destruct (tk_justified _ _ (@tracks_run I1 (Z.of_nat (size V)) votes1) Hf1) as (Q1 & Hq1 & HQ1).
  destruct (tk_justified _ _ (@tracks_run I2 (Z.of_nat (size V)) votes2) Hf2) as (Q2 & Hq2 & HQ2).
  rewrite run_threshold, threshold_new in Hq1 by done.
  rewrite run_threshold, threshold_new in Hq2 by done.
  assert (Q1 ⊆ V) by (intros a (k & Ha)%HQ1; apply (HV _ (proj2 (elem_of_app _ _ _) (or_introl Ha)))).
  assert (Q2 ⊆ V) by (intros a (k & Ha)%HQ2; apply (HV _ (proj2 (elem_of_app _ _ _) (or_intror Ha)))).
  exists (Q1 ∩ Q2). split_and!; [set_solver| |set_solver].
  pose proof (quorum_intersection V Q1 Q2 ltac:(done) ltac:(done)).
  pose proof (Z.div_mod (2 * Z.of_nat (size V)) 3 ltac:(done)).
  pose proof (Z.mod_pos_bound (2 * Z.of_nat (size V)) 3 ltac:(done)). lia.
Qed.

(** A quorum finalizes.  Once more than two thirds of the validators have
    voted for a block, in any order and interleaved with any other votes, and all
    votes for that block name its height, the tracker has finalized that height
    or a later one. *)
Theorem quorum_finalizes (I : HashIter) n votes h k (Q : gset Address) :
  0 < n < 2 ^ 63 →
  (∀ a, a ∈ Q → MkFinalityVote a h k ∈ votes) →
  (∀ a j, MkFinalityVote a h j ∈ votes → j = k) →
  2 * n < 3 * Z.of_nat (size Q) →
  Finality.is_finalized (Finality.run (Finality.new n) votes) k = true.
Proof.
  intros Hn HQ Hk Hq. unfold Finality.is_finalized. apply Z.leb_le, Z.nlt_ge. intros Hlt.
  destruct (tracks_run n votes) as [Hr Hp _].
  assert (Hsub : Q ⊆ default ∅ (ft_votes (Finality.run (Finality.new n) votes) !! h)).
  { intros a Ha. apply (rc_complete _ _ Hr h k); auto. }
  destruct (ft_votes _ !! h) as [S|] eqn:ES; cbn in Hsub.
  - specialize (Hp _ _ ES). rewrite run_threshold, threshold_new in Hp by done.
    apply subseteq_size in Hsub.
    pose proof (Z.mul_div_le (2 * n) 3 ltac:(done)).
    pose proof (Z.div_mod (2 * n) 3 ltac:(done)).
    pose proof (Z.mod_pos_bound (2 * n) 3 ltac:(done)). lia.
  - apply subseteq_size in Hsub. rewrite size_empty in Hsub. lia.
Qed.

(** ** A run *)

#[local] Existing Instance key_order_iter.

Definition demo_vote (voter block number : Z) : FinalityVote :=
  MkFinalityVote (demo_address voter) (demo_hash block) number.

Definition demo_voters : gset Address := {[demo_address 1; demo_address 2; demo_address 3;
  demo_address 4]}.

Lemma finality_accountable_safety_witness :
  let v1 := [demo_vote 1 7 5; demo_vote 2 7 5; demo_vote 3 7 5] in
  let v2 := [demo_vote 2 8 5; demo_vote 3 8 5; demo_vote 4 8 5] in
  ∃ D : gset Address, D ⊆ demo_voters ∧ 4 < 3 * Z.of_nat (size D)
    ∧ ∀ a, a ∈ D → voted v1 a (demo_hash 7) ∧ voted v2 a (demo_hash 8).
Proof.
  pose proof (finality_accountable_safety _ _ demo_voters
    [demo_vote 1 7 5; demo_vote 2 7 5; demo_vote 3 7 5]
    [demo_vote 2 8 5; demo_vote 3 8 5; demo_vote 4 8 5]) as Hs. cbv zeta in Hs |- *.
  replace (Z.of_nat (size demo_voters)) with 4 in Hs by (vm_compute; reflexivity).
  replace (Finality.finalized_hash (Finality.run _ [demo_vote 1 7 5; _; _]))
    with (demo_hash 7) in Hs by (vm_compute; reflexivity).
  replace (Finality.finalized_hash (Finality.run _ [demo_vote 2 8 5; _; _]))
    with (demo_hash 8) in Hs by (vm_compute; reflexivity).
  apply Hs.
  - vm_compute. intuition congruence.
  - apply (Forall_forall (λ v, fv_voter v ∈ demo_voters)).
    apply (bool_decide_unpack _). vm_compute. exact I.
  - vm_compute. congruence.
  - vm_compute. congruence.
Defined.

Lemma quorum_finalizes_witness :
  Finality.is_finalized (Finality.run (Finality.new 4)
    [demo_vote 1 7 5; demo_vote 2 9 6; demo_vote 2 7 5; demo_vote 3 7 5]) 5 = true.
Proof.
  apply (quorum_finalizes _ 4 _ (demo_hash 7) 5
    {[demo_address 1; demo_address 2; demo_address 3]}).
  - lia.
  - intros a. rewrite !elem_of_union, !elem_of_singleton.
    intros [[->| ->]| ->]; repeat constructor.
  - intros a j Hin. repeat (apply elem_of_cons in Hin as [Hin|Hin];
      [unfold demo_vote in Hin; simplify_eq; done|]). by apply elem_of_nil in Hin.
  - vm_compute. congruence.
Defined.

(** The height a block is finalized at is the one named by the vote that
    completes the quorum: nothing compares it with the other votes for the same
    hash.  Here three validators of four vote for block 5, the last of them
    claiming height [u64::MAX]; the tracker finalizes that height and from then on
    ignores every vote, so a single validator can stop finality for good. *)
Theorem last_voter_sets_height :
  let t := Finality.run (Finality.new 4)
             [demo_vote 1 7 5; demo_vote 2 7 5; demo_vote 3 7 (umax 64)] in
  Finality.finalized_number t = umax 64
  ∧ ∀ votes, (∀ v, v ∈ votes → in_width 64 (fv_block_number v)) →
             Finality.run t votes = t.
Proof.
  cbv zeta. set (t := Finality.run _ _).
  assert (Ht : ft_finalized_number t = umax 64) by (vm_compute; reflexivity).
  clearbody t. split; [done|]. induction votes as [|v votes IH]; intros Hw; [done|].
  unfold Finality.run. cbn [foldl]. rewrite submit_vote_unfold.
  assert (Hv : in_width 64 (fv_block_number v)) by (apply Hw; set_solver).
  rewrite (proj2 (Z.leb_le _ _)) by (rewrite Ht; unfold in_width, umax in *; lia). cbn [snd].
  apply IH. intros w Hin. apply Hw. set_solver.
Qed.
