(* ===== verification/ExecStaking.v ===== *)
(** * Executing staking transactions ([crates/vtt-executor/src/lib.rs])

    The handlers of [Stake], [Unstake] and [SubmitSlashingEvidence], and the
    distribution of the producer reward among a validator and its delegators. *)

From S2P Require Import Prelude Primitives Storage Assets Oracle StateDB Dex Codecs.
From S2P Require Import Ledger Staking Consensus.

Inductive ExecutionError :=
  | ExInvalidSignature
  | ExNonceMismatch (expected got : Z)
  | InsufficientGas (have need : Amount)
  | ExInsufficientBalance (have need : Amount)
  | GasLimitExceeded
  | ExState (e : StateError)
  | ContractNotSupported
  | StakeBelowMinimum (have need : Amount)
  | UnstakeExceedsStake (staked requested : Amount)
  | ContractTooLarge (size max : Z)
  | BridgePaused
  | AssetNotFound
  | NotIssuer
  | Custom (msg : string).

Definition DEFAULT_UNBONDING_PERIOD_SECS : Z := 21 * 24 * 3600.

Module Exec.
Section staking.
Context `{!Env}.

Definition overflow : ExecutionError := ExState (Serialization "overflow").

(** The delegation branch of [execute_stake]: [iter_mut().find] updates the
    first entry of the sender in place. *)
Definition add_delegation (sender : Address) (amount : Amount) (ds : list Delegation)
    : res ExecutionError (list Delegation) :=
  match list_find (λ d, dg_delegator d = sender) ds with
  | Some (i, d) =>
      total ← ok_or overflow (checked_add 128 (dg_amount d) amount);
      Ok (<[i := MkDelegation (dg_delegator d) total]> ds)
  | None => Ok (ds ++ [MkDelegation sender amount])
  end.

(** The validator's books after a stake. *)
Definition credit_stake (sender validator : Address) (amount : Amount) (staking : StakingState)
    : res ExecutionError StakingState :=
  staking ←
    (if decide (sender = validator) then
       self' ← ok_or overflow (checked_add 128 (sk_self_stake staking) amount);
       Ok (staking <| sk_self_stake := self' |>)
     else
       _ ← guard_err (Amount.is_zero (sk_self_stake staking))
             (Custom "cannot delegate to an address with no self-stake");
       ds ← add_delegation sender amount (sk_delegations staking);
       Ok (staking <| sk_delegations := ds |>));
  total' ← ok_or overflow (checked_add 128 (sk_total_stake staking) amount);
  Ok (staking <| sk_total_stake := total' |>).

Definition execute_stake (sender validator : Address) (amount : Amount)
    : M StateDB ExecutionError unit :=
  _ ← map_err ExState (State.sub_balance sender amount);
  val_account ← gets (λ s, State.get_account s validator);
  let staking := default StakingState_default (ac_staking val_account) in
  staking ← lift (credit_stake sender validator amount staking);
  modify (State.put_account validator (val_account <| ac_staking := Some staking |>)).

(** The undelegation branch of [execute_unstake]; [Amount]'s [-] panics. *)
Definition remove_delegation (sender : Address) (amount : Amount) (ds : list Delegation)
    : res ExecutionError (list Delegation) :=
  '(i, d) ← ok_or (UnstakeExceedsStake 0 amount) (list_find (λ d, dg_delegator d = sender) ds);
  _ ← guard_err (dg_amount d <? amount) (UnstakeExceedsStake (dg_amount d) amount);
  left ← Amount.sub (dg_amount d) amount;
  Ok (filter (λ d, Amount.is_zero (dg_amount d) = false)
        (<[i := MkDelegation (dg_delegator d) left]> ds)).

(** The validator's books after an unstake. *)
Definition debit_stake (sender validator : Address) (amount : Amount) (staking : StakingState)
    : res ExecutionError StakingState :=
  staking ←
    (if decide (sender = validator) then
       _ ← guard_err (sk_self_stake staking <? amount)
             (UnstakeExceedsStake (sk_self_stake staking) amount);
       self' ← Amount.sub (sk_self_stake staking) amount;
       Ok (staking <| sk_self_stake := self' |>)
     else
       ds ← remove_delegation sender amount (sk_delegations staking);
       Ok (staking <| sk_delegations := ds |>));
  total' ← Amount.sub (sk_total_stake staking) amount;
  Ok (staking <| sk_total_stake := total' |>).

Definition execute_unstake (sender validator : Address) (amount : Amount)
    (block_timestamp : Z) : M StateDB ExecutionError unit :=
  val_account ← gets (λ s, State.get_account s validator);
  let staking := default StakingState_default (ac_staking val_account) in
  staking ← lift (debit_stake sender validator amount staking);
  _ ← modify (State.put_account validator (val_account <| ac_staking := Some staking |>));
  completion_time ← gets (λ s, wrap 64 (block_timestamp
    + State.effective_unbonding_period_ms s DEFAULT_UNBONDING_PERIOD_SECS));
  modify (State.add_unbonding_entry sender
    {| ub_amount := amount; ub_completion_time := completion_time; ub_validator := validator |}).

(** The 32-byte log topic that carries an address. *)
Definition address_topic (a : Address) : H256 := MkH256 (address_bytes a +:+ zeros 12).

Definition execute_submit_slashing_evidence
    `{!Borsh BlockHeader, !Borsh DoubleSignEvidence, !Borsh (Address * Amount * Z * Z)}
    (sender : Address) (evidence_bytes : bytes) (block_number : Z)
    : M StateDB ExecutionError (list Log) :=
  evidence ← lift (ok_or (Custom "malformed slashing evidence")
                     (from_slice (A:=DoubleSignEvidence) evidence_bytes));
  _ ← fail_if (negb (Evidence.is_valid evidence)) (Custom "invalid slashing evidence");
  let offender := Evidence.offender evidence in
  let epoch := bh_epoch (header_a evidence) in
  let slot := bh_slot (header_a evidence) in
  seen ← gets (λ s, State.slashing_evidence_seen s offender epoch slot);
  _ ← fail_if seen (Custom "slashing evidence already processed");
  account ← gets (λ s, State.get_account s offender);
  let total_stake := default 0 (sk_total_stake <$> ac_staking account) in
  _ ← fail_if (Amount.is_zero total_stake) (Custom "offender has no stake to slash");
  let slash_amount := calculate_double_sign_slash total_stake 500 in
  actual ← State.apply_slash offender slash_amount;
  _ ← modify (State.record_slash offender epoch "double_sign" actual);
  _ ← modify (State.mark_slashing_evidence offender epoch slot);
  mret [{| log_address := sender;
           log_topics := [blake3_hash "SlashValidator"; address_topic offender];
           log_data := to_vec (offender, actual, epoch, block_number) |}].

(** The in-block path, over all evidence found; [slashed] accumulates. *)
Fixpoint process_slashing_evidence `{!Borsh BlockHeader} {E}
    (evidence : list DoubleSignEvidence) (double_sign_slash_bps current_epoch : Z)
    : M StateDB E (list (Address * Amount)) :=
  match evidence with
  | [] => mret []
  | ev :: evidence =>
      let next := process_slashing_evidence evidence double_sign_slash_bps current_epoch in
      if negb (Evidence.is_valid ev) then next
      else
        let offender := Evidence.offender ev in
        let ev_epoch := bh_epoch (header_a ev) in
        let ev_slot := bh_slot (header_a ev) in
        seen ← gets (λ s, State.slashing_evidence_seen s offender ev_epoch ev_slot);
        if (seen : bool) then next
        else
          account ← gets (λ s, State.get_account s offender);
          let total_stake := default 0 (sk_total_stake <$> ac_staking account) in
          if Amount.is_zero total_stake then next
          else
            let slash_amount := calculate_double_sign_slash total_stake double_sign_slash_bps in
            actual ← State.apply_slash offender slash_amount;
            if negb (Amount.is_zero actual) then
              _ ← modify (State.record_slash offender current_epoch "double_sign" actual);
              _ ← modify (State.mark_slashing_evidence offender ev_epoch ev_slot);
              slashed ← next;
              mret ((offender, actual) :: slashed)
            else next
  end.

(** ** Rewards *)

(** [amount.saturating_mul(pool).checked_div(total).unwrap_or(0)] *)
Definition staker_share (amount pool total : Z) : Z :=
  default 0 (checked_div (saturating_mul 128 amount pool) total).

(** The loop over the delegations. *)
Fixpoint pay_delegators {E} (pool total : Z) (ds : list Delegation) (distributed : Z)
    : M StateDB E Z :=
  match ds with
  | [] => mret distributed
  | d :: ds =>
      let share := staker_share (dg_amount d) pool total in
      if share =? 0 then pay_delegators pool total ds distributed
      else
        _ ← ignore_err (State.add_balance (dg_delegator d) share);
        pay_delegators pool total ds (saturating_add 128 distributed share)
  end.

Definition distribute_producer_reward {E} (validator : Address) (producer_reward : Amount)
    : M StateDB E unit :=
  if producer_reward =? 0 then mret tt
  else
    account ← gets (λ s, State.get_account s validator);
    match ac_staking account with
    | Some staking =>
        if 0 <? sk_total_stake staking then
          let split := split_producer_reward producer_reward (sk_commission_bps staking) in
          _ ← (if 0 <? validator_commission split
               then ignore_err (State.add_balance validator (validator_commission split))
               else mret tt);
          let total_stake := sk_total_stake staking in
          let stakers_pool := staker_rewards split in
          if (stakers_pool =? 0) || (total_stake =? 0) then mret tt
          else
            let self_share := staker_share (sk_self_stake staking) stakers_pool total_stake in
            _ ← (if 0 <? self_share
                 then ignore_err (State.add_balance validator self_share) else mret tt);
            distributed ← pay_delegators stakers_pool total_stake (sk_delegations staking)
                            self_share;
            if distributed <? stakers_pool
            then ignore_err (State.add_balance validator (stakers_pool - distributed))
            else mret tt
        else ignore_err (State.add_balance validator producer_reward)
    | None => ignore_err (State.add_balance validator producer_reward)
    end.
End staking.
End Exec.

(** ** Delegation lists *)

Section delegations.
Implicit Types (ds : list Delegation) (a sender : Address).

Definition delegated ds : Z := list_sumZ dg_amount ds.

(** What [a] has delegated. *)
Definition delegated_by a ds : Z :=
  list_sumZ (λ d, if decide (dg_delegator d = a) then dg_amount d else 0) ds.

Record delegations_ok ds : Prop := {
  do_nonneg d : d ∈ ds → 0 <= dg_amount d;
  do_unique : NoDup (dg_delegator <$> ds);
}.

Lemma list_sumZ_insert {A} (f : A → Z) l i x y :
  l !! i = Some x → list_sumZ f (<[i := y]> l) = list_sumZ f l - f x + f y.
Proof.
  intros Hi. rewrite <- (take_drop_middle l i x Hi) at 2. rewrite insert_take_drop.
  2: by eapply lookup_lt_Some. rewrite !list_sumZ_app. cbn. lia.
Qed.

Lemma delegated_by_absent a ds :
  list_find (λ d, dg_delegator d = a) ds = None → delegated_by a ds = 0.
Proof.
  rewrite list_find_None, Forall_forall. intros Ha. unfold delegated_by.
  rewrite (list_sumZ_ext _ (λ _, 0)).
  - induction ds; cbn; [done|]. rewrite IHds; [done|]. intros x Hx. apply Ha. by right.
  - intros d Hd. by rewrite decide_False by (by apply Ha).
Qed.

Lemma delegated_by_found a ds i d :
  NoDup (dg_delegator <$> ds) → ds !! i = Some d → dg_delegator d = a →
  delegated_by a ds = dg_amount d.
Proof.
  intros Hnd Hi Ha. unfold delegated_by.
  revert i Hi. induction ds as [|e ds IH]; intros [|i] Hi; cbn in *; simplify_eq.
  - rewrite decide_True by done. apply NoDup_cons in Hnd as [Hd _].
    assert (delegated_by (dg_delegator d) ds = 0); [|unfold delegated_by in *; lia].
    apply delegated_by_absent, list_find_None, Forall_forall. intros e He Heq.
    apply Hd. rewrite <- Heq. by apply list_elem_of_fmap_2.
  - apply NoDup_cons in Hnd as [Hd Hnd]. rewrite decide_False, (IH Hnd i Hi); [done|].
    intros Heq. apply Hd. rewrite Heq. apply list_elem_of_fmap_2. by eapply list_elem_of_lookup_2.
Qed.

(** Replacing the sender's entry. *)
Lemma set_delegation ds i d v :
  delegations_ok ds → ds !! i = Some d → 0 <= v →
  let ds' := <[i := MkDelegation (dg_delegator d) v]> ds in
  delegations_ok ds' ∧ delegated ds' = delegated ds - dg_amount d + v
  ∧ ∀ a, delegated_by a ds' =
         delegated_by a ds + (if decide (a = dg_delegator d) then v - dg_amount d else 0).
Proof.
  intros [Hn Hu] Hi Hv. cbv zeta. split_and!.
  - split.
    + intros e He. apply list_elem_of_lookup in He as [j Hj].
      apply list_lookup_insert_Some in Hj as [(_ & <- & _)|[_ Hj]]; [done|].
      eapply Hn, list_elem_of_lookup_2, Hj.
    + rewrite list_fmap_insert. cbn. rewrite list_insert_id; [done|].
      by rewrite list_lookup_fmap, Hi.
  - unfold delegated. by erewrite list_sumZ_insert.
  - intros a. unfold delegated_by. erewrite list_sumZ_insert by done. cbn.
    repeat case_decide; try congruence; lia.
Qed.

Lemma add_delegation_spec sender amount ds :
  delegations_ok ds → 0 <= amount →
  match Exec.add_delegation sender amount ds with
  | Ok ds' =>
      delegations_ok ds' ∧ delegated ds' = delegated ds + amount
      ∧ ∀ a, delegated_by a ds' =
             delegated_by a ds + (if decide (a = sender) then amount else 0)
  | Err e => e = Exec.overflow ∧ 2 ^ 128 <= delegated_by sender ds + amount
  | Panic => False
  end.
Proof.
  intros Hok Ha. unfold Exec.add_delegation.
  destruct (list_find _ ds) as [[i d]|] eqn:Hf.
  - apply list_find_Some in Hf as (Hi & <- & _). unfold checked_add.
    destruct (Z.ltb_spec (dg_amount d + amount) (2 ^ 128)); cbn [ok_or].
    + mrun. pose proof (do_nonneg _ Hok d (list_elem_of_lookup_2 _ _ _ Hi)).
      destruct (set_delegation ds i d (dg_amount d + amount)) as (? & Hs & Hb); [done..|lia|].
      split_and!; [done|rewrite Hs; lia|]. intros a. rewrite Hb. case_decide; lia.
    + cbn. split; [done|]. by erewrite delegated_by_found by (try done; apply Hok).
  - apply delegated_by_absent in Hf as H0. apply list_find_None in Hf. rewrite Forall_forall in Hf.
    destruct Hok as [Hn Hu]. split_and!.
    + split.
      * intros d [Hd|Hd%list_elem_of_singleton]%elem_of_app; [auto|by subst].
      * rewrite fmap_app. apply NoDup_app. split_and!; [done| |apply NoDup_singleton].
        intros b Hb Hs%list_elem_of_singleton. cbn in Hs. subst b.
        apply list_elem_of_fmap in Hb as (d & -> & Hd). by apply (Hf d).
    + unfold delegated. rewrite list_sumZ_app. cbn. lia.
    + intros a. unfold delegated_by. rewrite list_sumZ_app. cbn. repeat case_decide; congruence || lia.
Qed.

Lemma drop_empty_delegations ds :
  delegations_ok ds →
  let ds' := filter (λ d, Amount.is_zero (dg_amount d) = false) ds in
  delegations_ok ds' ∧ delegated ds' = delegated ds
  ∧ ∀ a, delegated_by a ds' = delegated_by a ds.
Proof.
  intros [Hn Hu]. cbv zeta.
  assert (Hz : ∀ f, (∀ d, dg_amount d = 0 → f d = 0) →
    list_sumZ f (filter (λ d, Amount.is_zero (dg_amount d) = false) ds) = list_sumZ f ds).
  { intros f Hf. clear Hn Hu. induction ds as [|d ds IH]; [done|]. rewrite filter_cons.
    unfold Amount.is_zero. destruct (Z.eqb_spec (dg_amount d) 0) as [E|E]; cbn.
    - rewrite decide_False by done. rewrite (Hf d E). exact IH.
    - rewrite decide_True by done. cbn. f_equal. exact IH. }
  split_and!.
  - split.
    + intros d [_ Hd]%list_elem_of_filter. auto.
    + clear Hn Hz. induction ds as [|d ds IH]; [done|]. rewrite filter_cons.
      cbn in Hu. apply NoDup_cons in Hu as [Hd Hu]. case_decide; [|auto]. cbn.
      apply NoDup_cons. split; [|auto]. intros (e & He & [_ Hin]%list_elem_of_filter)%list_elem_of_fmap.
      apply Hd. rewrite He. by apply list_elem_of_fmap_2.
  - unfold delegated. apply Hz. done.
  - intros a. unfold delegated_by. apply Hz. intros d ->. by case_decide.
Qed.

Lemma delegated_by_nonneg a ds : delegations_ok ds → 0 <= delegated_by a ds.
Proof.
  intros [Hn _]. apply list_sumZ_nonneg. intros d Hd. case_decide; [auto|lia].
Qed.

Lemma delegated_by_le a ds : delegations_ok ds → delegated_by a ds <= delegated ds.
Proof.
  intros [Hn _]. apply list_sumZ_le. intros d Hd. specialize (Hn d Hd). case_decide; lia.
Qed.

Lemma remove_delegation_spec sender amount ds :
  delegations_ok ds → 0 <= amount →
  match Exec.remove_delegation sender amount ds with
  | Ok ds' =>
      amount <= delegated_by sender ds
      ∧ delegations_ok ds' ∧ delegated ds' = delegated ds - amount
      ∧ ∀ a, delegated_by a ds' =
             delegated_by a ds - (if decide (a = sender) then amount else 0)
  | Err e => e = UnstakeExceedsStake (delegated_by sender ds) amount
             ∧ (delegated_by sender ds < amount ∨ delegated_by sender ds = 0)
  | Panic => False
  end.
Proof.
  intros Hok Ha. unfold Exec.remove_delegation.
  destruct (list_find _ ds) as [[i d]|] eqn:Hf; cbn [ok_or].
  - apply list_find_Some in Hf as (Hi & <- & _).
    assert (Hd : delegated_by (dg_delegator d) ds = dg_amount d)
      by (eapply delegated_by_found; [apply Hok|exact Hi|done]).
    rewrite Hd. mrun. unfold guard_err.
    destruct (Z.ltb_spec (dg_amount d) amount); [auto|].
    rewrite amount_sub_Ok by done.
    destruct (set_delegation ds i d (dg_amount d - amount)) as (Hok' & Hs & Hb); [done..|lia|].
    destruct (drop_empty_delegations _ Hok') as (? & Hs' & Hb').
    split_and!; [done|done|rewrite Hs', Hs; lia|].
    intros a. rewrite Hb', Hb. case_decide; lia.
  - mrun. rewrite (delegated_by_absent _ _ Hf). auto.
Qed.
End delegations.

(** ** Staking and unstaking *)

(** A validator whose books balance: its total stake is its self-stake plus
    what is delegated to it. *)
Record stake_ok (st : StakingState) : Prop := {
  so_self : 0 <= sk_self_stake st;
  so_delegations : delegations_ok (sk_delegations st);
  so_total : sk_total_stake st = sk_self_stake st + delegated (sk_delegations st);
  so_width : sk_total_stake st < 2 ^ 128;
}.

(** What [a] has at stake with [v]. *)
Definition stake_of (v a : Address) (st : StakingState) : Z :=
  if decide (a = v) then sk_self_stake st else delegated_by a (sk_delegations st).

Section stake.
Context `{!Env}.
Implicit Types (s : StateDB) (sender v a : Address).

Definition staking_at s v : StakingState :=
  default StakingState_default (ac_staking (State.get_account s v)).

Lemma staking_at_put v acc s a :
  staking_at (State.put_account v acc s) a =
    if decide (v = a) then default StakingState_default (ac_staking acc) else staking_at s a.
Proof. unfold staking_at. rewrite get_account_put. by case_decide. Qed.

Lemma get_account_add_unbonding s b e a :
  State.get_account (State.add_unbonding_entry b e s) a = State.get_account s a.
Proof.
  unfold State.add_unbonding_entry, State.persist_unbonding_entries.
  rewrite get_account_persist by done. by apply get_account_frame.
Qed.

Lemma get_unbonding_add s b e v acc a :
  State.get_unbonding_entries (State.add_unbonding_entry b e (State.put_account v acc s)) a
  = State.get_unbonding_entries s a ++ (if decide (a = b) then [e] else []).
Proof.
  assert (Hp : db_unbonding_entries (State.put_account v acc s) = db_unbonding_entries s)
    by (by rewrite put_account_unfold).
  unfold State.add_unbonding_entry, State.persist_unbonding_entries.
  rewrite persist_unfold. unfold State.get_unbonding_entries. cbn [db_unbonding_entries upd
    upd_db_unbonding_entries upd_db_storage]. rewrite Hp. case_decide; subst.
  - by rewrite lookup_insert_eq.
  - by rewrite lookup_insert_ne, app_nil_r by done.
Qed.

Lemma effective_period_put_account v acc s n :
  State.effective_unbonding_period_ms (State.put_account v acc s) n
  = State.effective_unbonding_period_ms s n.
Proof.
  unfold State.effective_unbonding_period_ms, State.get_unbonding_period_secs_override,
    State.get_param_le, State.get_param_raw. 
  rewrite put_account_disk_other; [done|intros Hk; vm_compute in Hk; discriminate|congruence].
Qed.

Lemma credit_stake_spec sender v amount st :
  stake_ok st → 0 <= amount →
  match Exec.credit_stake sender v amount st with
  | Ok st' =>
      stake_ok st' ∧ sk_total_stake st' = sk_total_stake st + amount
      ∧ ∀ a, stake_of v a st' = stake_of v a st + (if decide (a = sender) then amount else 0)
  | Err e =>
      sender ≠ v ∧ sk_self_stake st = 0 ∨ 2 ^ 128 <= sk_total_stake st + amount
  | Panic => False
  end.
Proof.
  intros [Hs Hd Ht Hw] Ha. unfold Exec.credit_stake, stake_of, Amount.is_zero, guard_err, checked_add.
  pose proof (delegated_by_le sender _ Hd). pose proof (delegated_by_nonneg sender _ Hd).
  assert (0 <= delegated (sk_delegations st)) by lia. mrun.
  destruct (decide (sender = v)) as [->|Hne].
  - destruct (Z.ltb_spec (sk_self_stake st + amount) (2 ^ 128)); [|right; lia].
    change (sk_total_stake (st <| sk_self_stake := _ |>)) with (sk_total_stake st).
    destruct (Z.ltb_spec (sk_total_stake st + amount) (2 ^ 128)); [|right; lia].
    split_and!; [|done|].
    + split; cbn -[Z.pow delegated delegated_by]; [lia|done|lia|lia].
    + intros a. cbn -[Z.pow delegated delegated_by]. case_decide; lia.
  - destruct (Z.eqb_spec (sk_self_stake st) 0); [by left|].
    pose proof (add_delegation_spec sender amount _ Hd Ha) as Hadd.
    destruct (Exec.add_delegation _ _ _) as [ds'| |]; [|right; lia|done].
    change (sk_total_stake (st <| sk_delegations := _ |>)) with (sk_total_stake st).
    destruct (Z.ltb_spec (sk_total_stake st + amount) (2 ^ 128)); [|right; lia].
    destruct Hadd as (Hok' & Hsum & Hby). split_and!; [|done|].
    + split; cbn -[Z.pow delegated delegated_by]; [lia|done|lia|lia].
    + intros a. cbn -[Z.pow delegated delegated_by]. rewrite Hby. repeat case_decide; congruence || lia.
Qed.

Lemma debit_stake_spec sender v amount st :
  stake_ok st → 0 <= amount →
  match Exec.debit_stake sender v amount st with
  | Ok st' =>
      amount <= stake_of v sender st
      ∧ stake_ok st' ∧ sk_total_stake st' = sk_total_stake st - amount
      ∧ ∀ a, stake_of v a st' = stake_of v a st - (if decide (a = sender) then amount else 0)
  | Err e => e = UnstakeExceedsStake (stake_of v sender st) amount
             ∧ (stake_of v sender st < amount ∨ sender ≠ v ∧ stake_of v sender st = 0)
  | Panic => False
  end.
Proof.
  intros [Hs Hd Ht Hw] Ha. unfold Exec.debit_stake, stake_of, guard_err.
  pose proof (delegated_by_le sender _ Hd). pose proof (delegated_by_nonneg sender _ Hd).
  mrun.
  destruct (decide (sender = v)) as [->|Hne].
  - destruct (Z.ltb_spec (sk_self_stake st) amount); [auto|].
    rewrite amount_sub_Ok by done.
    change (sk_total_stake (st <| sk_self_stake := _ |>)) with (sk_total_stake st).
    rewrite amount_sub_Ok by lia. split_and!; [done| |done|].
    + split; cbn -[Z.pow delegated delegated_by]; [lia|done|lia|lia].
    + intros a. cbn -[Z.pow delegated delegated_by]. case_decide; lia.
  - pose proof (remove_delegation_spec sender amount _ Hd Ha) as Hrem.
    destruct (Exec.remove_delegation _ _ _) as [ds'|e|]; [|naive_solver|done].
    destruct Hrem as (Hle & Hok' & Hsum & Hby).
    change (sk_total_stake (st <| sk_delegations := _ |>)) with (sk_total_stake st).
    rewrite amount_sub_Ok by lia. split_and!; [done| |done|].
    + split; cbn -[Z.pow delegated delegated_by]; [lia|done|lia|lia].
    + intros a. cbn -[Z.pow delegated delegated_by]. rewrite Hby. repeat case_decide; congruence || lia.
Qed.

(** C29: Staking moves exactly the amount from the sender's balance into the
    validator's books.  On success the sender's stake with this validator and the
    validator's total grow by the amount, the sender's balance shrinks by it, no
    other stake, balance or staking record changes, and the books still balance.
    It fails only for a short balance, a delegation to an address that never
    self-staked, or an overflow of the total; it never panics. *)
Theorem stake_exact s sender v amount :
  balances_ok s → 0 <= amount → stake_ok (staking_at s v) →
  match Exec.execute_stake sender v amount s with
  | (Ok _, s') =>
      amount <= State.get_balance s sender ∧ stake_ok (staking_at s' v)
      ∧ sk_total_stake (staking_at s' v) = sk_total_stake (staking_at s v) + amount
      ∧ (∀ a, stake_of v a (staking_at s' v)
              = stake_of v a (staking_at s v) + (if decide (a = sender) then amount else 0))
      ∧ (∀ a, State.get_balance s' a
              = State.get_balance s a - (if decide (a = sender) then amount else 0))
      ∧ (∀ a, a ≠ v → staking_at s' a = staking_at s a)
  | (Err _, _) =>
      State.get_balance s sender < amount
      ∨ sender ≠ v ∧ sk_self_stake (staking_at s v) = 0
      ∨ 2 ^ 128 <= sk_total_stake (staking_at s v) + amount
  | (Panic, _) => False
  end.
Proof.
  intros Hb Ha Hok. unfold Exec.execute_stake. mrun. rewrite sub_balance_spec.
  destruct (Z.leb_spec amount (State.get_balance s sender)) as [Hle|]; [|by left].
  set (s1 := State.put_account sender _ s).
  assert (Hst : ∀ a, staking_at s1 a = staking_at s a).
  { intros a. unfold s1. rewrite staking_at_put. case_decide; [subst|]; done. }
  assert (Hbal : ∀ a, State.get_balance s1 a
    = State.get_balance s a - (if decide (a = sender) then amount else 0)).
  { intros a. unfold s1. rewrite get_balance_put. cbn. repeat case_decide; congruence || lia. }
  clearbody s1. fold (staking_at s1 v). rewrite Hst.
  pose proof (credit_stake_spec sender v amount _ Hok Ha) as Hc.
  destruct (Exec.credit_stake _ _ _ _) as [st'| |]; [|by right|done].
  destruct Hc as (Hok' & Htot & Hof). rewrite staking_at_put, decide_True by done. cbn [default].
  split_and!; [done..| |].
  - intros a. rewrite get_balance_put. rewrite <- (Hbal a). case_decide; [subst|]; done.
  - intros a Hne. rewrite staking_at_put, decide_False by congruence. apply Hst.
Qed.

(** C12: Unstaking moves exactly the amount from the sender's stake into the
    unbonding queue.  On balanced books it never panics; it succeeds exactly when
    the sender has that much at stake (a delegator needs a delegation), and then
    the stake and the total shrink by the amount, one entry of that amount is
    appended to the sender's queue, maturing after the unbonding period; no other
    stake or queue, no balance and no other account changes.  A failure leaves the state
    as it was and reports what the sender has. *)
Theorem unstake_exact s sender v amount now :
  0 <= amount → stake_ok (staking_at s v) →
  let own := stake_of v sender (staking_at s v) in
  match Exec.execute_unstake sender v amount now s with
  | (Ok _, s') =>
      amount <= own ∧ stake_ok (staking_at s' v)
      ∧ sk_total_stake (staking_at s' v) = sk_total_stake (staking_at s v) - amount
      ∧ (∀ a, stake_of v a (staking_at s' v)
              = stake_of v a (staking_at s v) - (if decide (a = sender) then amount else 0))
      ∧ (∀ a, State.get_unbonding_entries s' a = State.get_unbonding_entries s a ++
           (if decide (a = sender)
            then [MkUnbondingEntry amount
                    (wrap 64 (now + State.effective_unbonding_period_ms s
                                      DEFAULT_UNBONDING_PERIOD_SECS)) v]
            else []))
      ∧ (∀ a, State.get_balance s' a = State.get_balance s a)
      ∧ (∀ a, a ≠ v → State.get_account s' a = State.get_account s a)
  | (Err e, s') =>
      s' = s ∧ e = UnstakeExceedsStake own amount ∧ (own < amount ∨ sender ≠ v ∧ own = 0)
  | (Panic, _) => False
  end.
Proof.
  intros Ha Hok. cbv zeta. unfold Exec.execute_unstake. mrun. fold (staking_at s v).
  pose proof (debit_stake_spec sender v amount _ Hok Ha) as Hd.
  destruct (Exec.debit_stake _ _ _ _) as [st'| |]; [|done..].
  destruct Hd as (Hle & Hok' & Htot & Hof).
  set (acc := (State.get_account s v) <| ac_staking := Some st' |>).
  assert (Hper : State.effective_unbonding_period_ms (State.put_account v acc s)
    DEFAULT_UNBONDING_PERIOD_SECS
    = State.effective_unbonding_period_ms s DEFAULT_UNBONDING_PERIOD_SECS).
  { apply effective_period_put_account. }
  rewrite Hper. set (e := MkUnbondingEntry _ _ _).
  assert (Hacc : ∀ a, State.get_account
    (State.add_unbonding_entry sender e (State.put_account v acc s)) a
    = if decide (v = a) then acc else State.get_account s a).
  { intros a. rewrite get_account_add_unbonding. apply get_account_put. }
  assert (Hst : staking_at (State.add_unbonding_entry sender e (State.put_account v acc s)) v = st')
    by (unfold staking_at; rewrite Hacc; by rewrite decide_True).
  rewrite Hst. split_and!; [done..| | |].
  - intros a. apply get_unbonding_add.
  - intros a. unfold State.get_balance. rewrite Hacc. case_decide as Hva; [rewrite <- Hva|]; done.
  - intros a Hne. rewrite Hacc. by rewrite decide_False.
Qed.
End stake.

(** ** Rewards *)

Section rewards.
Context `{!Env}.
Implicit Types (s : StateDB) (v a : Address) (ds : list Delegation).

Lemma staker_share_bounds amount pool total :
  0 <= amount → 0 <= pool → 0 < total →
  0 <= Exec.staker_share amount pool total
  ∧ total * Exec.staker_share amount pool total <= amount * pool.
Proof.
  intros Ha Hp Ht. unfold Exec.staker_share, checked_div, saturating_mul, umax.
  rewrite (proj2 (Z.eqb_neq total 0)) by lia. cbn -[Z.pow].
  assert (Hm : 0 <= Z.min (amount * pool) (2 ^ 128 - 1)) by nia.
  split; [by apply Z.div_pos|].
  etrans; [apply Z.mul_div_le; lia|]. lia.
Qed.

(** The shares of the delegators. *)
Definition shares (pool total : Z) ds : Z :=
  list_sumZ (λ d, Exec.staker_share (dg_amount d) pool total) ds.

(** The payments of the loop, in order. *)
Definition share_payments (pool total : Z) ds : list (Address * Amount) :=
  (λ d, (dg_delegator d, Exec.staker_share (dg_amount d) pool total)) <$>
    filter (λ d, Exec.staker_share (dg_amount d) pool total ≠ 0) ds.

Definition pay {E} (rs : list (Address * Amount)) : M StateDB E unit :=
  for_each rs (λ r, ignore_err (State.add_balance r.1 r.2)).

Lemma shares_bounds pool total ds :
  delegations_ok ds → 0 <= pool → 0 < total →
  0 <= shares pool total ds ∧ total * shares pool total ds <= delegated ds * pool.
Proof.
  intros [Hn _] Hp Ht. unfold shares, delegated. induction ds as [|d ds IH]; cbn; [lia|].
  destruct (staker_share_bounds (dg_amount d) pool total) as [? ?]; [apply Hn; by left|done..|].
  destruct IH as [? ?]; [intros e He; apply Hn; by right|]. nia.
Qed.

Lemma pay_delegators_spec {E} pool total ds dist s :
  delegations_ok ds → 0 <= pool → 0 < total → 0 <= dist →
  dist + shares pool total ds < 2 ^ 128 →
  Exec.pay_delegators (E:=E) pool total ds dist s
  = (_ ← pay (share_payments pool total ds); mret (dist + shares pool total ds)) s.
Proof.
  intros [Hn _] Hp Ht. unfold share_payments, shares.
  revert dist s. induction ds as [|d ds IH]; intros dist s Hd Hlt; cbn [list_sumZ Exec.pay_delegators] in Hlt |- *.
  { mrun. by rewrite Z.add_0_r. }
  destruct (staker_share_bounds (dg_amount d) pool total) as [Hs0 _]; [apply Hn; by left|done..|].
  pose proof (list_sumZ_nonneg (λ d, Exec.staker_share (dg_amount d) pool total) ds) as Hnn.
  assert (Hn' : ∀ e, e ∈ ds → 0 <= dg_amount e) by (intros e He; apply Hn; by right).
  specialize (Hnn ltac:(intros e He; apply staker_share_bounds; auto)). rewrite filter_cons.
  destruct (Z.eqb_spec (Exec.staker_share (dg_amount d) pool total) 0) as [Hz|Hnz].
  - rewrite decide_False by tauto. rewrite Hz, Z.add_0_l. apply IH; [done..|]. lia.
  - rewrite decide_True by done. unfold pay in *. cbn [fmap list_fmap for_each fst snd].
    unfold mbind at 1 2 3, M_bind at 1 2 3.
    destruct (ignore_err _ s) as [[u|e|] s1]; [|done..].
    unfold saturating_add, umax. rewrite Z.min_l by lia. rewrite IH by (done || lia).
    unfold mbind, M_bind. destruct (for_each _ _ s1) as [[]]; [|done..].
    mrun. by rewrite Z.add_assoc.
Qed.

(** A payment that is skipped when it is zero. *)
Definition one_payment a (x : Z) : list (Address * Amount) := if 0 <? x then [(a, x)] else [].

Lemma pay_one {E} a x s :
  (if 0 <? x then ignore_err (State.add_balance a x) else mret tt) s
  = pay (E:=E) (one_payment a x) s.
Proof.
  unfold one_payment. destruct (0 <? x); [|done]. unfold pay. cbn [for_each fst snd].
  unfold mbind, M_bind. by destruct (ignore_err _ s) as [[[]| |]].
Qed.

Lemma pay_app {E} l1 l2 s :
  pay (E:=E) (l1 ++ l2) s = (_ ← pay l1; pay l2) s.
Proof.
  revert s. induction l1 as [|r l1 IH]; intros s; [done|]. unfold pay in *. cbn [for_each app].
  unfold mbind, M_bind in *. destruct (ignore_err _ s) as [[u| |] s1]; [|done..]. apply IH.
Qed.

Lemma owed_app l1 l2 a : owed (l1 ++ l2) a = owed l1 a + owed l2 a.
Proof. apply list_sumZ_app. Qed.

Lemma owed_one_payment v x a :
  0 <= x → owed (one_payment v x) a = if decide (v = a) then x else 0.
Proof.
  intros Hx. unfold one_payment, owed. destruct (Z.ltb_spec 0 x); cbn; case_decide; lia.
Qed.

(** What the loop pays to [a]. *)
Definition share_to (pool total : Z) ds a : Z :=
  list_sumZ (λ d, if decide (dg_delegator d = a)
                  then Exec.staker_share (dg_amount d) pool total else 0) ds.

Lemma owed_share_payments pool total ds a :
  owed (share_payments pool total ds) a = share_to pool total ds a.
Proof.
  unfold owed, share_payments, share_to. induction ds as [|d ds IH]; [done|].
  rewrite filter_cons. cbn [list_sumZ]. rewrite <- IH.
  destruct (decide (Exec.staker_share (dg_amount d) pool total ≠ 0)) as [Hd|Hd].
  - done.
  - assert (Exec.staker_share (dg_amount d) pool total = 0) as -> by lia. by case_decide.
Qed.

Lemma share_to_le pool total ds a :
  delegations_ok ds → 0 <= pool → 0 < total →
  share_to pool total ds a <= shares pool total ds.
Proof.
  intros [Hn _] Hp Ht. apply list_sumZ_le. intros d Hd.
  destruct (staker_share_bounds (dg_amount d) pool total) as [? _]; [auto..|].
  case_decide; lia.
Qed.

(** All payments of a reward. *)
Definition reward_payments v (st : StakingState) (reward : Z) : list (Address * Amount) :=
  let commission := reward * sk_commission_bps st / 10000 in
  let pool := reward - commission in
  let self_share := Exec.staker_share (sk_self_stake st) pool (sk_total_stake st) in
  one_payment v commission ++ one_payment v self_share
  ++ share_payments pool (sk_total_stake st) (sk_delegations st)
  ++ one_payment v (pool - (self_share + shares pool (sk_total_stake st) (sk_delegations st))).

Lemma one_payment_nonneg v x r : r ∈ one_payment v x → 0 <= r.2.
Proof.
  unfold one_payment. destruct (Z.ltb_spec 0 x); [|by intros ?%elem_of_nil].
  intros ->%list_elem_of_singleton. cbn. lia.
Qed.

Lemma reward_payments_nonneg v st reward :
  delegations_ok (sk_delegations st) → 0 < sk_total_stake st →
  0 <= reward - reward * sk_commission_bps st / 10000 →
  ∀ r, r ∈ reward_payments v st reward → 0 <= r.2.
Proof.
  intros [Hn _] Ht Hp r. unfold reward_payments. rewrite !elem_of_app.
  intros [?|[?|[Hr|?]]]; [by eapply one_payment_nonneg..| |by eapply one_payment_nonneg].
  unfold share_payments in Hr. apply list_elem_of_fmap in Hr as (d & -> & [_ Hd]%list_elem_of_filter).
  cbn. apply staker_share_bounds; auto.
Qed.

Lemma staker_share_0 x total : Exec.staker_share x 0 total = 0.
Proof.
  unfold Exec.staker_share, checked_div, saturating_mul, umax. rewrite Z.mul_0_r.
  by destruct (total =? 0).
Qed.

Lemma share_payments_0 total ds : share_payments 0 total ds = [].
Proof.
  unfold share_payments. induction ds as [|d ds IH]; [done|]. rewrite filter_cons.
  rewrite decide_False; [done|]. rewrite staker_share_0. tauto.
Qed.

Lemma shares_0 total ds : shares 0 total ds = 0.
Proof. unfold shares. induction ds as [|d ds IH]; [done|]. cbn. by rewrite staker_share_0, IH. Qed.

Lemma distribute_as_payments {E} v reward st s :
  ac_staking (State.get_account s v) = Some st → stake_ok st → 0 < sk_total_stake st →
  0 <= sk_commission_bps st <= 10000 → 0 <= reward → reward * 10000 < 2 ^ 128 →
  Exec.distribute_producer_reward (E:=E) v reward s = pay (reward_payments v st reward) s.
Proof.
  intros Hst Hok Ht Hc Hr Hw. unfold reward_payments.
  set (com := reward * sk_commission_bps st / 10000).
  assert (0 <= com <= reward).
  { split; [apply Z.div_pos; nia|]. apply Z.div_le_upper_bound; nia. }
  unfold Exec.distribute_producer_reward.
  destruct (Z.eqb_spec reward 0) as [->|Hnz].
  { assert (com = 0) as -> by lia. cbn [Z.sub]. rewrite !staker_share_0, share_payments_0, shares_0. done. }
  unfold mbind at 1, M_bind at 1, gets. rewrite Hst, (proj2 (Z.ltb_lt _ _) Ht).
  unfold split_producer_reward. cbn [validator_commission staker_rewards].
  rewrite (wrap_mul_small reward _ 10000) by (done || lia). fold com.
  rewrite wrap_small by (unfold in_width; lia).
  rewrite pay_app. apply M_bind_ext; [apply pay_one|intros _ s1].
  rewrite (proj2 (Z.eqb_neq (sk_total_stake st) 0)), orb_false_r by lia.
  destruct (Z.eqb_spec (reward - com) 0) as [->|Hp].
  { rewrite !staker_share_0, share_payments_0, shares_0. done. }
  rewrite pay_app. apply M_bind_ext; [apply pay_one|intros _ s2].
  destruct Hok as [Hself Hdel Htot Hwid].
  destruct (staker_share_bounds (sk_self_stake st) (reward - com) (sk_total_stake st))
    as [Hs1 Hs2]; [done|lia|done|].
  destruct (shares_bounds (reward - com) (sk_total_stake st) (sk_delegations st))
    as [Hs3 Hs4]; [done|lia|done|].
  set (S1 := Exec.staker_share _ _ _) in *. set (S2 := shares _ _ _) in *.
  assert (Hsum : S1 + S2 <= reward - com) by nia.
  rewrite pay_app.
  pose proof (pay_delegators_spec (E:=E) (reward - com) (sk_total_stake st) (sk_delegations st)
    S1 s2 Hdel ltac:(lia) Ht Hs1 ltac:(fold S2; lia)) as Hpay.
  rewrite (M_bind_ext _ _ _ _ s2 Hpay (λ _ _, eq_refl)).
  rewrite M_bind_assoc. apply M_bind_ext; [done|intros _ s3]. fold S2.
  rewrite <- pay_one. unfold mbind, M_bind, mret, M_ret.
  destruct (Z.ltb_spec (S1 + S2) (reward - com)).
  - by rewrite (proj2 (Z.ltb_lt _ _)) by lia.
  - by rewrite (proj2 (Z.ltb_ge _ _)) by lia.
Qed.

(** The producer reward is paid out exactly.  For a validator whose books
    balance, with amounts in range, the distribution succeeds and credits the
    reward to the last unit: each delegator gets the share computed for its
    delegation, the validator gets the rest (commission, own share and rounding
    dust), which is never negative, and no other field of any account changes. *)
Theorem reward_distribution_exact s v reward st :
  ac_staking (State.get_account s v) = Some st → stake_ok st → 0 < sk_total_stake st →
  0 <= sk_commission_bps st <= 10000 → 0 <= reward → reward * 10000 < 2 ^ 128 →
  (∀ a, State.get_balance s a + reward < 2 ^ 128) →
  let pool := reward - reward * sk_commission_bps st / 10000 in
  let T := sk_total_stake st in
  let ds := sk_delegations st in
  0 <= shares pool T ds <= reward
  ∧ ∃ s', Exec.distribute_producer_reward (E:=ExecutionError) v reward s = (Ok tt, s')
    ∧ ∀ a, State.get_account s' a =
           with_delta (State.get_account s a)
             (share_to pool T ds a + (if decide (v = a) then reward - shares pool T ds else 0)).
Proof.
  intros Hst Hok Ht Hc Hr Hw Hbal. cbv zeta.
  rewrite (distribute_as_payments _ _ st) by done.
  set (com := reward * sk_commission_bps st / 10000).
  assert (0 <= com <= reward).
  { split; [apply Z.div_pos; nia|]. apply Z.div_le_upper_bound; nia. }
  destruct Hok as [Hself Hdel Htot Hwid].
  destruct (staker_share_bounds (sk_self_stake st) (reward - com) (sk_total_stake st))
    as [Hs1 Hs2]; [done|lia|done|].
  destruct (shares_bounds (reward - com) (sk_total_stake st) (sk_delegations st))
    as [Hs3 Hs4]; [done|lia|done|].
  assert (Hsum : Exec.staker_share (sk_self_stake st) (reward - com) (sk_total_stake st)
    + shares (reward - com) (sk_total_stake st) (sk_delegations st) <= reward - com) by nia.
  assert (Howed : ∀ a, owed (reward_payments v st reward) a =
    share_to (reward - com) (sk_total_stake st) (sk_delegations st) a
    + (if decide (v = a)
       then reward - shares (reward - com) (sk_total_stake st) (sk_delegations st) else 0)).
  { intros a. unfold reward_payments. fold com.
    rewrite !owed_app, !owed_one_payment, owed_share_payments by lia. case_decide; lia. }
  split; [lia|].
  destruct (pay_all (E:=ExecutionError) (reward_payments v st reward) s) as (s' & Hrun & Hacc & _).
  - apply reward_payments_nonneg; done || lia.
  - intros a. rewrite Howed. specialize (Hbal a).
    pose proof (share_to_le (reward - com) (sk_total_stake st) (sk_delegations st) a Hdel
      ltac:(lia) Ht). case_decide; lia.
  - exists s'. split; [done|]. intros a. by rewrite Hacc, Howed.
Qed.
End rewards.

(** ** Concrete runs *)

#[local] Existing Instance demo_env.
#[local] Existing Instance demo_header_codec.

#[local] Instance demo_evidence_eq_dec : EqDecision DoubleSignEvidence.
Proof. solve_decision. Defined.
#[local] Instance demo_evidence_countable : Countable DoubleSignEvidence.
Proof.
  refine (inj_countable (λ e, [encode (header_a e); encode (header_b e)])
    (λ l, match l with
          | [a; b] => x ← decode a; y ← decode b; Some (MkDoubleSignEvidence x y)
          | _ => None end) _).
  intros []. cbn. by rewrite !decode_encode.
Defined.
#[local] Instance demo_evidence_codec : Borsh DoubleSignEvidence := countable_borsh _.
#[local] Instance demo_slash_log_codec : Borsh (Address * Amount * Z * Z) := countable_borsh _.

Definition demo_val : Address := demo_address 9.
Definition demo_del : Address := demo_address 3.

(** A validator with [self] of its own and [del] delegated by [demo_del]; both
    have a balance of [balance]. *)
Definition demo_staked (self del balance : Z) : StateDB :=
  State.with_accounts
    [(demo_val, (Account.with_balance balance) <| ac_staking :=
        Some (MkStakingState (self + del) self 0 true [MkDelegation demo_del del] []) |>);
     (demo_del, Account.with_balance balance)].

Lemma demo_staked_account self del balance a :
  State.get_account (demo_staked self del balance) a =
    if decide (a = demo_val) then
      (Account.with_balance balance) <| ac_staking :=
        Some (MkStakingState (self + del) self 0 true [MkDelegation demo_del del] []) |>
    else if decide (a = demo_del) then Account.with_balance balance
    else AccountState_default.
Proof.
  unfold demo_staked, State.with_accounts. cbn [foldl fst snd]. rewrite !get_account_put.
  repeat case_decide; subst; done.
Qed.

Lemma demo_staked_balances self del balance :
  in_width 128 balance → balances_ok (demo_staked self del balance).
Proof.
  intros Hw a. unfold State.get_balance. rewrite demo_staked_account.
  repeat case_decide; [done..|]. by vm_compute.
Qed.

Lemma demo_staked_books self del balance :
  0 <= self → 0 <= del → self + del < 2 ^ 128 →
  stake_ok (staking_at (demo_staked self del balance) demo_val).
Proof.
  intros Hs Hd Hw. unfold staking_at. rewrite demo_staked_account, decide_True by done.
  cbn -[Z.pow delegated]. split; cbn -[Z.pow]; [done| |lia|done]. split.
  - intros d ->%list_elem_of_singleton. done.
  - cbn. apply NoDup_singleton.
Qed.

Lemma stake_exact_witness :
  ∃ s', Exec.execute_stake demo_del demo_val 25 (demo_staked 40 60 100) = (Ok tt, s')
    ∧ sk_total_stake (staking_at s' demo_val) = 125
    ∧ State.get_balance s' demo_del = 75.
Proof.
  pose proof (stake_exact (demo_staked 40 60 100) demo_del demo_val 25
    (demo_staked_balances 40 60 100 ltac:(done)) ltac:(done)
    (demo_staked_books 40 60 100 ltac:(done) ltac:(done) ltac:(done))) as Ht.
  assert (H : (Exec.execute_stake demo_del demo_val 25 (demo_staked 40 60 100)).1 = Ok tt)
    by (vm_compute; reflexivity).
  apply run_Ok in H. set (s' := (Exec.execute_stake _ _ _ _).2) in H. clearbody s'.
  rewrite H in Ht. destruct Ht as (_ & _ & Htot & _ & Hbal & _).
  exists s'. split; [exact H|]. rewrite Htot, Hbal. split; vm_compute; reflexivity.
Defined.

Lemma unstake_exact_witness :
  ∃ s', Exec.execute_unstake demo_del demo_val 25 1000 (demo_staked 40 60 100) = (Ok tt, s')
    ∧ sk_total_stake (staking_at s' demo_val) = 75
    ∧ State.get_unbonding_entries s' demo_del = [MkUnbondingEntry 25 1814401000 demo_val].
Proof.
  pose proof (unstake_exact (demo_staked 40 60 100) demo_del demo_val 25 1000 ltac:(done)
    (demo_staked_books 40 60 100 ltac:(done) ltac:(done) ltac:(done))) as Ht.
  assert (H : (Exec.execute_unstake demo_del demo_val 25 1000 (demo_staked 40 60 100)).1 = Ok tt)
    by (vm_compute; reflexivity).
  apply run_Ok in H. set (s' := (Exec.execute_unstake _ _ _ _ _).2) in H. clearbody s'.
  cbv zeta in Ht. rewrite H in Ht. destruct Ht as (_ & _ & Htot & _ & Hub & _).
  exists s'. split; [exact H|]. rewrite Htot, Hub. split; vm_compute; reflexivity.
Defined.

Lemma reward_distribution_exact_witness :
  ∃ s', Exec.distribute_producer_reward (E:=ExecutionError) demo_val 1001 (demo_staked 40 60 100)
        = (Ok tt, s')
    ∧ State.get_balance s' demo_del = 100 + 600 ∧ State.get_balance s' demo_val = 100 + 401.
Proof.
  destruct (reward_distribution_exact (demo_staked 40 60 100) demo_val 1001
    (MkStakingState 100 40 0 true [MkDelegation demo_del 60] [])) as (_ & s' & Hrun & Hacc).
  - vm_compute. reflexivity.
  - exact (demo_staked_books 40 60 100 ltac:(done) ltac:(done) ltac:(done)).
  - done.
  - cbn. lia.
  - lia.
  - done.
  - intros a. unfold State.get_balance. rewrite demo_staked_account.
    repeat case_decide; by vm_compute.
  - exists s'. split; [exact Hrun|]. unfold State.get_balance. rewrite !Hacc.
    split; vm_compute; reflexivity.
Defined.

(** ** What the arithmetic does at real amounts *)

(** The delegators' shares saturate.  With 18-decimal amounts the product
    [delegation * pool] exceeds 128 bits, so a delegator who holds nine tenths of
    the stake receives less than a thousandth of a VTT of a 4 VTT reward; the
    rest goes to the validator as rounding dust. *)
Theorem delegator_share_saturates :
  ∃ s', Exec.distribute_producer_reward (E:=ExecutionError) demo_val (Amount.from_vtt 4)
          (demo_staked (Amount.from_vtt 100000) (Amount.from_vtt 900000) 0) = (Ok tt, s')
    ∧ State.get_balance s' demo_del < Amount.ONE_VTT / 1000
    ∧ 3999 * (Amount.ONE_VTT / 1000) < State.get_balance s' demo_val.
Proof. eexists. split; [vm_compute; reflexivity|]. split; vm_compute; reflexivity. Qed.

(** Slashing breaks the books.  A slash larger than the self-stake lowers
    the total without lowering any delegation; after a 5 percent slash of a
    validator with 100 000 VTT of its own and 10 million delegated, the delegator
    who withdraws its recorded delegation makes the node panic. *)
Theorem unstake_after_slash_panics :
  let s := demo_staked (Amount.from_vtt 100000) (Amount.from_vtt 10000000) 0 in
  let slash := calculate_double_sign_slash (Amount.from_vtt 10100000) 500 in
  ∃ s', State.apply_slash (E:=ExecutionError) demo_val slash s = (Ok slash, s')
    ∧ stake_of demo_val demo_del (staking_at s' demo_val) = Amount.from_vtt 10000000
    ∧ (Exec.execute_unstake demo_del demo_val (Amount.from_vtt 10000000) 0 s').1 = Panic.
Proof. eexists. split; [vm_compute; reflexivity|]. split; vm_compute; reflexivity. Qed.

(** Evidence needs no signature.  The handler checks the shape of the two
    headers only: anyone can submit two unsigned headers that name a validator,
    and the validator loses 5 percent of its stake. *)
Theorem forged_evidence_slashes :
  let s := demo_staked (Amount.from_vtt 100000) 0 0 in
  let forged root := MkBlockHeader 1 0 7 H256_ZERO H256_ZERO root H256_ZERO demo_val 0 7 0 0 0
                       None Signature_ZERO in
  let ev := MkDoubleSignEvidence (forged (demo_hash 1)) (forged (demo_hash 2)) in
  ∃ logs s', Exec.execute_submit_slashing_evidence (demo_address 77) (to_vec ev) 8 s
             = (Ok logs, s')
    ∧ sk_total_stake (staking_at s' demo_val) = Amount.from_vtt 95000.
Proof. do 2 eexists. split; [vm_compute; reflexivity|]. vm_compute. reflexivity. Qed.
