(* ===== verification/TxCodec.v ===== *)
(** * A transaction codec

    The Borsh encoding of transactions is third-party code; this file gives one
    concrete codec for them, to evaluate the models on concrete transactions. *)

From S2P Require Import Prelude Primitives Codecs.

#[global] Instance Vote_countable : Countable Vote.
Proof.
  refine (inj_countable' (λ v, match v with Yes => 0 | No => 1 | Abstain => 2 end)
    (λ i, match i with 0 => Yes | 1 => No | _ => Abstain end) _).
  by intros [].
Defined.

#[global] Instance CrossChainPayload_eq_dec : EqDecision CrossChainPayload.
Proof. solve_decision. Defined.

Definition CrossChainPayload_code (x : CrossChainPayload) : list positive :=
  match x with
  | VttTransfer x1 => [1%positive; encode x1]
  | CCAssetTransfer x1 x2 => [2%positive; encode x1; encode x2]
  | ContractCall x1 x2 x3 x4 => [3%positive; encode x1; encode x2; encode x3; encode x4]
  end.

Definition CrossChainPayload_decode (l : list positive) : option CrossChainPayload :=
  match l with
  | [1%positive; e1] =>
      x1 ← decode e1; Some (VttTransfer x1)
  | [2%positive; e1; e2] =>
      x1 ← decode e1; x2 ← decode e2; Some (CCAssetTransfer x1 x2)
  | [3%positive; e1; e2; e3; e4] =>
      x1 ← decode e1; x2 ← decode e2; x3 ← decode e3; x4 ← decode e4; Some (ContractCall x1 x2 x3
          x4)
  | _ => None
  end.

#[global] Instance CrossChainPayload_countable : Countable CrossChainPayload.
Proof.
  refine (inj_countable CrossChainPayload_code CrossChainPayload_decode _).
  intros []; cbn [CrossChainPayload_code CrossChainPayload_decode]; by rewrite ?decode_encode.
Defined.

#[global] Instance TransactionAction_eq_dec : EqDecision TransactionAction.
Proof. solve_decision. Defined.

Definition TransactionAction_code (x : TransactionAction) : list positive :=
  match x with
  | Transfer x1 x2 => [1%positive; encode x1; encode x2]
  | DeployContract x1 x2 => [2%positive; encode x1; encode x2]
  | CallContract x1 x2 x3 x4 => [3%positive; encode x1; encode x2; encode x3; encode x4]
  | Stake x1 x2 => [4%positive; encode x1; encode x2]
  | Unstake x1 x2 => [5%positive; encode x1; encode x2]
  | GovernanceVote x1 x2 => [6%positive; encode x1; encode x2]
  | CreateAssetClass x1 x2 x3 x4 x5 x6 x7 x8 => [7%positive; encode x1; encode x2; encode x3;
      encode x4; encode x5; encode x6; encode x7; encode x8]
  | AssetTransfer x1 x2 x3 => [8%positive; encode x1; encode x2; encode x3]
  | CrossChainTransfer x1 x2 x3 => [9%positive; encode x1; encode x2; encode x3]
  | CreatePool x1 x2 x3 x4 => [10%positive; encode x1; encode x2; encode x3; encode x4]
  | AddLiquidity x1 x2 x3 x4 => [11%positive; encode x1; encode x2; encode x3; encode x4]
  | RemoveLiquidity x1 x2 x3 x4 => [12%positive; encode x1; encode x2; encode x3; encode x4]
  | Swap x1 x2 x3 x4 => [13%positive; encode x1; encode x2; encode x3; encode x4]
  | ClaimRevenue x1 => [14%positive; encode x1]
  | ClaimMiningRewards x1 => [15%positive; encode x1]
  | DistributeRevenue x1 x2 => [16%positive; encode x1; encode x2]
  | ProposeAssetAction x1 x2 x3 => [17%positive; encode x1; encode x2; encode x3]
  | VoteAssetProposal x1 x2 => [18%positive; encode x1; encode x2]
  | FinalizeAssetProposal x1 => [19%positive; encode x1]
  | BridgeWithdraw x1 x2 x3 x4 => [20%positive; encode x1; encode x2; encode x3; encode x4]
  | GovernancePropose x1 x2 x3 x4 x5 x6 => [21%positive; encode x1; encode x2; encode x3; encode
      x4; encode x5; encode x6]
  | FreezeAsset x1 => [22%positive; encode x1]
  | UnfreezeAsset x1 => [23%positive; encode x1]
  | SubmitSlashingEvidence x1 => [24%positive; encode x1]
  | FundRedemptionPool x1 x2 => [25%positive; encode x1; encode x2]
  | ClaimRedemption x1 => [26%positive; encode x1]
  | SetKycApproval x1 x2 => [27%positive; encode x1; encode x2]
  | BridgeDeposit x1 x2 x3 x4 x5 => [28%positive; encode x1; encode x2; encode x3; encode x4;
      encode x5]
  | SetAddressJurisdiction x1 x2 => [29%positive; encode x1; encode x2]
  | CreateOracleFeed x1 x2 x3 x4 x5 x6 x7 => [30%positive; encode x1; encode x2; encode x3; encode
      x4; encode x5; encode x6; encode x7]
  | SubmitOracleValue x1 x2 => [31%positive; encode x1; encode x2]
  end.

Definition TransactionAction_decode (l : list positive) : option TransactionAction :=
  match l with
  | [1%positive; e1; e2] =>
      x1 ← decode e1; x2 ← decode e2; Some (Transfer x1 x2)
  | [2%positive; e1; e2] =>
      x1 ← decode e1; x2 ← decode e2; Some (DeployContract x1 x2)
  | [3%positive; e1; e2; e3; e4] =>
      x1 ← decode e1; x2 ← decode e2; x3 ← decode e3; x4 ← decode e4; Some (CallContract x1 x2 x3
          x4)
  | [4%positive; e1; e2] =>
      x1 ← decode e1; x2 ← decode e2; Some (Stake x1 x2)
  | [5%positive; e1; e2] =>
      x1 ← decode e1; x2 ← decode e2; Some (Unstake x1 x2)
  | [6%positive; e1; e2] =>
      x1 ← decode e1; x2 ← decode e2; Some (GovernanceVote x1 x2)
  | [7%positive; e1; e2; e3; e4; e5; e6; e7; e8] =>
      x1 ← decode e1; x2 ← decode e2; x3 ← decode e3; x4 ← decode e4; x5 ← decode e5; x6 ← decode
          e6; x7 ← decode e7; x8 ← decode e8; Some (CreateAssetClass x1 x2 x3 x4 x5 x6 x7 x8)
  | [8%positive; e1; e2; e3] =>
      x1 ← decode e1; x2 ← decode e2; x3 ← decode e3; Some (AssetTransfer x1 x2 x3)
  | [9%positive; e1; e2; e3] =>
      x1 ← decode e1; x2 ← decode e2; x3 ← decode e3; Some (CrossChainTransfer x1 x2 x3)
  | [10%positive; e1; e2; e3; e4] =>
      x1 ← decode e1; x2 ← decode e2; x3 ← decode e3; x4 ← decode e4; Some (CreatePool x1 x2 x3 x4)
  | [11%positive; e1; e2; e3; e4] =>
      x1 ← decode e1; x2 ← decode e2; x3 ← decode e3; x4 ← decode e4; Some (AddLiquidity x1 x2 x3
          x4)
  | [12%positive; e1; e2; e3; e4] =>
      x1 ← decode e1; x2 ← decode e2; x3 ← decode e3; x4 ← decode e4; Some (RemoveLiquidity x1 x2
          x3 x4)
  | [13%positive; e1; e2; e3; e4] =>
      x1 ← decode e1; x2 ← decode e2; x3 ← decode e3; x4 ← decode e4; Some (Swap x1 x2 x3 x4)
  | [14%positive; e1] =>
      x1 ← decode e1; Some (ClaimRevenue x1)
  | [15%positive; e1] =>
      x1 ← decode e1; Some (ClaimMiningRewards x1)
  | [16%positive; e1; e2] =>
      x1 ← decode e1; x2 ← decode e2; Some (DistributeRevenue x1 x2)
  | [17%positive; e1; e2; e3] =>
      x1 ← decode e1; x2 ← decode e2; x3 ← decode e3; Some (ProposeAssetAction x1 x2 x3)
  | [18%positive; e1; e2] =>
      x1 ← decode e1; x2 ← decode e2; Some (VoteAssetProposal x1 x2)
  | [19%positive; e1] =>
      x1 ← decode e1; Some (FinalizeAssetProposal x1)
  | [20%positive; e1; e2; e3; e4] =>
      x1 ← decode e1; x2 ← decode e2; x3 ← decode e3; x4 ← decode e4; Some (BridgeWithdraw x1 x2
          x3 x4)
  | [21%positive; e1; e2; e3; e4; e5; e6] =>
      x1 ← decode e1; x2 ← decode e2; x3 ← decode e3; x4 ← decode e4; x5 ← decode e5; x6 ← decode
          e6; Some (GovernancePropose x1 x2 x3 x4 x5 x6)
  | [22%positive; e1] =>
      x1 ← decode e1; Some (FreezeAsset x1)
  | [23%positive; e1] =>
      x1 ← decode e1; Some (UnfreezeAsset x1)
  | [24%positive; e1] =>
      x1 ← decode e1; Some (SubmitSlashingEvidence x1)
  | [25%positive; e1; e2] =>
      x1 ← decode e1; x2 ← decode e2; Some (FundRedemptionPool x1 x2)
  | [26%positive; e1] =>
      x1 ← decode e1; Some (ClaimRedemption x1)
  | [27%positive; e1; e2] =>
      x1 ← decode e1; x2 ← decode e2; Some (SetKycApproval x1 x2)
  | [28%positive; e1; e2; e3; e4; e5] =>
      x1 ← decode e1; x2 ← decode e2; x3 ← decode e3; x4 ← decode e4; x5 ← decode e5; Some
          (BridgeDeposit x1 x2 x3 x4 x5)
  | [29%positive; e1; e2] =>
      x1 ← decode e1; x2 ← decode e2; Some (SetAddressJurisdiction x1 x2)
  | [30%positive; e1; e2; e3; e4; e5; e6; e7] =>
      x1 ← decode e1; x2 ← decode e2; x3 ← decode e3; x4 ← decode e4; x5 ← decode e5; x6 ← decode
          e6; x7 ← decode e7; Some (CreateOracleFeed x1 x2 x3 x4 x5 x6 x7)
  | [31%positive; e1; e2] =>
      x1 ← decode e1; x2 ← decode e2; Some (SubmitOracleValue x1 x2)
  | _ => None
  end.

#[global] Instance TransactionAction_countable : Countable TransactionAction.
Proof.
  refine (inj_countable TransactionAction_code TransactionAction_decode _).
  intros []; cbn [TransactionAction_code TransactionAction_decode]; by rewrite ?decode_encode.
Defined.

#[global] Instance TransactionPayload_eq_dec : EqDecision TransactionPayload.
Proof. solve_decision. Defined.
#[global] Instance TransactionPayload_countable : Countable TransactionPayload.
Proof.
  refine (inj_countable (λ r, [encode (tp_chain_id r); encode (tp_nonce r);
      encode (tp_gas_price r); encode (tp_gas_limit r); encode (tp_action r)])
    (λ l, match l with
          | [e1; e2; e3; e4; e5] =>
        x1 ← decode e1; x2 ← decode e2; x3 ← decode e3; x4 ← decode e4; x5 ← decode e5;
        Some (MkTransactionPayload x1 x2 x3 x4 x5)
          | _ => None end) _).
  intros []. cbn. by rewrite !decode_encode.
Defined.

Definition demo_payload_codec : Borsh TransactionPayload := countable_borsh _.

(** A transfer to the zero address. *)
Definition demo_transfer (nonce gas_price amount : Z) : SignedTransaction :=
  MkSignedTransaction
    (MkTransactionPayload 0 nonce gas_price 21000 (Transfer Address_ZERO amount))
    Signature_ZERO (MkPublicKey (zeros 32)).

(** A digest that depends on every byte, for runs with several transactions. *)
Fixpoint rolling (acc : Z) (b : bytes) : Z :=
  match b with
  | EmptyString => acc
  | String c b => rolling ((acc * 3 + Z_of_byte c + 1) mod 2 ^ 40) b
  end.

Definition rolling_crypto : Crypto := {|
  blake3_hash := λ b, MkH256 (to_le_bytes 32 (rolling 0 b));
  ed25519_valid_key := λ _, true;
  ed25519_verify := λ pk msg sig, bool_decide (signature_bytes sig = msg);
  blake3_len := λ b, to_le_bytes_length 32 (rolling 0 b);
|}.
