(* ===== verification/TxPool.v ===== *)
(** * The transaction pool ([crates/vtt-txpool/src/lib.rs])

    Pending transactions, indexed by hash and by (sender, nonce): admission with
    replace-by-fee and eviction, removal, expiry, and the selection of
    transactions for a block.  [std::time::Instant] is a number of nanoseconds
    passed in by the caller of each operation that reads the clock. *)

From S2P Require Import Prelude Primitives Codecs TxCodec.

Inductive TxPoolError :=
  | AlreadyExists (h : H256)
  | PoolFull (max : Z)
  | GasPriceTooLow (got min : Amount)
  | NonceTooLow (current got : Z).

Record TxPoolConfig := MkTxPoolConfig {
  cf_max_size : Z;
  cf_max_per_account : Z;
  cf_min_gas_price : Amount;
  cf_tx_ttl_secs : Z;
}.

Definition TxPoolConfig_default : TxPoolConfig :=
  {| cf_max_size := 10000; cf_max_per_account := 100; cf_min_gas_price := 1000000000;
     cf_tx_ttl_secs := 3600 |}.

Definition TxPoolConfig_eta (c : TxPoolConfig) : TxPoolConfig :=
  MkTxPoolConfig (cf_max_size c) (cf_max_per_account c) (cf_min_gas_price c) (cf_tx_ttl_secs c).

#[global] Instance upd_cf_min_gas_price : Updater cf_min_gas_price.
Proof. derive_updater TxPoolConfig_eta. Defined.

Record PoolEntry := MkPoolEntry {
  pe_tx : SignedTransaction;
  pe_sender : Address;
  pe_inserted_at : Z;
}.

Record TxPool := MkTxPool {
  tp_config : TxPoolConfig;
  tp_by_hash : gmap H256 PoolEntry;
  tp_by_sender : gmap Address (gmap Z H256);
  tp_known : gset H256;
}.

Definition TxPool_eta (p : TxPool) : TxPool :=
  MkTxPool (tp_config p) (tp_by_hash p) (tp_by_sender p) (tp_known p).

#[global] Instance upd_tp_config : Updater tp_config.
Proof. derive_updater TxPool_eta. Defined.
#[global] Instance upd_tp_by_hash : Updater tp_by_hash.
Proof. derive_updater TxPool_eta. Defined.
#[global] Instance upd_tp_by_sender : Updater tp_by_sender.
Proof. derive_updater TxPool_eta. Defined.
#[global] Instance upd_tp_known : Updater tp_known.
Proof. derive_updater TxPool_eta. Defined.

(** [Iterator::min_by_key]: the first of the minimal elements. *)
Definition min_by_key {A} (f : A → Z) (l : list A) : option A :=
  foldl (λ best a, match best with
                   | Some b => if f a <? f b then Some a else Some b
                   | None => Some a
                   end) None l.

(** A [BTreeMap<u64, _>] is iterated in the order of its keys. *)
Definition nonce_iter {V} (m : gmap Z V) : list (Z * V) :=
  stable_sort (λ x y, x.1 <=? y.1) (map_to_list m).

Definition tx_nonce (tx : SignedTransaction) : Z := tp_nonce (tx_payload tx).
Definition tx_gas_price (tx : SignedTransaction) : Amount := tp_gas_price (tx_payload tx).

Module Pool.
Section pool.
Context `{!Crypto, !HashIter, !Borsh TransactionPayload}.

Definition new (config : TxPoolConfig) : TxPool := MkTxPool config ∅ ∅ ∅.

Definition set_min_gas_price (min : Amount) (p : TxPool) : TxPool :=
  p <| tp_config := (tp_config p) <| cf_min_gas_price := min |> |>.

Definition min_gas_price (p : TxPool) : Amount := cf_min_gas_price (tp_config p).

Definition tx_hash (tx : SignedTransaction) : H256 := blake3_hash (to_vec (tx_payload tx)).

(** [self.by_hash.len()] *)
Definition len (p : TxPool) : Z := Z.of_nat (size (tp_by_hash p)).

Definition cheapest_tx (p : TxPool) : option (H256 * Amount) :=
  min_by_key snd ((λ kv, (kv.1, tx_gas_price (pe_tx kv.2))) <$> hash_iter (tp_by_hash p)).

Definition remove (h : H256) (p : TxPool) : option SignedTransaction * TxPool :=
  match tp_by_hash p !! h with
  | Some entry =>
      let p := p <| tp_by_hash := delete h (tp_by_hash p) |> in
      let p :=
        match tp_by_sender p !! pe_sender entry with
        | Some sender_txs =>
            let sender_txs := delete (tx_nonce (pe_tx entry)) sender_txs in
            p <| tp_by_sender :=
              if bool_decide (sender_txs = ∅) then delete (pe_sender entry) (tp_by_sender p)
              else <[pe_sender entry := sender_txs]> (tp_by_sender p) |>
        | None => p
        end in
      (Some (pe_tx entry), p)
  | None => (None, p)
  end.

(** [self.remove(&h); self.known.remove(&h);] *)
Definition evict (h : H256) (p : TxPool) : TxPool :=
  let p := (remove h p).2 in
  p <| tp_known := tp_known p ∖ {[h]} |>.

(** The pending transaction of [sender] with [nonce], if any. *)
Definition pending_at (p : TxPool) (sender : Address) (nonce : Z) : option (H256 * PoolEntry) :=
  sender_txs ← tp_by_sender p !! sender;
  h ← sender_txs !! nonce;
  e ← tp_by_hash p !! h;
  Some (h, e).

(** The sender's cheapest pending transaction. *)
Definition cheapest_of (p : TxPool) (sender_txs : gmap Z H256) : option (H256 * Amount) :=
  min_by_key snd
    (omap (λ nh, (λ e, (nh.2, tx_gas_price (pe_tx e))) <$> tp_by_hash p !! nh.2)
      (nonce_iter sender_txs)).

(** Replace-by-fee on the same (sender, nonce). *)
Definition replace_by_fee (tx : SignedTransaction) (sender : Address)
    : M TxPool TxPoolError unit :=
  existing ← gets (λ p, pending_at p sender (tx_nonce tx));
  match existing with
  | Some (existing_hash, e) =>
      _ ← fail_if (tx_gas_price tx <=? tx_gas_price (pe_tx e))
            (GasPriceTooLow (tx_gas_price tx) (tx_gas_price (pe_tx e)));
      modify (evict existing_hash)
  | None => mret tt
  end.

(** Evict what is cheapest if the incoming transaction is strictly better. *)
Definition displace (price : Amount) (cheapest : option (H256 * Amount)) (max : Z)
    : M TxPool TxPoolError unit :=
  match cheapest with
  | Some (cheapest_hash, cheapest_gas) =>
      if cheapest_gas <? price then modify (evict cheapest_hash) else throw (PoolFull max)
  | None => throw (PoolFull max)
  end.

(** The pool capacity check. *)
Definition make_room (tx : SignedTransaction) : M TxPool TxPoolError unit :=
  max_size ← gets (λ p, cf_max_size (tp_config p));
  n ← gets len;
  if max_size <=? n then
    cheapest ← gets cheapest_tx;
    displace (tx_gas_price tx) cheapest max_size
  else mret tt.

(** [by_sender.entry(sender).or_default()] *)
Definition touch (sender : Address) (p : TxPool) : TxPool :=
  p <| tp_by_sender := <[sender := default ∅ (tp_by_sender p !! sender)]> (tp_by_sender p) |>.

(** The per-account limit. *)
Definition make_room_for (tx : SignedTransaction) (sender : Address)
    : M TxPool TxPoolError unit :=
  _ ← modify (touch sender);
  sender_txs ← gets (λ p, default ∅ (tp_by_sender p !! sender));
  max_per_account ← gets (λ p, cf_max_per_account (tp_config p));
  if max_per_account <=? Z.of_nat (size sender_txs) then
    cheapest ← gets (λ p, cheapest_of p sender_txs);
    displace (tx_gas_price tx) cheapest max_per_account
  else mret tt.

Definition add (tx : SignedTransaction) (sender : Address) (account_nonce now : Z)
    : M TxPool TxPoolError H256 :=
  let h := tx_hash tx in
  dup ← gets (λ p, bool_decide (h ∈ tp_known p));
  _ ← fail_if dup (AlreadyExists h);
  min ← gets min_gas_price;
  _ ← fail_if (tx_gas_price tx <? min) (GasPriceTooLow (tx_gas_price tx) min);
  _ ← fail_if (tx_nonce tx <? account_nonce) (NonceTooLow account_nonce (tx_nonce tx));
  _ ← replace_by_fee tx sender;
  _ ← make_room tx;
  _ ← make_room_for tx sender;
  _ ← modify (touch sender);
  _ ← modify (λ p, p <| tp_by_sender :=
        <[sender := <[tx_nonce tx := h]> (default ∅ (tp_by_sender p !! sender))]>
          (tp_by_sender p) |>);
  _ ← modify (λ p, p <| tp_by_hash := <[h := MkPoolEntry tx sender now]> (tp_by_hash p) |>);
  _ ← modify (λ p, p <| tp_known := {[h]} ∪ tp_known p |>);
  mret h.

(** One turn of the loop of [remove_committed], over the sender's queue and
    the hash index. *)
Definition commit_one (st : gmap Z H256 * gmap H256 PoolEntry) (nonce : Z)
    : gmap Z H256 * gmap H256 PoolEntry :=
  match st.1 !! nonce with
  | Some h => (delete nonce st.1, delete h st.2)
  | None => st
  end.

Definition remove_committed (sender : Address) (committed_nonce : Z) (p : TxPool) : TxPool :=
  match tp_by_sender p !! sender with
  | Some sender_txs =>
      let to_remove :=
        (filter (λ nh, nh.1 <= committed_nonce) (nonce_iter sender_txs)).*1 in
      let '(sender_txs, by_hash) :=
        foldl commit_one (sender_txs, tp_by_hash p) to_remove in
      p <| tp_by_hash := by_hash |>
        <| tp_by_sender := if bool_decide (sender_txs = ∅) then delete sender (tp_by_sender p)
                           else <[sender := sender_txs]> (tp_by_sender p) |>
  | None => p
  end.

Definition get (p : TxPool) (h : H256) : option SignedTransaction :=
  pe_tx <$> tp_by_hash p !! h.

Definition contains (p : TxPool) (h : H256) : bool :=
  bool_decide (is_Some (tp_by_hash p !! h)).

(** The executable prefix of one sender's queue: consecutive nonces from
    [expected] on, as far as they go. *)
Fixpoint executable (p : TxPool) (expected : Z) (queue : list (Z * H256))
    : list SignedTransaction :=
  match queue with
  | [] => []
  | (nonce, h) :: queue =>
      if negb (nonce =? expected) then []
      else match tp_by_hash p !! h with
           | Some entry => pe_tx entry :: executable p (wrap 64 (expected + 1)) queue
           | None => executable p (wrap 64 (expected + 1)) queue
           end
  end.

Definition select_transactions (p : TxPool) (max_count : Z) (account_nonces : gmap Address Z)
    : list SignedTransaction :=
  let candidates :=
    hash_iter (tp_by_sender p) ≫=
      λ st, executable p (default 0 (account_nonces !! st.1)) (nonce_iter st.2) in
  let sorted := stable_sort (λ a b, tx_gas_price b <=? tx_gas_price a) candidates in
  take (Z.to_nat max_count) sorted.

Definition evict_expired (now : Z) (p : TxPool) : Z * TxPool :=
  if cf_tx_ttl_secs (tp_config p) =? 0 then (0, p)
  else
    let ttl := cf_tx_ttl_secs (tp_config p) * 1000000000 in
    let expired :=
      (filter (λ he, ttl < saturating_sub now (pe_inserted_at he.2))
        (hash_iter (tp_by_hash p))).*1 in
    (Z.of_nat (length expired), foldl (λ p h, (remove h p).2) p expired).

Definition is_empty (p : TxPool) : bool := len p =? 0.
Definition sender_count (p : TxPool) : Z := Z.of_nat (size (tp_by_sender p)).
Definition senders (p : TxPool) : list Address := (hash_iter (tp_by_sender p)).*1.
End pool.
End Pool.

(** ** The invariant *)

Section invariant.
Context `{!Crypto, !HashIter, !Borsh TransactionPayload}.
Implicit Types (p : TxPool) (h : H256) (a : Address) (n : Z).
Import Pool.

(** The hash filed under a sender and a nonce. *)
Definition slot_at p a n : option H256 := tp_by_sender p !! a ≫= (.!! n).

Record pool_inv p : Prop := {
  (* the two indices hold the same transactions *)
  iv_index a n h :
    slot_at p a n = Some h ↔
    ∃ e, tp_by_hash p !! h = Some e ∧ pe_sender e = a ∧ tx_nonce (pe_tx e) = n;
  (* under their own hash, which is known *)
  iv_hash h e : tp_by_hash p !! h = Some e → tx_hash (pe_tx e) = h ∧ h ∈ tp_known p;
  (* senders without transactions are dropped *)
  iv_nonempty a m : tp_by_sender p !! a = Some m → m ≠ ∅;
  (* the limits hold *)
  iv_size : len p <= cf_max_size (tp_config p);
  iv_queue a m : tp_by_sender p !! a = Some m →
    Z.of_nat (size m) <= cf_max_per_account (tp_config p);
}.

Lemma remove_absent h p : tp_by_hash p !! h = None → (remove h p).2 = p.
Proof. intros Hh. unfold remove. by rewrite Hh. Qed.

(** What [remove] does to the two indices. *)
Lemma remove_present h e p :
  pool_inv p → tp_by_hash p !! h = Some e →
  let p' := (remove h p).2 in
  ∃ m, tp_by_sender p !! pe_sender e = Some m
  ∧ m !! tx_nonce (pe_tx e) = Some h
  ∧ tp_by_hash p' = delete h (tp_by_hash p)
  ∧ tp_by_sender p' =
      (if bool_decide (delete (tx_nonce (pe_tx e)) m = ∅)
       then delete (pe_sender e) (tp_by_sender p)
       else <[pe_sender e := delete (tx_nonce (pe_tx e)) m]> (tp_by_sender p))
  ∧ tp_known p' = tp_known p ∧ tp_config p' = tp_config p.
Proof.
  intros Hinv Hh. cbv zeta. unfold remove. rewrite Hh.
  assert (Hs : slot_at p (pe_sender e) (tx_nonce (pe_tx e)) = Some h)
    by (apply (iv_index _ Hinv); eauto).
  unfold slot_at in Hs. apply bind_Some in Hs as (m & Hm & Hn). exists m.
  change (tp_by_sender (p <| tp_by_hash := _ |>)) with (tp_by_sender p). rewrite Hm. done.
Qed.

Lemma slot_at_remove h e p a n :
  pool_inv p → tp_by_hash p !! h = Some e →
  slot_at (remove h p).2 a n =
    if decide (a = pe_sender e ∧ n = tx_nonce (pe_tx e)) then None else slot_at p a n.
Proof.
  intros Hinv Hh. destruct (remove_present h e p Hinv Hh) as (m & Hm & Hn & _ & Hbs & _).
  unfold slot_at. rewrite Hbs. destruct (decide (a = pe_sender e)) as [->|Ha].
  - rewrite Hm. cbn. case_bool_decide as Hemp.
    + rewrite lookup_delete_eq. cbn. case_decide as Hd; [done|].
      apply (f_equal (.!! n)) in Hemp. rewrite lookup_delete_ne, lookup_empty in Hemp by naive_solver.
      done.
    + rewrite lookup_insert_eq. cbn. case_decide as Hd.
      * destruct Hd as [_ ->]. apply lookup_delete_eq.
      * apply lookup_delete_ne. naive_solver.
  - rewrite decide_False by naive_solver.
    case_bool_decide; [by rewrite lookup_delete_ne by done|by rewrite lookup_insert_ne by done].
Qed.

Lemma remove_inv h p : pool_inv p → pool_inv (remove h p).2.
Proof.
  intros Hinv. destruct (tp_by_hash p !! h) as [e|] eqn:Hh; [|by rewrite remove_absent].
  pose proof (slot_at_remove h e p) as Hslot.
  destruct (remove_present h e p Hinv Hh) as (m & Hm & Hn & Hbh & Hbs & Hk & Hc).
  assert (He : slot_at p (pe_sender e) (tx_nonce (pe_tx e)) = Some h)
    by (apply (iv_index _ Hinv); eauto).
  split.
  - intros a n h'. rewrite Hslot by done. rewrite Hbh. setoid_rewrite lookup_delete_Some.
    destruct (decide (a = pe_sender e ∧ n = tx_nonce (pe_tx e))) as [Hd|Hd]; split.
    + done.
    + intros (e' & [Hne He'] & <- & <-). destruct Hd as [Hd1 Hd2].
      assert (slot_at p (pe_sender e') (tx_nonce (pe_tx e')) = Some h') as Hs
        by (apply (iv_index _ Hinv); eauto). congruence.
    + intros (e' & He' & Ha & Hnn)%(iv_index _ Hinv). exists e'. split_and!; [|done..].
      intros <-. naive_solver.
    + intros (e' & [Hne He'] & Ha & Hnn). apply (iv_index _ Hinv). eauto.
  - intros h' e'. rewrite Hbh, Hk, lookup_delete_Some. intros [_ ?]. by apply (iv_hash _ Hinv).
  - intros a m'. rewrite Hbs. case_bool_decide.
    + rewrite lookup_delete_Some. intros [_ ?]. by eapply iv_nonempty.
    + rewrite lookup_insert_Some. intros [[<- <-]|[_ ?]]; [done|by eapply iv_nonempty].
  - unfold len. rewrite Hbh, Hc. pose proof (iv_size _ Hinv) as Hsz. unfold len in Hsz.
    pose proof (map_size_delete_Some h (tp_by_hash p) ltac:(eauto)). lia.
  - intros a m'. rewrite Hbs, Hc. case_bool_decide.
    + rewrite lookup_delete_Some. intros [_ ?]. by eapply iv_queue.
    + rewrite lookup_insert_Some. intros [[<- <-]|[_ ?]]; [|by eapply iv_queue].
      pose proof (iv_queue _ Hinv _ _ Hm).
      pose proof (map_size_delete_Some (tx_nonce (pe_tx e)) m ltac:(eauto)). lia.
Qed.

(** The sender's queue, empty when the sender has none. *)
Definition queue_of p a : gmap Z H256 := default ∅ (tp_by_sender p !! a).

Lemma slot_at_queue p a n : slot_at p a n = queue_of p a !! n.
Proof. unfold slot_at, queue_of. by destruct (tp_by_sender p !! a). Qed.

Lemma queue_of_remove h e p a :
  pool_inv p → tp_by_hash p !! h = Some e →
  queue_of (remove h p).2 a =
    if decide (a = pe_sender e) then delete (tx_nonce (pe_tx e)) (queue_of p a) else queue_of p a.
Proof.
  intros Hinv Hh. apply map_eq. intros n.
  rewrite <- slot_at_queue, (slot_at_remove h e) by done. rewrite slot_at_queue.
  destruct (decide (a = pe_sender e)) as [->|Ha]; [|by rewrite decide_False by naive_solver].
  destruct (decide (n = tx_nonce (pe_tx e))) as [->|Hn].
  - by rewrite decide_True, lookup_delete_eq by done.
  - by rewrite decide_False, lookup_delete_ne by naive_solver.
Qed.

Lemma evict_facts h e p :
  pool_inv p → tp_by_hash p !! h = Some e →
  pool_inv (evict h p) ∧ tp_config (evict h p) = tp_config p
  ∧ len (evict h p) = len p - 1 ∧ tp_known (evict h p) = tp_known p ∖ {[h]}
  ∧ ∀ a, queue_of (evict h p) a =
      if decide (a = pe_sender e) then delete (tx_nonce (pe_tx e)) (queue_of p a)
      else queue_of p a.
Proof.
  intros Hinv Hh. destruct (remove_present h e p Hinv Hh) as (m & Hm & Hn & Hbh & Hbs & Hk & Hc).
  destruct (remove_inv h p Hinv) as [Hix Hha Hne Hsz Hq].
  split_and!; [split|done| | |].
  - exact Hix.
  - intros h' e' He'. destruct (Hha h' e' He') as [? ?]. split; [done|].
    unfold evict in He'. cbn in He'. cbn. rewrite Hbh in He'. apply lookup_delete_Some in He' as [? _].
    set_solver.
  - exact Hne.
  - exact Hsz.
  - exact Hq.
  - unfold len, evict. cbn. rewrite Hbh, map_size_delete_Some by eauto.
    assert (size (tp_by_hash p) ≠ 0%nat); [|lia].
    apply map_size_ne_0_lookup. eauto.
  - unfold evict. cbn. by rewrite Hk.
  - intros a. apply queue_of_remove; done.
Qed.

(** Filing a transaction in a free slot. *)
Definition filed (tx : SignedTransaction) a (now : Z) p : TxPool :=
  MkTxPool (tp_config p) (<[tx_hash tx := MkPoolEntry tx a now]> (tp_by_hash p))
    (<[a := <[tx_nonce tx := tx_hash tx]> (queue_of p a)]> (tp_by_sender p))
    ({[tx_hash tx]} ∪ tp_known p).

Lemma slot_at_filed tx a now p b n :
  slot_at (filed tx a now p) b n =
    if decide (b = a ∧ n = tx_nonce tx) then Some (tx_hash tx) else slot_at p b n.
Proof.
  unfold slot_at at 1, filed. cbn. destruct (decide (b = a)) as [->|Hb].
  - rewrite lookup_insert_eq. cbn. rewrite slot_at_queue.
    destruct (decide (n = tx_nonce tx)) as [->|Hn].
    + by rewrite decide_True, lookup_insert_eq by done.
    + by rewrite decide_False, lookup_insert_ne by naive_solver.
  - rewrite lookup_insert_ne by done. by rewrite decide_False by naive_solver.
Qed.

Lemma filed_inv tx a now p :
  pool_inv p → tx_hash tx ∉ tp_known p → slot_at p a (tx_nonce tx) = None →
  len p < cf_max_size (tp_config p) →
  Z.of_nat (size (queue_of p a)) < cf_max_per_account (tp_config p) →
  pool_inv (filed tx a now p).
Proof.
  intros Hinv Hnew Hslot Hlen Hq.
  assert (Hfresh : tp_by_hash p !! tx_hash tx = None).
  { destruct (tp_by_hash p !! tx_hash tx) as [e|] eqn:He; [|done].
    by destruct (iv_hash _ Hinv _ _ He). }
  split.
  - intros b n h. rewrite slot_at_filed. cbn [filed tp_by_hash].
    setoid_rewrite lookup_insert_Some.
    destruct (decide (b = a ∧ n = tx_nonce tx)) as [[-> ->]|Hd]; split.
    + intros [= <-]. exists (MkPoolEntry tx a now). split_and!; [by left|done..].
    + intros (e & [[<- <-]|[Hne He]] & Ha & Hn); [done|].
      assert (slot_at p a (tx_nonce tx) = Some h) as Hs by (apply (iv_index _ Hinv); eauto).
      congruence.
    + intros (e & He & Ha & Hn)%(iv_index _ Hinv). exists e. split_and!; [|done..].
      right. split; [congruence|done].
    + intros (e & [[<- <-]|[Hne He]] & Ha & Hn); [naive_solver|]. apply (iv_index _ Hinv). eauto.
  - intros h e. cbn [filed tp_by_hash tp_known]. rewrite lookup_insert_Some.
    intros [[<- <-]|[_ He]]; [set_solver|]. destruct (iv_hash _ Hinv _ _ He). set_solver.
  - intros b m. cbn [filed tp_by_sender]. rewrite lookup_insert_Some.
    intros [[<- <-]|[_ ?]]; [apply insert_non_empty|by eapply iv_nonempty].
  - unfold len. cbn [filed tp_by_hash tp_config]. rewrite map_size_insert_None by done.
    unfold len in Hlen. lia.
  - intros b m. cbn [filed tp_by_sender tp_config]. rewrite lookup_insert_Some.
    intros [[<- <-]|[_ ?]]; [|by eapply iv_queue].
    rewrite slot_at_queue in Hslot. rewrite map_size_insert_None by done. lia.
Qed.

(** ** Admission *)

Lemma min_by_key_elem {A} (f : A → Z) l x : min_by_key f l = Some x → x ∈ l.
Proof.
  unfold min_by_key. rewrite <- (rev_involutive l). induction (rev l) as [|y r IH]; [done|].
  cbn. rewrite foldl_snoc. destruct (foldl _ None (rev r)) as [b|].
  - destruct (f y <? f b); intros [= <-]; [|specialize (IH eq_refl)]; set_solver.
  - intros [= <-]. set_solver.
Qed.

Lemma pending_at_None p a n : pool_inv p → pending_at p a n = None → slot_at p a n = None.
Proof.
  intros Hinv. unfold pending_at. fold (slot_at p a n). destruct (slot_at p a n) as [h|] eqn:Hs.
  2: done. pose proof Hs as (e & He & _)%(iv_index _ Hinv).
  unfold slot_at in Hs. destruct (tp_by_sender p !! a) as [m|]; cbn in *; [|done].
  rewrite Hs. cbn. by rewrite He.
Qed.

Lemma pending_at_Some p a n h e :
  pool_inv p → pending_at p a n = Some (h, e) →
  tp_by_hash p !! h = Some e ∧ pe_sender e = a ∧ tx_nonce (pe_tx e) = n.
Proof.
  intros Hinv. unfold pending_at. intros Hp.
  apply bind_Some in Hp as (m & Hm & Hp). apply bind_Some in Hp as (h' & Hh & Hp).
  apply bind_Some in Hp as (e' & He & [= -> ->]).
  assert (slot_at p a n = Some h) as Hs by (unfold slot_at; by rewrite Hm).
  apply (iv_index _ Hinv) in Hs as (e'' & ? & ? & ?). naive_solver.
Qed.

(** What a step of the admission may do: shed transactions, nothing else. *)
Record sheds p p' : Prop := {
  sh_inv : pool_inv p';
  sh_config : tp_config p' = tp_config p;
  sh_known : tp_known p' ⊆ tp_known p;
  sh_len : len p' <= len p;
  sh_slot a n : slot_at p a n = None → slot_at p' a n = None;
}.

Lemma sheds_refl p : pool_inv p → sheds p p.
Proof. by split. Qed.

Lemma sheds_trans p1 p2 p3 : sheds p1 p2 → sheds p2 p3 → sheds p1 p3.
Proof. intros [] []. split; [done|congruence|set_solver|lia|auto]. Qed.

Lemma sheds_evict h e p :
  pool_inv p → tp_by_hash p !! h = Some e →
  sheds p (evict h p) ∧ len (evict h p) = len p - 1
  ∧ slot_at (evict h p) (pe_sender e) (tx_nonce (pe_tx e)) = None
  ∧ queue_of (evict h p) (pe_sender e)
    = delete (tx_nonce (pe_tx e)) (queue_of p (pe_sender e)).
Proof.
  intros Hinv Hh. destruct (evict_facts h e p Hinv Hh) as (Hi & Hc & Hl & Hk & Hq).
  assert (Hqe := Hq (pe_sender e)). rewrite decide_True in Hqe by done.
  split_and!; [|done| |done].
  - split; [done|done|set_solver|lia|]. intros a n. rewrite !slot_at_queue, Hq.
    case_decide; [|done]. intros Hn. rewrite lookup_delete_None. by right.
  - rewrite slot_at_queue, Hqe. apply lookup_delete_eq.
Qed.

Lemma replace_by_fee_spec tx a p :
  pool_inv p →
  match replace_by_fee tx a p with
  | (Ok _, p') => sheds p p' ∧ slot_at p' a (tx_nonce tx) = None
  | (Err _, p') => p' = p
  | (Panic, _) => False
  end.
Proof.
  intros Hinv. unfold replace_by_fee. mrun.
  destruct (pending_at p a (tx_nonce tx)) as [[h e]|] eqn:Hp.
  - destruct (tx_gas_price tx <=? tx_gas_price (pe_tx e)); [done|].
    apply pending_at_Some in Hp as (Hh & <- & <-); [|done].
    destruct (sheds_evict h e p Hinv Hh) as (? & _ & ? & _). done.
  - split; [by apply sheds_refl|by apply pending_at_None].
Qed.

Lemma make_room_spec tx p :
  pool_inv p →
  match make_room tx p with
  | (Ok _, p') => sheds p p' ∧ len p' < cf_max_size (tp_config p)
  | (Err _, p') => p' = p
  | (Panic, _) => False
  end.
Proof.
  intros Hinv. unfold make_room, displace. mrun.
  destruct (Z.leb_spec (cf_max_size (tp_config p)) (len p)) as [Hfull|]; [|by split; [apply sheds_refl|]].
  destruct (cheapest_tx p) as [[h g]|] eqn:Hc; [|done].
  destruct (g <? tx_gas_price tx); [|done].
  unfold cheapest_tx in Hc. apply min_by_key_elem, list_elem_of_fmap in Hc as ([h' e] & [= -> _] & Hin).
  rewrite hash_iter_perm in Hin. apply elem_of_map_to_list in Hin.
  destruct (sheds_evict h' e p Hinv Hin) as (Hs & Hl & _). split; [done|].
  pose proof (iv_size _ Hinv). lia.
Qed.

Lemma touch_present a p m : tp_by_sender p !! a = Some m → touch a p = p.
Proof.
  intros Hm. unfold touch, upd, upd_tp_by_sender. rewrite Hm. cbn. rewrite insert_id by done.
  by destruct p.
Qed.

Lemma touch_touch a p : touch a (touch a p) = touch a p.
Proof.
  unfold touch, upd, upd_tp_by_sender. cbn. by rewrite lookup_insert_eq, insert_insert_eq.
Qed.

Lemma elem_of_nonce_iter {V} (m : gmap Z V) kv : kv ∈ nonce_iter m ↔ m !! kv.1 = Some kv.2.
Proof.
  unfold nonce_iter. rewrite stable_sort_perm. destruct kv. apply elem_of_map_to_list.
Qed.

Lemma cheapest_of_elem p a h g :
  pool_inv p → cheapest_of p (queue_of p a) = Some (h, g) →
  ∃ e, tp_by_hash p !! h = Some e ∧ pe_sender e = a
       ∧ queue_of p a !! tx_nonce (pe_tx e) = Some h.
Proof.
  intros Hinv Hc. unfold cheapest_of in Hc.
  apply min_by_key_elem, list_elem_of_omap in Hc as ([n h'] & Hin & Hg). cbn in Hg.
  apply elem_of_nonce_iter in Hin. cbn in Hin.
  apply fmap_Some in Hg as (e & He & [= -> ->]).
  pose proof Hin as Hs. rewrite <- slot_at_queue in Hs.
  apply (iv_index _ Hinv) in Hs as (e' & He' & Ha & Hn).
  exists e'. split_and!; [done..|]. by rewrite Hn.
Qed.

Lemma make_room_for_spec tx a p :
  pool_inv p → 0 < cf_max_per_account (tp_config p) →
  match make_room_for tx a p with
  | (Ok _, p') => ∃ p0, touch a p' = touch a p0 ∧ sheds p p0
      ∧ Z.of_nat (size (queue_of p0 a)) < cf_max_per_account (tp_config p)
  | (Err _, p') => p' = p
  | (Panic, _) => False
  end.
Proof.
  intros Hinv Hmax. unfold make_room_for, displace. mrun.
  assert (Hq : default ∅ (tp_by_sender (touch a p) !! a) = queue_of p a).
  { unfold touch. cbn. by rewrite lookup_insert_eq. }
  rewrite Hq. change (tp_config (touch a p)) with (tp_config p).
  change (cheapest_of (touch a p)) with (cheapest_of p).
  destruct (Z.leb_spec (cf_max_per_account (tp_config p)) (Z.of_nat (size (queue_of p a))))
    as [Hfull|].
  2: { exists p. split; [apply touch_touch|]. split; [by apply sheds_refl|done]. }
  destruct (tp_by_sender p !! a) as [m|] eqn:Hm.
  2: { unfold queue_of in Hfull. rewrite Hm in Hfull.
       cbn [default] in Hfull. rewrite map_size_empty in Hfull. lia. }
  rewrite (touch_present a p m) by done.
  destruct (cheapest_of p (queue_of p a)) as [[h g]|] eqn:Hc; [|done].
  destruct (g <? tx_gas_price tx); [|done].
  destruct (cheapest_of_elem p a h g Hinv Hc) as (e & He & <- & Hn).
  destruct (sheds_evict h e p Hinv He) as (Hs & _ & _ & Hqe).
  assert (Hlt : Z.of_nat (size (queue_of (evict h p) (pe_sender e)))
                < cf_max_per_account (tp_config p)).
  { rewrite Hqe, map_size_delete_Some by eauto.
    pose proof (iv_queue _ Hinv _ _ Hm) as Hle. unfold queue_of in *. rewrite Hm in *. cbn in *.
    lia. }
  exists (evict h p). done.
Qed.

Lemma filed_touch tx a now p :
  let p1 := touch a p in
  let p2 := p1 <| tp_by_sender :=
    <[a := <[tx_nonce tx := tx_hash tx]> (default ∅ (tp_by_sender p1 !! a))]>
      (tp_by_sender p1) |> in
  let p3 := p2 <| tp_by_hash := <[tx_hash tx := MkPoolEntry tx a now]> (tp_by_hash p2) |> in
  p3 <| tp_known := {[tx_hash tx]} ∪ tp_known p3 |> = filed tx a now p.
Proof.
  cbv zeta. unfold filed, touch, queue_of, upd, upd_tp_by_sender, upd_tp_by_hash, upd_tp_known.
  cbn. by rewrite lookup_insert_eq, insert_insert_eq.
Qed.

(** The outcome of [add] on a consistent pool. *)
Lemma add_spec tx a account_nonce now p :
  pool_inv p → 0 < cf_max_per_account (tp_config p) →
  match add tx a account_nonce now p with
  | (Ok h, p') => h = tx_hash tx ∧ ∃ p0, sheds p p0 ∧ p' = filed tx a now p0 ∧ pool_inv p'
  | (Err _, p') => sheds p p'
  | (Panic, _) => False
  end.
Proof.
  intros Hinv Hmax. unfold add, mbind, M_bind, gets, fail_if, mret, M_ret.
  case_bool_decide as Hnew; [by apply sheds_refl|].
  destruct (_ <? min_gas_price p); [by apply sheds_refl|].
  destruct (_ <? account_nonce); [by apply sheds_refl|].
  pose proof (replace_by_fee_spec tx a p Hinv) as H1.
  destruct (replace_by_fee tx a p) as [[u1| |] p1]; [|subst; by apply sheds_refl|done].
  destruct H1 as [Hs1 Hslot].
  pose proof (make_room_spec tx p1 (sh_inv _ _ Hs1)) as H2.
  destruct (make_room tx p1) as [[u2| |] p2]; [|by subst|done]. destruct H2 as [Hs2 Hlen].
  assert (Hs12 := sheds_trans _ _ _ Hs1 Hs2).
  pose proof (make_room_for_spec tx a p2 (sh_inv _ _ Hs2)) as H3.
  rewrite (sh_config _ _ Hs12) in H3. specialize (H3 Hmax).
  destruct (make_room_for tx a p2) as [[u3| |] p3]; [|by subst|done].
  destruct H3 as (p0 & Ht & Hs3 & Hq). unfold modify. rewrite Ht.
  assert (Hs := sheds_trans _ _ _ Hs12 Hs3).
  split; [done|]. exists p0. split; [done|]. rewrite filed_touch. split; [done|].
  apply filed_inv.
  - apply Hs.
  - pose proof (sh_known _ _ Hs). set_solver.
  - apply (sh_slot _ _ Hs3), (sh_slot _ _ Hs2), Hslot.
  - pose proof (sh_len _ _ Hs3). rewrite (sh_config _ _ Hs).
    rewrite (sh_config _ _ Hs1) in Hlen. lia.
  - by rewrite (sh_config _ _ Hs).
Qed.

(** ** Committed and expired transactions *)

Lemma commit_fold ns (m : gmap Z H256) (bh : gmap H256 PoolEntry) :
  let r := foldl commit_one (m, bh) ns in
  (∀ n, r.1 !! n = if decide (n ∈ ns) then None else m !! n)
  ∧ (∀ h, r.2 !! h = if decide (h ∈ omap (m !!.) ns) then None else bh !! h).
Proof.
  revert m bh. induction ns as [|k ns IH]; intros m bh; cbn [foldl omap list_omap].
  { split; intros ?; by rewrite decide_False by apply not_elem_of_nil. }
  unfold commit_one at 2 4. cbn [fst snd]. destruct (m !! k) as [h0|] eqn:Hk.
  - destruct (IH (delete k m) (delete h0 bh)) as [IH1 IH2]. split.
    + intros n. rewrite IH1. destruct (decide (n = k)) as [->|Hn].
      * rewrite lookup_delete_eq. repeat case_decide; set_solver.
      * rewrite lookup_delete_ne by done. repeat case_decide; set_solver.
    + intros h. rewrite IH2.
      assert (Hiff : h ∈ h0 :: omap (m !!.) ns ↔ h = h0 ∨ h ∈ omap (delete k m !!.) ns).
      { rewrite elem_of_cons, !list_elem_of_omap. split.
        - intros [->|(n & Hn & Hm)]; [by left|]. destruct (decide (n = k)) as [->|]; [left; congruence|].
          right. exists n. by rewrite lookup_delete_ne.
        - intros [->|(n & Hn & [_ Hm]%lookup_delete_Some)]; [by left|]. right. eauto. }
      destruct (decide (h ∈ h0 :: _)) as [Hin|Hin]; rewrite Hiff in Hin.
      * case_decide; [done|]. destruct Hin as [->|]; [apply lookup_delete_eq|done].
      * rewrite decide_False by tauto. apply lookup_delete_ne. intros ->. tauto.
  - destruct (IH m bh) as [IH1 IH2]. split; [|exact IH2].
    intros n. rewrite IH1. destruct (decide (n = k)) as [->|Hn].
    + rewrite Hk. repeat case_decide; set_solver.
    + repeat case_decide; set_solver.
Qed.

(** The transactions that [remove_committed] clears. *)
Definition committed a c (e : PoolEntry) : Prop := pe_sender e = a ∧ tx_nonce (pe_tx e) <= c.

#[local] Instance committed_dec a c e : Decision (committed a c e).
Proof. unfold committed. apply _. Defined.

(** The outcome of [remove_committed]. *)
Record clears a c p p' : Prop := {
  cl_hash h : tp_by_hash p' !! h =
    e ← tp_by_hash p !! h; if decide (committed a c e) then None else Some e;
  cl_slot b n : slot_at p' b n = if decide (b = a ∧ n <= c) then None else slot_at p b n;
  cl_queue b m : tp_by_sender p' !! b = Some m →
    m ≠ ∅ ∧ ∃ m0, tp_by_sender p !! b = Some m0 ∧ m ⊆ m0;
  cl_known : tp_known p' = tp_known p;
  cl_config : tp_config p' = tp_config p;
}.

Lemma clears_absent a c p : pool_inv p → tp_by_sender p !! a = None → clears a c p p.
Proof.
  intros Hinv Hm. split; [| | |done..].
  - intros h. destruct (tp_by_hash p !! h) as [e|] eqn:He; cbn; [|done].
    rewrite decide_False; [done|]. intros [<- _].
    assert (slot_at p (pe_sender e) (tx_nonce (pe_tx e)) = Some h) as Hs
      by (apply (iv_index _ Hinv); eauto). unfold slot_at in Hs. by rewrite Hm in Hs.
  - intros b n. case_decide as Hd; [|done]. destruct Hd as [-> _].
    unfold slot_at. by rewrite Hm.
  - intros b m Hb. split; [by eapply iv_nonempty|]. eauto.
Qed.

Lemma committed_hashes a c p m (ns : list Z) h :
  pool_inv p → tp_by_sender p !! a = Some m → (∀ n, n ∈ ns ↔ n <= c ∧ is_Some (m !! n)) →
  h ∈ omap (m !!.) ns ↔ ∃ e, tp_by_hash p !! h = Some e ∧ committed a c e.
Proof.
  intros Hinv Hm Hns. rewrite list_elem_of_omap. setoid_rewrite Hns. split.
  - intros (n & [Hn _] & Hmn).
    assert (slot_at p a n = Some h) as Hs by (unfold slot_at; by rewrite Hm).
    apply (iv_index _ Hinv) in Hs as (e & He & Ha & Hen). exists e. split; [done|].
    split; [done|lia].
  - intros (e & He & Ha & Hn). exists (tx_nonce (pe_tx e)).
    assert (slot_at p a (tx_nonce (pe_tx e)) = Some h) as Hs by (apply (iv_index _ Hinv); eauto).
    unfold slot_at in Hs. rewrite Hm in Hs. cbn in Hs. eauto.
Qed.

Lemma remove_committed_clears a c p : pool_inv p → clears a c p (remove_committed a c p).
Proof.
  intros Hinv. unfold remove_committed.
  destruct (tp_by_sender p !! a) as [m|] eqn:Hm; [|by apply clears_absent].
  set (ns := (filter _ _).*1).
  assert (Hns : ∀ n, n ∈ ns ↔ n <= c ∧ is_Some (m !! n)).
  { intros n. unfold ns. rewrite list_elem_of_fmap. setoid_rewrite list_elem_of_filter.
    setoid_rewrite elem_of_nonce_iter. split.
    - intros ([n' h] & -> & ? & ?). cbn in *. eauto.
    - intros [? [h ?]]. exists (n, h). done. }
  destruct (commit_fold ns m (tp_by_hash p)) as [Hr1 Hr2].
  destruct (foldl commit_one (m, tp_by_hash p) ns) as [m' bh']. cbn [fst snd] in Hr1, Hr2.
  assert (Hm' : ∀ n, m' !! n = if decide (n <= c) then None else m !! n).
  { intros n. rewrite Hr1. destruct (decide (n ∈ ns)) as [Hin|Hin]; rewrite Hns in Hin.
    - by rewrite decide_True by tauto.
    - case_decide; [|done]. destruct (m !! n); [|done]. exfalso. eauto. }
  split; [| | |done..]; unfold slot_at;
    cbn [tp_by_hash tp_by_sender upd upd_tp_by_hash upd_tp_by_sender].
  - intros h. rewrite Hr2. pose proof (committed_hashes a c p m ns h Hinv Hm Hns) as Hh.
    destruct (decide (h ∈ _)) as [Hin|Hin]; rewrite Hh in Hin.
    + destruct Hin as (e & -> & Hc). cbn. by rewrite decide_True.
    + destruct (tp_by_hash p !! h) as [e|]; cbn; [|done]. rewrite decide_False; [done|]. eauto.
  - intros b n. destruct (decide (b = a)) as [->|Hb].
    + rewrite Hm. cbn. trans (m' !! n); [|rewrite Hm'; repeat case_decide; tauto || done].
      case_bool_decide as He; [rewrite lookup_delete_eq; cbn; by rewrite He, lookup_empty|].
      by rewrite lookup_insert_eq.
    + rewrite decide_False by tauto.
      case_bool_decide; [by rewrite lookup_delete_ne by done|by rewrite lookup_insert_ne by done].
  - intros b m1. assert (Hsub : m' ⊆ m).
    { apply map_subseteq_spec. intros n h. rewrite Hm'. by case_decide. }
    case_bool_decide as Hemp; rewrite ?lookup_delete_Some, ?lookup_insert_Some.
    + intros [_ Hb]. split; [by eapply iv_nonempty|]. eauto.
    + intros [[<- <-]|[_ Hb]]; [eauto|]. split; [by eapply iv_nonempty|]. eauto.
Qed.

Lemma remove_committed_inv a c p : pool_inv p → pool_inv (remove_committed a c p).
Proof.
  intros Hinv. destruct (remove_committed_clears a c p Hinv) as [Hh Hs Hq Hk Hc]. split.
  - intros b n h. rewrite Hs, Hh.
    destruct (decide (b = a ∧ n <= c)) as [[-> Hn]|Hd]; split.
    + done.
    + intros (e & (e' & He' & Hif)%bind_Some & Ha & Hen). case_decide as Hc'; [done|].
      simplify_eq. destruct Hc'. done.
    + intros (e & He & Ha & Hn)%(iv_index _ Hinv). exists e. rewrite He. cbn.
      rewrite decide_False; [done|]. intros [? ?]. apply Hd. split; [congruence|lia].
    + intros (e & (e' & He' & Hif)%bind_Some & Ha & Hen). case_decide; [done|]. simplify_eq.
      apply (iv_index _ Hinv). eauto.
  - intros h e. rewrite Hh, Hk. intros (e' & He' & Hif)%bind_Some. case_decide; [done|].
    simplify_eq. by apply (iv_hash _ Hinv).
  - intros b m Hb. by apply Hq in Hb as [? _].
  - rewrite Hc. etrans; [|apply (iv_size _ Hinv)]. unfold len. apply inj_le, map_subseteq_size.
    apply map_subseteq_spec. intros h e. rewrite Hh. intros (e' & He' & Hif)%bind_Some.
    case_decide; [done|]. by simplify_eq.
  - intros b m Hb. rewrite Hc. apply Hq in Hb as (_ & m0 & Hm0 & Hsub).
    pose proof (iv_queue _ Hinv _ _ Hm0). apply map_subseteq_size in Hsub. lia.
Qed.

Lemma evict_expired_inv now p : pool_inv p → pool_inv (evict_expired now p).2.
Proof.
  intros Hinv. unfold evict_expired. destruct (_ =? 0); [done|]. cbn [snd].
  generalize ((filter (λ he, cf_tx_ttl_secs (tp_config p) * 1000000000
    < saturating_sub now (pe_inserted_at he.2)) (hash_iter (tp_by_hash p))).*1) as l.
  intros l. clear -Hinv. revert p Hinv. induction l as [|h l IH]; intros p Hinv; [done|].
  cbn. apply IH. by apply remove_inv.
Qed.

(** ** Every history keeps the pool consistent *)

Inductive pool_op :=
  | OpAdd (tx : SignedTransaction) (sender : Address) (account_nonce now : Z)
  | OpRemove (h : H256)
  | OpCommitted (sender : Address) (nonce : Z)
  | OpExpire (now : Z)
  | OpMinGasPrice (min : Amount).

(** A failed [add] keeps what it did before failing. *)
Definition run_pool_op p (op : pool_op) : TxPool :=
  match op with
  | OpAdd tx sender account_nonce now => (add tx sender account_nonce now p).2
  | OpRemove h => (remove h p).2
  | OpCommitted sender nonce => remove_committed sender nonce p
  | OpExpire now => (evict_expired now p).2
  | OpMinGasPrice min => set_min_gas_price min p
  end.

Lemma foldl_remove_config l p :
  tp_config (foldl (λ p h, (remove h p).2) p l) = tp_config p.
Proof.
  revert p. induction l as [|h l IH]; intros p; cbn; [done|]. rewrite IH. unfold remove.
  destruct (tp_by_hash p !! h); [|done]. cbn. by destruct (tp_by_sender p !! _).
Qed.

Lemma run_pool_op_inv p op :
  pool_inv p → 0 < cf_max_per_account (tp_config p) →
  pool_inv (run_pool_op p op)
  ∧ cf_max_per_account (tp_config (run_pool_op p op)) = cf_max_per_account (tp_config p).
Proof.
  intros Hinv Hmax. destruct op as [tx a n now|h|a n|now|min]; cbn [run_pool_op].
  - pose proof (add_spec tx a n now p Hinv Hmax) as Ha.
    destruct (add tx a n now p) as [[h| |] p']; cbn [snd].
    + destruct Ha as (_ & p0 & Hs & -> & Hi). split; [done|]. cbn. by rewrite (sh_config _ _ Hs).
    + split; [apply Ha|]. by rewrite (sh_config _ _ Ha).
    + done.
  - split; [by apply remove_inv|]. pose proof (foldl_remove_config [h] p) as Hc.
    cbn [foldl] in Hc. by rewrite Hc.
  - split; [by apply remove_committed_inv|].
    by rewrite (cl_config _ _ _ _ (remove_committed_clears a n p Hinv)).
  - split; [by apply evict_expired_inv|]. unfold evict_expired. destruct (_ =? 0); [done|].
    cbn [snd]. by rewrite foldl_remove_config.
  - split; [|done]. destruct Hinv. by split.
Qed.

Lemma new_inv config : 0 <= cf_max_size config → pool_inv (new config).
Proof.
  intros Hsz. split; try done. intros a n h. unfold slot_at. cbn. split; [done|]. by intros (? & ? & _).
Qed.

Lemma pool_runs_inv ops p :
  pool_inv p → 0 < cf_max_per_account (tp_config p) → pool_inv (foldl run_pool_op p ops).
Proof.
  revert p. induction ops as [|op ops IH]; intros p Hinv Hm; [done|].
  cbn. destruct (run_pool_op_inv p op Hinv Hm) as [Hi Hc]. apply IH; [done|by rewrite Hc].
Qed.

(** C30: The pool stays consistent.  After any sequence of admissions (accepted
    or rejected), removals, block commits, expiries and price changes: the two
    indices hold the same transactions, one per (sender, nonce), each under its
    own hash; no sender is left with an empty queue; and neither the pool nor any
    account exceeds its limit. *)
Theorem pool_consistent config ops :
  0 <= cf_max_size config → 0 < cf_max_per_account config →
  pool_inv (foldl run_pool_op (new config) ops).
Proof. intros Hsz Hmax. apply pool_runs_inv; [by apply new_inv|done]. Qed.

(** ** Selection *)

Lemma nonce_iter_sorted {V} (m : gmap Z V) :
  StronglySorted (λ x y, x.1 < y.1) (nonce_iter m).
Proof.
  assert (Hs : StronglySorted (λ x y : Z * V, (x.1 <=? y.1) = true) (nonce_iter m)).
  { apply stable_sort_sorted.
    - intros x y z. rewrite !Z.leb_le. lia.
    - intros x y. rewrite !Z.leb_le. lia. }
  assert (Hn : NoDup (nonce_iter m).*1).
  { unfold nonce_iter. rewrite stable_sort_perm. apply NoDup_fst_map_to_list. }
  induction Hs as [|x l Hl IH Hx]; cbn in Hn; [constructor|].
  apply NoDup_cons in Hn as [Hx' Hn]. constructor; [by apply IH|].
  rewrite Forall_forall in Hx |- *. intros y Hy. specialize (Hx y Hy). apply Z.leb_le in Hx.
  assert (x.1 ≠ y.1); [|lia]. intros Heq. apply Hx'. rewrite Heq. by apply list_elem_of_fmap_2.
Qed.

Lemma executable_spec p expected queue tx :
  (∀ nh, nh ∈ queue → in_width 64 nh.1 ∧ ∀ e, tp_by_hash p !! nh.2 = Some e →
     tx_nonce (pe_tx e) = nh.1) →
  StronglySorted (λ x y, x.1 < y.1) queue →
  in_width 64 expected → tx ∈ executable p expected queue →
  (∃ h e, tp_by_hash p !! h = Some e ∧ pe_tx e = tx ∧ (tx_nonce tx, h) ∈ queue)
  ∧ expected <= tx_nonce tx
  ∧ ∀ k, expected <= k <= tx_nonce tx → ∃ h, (k, h) ∈ queue.
Proof.
  intros Hq Hs. revert expected. induction Hs as [|[n h] queue Hs IH Hlt]; intros expected Hw;
    cbn [executable]; [by intros ?%elem_of_nil|].
  destruct (Z.eqb_spec n expected) as [->|]; cbn [negb]; [|by intros ?%elem_of_nil].
  rewrite Forall_forall in Hlt.
  assert (Hrec : tx ∈ executable p (wrap 64 (expected + 1)) queue →
    (∃ h' e, tp_by_hash p !! h' = Some e ∧ pe_tx e = tx
             ∧ (tx_nonce tx, h') ∈ (expected, h) :: queue)
    ∧ expected <= tx_nonce tx
    ∧ ∀ k, expected <= k <= tx_nonce tx → ∃ h', (k, h') ∈ (expected, h) :: queue).
  { intros Hin. destruct (decide (expected + 1 < 2 ^ 64)) as [Hsm|Hbig].
    - unfold in_width in Hw. rewrite wrap_small in Hin by (unfold in_width; lia).
      destruct (IH (λ nh Hnh, Hq nh (list_elem_of_further _ _ _ Hnh)) (expected + 1))
        as ((h' & e & ? & ? & ?) & Hle & Hk); [unfold in_width; lia|done|].
      split_and!; [exists h', e; set_solver|lia|]. intros k Hkk.
      destruct (decide (k = expected)) as [->|]; [exists h; by left|].
      destruct (Hk k) as [h'' ?]; [lia|]. exists h''. by right.
    - destruct queue as [|[n' h'] queue]; [by apply elem_of_nil in Hin|].
      specialize (Hlt (n', h') ltac:(by left)). destruct (Hq (n', h') ltac:(set_solver)) as [Hn' _].
      cbn in *. unfold in_width in Hn'. lia. }
  destruct (tp_by_hash p !! h) as [e|] eqn:He; [|exact Hrec].
  intros [->|Hin]%elem_of_cons; [|by apply Hrec].
  destruct (Hq (expected, h)) as [_ Hn]; [by left|]. specialize (Hn e He). cbn in Hn.
  split_and!; [exists h, e; rewrite Hn; set_solver|lia|].
  intros k Hk. assert (k = expected) as -> by lia. exists h. by left.
Qed.

Lemma selected_pending p a m start tx :
  pool_inv p → (∀ h e, tp_by_hash p !! h = Some e → in_width 64 (tx_nonce (pe_tx e))) →
  in_width 64 start → tp_by_sender p !! a = Some m → tx ∈ executable p start (nonce_iter m) →
  ∃ e, tp_by_hash p !! tx_hash tx = Some e ∧ pe_tx e = tx ∧ pe_sender e = a
    ∧ ∀ k, start <= k <= tx_nonce tx → is_Some (slot_at p a k).
Proof.
  intros Hinv Hw Hst Hm Hin.
  assert (Hslot : ∀ nh, nh ∈ nonce_iter m → slot_at p a nh.1 = Some nh.2).
  { intros nh Hnh%elem_of_nonce_iter. unfold slot_at. by rewrite Hm. }
  apply executable_spec in Hin as ((h & e & He & <- & Hq) & _ & Hk);
    [|intros nh Hnh|apply nonce_iter_sorted|done].
  - apply Hslot in Hq. cbn in Hq. apply (iv_index _ Hinv) in Hq as (e' & He' & Ha & _).
    assert (e' = e) as -> by congruence. exists e.
    destruct (iv_hash _ Hinv _ _ He) as [-> _]. split_and!; [done..|].
    intros k Hkk. destruct (Hk k Hkk) as [h' Hh']. apply Hslot in Hh'. cbn in Hh'. eauto.
  - apply Hslot in Hnh. apply (iv_index _ Hinv) in Hnh as (e & He & _ & <-).
    split; [by eapply Hw|]. intros e' He'. congruence.
Qed.

(** Selection returns executable transactions, best price first.  Every
    selected transaction is pending in the pool under its own hash; all nonces
    from the account's current one up to its own are pending for the same sender,
    so there is no gap; prices do not increase along the result; and at most
    [max_count] are returned. *)
Theorem selection_executable p max_count nonces :
  pool_inv p → 0 <= max_count →
  (∀ h e, tp_by_hash p !! h = Some e → in_width 64 (tx_nonce (pe_tx e))) →
  (∀ a n, nonces !! a = Some n → in_width 64 n) →
  let txs := select_transactions p max_count nonces in
  Z.of_nat (length txs) <= max_count
  ∧ StronglySorted (λ x y, tx_gas_price y <= tx_gas_price x) txs
  ∧ ∀ tx, tx ∈ txs → ∃ e, tp_by_hash p !! tx_hash tx = Some e ∧ pe_tx e = tx
      ∧ ∀ k, default 0 (nonces !! pe_sender e) <= k <= tx_nonce tx →
          is_Some (slot_at p (pe_sender e) k).
Proof.
  intros Hinv Hmax Hw Hnw. cbv zeta. unfold select_transactions.
  set (cands := _ ≫= _). set (sorted := stable_sort _ cands). split_and!.
  - rewrite length_take. lia.
  - assert (Hs : StronglySorted (λ x y, (tx_gas_price y <=? tx_gas_price x) = true) sorted).
    { apply stable_sort_sorted; intros; rewrite ?Z.leb_le in *; lia. }
    rewrite <- (take_drop (Z.to_nat max_count) sorted) in Hs. apply StronglySorted_app_1_l in Hs.
    eapply StronglySorted_weaken; [|exact Hs]. intros x y. apply Z.leb_le.
  - intros tx Htx. assert (Hin : tx ∈ cands).
    { unfold sorted in Htx. eapply elem_of_take in Htx as (i & Hi & _).
      apply list_elem_of_lookup_2 in Hi. by rewrite stable_sort_perm in Hi. }
    unfold cands in Hin. apply list_elem_of_bind in Hin as ([a m] & Hin & Ham).
    cbn [fst snd] in Hin.
    rewrite hash_iter_perm in Ham. apply elem_of_map_to_list in Ham.
    destruct (selected_pending p a m (default 0 (nonces !! a)) tx) as (e & He & Het & Ha & Hk); try done.
    + destruct (nonces !! a) eqn:En; cbn; [by eapply Hnw|done].
    + exists e. rewrite Ha. done.
Qed.
End invariant.

(** ** Runs *)

#[local] Existing Instance rolling_crypto.
#[local] Existing Instance key_order_iter.
#[local] Existing Instance demo_payload_codec.

(** A pool for three transactions, two per account. *)
Definition demo_pool_config : TxPoolConfig := MkTxPoolConfig 3 2 10 3600.

Definition demo_run (ops : list pool_op) : TxPool :=
  foldl run_pool_op (Pool.new demo_pool_config) ops.

Definition demo_add (sender nonce gas_price : Z) : pool_op :=
  OpAdd (demo_transfer nonce gas_price sender) (demo_address sender) 0 0.

Lemma pool_consistent_witness :
  let p := demo_run [demo_add 1 0 20; demo_add 1 1 30; demo_add 1 0 25; demo_add 2 0 40;
                     demo_add 3 0 50; OpCommitted (demo_address 2) 0] in
  pool_inv p ∧ Pool.len p = 2.
Proof.
  split; [|vm_compute; reflexivity].
  apply (pool_consistent demo_pool_config); vm_compute; congruence.
Defined.

Lemma selection_executable_witness :
  let p := demo_run [demo_add 1 0 20; demo_add 1 1 30; demo_add 2 1 90] in
  ∃ e, tp_by_hash p !! Pool.tx_hash (demo_transfer 1 30 1) = Some e
    ∧ pe_tx e = demo_transfer 1 30 1
    ∧ ∀ k, 0 <= k <= 1 → is_Some (slot_at p (pe_sender e) k).
Proof.
  intros p.
  assert (Hp : pool_inv p) by (apply pool_runs_inv; [apply new_inv|]; vm_compute; congruence).
  pose proof (selection_executable p 10 ∅ Hp ltac:(done)) as Hs.
  assert (Hw : ∀ h e, tp_by_hash p !! h = Some e → in_width 64 (tx_nonce (pe_tx e))).
  { assert (Hf : map_Forall (λ _ e, 0 <= tx_nonce (pe_tx e) < 2 ^ 64) (tp_by_hash p))
      by (apply (bool_decide_unpack _); vm_compute; exact I).
    exact Hf. }
  specialize (Hs Hw ltac:(done)). destruct Hs as (_ & _ & Hs).
  destruct (Hs (demo_transfer 1 30 1)) as (e & He & Het & Hk).
  { assert (Hin : Pool.select_transactions p 10 ∅ = [demo_transfer 1 30 1; demo_transfer 0 20 1])
      by (vm_compute; reflexivity).
    rewrite Hin. by left. }
  exists e. split_and!; [exact He|exact Het|]. intros k Hkk. apply Hk. rewrite lookup_empty. exact Hkk.
Defined.

(** The nonce order of a sender is not kept.  The whole selection is sorted
    by price, so a sender whose second transaction pays more than its first gets
    them back in the wrong order: the one with nonce 1 precedes the one with
    nonce 0, and cannot execute. *)
Theorem selection_breaks_nonce_order :
  let p := demo_run [demo_add 1 0 20; demo_add 1 1 30] in
  tx_nonce <$> Pool.select_transactions p 10 ∅ = [1; 0].
Proof. vm_compute. reflexivity. Qed.

(** A rejected transaction can evict another one.  The pool evicts the
    globally cheapest transaction before it checks the sender's own limit: here
    account 2 has a full queue, its third transaction is rejected, and the
    transaction of account 1 is gone. *)
Theorem rejected_add_evicts :
  let p := demo_run [demo_add 1 0 20; demo_add 2 0 50; demo_add 2 1 50] in
  let r := Pool.add (demo_transfer 2 40 2) (demo_address 2) 0 0 p in
  r.1 = Err (PoolFull 2)
  ∧ Pool.contains p (Pool.tx_hash (demo_transfer 0 20 1)) = true
  ∧ Pool.contains r.2 (Pool.tx_hash (demo_transfer 0 20 1)) = false
  ∧ Pool.len r.2 = 2.
Proof. vm_compute. split_and!; reflexivity. Qed.
