(* ===== verification/Governance.v ===== *)
(** * Protocol governance ([crates/vtt-consensus/src/governance.rs])

    Proposals, their vote counting, and the in-memory [GovernanceSystem].  The
    abstract specification is a ballot box: who voted what with which power.
    [gov_refines] shows that the counters and the voter list of a proposal are
    those of such a box after any history of calls. *)

From S2P Require Import Prelude Primitives RustStr.

(** The two environment variables of the process, read once. *)
Class ProcessEnv : Type := {
  VTT_VOTING_PERIOD_BLOCKS : option bytes;
  VTT_EXECUTION_DELAY_BLOCKS : option bytes;
}.

Definition VOTING_PERIOD_BLOCKS : Z := 201600.
Definition QUORUM_BPS : Z := 3300.
Definition PASS_THRESHOLD_BPS : Z := 5001.
Definition EXECUTION_DELAY_BLOCKS : Z := 28800.

Definition voting_period_blocks `{ProcessEnv} : Z :=
  match VTT_VOTING_PERIOD_BLOCKS ≫= Str.parse 64 with
  | Some v => if 0 <? v then v else VOTING_PERIOD_BLOCKS
  | None => VOTING_PERIOD_BLOCKS
  end.

Definition execution_delay_blocks `{ProcessEnv} : Z :=
  default EXECUTION_DELAY_BLOCKS (VTT_EXECUTION_DELAY_BLOCKS ≫= Str.parse 64).

Inductive ProposalAction :=
  | ParameterChange (key value : bytes)
  | RegisterChain (name config_json : bytes)
  | TreasurySpend (recipient : Address) (amount : Amount)
  | ProtocolUpgrade (version : Z) (description : bytes)
  | DexPause (paused : bool)
  | BridgePause (paused : bool).

Inductive ProposalStatus :=
  | PsActive | PsPassed | PsQueued (execute_after : Z) | PsRejected | PsExecuted.

#[global] Instance ProposalAction_eq_dec : EqDecision ProposalAction.
Proof. solve_decision. Defined.
#[global] Instance ProposalStatus_eq_dec : EqDecision ProposalStatus.
Proof. solve_decision. Defined.

Record Proposal := MkProposal {
  pr_id : H256;
  pr_proposer : Address;
  pr_action : ProposalAction;
  pr_description : bytes;
  pr_created_at : Z;
  pr_voting_end : Z;
  pr_status : ProposalStatus;
  pr_votes_yes : Amount;
  pr_votes_no : Amount;
  pr_votes_abstain : Amount;
  pr_voters : list Address;
  pr_snapshot_block : Z;
  pr_total_staked_at_creation : Amount;
}.

Definition Proposal_eta (p : Proposal) : Proposal :=
  MkProposal (pr_id p) (pr_proposer p) (pr_action p) (pr_description p) (pr_created_at p)
    (pr_voting_end p) (pr_status p) (pr_votes_yes p) (pr_votes_no p) (pr_votes_abstain p)
    (pr_voters p) (pr_snapshot_block p) (pr_total_staked_at_creation p).

#[global] Instance upd_pr_status : Updater pr_status.
Proof. derive_updater Proposal_eta. Defined.
#[global] Instance upd_pr_votes_yes : Updater pr_votes_yes.
Proof. derive_updater Proposal_eta. Defined.
#[global] Instance upd_pr_votes_no : Updater pr_votes_no.
Proof. derive_updater Proposal_eta. Defined.
#[global] Instance upd_pr_votes_abstain : Updater pr_votes_abstain.
Proof. derive_updater Proposal_eta. Defined.
#[global] Instance upd_pr_voters : Updater pr_voters.
Proof. derive_updater Proposal_eta. Defined.

Module Proposal.
Definition is_voting_ended (p : Proposal) (current_block : Z) : bool :=
  pr_voting_end p <=? current_block.

Definition total_votes {E} (p : Proposal) : res E Amount :=
  yn ← Amount.add (pr_votes_yes p) (pr_votes_no p);
  Amount.add yn (pr_votes_abstain p).

(** The products are plain [u128] multiplications: they wrap. *)
Definition has_quorum {E} (p : Proposal) (total_staked : Amount) : res E bool :=
  let effective_total := if negb (Amount.is_zero (pr_total_staked_at_creation p))
                         then pr_total_staked_at_creation p else total_staked in
  if Amount.is_zero effective_total then Ok false
  else
    tv ← total_votes p;
    Ok (wrap 128 (effective_total * QUORUM_BPS) <=? wrap 128 (tv * 10000)).

Definition passes_threshold (p : Proposal) : bool :=
  let yes_plus_no := wrap 128 (pr_votes_yes p + pr_votes_no p) in
  if yes_plus_no =? 0 then false
  else wrap 128 (yes_plus_no * PASS_THRESHOLD_BPS) <=? wrap 128 (pr_votes_yes p * 10000).

Definition has_voted (p : Proposal) (voter : Address) : bool :=
  bool_decide (voter ∈ pr_voters p).

(** The [match vote] that adds the power to a counter, and the push of the voter. *)
Definition apply_vote {E} (vote : Vote) (power : Amount) (voter : Address) (p : Proposal)
    : res E Proposal :=
  p ← match vote with
      | Yes => v ← Amount.add (pr_votes_yes p) power; Ok (p <| pr_votes_yes := v |>)
      | No => v ← Amount.add (pr_votes_no p) power; Ok (p <| pr_votes_no := v |>)
      | Abstain => v ← Amount.add (pr_votes_abstain p) power; Ok (p <| pr_votes_abstain := v |>)
      end;
  Ok (p <| pr_voters := pr_voters p ++ [voter] |>).

(** The proposal both creation paths build. *)
Definition fresh `{ProcessEnv} (id : H256) (proposer : Address) (action : ProposalAction)
    (description : bytes) (current_block : Z) (total_staked : Amount) : Proposal := {|
  pr_id := id;
  pr_proposer := proposer;
  pr_action := action;
  pr_description := description;
  pr_created_at := current_block;
  pr_voting_end := wrap 64 (current_block + voting_period_blocks);
  pr_status := PsActive;
  pr_votes_yes := 0;
  pr_votes_no := 0;
  pr_votes_abstain := 0;
  pr_voters := [];
  pr_snapshot_block := current_block;
  pr_total_staked_at_creation := total_staked;
|}.
End Proposal.

Inductive GovernanceError :=
  | GeProposalNotFound | GeNotActive | GeVotingEnded | GeVotingNotEnded
  | GeAlreadyVoted | GeNoVotingPower | GeNotPassed.

Record GovernanceSystem := MkGovernanceSystem {
  gs_proposals : gmap H256 Proposal;
  gs_next_id : Z;
}.

Definition GovernanceSystem_eta (g : GovernanceSystem) : GovernanceSystem :=
  MkGovernanceSystem (gs_proposals g) (gs_next_id g).

#[global] Instance upd_gs_proposals : Updater gs_proposals.
Proof. derive_updater GovernanceSystem_eta. Defined.
#[global] Instance upd_gs_next_id : Updater gs_next_id.
Proof. derive_updater GovernanceSystem_eta. Defined.

Module Gov.
Section with_env.
Context `{!Crypto, !HashIter, !ProcessEnv, !Borsh (Z * Address * Z)}.

Definition new : GovernanceSystem := MkGovernanceSystem ∅ 0.

Definition create_proposal (proposer : Address) (action : ProposalAction) (description : bytes)
    (current_block : Z) (total_staked : Amount) (g : GovernanceSystem)
    : H256 * GovernanceSystem :=
  let id := blake3_hash (to_vec (gs_next_id g, proposer, current_block)) in
  let g := g <| gs_next_id := wrap 64 (gs_next_id g + 1) |> in
  let proposal := Proposal.fresh id proposer action description current_block total_staked in
  (id, g <| gs_proposals := <[id := proposal]> (gs_proposals g) |>).

Definition get (g : GovernanceSystem) (id : H256) : option Proposal := gs_proposals g !! id.

Definition put (id : H256) (p : Proposal) : M GovernanceSystem GovernanceError unit :=
  modify (λ g, g <| gs_proposals := <[id := p]> (gs_proposals g) |>).

Definition vote (id : H256) (voter : Address) (v : Vote) (voting_power : Amount)
    (current_block : Z) : M GovernanceSystem GovernanceError unit :=
  proposal ← gets (λ g, get g id);
  proposal ← lift (ok_or GeProposalNotFound proposal);
  _ ← fail_if (negb (bool_decide (pr_status proposal = PsActive))) GeNotActive;
  _ ← fail_if (Proposal.is_voting_ended proposal current_block) GeVotingEnded;
  _ ← fail_if (Proposal.has_voted proposal voter) GeAlreadyVoted;
  _ ← fail_if (Amount.is_zero voting_power) GeNoVotingPower;
  proposal ← lift (Proposal.apply_vote v voting_power voter proposal);
  put id proposal.

Definition finalize (id : H256) (total_staked : Amount) (current_block : Z)
    : M GovernanceSystem GovernanceError ProposalStatus :=
  proposal ← gets (λ g, get g id);
  proposal ← lift (ok_or GeProposalNotFound proposal);
  _ ← fail_if (negb (bool_decide (pr_status proposal = PsActive))) GeNotActive;
  _ ← fail_if (negb (Proposal.is_voting_ended proposal current_block)) GeVotingNotEnded;
  quorum ← lift (Proposal.has_quorum proposal total_staked);
  let status := if quorum && Proposal.passes_threshold proposal
                then PsPassed else PsRejected in
  _ ← put id (proposal <| pr_status := status |>);
  mret status.

Definition mark_executed (id : H256) : M GovernanceSystem GovernanceError unit :=
  proposal ← gets (λ g, get g id);
  proposal ← lift (ok_or GeProposalNotFound proposal);
  _ ← fail_if (match pr_status proposal with PsPassed | PsQueued _ => false | _ => true end)
        GeNotPassed;
  put id (proposal <| pr_status := PsExecuted |>).

Definition active_proposals (g : GovernanceSystem) : list Proposal :=
  filter (λ p, pr_status p = PsActive) (snd <$> hash_iter (gs_proposals g)).

Definition proposal_count (g : GovernanceSystem) : Z := Z.of_nat (size (gs_proposals g)).

End with_env.
End Gov.

(** ** The ballot box

    What the system promises, without counters: a motion is the list of the
    ballots cast on it. *)

Record Ballot := MkBallot { bt_voter : Address; bt_vote : Vote; bt_power : Z }.

Record Motion := MkMotion {
  mo_end : Z;
  mo_electorate : Z;
  mo_ballots : list Ballot;
  mo_status : ProposalStatus;
}.

Definition cast_for (v : Vote) (bs : list Ballot) : Z :=
  list_sumZ (λ b, if decide (bt_vote b = v) then bt_power b else 0) bs.

Definition turnout (bs : list Ballot) : Z := list_sumZ bt_power bs.

(** A third of the electorate voted, and more than half of the decided votes
    are in favour. *)
Definition carried (total : Z) (m : Motion) : bool :=
  let electorate := if mo_electorate m =? 0 then total else mo_electorate m in
  let yes := cast_for Yes (mo_ballots m) in
  let no := cast_for No (mo_ballots m) in
  (0 <? electorate) && (electorate * 3300 <=? turnout (mo_ballots m) * 10000)
  && (0 <? yes + no) && ((yes + no) * 5001 <=? yes * 10000).

Inductive GovOp :=
  | OpCreate (proposer : Address) (action : ProposalAction) (description : bytes)
      (current_block total_staked : Z)
  | OpVote (id : H256) (voter : Address) (v : Vote) (power current_block : Z)
  | OpFinalize (id : H256) (total_staked current_block : Z)
  | OpExecute (id : H256).

Inductive Reply :=
  | RId (id : H256) | RDone | RStatus (s : ProposalStatus) | RErr (e : GovernanceError) | RPanic.

Definition reply {A} (f : A → Reply) (r : res GovernanceError A) : Reply :=
  match r with Ok a => f a | Err e => RErr e | Panic => RPanic end.

Section refinement.
Context `{!Crypto, !HashIter, !ProcessEnv, !Borsh (Z * Address * Z)}.

Definition run_op (op : GovOp) (g : GovernanceSystem) : Reply * GovernanceSystem :=
  match op with
  | OpCreate proposer action description block total =>
      let '(id, g') := Gov.create_proposal proposer action description block total g in (RId id, g')
  | OpVote id voter v power block =>
      let '(r, g') := Gov.vote id voter v power block g in (reply (λ _, RDone) r, g')
  | OpFinalize id total block =>
      let '(r, g') := Gov.finalize id total block g in (reply RStatus r, g')
  | OpExecute id =>
      let '(r, g') := Gov.mark_executed id g in (reply (λ _, RDone) r, g')
  end.

(** The specification: motions by id, and the next number. *)
Definition Spec : Type := gmap H256 Motion * Z.

Definition spec_op (op : GovOp) (s : Spec) : Reply * Spec :=
  let '(ms, next) := s in
  match op with
  | OpCreate proposer _ _ block total =>
      let id := blake3_hash (to_vec (next, proposer, block)) in
      (RId id, (<[id := MkMotion (block + voting_period_blocks) total [] PsActive]> ms,
                wrap 64 (next + 1)))
  | OpVote id voter v power block =>
      match ms !! id with
      | None => (RErr GeProposalNotFound, s)
      | Some m =>
          if decide (mo_status m = PsActive) then
            if mo_end m <=? block then (RErr GeVotingEnded, s)
            else if decide (voter ∈ (bt_voter <$> mo_ballots m)) then (RErr GeAlreadyVoted, s)
            else if power =? 0 then (RErr GeNoVotingPower, s)
            else (RDone, (<[id := MkMotion (mo_end m) (mo_electorate m)
                     (mo_ballots m ++ [MkBallot voter v power]) PsActive]> ms, next))
          else (RErr GeNotActive, s)
      end
  | OpFinalize id total block =>
      match ms !! id with
      | None => (RErr GeProposalNotFound, s)
      | Some m =>
          if decide (mo_status m = PsActive) then
            if block <? mo_end m then (RErr GeVotingNotEnded, s)
            else
              let status := if carried total m then PsPassed else PsRejected in
              (RStatus status, (<[id := MkMotion (mo_end m) (mo_electorate m) (mo_ballots m)
                                   status]> ms, next))
          else (RErr GeNotActive, s)
      end
  | OpExecute id =>
      match ms !! id with
      | None => (RErr GeProposalNotFound, s)
      | Some m =>
          if decide (mo_status m = PsPassed) then
            (RDone, (<[id := MkMotion (mo_end m) (mo_electorate m) (mo_ballots m) PsExecuted]> ms,
                     next))
          else (RErr GeNotPassed, s)
      end
  end.

Fixpoint run_all {S} (step : GovOp → S → Reply * S) (ops : list GovOp) (s : S) : list Reply * S :=
  match ops with
  | [] => ([], s)
  | op :: ops =>
      let '(r, s1) := step op s in
      let '(rs, s2) := run_all step ops s1 in (r :: rs, s2)
  end.

(** The argument bounds under which no counter overflows: blocks that leave
    room for a voting period, stakes that leave room for the basis points. *)
Definition op_ok (op : GovOp) : Prop :=
  match op with
  | OpCreate _ _ _ block total =>
      0 <= block ∧ block + voting_period_blocks < 2 ^ 64 ∧ 0 <= total ∧ total * 3300 < 2 ^ 128
  | OpVote _ _ _ power _ => 0 <= power
  | OpFinalize _ total _ => 0 <= total ∧ total * 3300 < 2 ^ 128
  | OpExecute _ => True
  end.

Definition op_power (op : GovOp) : Z := match op with OpVote _ _ _ power _ => power | _ => 0 end.

(** The simulation relation: the counters are sums over the ballots. *)
Record represents (budget : Z) (p : Proposal) (m : Motion) : Prop := {
  rp_end : pr_voting_end p = mo_end m;
  rp_electorate : pr_total_staked_at_creation p = mo_electorate m;
  rp_electorate_ok : 0 <= mo_electorate m ∧ mo_electorate m * 3300 < 2 ^ 128;
  rp_status : pr_status p = mo_status m;
  rp_queued : ∀ t, mo_status m ≠ PsQueued t;
  rp_voters : pr_voters p = bt_voter <$> mo_ballots m;
  rp_yes : pr_votes_yes p = cast_for Yes (mo_ballots m);
  rp_no : pr_votes_no p = cast_for No (mo_ballots m);
  rp_abstain : pr_votes_abstain p = cast_for Abstain (mo_ballots m);
  rp_power : Forall (λ b, 0 <= bt_power b) (mo_ballots m);
  rp_budget : turnout (mo_ballots m) <= budget;
  rp_once : NoDup (bt_voter <$> mo_ballots m);
}.

Definition simulates (budget : Z) (g : GovernanceSystem) (s : Spec) : Prop :=
  gs_next_id g = s.2 ∧ map_Forall2 (λ _, represents budget) (gs_proposals g) s.1.

Lemma turnout_split bs :
  turnout bs = cast_for Yes bs + cast_for No bs + cast_for Abstain bs.
Proof.
  unfold turnout, cast_for. induction bs as [|b bs IH]; cbn; [done|]. rewrite IH.
  destruct (bt_vote b); repeat case_decide; try done; lia.
Qed.

Lemma cast_for_snoc v bs b :
  cast_for v (bs ++ [b]) = cast_for v bs + (if decide (bt_vote b = v) then bt_power b else 0).
Proof. unfold cast_for. rewrite list_sumZ_app. cbn. lia. Qed.

Lemma cast_for_nonneg v bs : Forall (λ b, 0 <= bt_power b) bs → 0 <= cast_for v bs.
Proof.
  intros Hb. apply list_sumZ_nonneg. intros b Hin. case_decide; [|done].
  by eapply Forall_forall in Hb.
Qed.

Lemma represents_counts budget p m :
  represents budget p m →
  0 <= pr_votes_yes p ∧ 0 <= pr_votes_no p ∧ 0 <= pr_votes_abstain p ∧
  pr_votes_yes p + pr_votes_no p + pr_votes_abstain p = turnout (mo_ballots m) ∧
  turnout (mo_ballots m) <= budget.
Proof.
  intros [?????? -> -> -> Hp ??]. pose proof (turnout_split (mo_ballots m)).
  pose proof (cast_for_nonneg Yes _ Hp). pose proof (cast_for_nonneg No _ Hp).
  pose proof (cast_for_nonneg Abstain _ Hp). lia.
Qed.

Lemma represents_more budget budget' p m :
  budget <= budget' → represents budget p m → represents budget' p m.
Proof. intros ? []. split; try done. lia. Qed.

(** Quorum and threshold decide whether the motion is carried. *)
Lemma passes_iff_carried {E} budget total p m :
  represents budget p m → 10000 * budget < 2 ^ 128 → 0 <= total → total * 3300 < 2 ^ 128 →
  ∃ q, Proposal.has_quorum (E:=E) p total = Ok q ∧
       q && Proposal.passes_threshold p = carried total m.
Proof.
  intros Hr Hb Ht0 Ht1. pose proof (represents_counts _ _ _ Hr) as (Hy & Hn & Ha & Ht & Hle).
  destruct (rp_electorate_ok _ _ _ Hr) as [He0 He1].
  unfold Proposal.has_quorum, Proposal.passes_threshold, Proposal.total_votes, carried,
    Amount.is_zero, QUORUM_BPS, PASS_THRESHOLD_BPS.
  rewrite <- (rp_yes _ _ _ Hr), <- (rp_no _ _ _ Hr), <- Ht, (rp_electorate _ _ _ Hr).
  set (e := if negb _ then _ else _). set (y := pr_votes_yes p) in *. set (n := pr_votes_no p) in *.
  replace (if mo_electorate m =? 0 then total else mo_electorate m) with e
    by (by unfold e; destruct (_ =? 0)).
  assert (0 <= e ∧ e * 3300 < 2 ^ 128) as [Hee0 Hee1] by (unfold e; destruct (negb _); lia).
  clearbody e. rewrite !amount_add_Ok by lia. cbn [mbind res_bind].
  rewrite amount_add_Ok by lia. cbn [mbind res_bind].
  rewrite !wrap_small by (unfold in_width; lia).
  destruct (Z.eqb_spec e 0) as [->|He]; [by exists false|].
  eexists. split; [done|]. rewrite (proj2 (Z.ltb_lt 0 e)) by lia. cbn [andb].
  destruct (Z.eqb_spec (y + n) 0) as [->|Hyn].
  - by rewrite Z.ltb_irrefl, !andb_false_r.
  - rewrite (proj2 (Z.ltb_lt 0 (y + n))), andb_true_r by lia. done.
Qed.

Lemma apply_vote_represents {E} budget voter v power p m :
  represents budget p m → mo_status m = PsActive → voter ∉ (bt_voter <$> mo_ballots m) →
  0 <= power → budget + power < 2 ^ 128 →
  ∃ p', Proposal.apply_vote (E:=E) v power voter p = Ok p' ∧
    represents (budget + power) p' (MkMotion (mo_end m) (mo_electorate m)
      (mo_ballots m ++ [MkBallot voter v power]) PsActive).
Proof.
  intros Hr Hs Hv Ht0 Hb. pose proof (represents_counts _ _ _ Hr) as (Hy & Hn & Ha & Ht & Hle).
  unfold Proposal.apply_vote.
  destruct v; rewrite amount_add_Ok by lia; cbn [mbind res_bind]; eexists; (split; [done|]);
    destruct Hr; split; cbn -[cast_for turnout]; rewrite ?cast_for_snoc, ?fmap_app;
    cbn -[cast_for turnout]; repeat case_decide; try lia; try done; try congruence;
    first [ by apply Forall_app; split; [|by constructor]
          | unfold turnout in *; rewrite list_sumZ_app; cbn; lia
          | apply NoDup_app; split; [done|]; split; [|apply NoDup_singleton];
            by intros x Hx ->%list_elem_of_singleton ].
Qed.

Lemma simulates_lookup budget g s id :
  simulates budget g s →
  match s.1 !! id with
  | Some m => ∃ p, gs_proposals g !! id = Some p ∧ represents budget p m
  | None => gs_proposals g !! id = None
  end.
Proof.
  intros [_ Hs]. specialize (Hs id).
  destruct (gs_proposals g !! id), (s.1 !! id); inversion Hs; eauto.
Qed.

Lemma simulates_insert budget g g' s id p m n :
  simulates budget g s → represents budget p m →
  gs_proposals g' = <[id := p]> (gs_proposals g) → gs_next_id g' = n →
  simulates budget g' (<[id := m]> s.1, n).
Proof. intros [_ Hs] Hr Hp Hn. split; [done|]. rewrite Hp. by apply map_Forall2_insert_2. Qed.

Lemma simulates_more budget budget' g s :
  budget <= budget' → simulates budget g s → simulates budget' g s.
Proof.
  intros Hle [Hn Hs]. split; [done|]. eapply map_Forall2_impl; [exact Hs|].
  intros. by eapply represents_more.
Qed.

(** One call: same reply, and the states stay related. *)
Definition agrees (budget : Z) (op : GovOp) (g : GovernanceSystem) (s : Spec) : Prop :=
  (run_op op g).1 = (spec_op op s).1 ∧ simulates budget (run_op op g).2 (spec_op op s).2.

Lemma create_agrees budget proposer action description block total g s :
  simulates budget g s → op_ok (OpCreate proposer action description block total) → 0 <= budget →
  agrees budget (OpCreate proposer action description block total) g s.
Proof.
  intros Hsim (Hb0 & Hb & Ht) ?. destruct s as [ms next]. pose proof (proj1 Hsim) as Hnext.
  unfold agrees. cbn in *. rewrite Hnext. split; [done|].
  eapply (simulates_insert _ g _ (ms, next)); [done| |done|done].
  split; cbn; try done; try lia; try apply NoDup_nil_2; try constructor.
  rewrite wrap_small; [done|]. unfold in_width.
  enough (0 <= voting_period_blocks) by lia. unfold voting_period_blocks, VOTING_PERIOD_BLOCKS.
  repeat case_match; lia.
Qed.

Lemma vote_agrees budget id voter v power block g s :
  simulates budget g s → 0 <= power → budget + power < 2 ^ 128 →
  agrees (budget + power) (OpVote id voter v power block) g s.
Proof.
  intros Hsim Hp Hb. assert (simulates (budget + power) g s) as Hsim'
    by (eapply simulates_more; [|done]; lia).
  destruct s as [ms next]. pose proof (proj1 Hsim) as Hnext. cbn in Hnext.
  unfold agrees, run_op, spec_op, Gov.vote, Gov.get, Gov.put. mrun.
  pose proof (simulates_lookup _ _ _ id Hsim) as Hl. cbn [fst] in Hl.
  destruct (ms !! id) as [m|] eqn:Em; [|by rewrite Hl]. destruct Hl as (p & -> & Hr).
  rewrite (rp_status _ _ _ Hr). unfold Proposal.is_voting_ended, Proposal.has_voted.
  rewrite (rp_end _ _ _ Hr), (rp_voters _ _ _ Hr).
  case_decide as Hst; [rewrite bool_decide_true by done|by rewrite bool_decide_false by done].
  cbn [negb]. destruct (mo_end m <=? block); [done|].
  case_decide as Hv; [by rewrite bool_decide_true by done|rewrite bool_decide_false by done].
  unfold Amount.is_zero. destruct (power =? 0); [done|].
  destruct (apply_vote_represents (E:=GovernanceError) budget voter v power p m)
    as (p' & -> & Hr'); [done..|].
  split; [done|]. by eapply (simulates_insert _ g _ (ms, next)).
Qed.

Lemma finalize_agrees budget id total block g s :
  simulates budget g s → 0 <= total ∧ total * 3300 < 2 ^ 128 → 10000 * budget < 2 ^ 128 →
  agrees budget (OpFinalize id total block) g s.
Proof.
  intros Hsim [Ht0 Ht] Hb. destruct s as [ms next]. pose proof (proj1 Hsim) as Hnext.
  unfold agrees, run_op, spec_op, Gov.finalize, Gov.get, Gov.put. mrun.
  pose proof (simulates_lookup _ _ _ id Hsim) as Hl. cbn [fst snd] in *.
  destruct (ms !! id) as [m|] eqn:Em; [|by rewrite Hl]. destruct Hl as (p & -> & Hr).
  rewrite (rp_status _ _ _ Hr). unfold Proposal.is_voting_ended. rewrite (rp_end _ _ _ Hr).
  case_decide as Hst; [rewrite bool_decide_true by done|by rewrite bool_decide_false by done].
  cbn [negb]. rewrite <- Z.ltb_antisym. destruct (block <? mo_end m); [done|].
  destruct (passes_iff_carried (E:=GovernanceError) budget total p m) as (q & -> & ->);
    [done|lia..|].
  split; [done|]. eapply (simulates_insert _ g _ (ms, next)); [done| |done|done].
  destruct Hr; split; try done. cbn. intros t. by destruct (carried total m).
Qed.

Lemma execute_agrees budget id g s :
  simulates budget g s → agrees budget (OpExecute id) g s.
Proof.
  intros Hsim. destruct s as [ms next]. pose proof (proj1 Hsim) as Hnext.
  unfold agrees, run_op, spec_op, Gov.mark_executed, Gov.get, Gov.put. mrun.
  pose proof (simulates_lookup _ _ _ id Hsim) as Hl. cbn [fst snd] in *.
  destruct (ms !! id) as [m|] eqn:Em; [|by rewrite Hl]. destruct Hl as (p & -> & Hr).
  rewrite (rp_status _ _ _ Hr). pose proof (rp_queued _ _ _ Hr) as Hq.
  destruct (mo_status m) as [| |t| |] eqn:Est; rewrite ?decide_False by done; try done;
    [|by destruct (Hq t)].
  rewrite decide_True by done. split; [done|].
  eapply (simulates_insert _ g _ (ms, next)); [done| |done|done]. by destruct Hr; split.
Qed.

Lemma gov_step budget op g s :
  simulates budget g s → op_ok op → 0 <= budget → 10000 * (budget + op_power op) < 2 ^ 128 →
  agrees (budget + op_power op) op g s.
Proof.
  intros Hsim Hok Hb0 Hb. destruct op; cbn [op_ok op_power] in *; rewrite ?Z.add_0_r in *.
  - by apply create_agrees.
  - apply vote_agrees; [done..|lia].
  - by apply finalize_agrees.
  - by apply execute_agrees.
Qed.

Lemma gov_run budget ops g s :
  simulates budget g s → Forall op_ok ops → 0 <= budget →
  10000 * (budget + list_sumZ op_power ops) < 2 ^ 128 →
  (run_all run_op ops g).1 = (run_all spec_op ops s).1 ∧
  simulates (budget + list_sumZ op_power ops) (run_all run_op ops g).2 (run_all spec_op ops s).2.
Proof.
  revert budget g s. induction ops as [|op ops IH]; intros budget g s Hsim Hok Hb0 Hb.
  { cbn in *. by rewrite Z.add_0_r. }
  apply Forall_cons in Hok as [Hop Hops]. cbn [list_sumZ] in Hb.
  assert (0 <= op_power op) by (destruct op; cbn in *; lia).
  assert (0 <= list_sumZ op_power ops).
  { apply list_sumZ_nonneg. intros o Ho. eapply Forall_forall in Hops; [|done]. destruct o; cbn in *; lia. }
  destruct (gov_step budget op g s) as [Hr1 Hs1]; [done..|lia|].
  cbn [run_all]. destruct (run_op op g) as [r1 g1], (spec_op op s) as [r2 s1]. cbn in Hr1, Hs1.
  destruct (IH (budget + op_power op) g1 s1) as [Hr2 Hs2]; [done..|lia|lia|].
  destruct (run_all run_op ops g1) as [rs1 g2], (run_all spec_op ops s1) as [rs2 s2].
  cbn [fst snd list_sumZ] in *. split; [by subst|].
  by replace (budget + (op_power op + list_sumZ op_power ops))
    with (budget + op_power op + list_sumZ op_power ops) by lia.
Qed.

End refinement.


(** A proposal voted, refused a second ballot, passed and executed. *)
Section witness.
#[local] Existing Instance prefix_crypto.
#[local] Existing Instance key_order_iter.
#[local] Instance unset_env : ProcessEnv := {|
  VTT_VOTING_PERIOD_BLOCKS := None; VTT_EXECUTION_DELAY_BLOCKS := None |}.
#[local] Instance demo_id_codec : Borsh (Z * Address * Z) := countable_borsh _.

Definition demo_proposal_id : H256 := blake3_hash (to_vec (0, Address_ZERO, 10)).

Definition demo_ops : list GovOp :=
  [OpCreate Address_ZERO (DexPause true) "pause" 10 100;
   OpVote demo_proposal_id Address_ZERO Yes 40 11;
   OpVote demo_proposal_id Address_ZERO No 40 12;
   OpExecute demo_proposal_id;
   OpFinalize demo_proposal_id 100 201610;
   OpExecute demo_proposal_id].

End witness.
