(* ===== verification/Compliance.v ===== *)
(** * Identity and compliance ([crates/vtt-compliance])

    On-chain identities with their claims, the compliance configuration of a
    chain, and the checks of an identity and of a transfer against it. *)

From S2P Require Import Prelude Primitives RustStr.

Inductive IdentityType := Individual | Institution | ClaimIssuer | OracleNode | ItValidator.

Inductive ClaimType :=
  | KYC | AMLCleared | AccreditedInvestor | QualifiedPurchaser | CtJurisdiction
  | CtCustom (n : Z).

#[global] Instance IdentityType_eq_dec : EqDecision IdentityType.
Proof. solve_decision. Defined.
#[global] Instance ClaimType_eq_dec : EqDecision ClaimType.
Proof. solve_decision. Defined.

Record Claim := MkClaim {
  cl_claim_type : ClaimType;
  cl_value : bytes;
  cl_issuer : H256;
  cl_issued_at : Z;
  cl_expires_at : Z;
  cl_revoked : bool;
}.

Definition Claim_eta (c : Claim) : Claim :=
  MkClaim (cl_claim_type c) (cl_value c) (cl_issuer c) (cl_issued_at c) (cl_expires_at c)
    (cl_revoked c).

#[global] Instance upd_cl_revoked : Updater cl_revoked.
Proof. derive_updater Claim_eta. Defined.

Record OnChainIdentity := MkOnChainIdentity {
  oi_id : H256;
  oi_did_uri : bytes;
  oi_claims : list Claim;
  oi_controlled_addresses : list Address;
  oi_identity_type : IdentityType;
  oi_created_at : Z;
}.

Definition OnChainIdentity_eta (i : OnChainIdentity) : OnChainIdentity :=
  MkOnChainIdentity (oi_id i) (oi_did_uri i) (oi_claims i) (oi_controlled_addresses i)
    (oi_identity_type i) (oi_created_at i).

#[global] Instance upd_oi_claims : Updater oi_claims.
Proof. derive_updater OnChainIdentity_eta. Defined.

Module Identity.

(** The test written out in three closures of the source: neither revoked nor
    expired. *)
Definition live (c : Claim) (current_time : Z) : bool :=
  negb (cl_revoked c) && ((cl_expires_at c =? 0) || (current_time <? cl_expires_at c)).

Definition has_valid_claim (i : OnChainIdentity) (t : ClaimType) (current_time : Z) : bool :=
  existsb (λ c, bool_decide (cl_claim_type c = t) && live c current_time) (oi_claims i).

Definition get_valid_claims (i : OnChainIdentity) (t : ClaimType) (current_time : Z) : list Claim :=
  filter (λ c, bool_decide (cl_claim_type c = t) && live c current_time = true) (oi_claims i).

Definition jurisdiction (i : OnChainIdentity) (current_time : Z) : option bytes :=
  (λ c, Str.from_utf8_lossy (cl_value c)) <$> head (get_valid_claims i CtJurisdiction current_time).

Definition add_claim (c : Claim) (i : OnChainIdentity) : OnChainIdentity :=
  i <| oi_claims := oi_claims i ++ [c] |>.

Definition revoke_claim (index : nat) (i : OnChainIdentity) : bool * OnChainIdentity :=
  match oi_claims i !! index with
  | Some c => (true, i <| oi_claims := <[index := c <| cl_revoked := true |>]> (oi_claims i) |>)
  | None => (false, i)
  end.

End Identity.

Record ChainComplianceConfig := MkChainComplianceConfig {
  cc_requires_identity : bool;
  cc_minimum_claims : list ClaimType;
  cc_trusted_claim_issuers : list H256;
  cc_allow_anonymous : bool;
  cc_jurisdiction_whitelist : list bytes;
  cc_jurisdiction_blacklist : list bytes;
  cc_max_holders_per_asset : Z;
}.

Inductive ComplianceDenialReason :=
  | IdentityRequired
  | MissingClaim (t : ClaimType)
  | ExpiredClaim (t : ClaimType)
  | UntrustedIssuer
  | JurisdictionRestricted (country : bytes)
  | MaxHoldersReached.

Inductive ComplianceResult := Allowed | Denied (reason : ComplianceDenialReason).

Module Compliance.

Definition permissionless : ChainComplianceConfig :=
  MkChainComplianceConfig false [] [] true [] [] 0.

Definition permissioned (trusted_issuers : list H256) : ChainComplianceConfig :=
  MkChainComplianceConfig true [KYC; AMLCleared] trusted_issuers false [] [] 0.

Definition is_allowed (r : ComplianceResult) : bool :=
  match r with Allowed => true | Denied _ => false end.

(** The first of the minimum claims that is not held. *)
Definition missing_claim (i : OnChainIdentity) (required : list ClaimType) (current_time : Z)
    : option ClaimType :=
  snd <$> list_find (λ t, Identity.has_valid_claim i t current_time = false) required.

Definition has_trusted_claim (i : OnChainIdentity) (issuers : list H256) (current_time : Z) : bool :=
  existsb (λ c, Identity.live c current_time && bool_decide (cl_issuer c ∈ issuers)) (oi_claims i).

(** The early returns of the source are the [Denied] alternatives, in order. *)
Definition check_identity_compliance (i : OnChainIdentity) (config : ChainComplianceConfig)
    (current_time : Z) : ComplianceResult :=
  match missing_claim i (cc_minimum_claims config) current_time with
  | Some t => Denied (MissingClaim t)
  | None =>
      if negb (bool_decide (cc_trusted_claim_issuers config = []))
         && negb (has_trusted_claim i (cc_trusted_claim_issuers config) current_time)
      then Denied UntrustedIssuer
      else
        let country := Identity.jurisdiction i current_time in
        let white := cc_jurisdiction_whitelist config in
        let black := cc_jurisdiction_blacklist config in
        let whitelisted :=
          if bool_decide (white = []) then Allowed
          else match country with
               | Some j => if bool_decide (j ∈ white) then Allowed
                           else Denied (JurisdictionRestricted j)
               | None => Denied (MissingClaim CtJurisdiction)
               end in
        match whitelisted with
        | Denied r => Denied r
        | Allowed =>
            if bool_decide (black = []) then Allowed
            else match country with
                 | Some j => if bool_decide (j ∈ black) then Denied (JurisdictionRestricted j)
                             else Allowed
                 | None => Allowed
                 end
        end
  end.

Definition check_transfer_compliance (from to : OnChainIdentity) (asset_id : H256)
    (amount : Amount) (config : ChainComplianceConfig) (current_time : Z) : ComplianceResult :=
  let from_check := check_identity_compliance from config current_time in
  if negb (is_allowed from_check) then from_check
  else
    let to_check := check_identity_compliance to config current_time in
    if negb (is_allowed to_check) then to_check else Allowed.

End Compliance.

(** ** What the checks decide *)

(** A claim in force at a time. *)
Definition in_force (c : Claim) (now : Z) : Prop :=
  cl_revoked c = false ∧ (cl_expires_at c = 0 ∨ now < cl_expires_at c).

Lemma live_in_force c now : Identity.live c now = true ↔ in_force c now.
Proof.
  unfold Identity.live, in_force. rewrite andb_true_iff, orb_true_iff, negb_true_iff, Z.eqb_eq, Z.ltb_lt.
  done.
Qed.

Lemma has_valid_claim_iff i t now :
  Identity.has_valid_claim i t now = true ↔
  ∃ c, c ∈ oi_claims i ∧ cl_claim_type c = t ∧ in_force c now.
Proof.
  unfold Identity.has_valid_claim. rewrite existsb_exists.
  setoid_rewrite <- list_elem_of_In. setoid_rewrite andb_true_iff.
  setoid_rewrite bool_decide_eq_true. by setoid_rewrite live_in_force.
Qed.

Lemma missing_claim_None i required now :
  Compliance.missing_claim i required now = None ↔
  ∀ t, t ∈ required → Identity.has_valid_claim i t now = true.
Proof.
  unfold Compliance.missing_claim. rewrite fmap_None, list_find_None, Forall_forall.
  split; intros H t Ht; specialize (H t Ht); by destruct (Identity.has_valid_claim i t now).
Qed.

Lemma has_trusted_claim_iff i issuers now :
  Compliance.has_trusted_claim i issuers now = true ↔
  ∃ c, c ∈ oi_claims i ∧ in_force c now ∧ cl_issuer c ∈ issuers.
Proof.
  unfold Compliance.has_trusted_claim. rewrite existsb_exists.
  setoid_rewrite <- list_elem_of_In. setoid_rewrite andb_true_iff.
  setoid_rewrite bool_decide_eq_true. by setoid_rewrite live_in_force.
Qed.

(** The country of an identity: its first jurisdiction claim in force. *)
Definition compliant (i : OnChainIdentity) (config : ChainComplianceConfig) (now : Z) : Prop :=
  (∀ t, t ∈ cc_minimum_claims config →
     ∃ c, c ∈ oi_claims i ∧ cl_claim_type c = t ∧ in_force c now) ∧
  (cc_trusted_claim_issuers config = [] ∨
     ∃ c, c ∈ oi_claims i ∧ in_force c now ∧ cl_issuer c ∈ cc_trusted_claim_issuers config) ∧
  (cc_jurisdiction_whitelist config = [] ∨
     ∃ j, Identity.jurisdiction i now = Some j ∧ j ∈ cc_jurisdiction_whitelist config) ∧
  (∀ j, Identity.jurisdiction i now = Some j → j ∉ cc_jurisdiction_blacklist config).

Lemma check_identity_iff i config now :
  Compliance.check_identity_compliance i config now = Allowed ↔ compliant i config now.
Proof.
  unfold Compliance.check_identity_compliance, compliant.
  setoid_rewrite <- has_valid_claim_iff. setoid_rewrite <- has_trusted_claim_iff.
  rewrite <- missing_claim_None.
  destruct (Compliance.missing_claim _ _ _) as [t|]; [by split; [|intros [? _]]|].
  destruct (bool_decide_reflect (cc_trusted_claim_issuers config = [])) as [Hi|Hi],
    (Compliance.has_trusted_claim _ _ _) eqn:Ht; cbn;
    try (split; [done|]; intros (_ & [?|?] & _); congruence);
    (destruct (Identity.jurisdiction i now) as [j|] eqn:Ej;
     repeat case_bool_decide; destruct config; cbn in *; subst; set_unfold; naive_solver).
Qed.

(** A transfer is allowed exactly when both parties hold every minimum claim
    in force, some claim in force from a trusted issuer (if any is configured),
    a whitelisted country (if there is a whitelist) and no blacklisted country. *)
Theorem transfer_compliance_exact from to asset_id amount config now :
  Compliance.check_transfer_compliance from to asset_id amount config now = Allowed ↔
  compliant from config now ∧ compliant to config now.
Proof.
  rewrite <- !check_identity_iff. unfold Compliance.check_transfer_compliance.
  destruct (Compliance.check_identity_compliance from config now),
    (Compliance.check_identity_compliance to config now); cbn; naive_solver.
Qed.

(** The issuer of a claim is not checked claim by claim: KYC and AML claims an
    identity issued to itself are accepted next to an unrelated trusted claim. *)
Example self_issued_kyc_accepted :
  let self := MkH256 "self" in
  let trusted := MkH256 "trusted" in
  let i := MkOnChainIdentity self "did:vtt:1"
             [MkClaim KYC "" self 0 0 false; MkClaim AMLCleared "" self 0 0 false;
              MkClaim (CtCustom 7) "newsletter" trusted 0 0 false] [] Individual 0 in
  Compliance.check_identity_compliance i (Compliance.permissioned [trusted]) 1 = Allowed.
Proof. vm_compute. reflexivity. Qed.
