(* ===== verification/Multichain.v ===== *)
(** * Registered chains, shared security, cross-chain messages
    ([crates/vtt-multichain])

    The in-memory registry of application chains, the assignment of relay
    validators to a chain, and the outbox and inbox of cross-chain messages. *)

From S2P Require Import Prelude Primitives RustStr Compliance.

(** ** Registry ([registry.rs]) *)

Inductive RegistryError :=
  | ReAlreadyRegistered (c : ChainId) | ReNotFound (c : ChainId) | ReCannotModifyRelay
  | ReInvalidConfig (msg : string).

Record RegisteredChain := MkRegisteredChain {
  rg_chain_id : ChainId;
  rg_name : bytes;
  rg_description : bytes;
  rg_validator_count : Z;
  rg_consensus : ConsensusParams;
  rg_gas : GasConfig;
  rg_compliance : ChainComplianceConfig;
  rg_genesis_hash : H256;
  rg_active : bool;
  rg_registered_at : Z;
  rg_proposer : Address;
}.

Definition RegisteredChain_eta (c : RegisteredChain) : RegisteredChain :=
  MkRegisteredChain (rg_chain_id c) (rg_name c) (rg_description c) (rg_validator_count c)
    (rg_consensus c) (rg_gas c) (rg_compliance c) (rg_genesis_hash c) (rg_active c)
    (rg_registered_at c) (rg_proposer c).

#[global] Instance upd_rg_active : Updater rg_active.
Proof. derive_updater RegisteredChain_eta. Defined.

Record ChainRegistry := MkChainRegistry {
  cr_chains : gmap ChainId RegisteredChain;
  cr_next_chain_id : Z;
}.

Record RegisterChainRequest := MkRegisterChainRequest {
  rq_name : bytes;
  rq_description : bytes;
  rq_validator_count : Z;
  rq_consensus : ConsensusParams;
  rq_gas : GasConfig;
  rq_compliance : ChainComplianceConfig;
  rq_proposer : Address;
  rq_epoch : Z;
}.

Module Registry.
Section with_iter.
Context `{!HashIter}.

Definition relay : RegisteredChain := {|
  rg_chain_id := ChainId_RELAY;
  rg_name := "VTT Relay Chain";
  rg_description := "The root chain for validator registry and cross-chain messaging";
  rg_validator_count := 21;
  rg_consensus := ConsensusParams_default;
  rg_gas := GasConfig_default;
  rg_compliance := Compliance.permissionless;
  rg_genesis_hash := H256_ZERO;
  rg_active := true;
  rg_registered_at := 0;
  rg_proposer := Address_ZERO;
|}.

Definition new : ChainRegistry := MkChainRegistry {[ChainId_RELAY := relay]} 1.

Definition register_chain (req : RegisterChainRequest) : M ChainRegistry RegistryError ChainId :=
  _ ← fail_if (rq_validator_count req =? 0) (ReInvalidConfig "validator_count must be > 0");
  chain_id ← gets cr_next_chain_id;
  let chain := {|
    rg_chain_id := chain_id;
    rg_name := rq_name req;
    rg_description := rq_description req;
    rg_validator_count := rq_validator_count req;
    rg_consensus := rq_consensus req;
    rg_gas := rq_gas req;
    rg_compliance := rq_compliance req;
    rg_genesis_hash := H256_ZERO;
    rg_active := true;
    rg_registered_at := rq_epoch req;
    rg_proposer := rq_proposer req;
  |} in
  _ ← modify (λ r, MkChainRegistry (<[chain_id := chain]> (cr_chains r))
                     (wrap 32 (chain_id + 1)));
  mret chain_id.

Definition get (r : ChainRegistry) (chain_id : ChainId) : option RegisteredChain :=
  cr_chains r !! chain_id.

Definition deactivate (chain_id : ChainId) : M ChainRegistry RegistryError unit :=
  _ ← fail_if (is_relay chain_id) ReCannotModifyRelay;
  chain ← gets (λ r, cr_chains r !! chain_id);
  chain ← lift (ok_or (ReNotFound chain_id) chain);
  modify (λ r, MkChainRegistry (<[chain_id := chain <| rg_active := false |>]> (cr_chains r))
                 (cr_next_chain_id r)).

Definition all_chains (r : ChainRegistry) : list RegisteredChain := snd <$> hash_iter (cr_chains r).

Definition active_chains (r : ChainRegistry) : list RegisteredChain :=
  filter (λ c, rg_active c = true) (all_chains r).

Definition chain_count (r : ChainRegistry) : Z := Z.of_nat (size (cr_chains r)).

Definition active_app_chain_count (r : ChainRegistry) : Z :=
  Z.of_nat (length (filter (λ c, rg_active c && negb (is_relay (rg_chain_id c)) = true)
                      (all_chains r))).
End with_iter.
End Registry.

(** ** Shared security ([shared_security.rs]) *)

Record ValidatorAssignment := MkValidatorAssignment {
  va_chain_id : ChainId;
  va_epoch : Z;
  va_validators : list Address;
}.

Module Shared.

(** [indices.swap(i, j)], both in range at every call. *)
Definition swap {A} (i j : nat) (l : list A) : list A :=
  match l !! i, l !! j with
  | Some x, Some y => <[j := x]> (<[i := y]> l)
  | _, _ => l
  end.

(** Four bytes of the seed, cyclically, as a little-endian integer. *)
Definition rand_val (seed : bytes) (i : nat) : Z :=
  let byte k := default 0 (Str.to_codes seed !! (k mod 32)%nat) in
  let o := (i * 4 mod 32)%nat in
  from_le_bytes (Str.of_codes [byte o; byte (o + 1)%nat; byte (o + 2)%nat; byte (o + 3)%nat]).

(** The body of the shuffle for index [i]. *)
Definition shuffle_step (seed : bytes) (indices : list nat) (i : nat) : list nat :=
  let remaining := Z.of_nat (length indices) - Z.of_nat i in
  let j := (i + Z.to_nat (rand_val seed i mod remaining))%nat in
  swap i j indices.

Definition assign_validators `{!Crypto, !Borsh (Z * Z)} (relay_validators : list Address)
    (chain_id : ChainId) (epoch count : Z) : ValidatorAssignment :=
  let count := Nat.min (Z.to_nat count) (length relay_validators) in
  let validators :=
    if (count =? 0)%nat || bool_decide (relay_validators = []) then []
    else if (length relay_validators <=? count)%nat then relay_validators
    else
      let seed := h256_bytes (blake3_hash (to_vec (epoch, chain_id))) in
      let indices := foldl (shuffle_step seed) (seq 0 (length relay_validators)) (seq 0 count) in
      omap (λ idx, relay_validators !! idx) (take count indices) in
  MkValidatorAssignment chain_id epoch validators.

End Shared.

(** ** Messages ([messaging.rs]) *)

Inductive MessagingError :=
  | MeSameChain | MeAlreadyProcessed (id : H256) | MeInvalidProof (id : H256)
  | MeDestinationNotFound (c : ChainId) | MeInboxFull (cap : Z).

Inductive MessagePayload :=
  | MpVttTransfer (amount : Amount)
  | MpAssetTransfer (asset_id : H256) (amount : Amount)
  | MpDataMessage (data : bytes).

Inductive MessageStatus := MsPending | MsRelayed | MsDelivered | MsFailed (reason : bytes).

Record CrossChainMessage := MkCrossChainMessage {
  cm_id : H256;
  cm_nonce : Z;
  cm_source_chain : ChainId;
  cm_destination_chain : ChainId;
  cm_sender : Address;
  cm_recipient : Address;
  cm_payload : MessagePayload;
  cm_status : MessageStatus;
  cm_source_block : Z;
}.

Definition CrossChainMessage_eta (m : CrossChainMessage) : CrossChainMessage :=
  MkCrossChainMessage (cm_id m) (cm_nonce m) (cm_source_chain m) (cm_destination_chain m)
    (cm_sender m) (cm_recipient m) (cm_payload m) (cm_status m) (cm_source_block m).

#[global] Instance upd_cm_status : Updater cm_status.
Proof. derive_updater CrossChainMessage_eta. Defined.

Record MessageOutbox := MkMessageOutbox {
  ob_chain_id : ChainId;
  ob_next_nonce : Z;
  ob_messages : list CrossChainMessage;
}.

Record MessageInbox := MkMessageInbox {
  ib_chain_id : ChainId;
  ib_processed : gset H256;
  ib_processed_order : list H256;
  ib_pending : list CrossChainMessage;
  ib_pending_cap : Z;
  ib_processed_cap : Z;
}.

Definition DEFAULT_INBOX_PENDING_CAP : Z := 10000.
Definition DEFAULT_INBOX_PROCESSED_CAP : Z := 50000.

Module Message.
Section with_codec.
Context `{!Crypto, !Borsh (Z * Z * Z * Address * MessagePayload), !Borsh CrossChainMessage}.

Definition new (nonce : Z) (source destination : ChainId) (sender recipient : Address)
    (payload : MessagePayload) (source_block : Z) : res MessagingError CrossChainMessage :=
  if source =? destination then Err MeSameChain
  else Ok {|
    cm_id := blake3_hash (to_vec (nonce, source, destination, sender, payload));
    cm_nonce := nonce;
    cm_source_chain := source;
    cm_destination_chain := destination;
    cm_sender := sender;
    cm_recipient := recipient;
    cm_payload := payload;
    cm_status := MsPending;
    cm_source_block := source_block;
  |}.

Definition hash (m : CrossChainMessage) : H256 := blake3_hash (to_vec m).
End with_codec.
End Message.

Module Outbox.
Section with_codec.
Context `{!Crypto, !Borsh (Z * Z * Z * Address * MessagePayload), !Borsh CrossChainMessage}.

Definition new (chain_id : ChainId) : MessageOutbox := MkMessageOutbox chain_id 0 [].

Definition send (destination : ChainId) (sender recipient : Address) (payload : MessagePayload)
    (block_number : Z) : M MessageOutbox MessagingError CrossChainMessage :=
  o ← gets id;
  msg ← lift (Message.new (ob_next_nonce o) (ob_chain_id o) destination sender recipient payload
                block_number);
  _ ← modify (λ o, MkMessageOutbox (ob_chain_id o) (wrap 64 (ob_next_nonce o + 1))
                     (ob_messages o ++ [msg]));
  mret msg.

Definition root (o : MessageOutbox) : H256 :=
  if bool_decide (ob_messages o = []) then H256_ZERO
  else merkle_root (Message.hash <$> ob_messages o).

Definition drain (o : MessageOutbox) : list CrossChainMessage * MessageOutbox :=
  (ob_messages o, MkMessageOutbox (ob_chain_id o) (ob_next_nonce o) []).

Definition pending_count (o : MessageOutbox) : Z := Z.of_nat (length (ob_messages o)).
End with_codec.
End Outbox.

Module Inbox.

Definition with_caps (chain_id : ChainId) (pending_cap processed_cap : Z) : MessageInbox :=
  MkMessageInbox chain_id ∅ [] [] (Z.max pending_cap 1) (Z.max processed_cap 1).

Definition new (chain_id : ChainId) : MessageInbox :=
  with_caps chain_id DEFAULT_INBOX_PENDING_CAP DEFAULT_INBOX_PROCESSED_CAP.

(** The oldest id leaves the window when it is full. *)
Definition evict (b : MessageInbox) : MessageInbox :=
  if ib_processed_cap b <=? Z.of_nat (size (ib_processed b)) then
    match ib_processed_order b with
    | oldest :: rest =>
        MkMessageInbox (ib_chain_id b) (ib_processed b ∖ {[oldest]}) rest (ib_pending b)
          (ib_pending_cap b) (ib_processed_cap b)
    | [] => b
    end
  else b.

Definition receive (msg : CrossChainMessage) : M MessageInbox MessagingError unit :=
  b ← gets id;
  _ ← fail_if (bool_decide (cm_id msg ∈ ib_processed b)) (MeAlreadyProcessed (cm_id msg));
  _ ← fail_if (ib_pending_cap b <=? Z.of_nat (length (ib_pending b))) (MeInboxFull (ib_pending_cap b));
  let msg := msg <| cm_status := MsDelivered |> in
  _ ← modify (λ b, MkMessageInbox (ib_chain_id b) (ib_processed b) (ib_processed_order b)
                     (ib_pending b ++ [msg]) (ib_pending_cap b) (ib_processed_cap b));
  _ ← modify evict;
  modify (λ b, MkMessageInbox (ib_chain_id b) ({[cm_id msg]} ∪ ib_processed b)
                 (ib_processed_order b ++ [cm_id msg]) (ib_pending b)
                 (ib_pending_cap b) (ib_processed_cap b)).

Definition next_pending (b : MessageInbox) : option CrossChainMessage * MessageInbox :=
  match ib_pending b with
  | m :: rest =>
      (Some m, MkMessageInbox (ib_chain_id b) (ib_processed b) (ib_processed_order b) rest
                 (ib_pending_cap b) (ib_processed_cap b))
  | [] => (None, b)
  end.

Definition pending_count (b : MessageInbox) : Z := Z.of_nat (length (ib_pending b)).
Definition processed_count (b : MessageInbox) : Z := Z.of_nat (size (ib_processed b)).

End Inbox.

(** ** Properties of the assignment *)

Definition transpose (i j k : nat) : nat :=
  if decide (k = j) then i else if decide (k = i) then j else k.

Lemma swap_lookup {A} (l : list A) i j k :
  (i < length l)%nat → (j < length l)%nat → Shared.swap i j l !! k = l !! transpose i j k.
Proof.
  intros Hi Hj. unfold Shared.swap, transpose.
  apply lookup_lt_is_Some in Hi as [x Hx], Hj as [y Hy]. rewrite Hx, Hy.
  pose proof (lookup_lt_Some _ _ _ Hx). pose proof (lookup_lt_Some _ _ _ Hy).
  repeat case_decide; subst.
  - rewrite list_lookup_insert_eq; [done|]. by rewrite length_insert.
  - rewrite list_lookup_insert_ne by done. by rewrite list_lookup_insert_eq.
  - by rewrite !list_lookup_insert_ne by done.
Qed.

Lemma transpose_inj i j a b : transpose i j a = transpose i j b → a = b.
Proof. unfold transpose. repeat case_decide; congruence. Qed.

Lemma swap_length {A} (l : list A) i j : length (Shared.swap i j l) = length l.
Proof. unfold Shared.swap. by repeat case_match; rewrite ?length_insert. Qed.

(** The shuffle permutes the indices. *)
Definition is_shuffle (n : nat) (l : list nat) : Prop :=
  length l = n ∧ NoDup l ∧ Forall (λ k, (k < n)%nat) l.

Lemma shuffle_step_ok seed n l i :
  (i < n)%nat → is_shuffle n l → is_shuffle n (Shared.shuffle_step seed l i).
Proof.
  intros Hi (Hlen & Hnd & Hlt). unfold Shared.shuffle_step. rewrite Hlen.
  set (j := (i + Z.to_nat _)%nat).
  assert (j < n)%nat as Hj.
  { pose proof (Z.mod_pos_bound (Shared.rand_val seed i) (Z.of_nat n - Z.of_nat i) ltac:(lia)).
    subst j. lia. }
  clearbody j. split; [by rewrite swap_length|]. split.
  - apply NoDup_alt. intros a b x. rewrite !swap_lookup by lia. intros Ha Hb.
    eapply transpose_inj. rewrite NoDup_alt in Hnd. by eapply Hnd.
  - apply Forall_lookup_2. intros k x. rewrite swap_lookup by lia.
    intros Hx. exact (Forall_lookup_1 _ _ _ _ Hlt Hx).
Qed.

Lemma shuffle_ok seed n c : (c <= n)%nat → is_shuffle n (foldl (Shared.shuffle_step seed) (seq 0 n) (seq 0 c)).
Proof.
  intros Hc. assert (is_shuffle n (seq 0 n)) as Hl.
  { split; [apply length_seq|]. split; [apply NoDup_seq|]. apply Forall_seq. lia. }
  assert (Forall (λ i, (i < n)%nat) (seq 0 c)) as Hs by (apply Forall_seq; lia).
  revert Hl. generalize (seq 0 n). induction Hs as [|i s Hi _ IH]; intros l Hl; cbn; [done|].
  by apply IH, shuffle_step_ok.
Qed.

Lemma omap_lookup_ok {A} (l : list A) (ks : list nat) :
  Forall (λ k, (k < length l)%nat) ks → length (omap (λ k, l !! k) ks) = length ks ∧
  (NoDup l → NoDup ks → NoDup (omap (λ k, l !! k) ks)).
Proof.
  induction 1 as [|k ks Hk Hks [IH1 IH2]]; [split; [done|]; constructor|].
  apply lookup_lt_is_Some in Hk as [x Hx]. cbn. rewrite Hx. cbn. split; [by rewrite IH1|].
  intros Hl [Hk' Hks']%NoDup_cons. apply NoDup_cons. split; [|by apply IH2].
  intros (k' & Hin & Hk2)%list_elem_of_omap. rewrite NoDup_alt in Hl.
  by rewrite (Hl _ _ _ Hx Hk2) in Hk'.
Qed.

(** The validators assigned to a chain are relay validators, as many as
    asked for or all of them, and no validator is assigned twice. *)
Theorem assignment_sound `{!Crypto, !Borsh (Z * Z)} relay chain_id epoch count :
  NoDup relay →
  let l := va_validators (Shared.assign_validators relay chain_id epoch count) in
  NoDup l ∧ l ⊆ relay ∧ length l = Nat.min (Z.to_nat count) (length relay).
Proof.
  intros Hnd. unfold Shared.assign_validators. cbn zeta. cbn [va_validators].
  set (c := Nat.min _ _). destruct (Nat.eqb_spec c 0) as [->|Hc]; cbn [orb].
  { split; [constructor|]. split; [apply list_subseteq_nil|done]. }
  case_bool_decide as Hr; [by subst relay c; rewrite Nat.min_0_r in Hc|].
  destruct (Nat.leb_spec (length relay) c) as [Hle|Hlt].
  { split; [done|]. split; [done|]. lia. }
  set (seed := h256_bytes _).
  destruct (shuffle_ok seed (length relay) c ltac:(lia)) as (Hlen & Hnd' & Hlt').
  set (ks := foldl _ _ _) in *. clearbody ks.
  assert (Forall (λ k, (k < length relay)%nat) (take c ks)) as Ht by by apply Forall_take.
  destruct (omap_lookup_ok relay (take c ks) Ht) as [Hl1 Hl2]. split.
  - apply Hl2; [done|]. eapply sublist_NoDup; [done|]. apply sublist_take.
  - split; [|rewrite Hl1, length_take; lia].
    intros a (k & _ & Hk)%list_elem_of_omap. by eapply list_elem_of_lookup_2.
Qed.

(** ** The inbox as a log

    The specification keeps every id ever accepted, and the queue; the inbox
    only keeps a window. *)

Inductive InboxOp := IReceive (msg : CrossChainMessage) | INext.

Definition InboxReply : Type := res MessagingError (option CrossChainMessage).

Definition run_inbox (op : InboxOp) (b : MessageInbox) : InboxReply * MessageInbox :=
  match op with
  | IReceive msg => let '(r, b') := Inbox.receive msg b in (_ ← r; Ok None, b')
  | INext => let '(o, b') := Inbox.next_pending b in (Ok o, b')
  end.

Definition last_n {A} (n : nat) (l : list A) : list A := drop (length l - n) l.

Definition spec_inbox (pending_cap window : nat) (op : InboxOp)
    (s : list H256 * list CrossChainMessage) : InboxReply * (list H256 * list CrossChainMessage) :=
  let '(log, queue) := s in
  match op with
  | IReceive msg =>
      if decide (cm_id msg ∈ last_n window log) then (Err (MeAlreadyProcessed (cm_id msg)), s)
      else if (pending_cap <=? length queue)%nat then (Err (MeInboxFull (Z.of_nat pending_cap)), s)
      else (Ok None, (log ++ [cm_id msg], queue ++ [msg <| cm_status := MsDelivered |>]))
  | INext => match queue with
             | m :: queue => (Ok (Some m), (log, queue))
             | [] => (Ok None, s)
             end
  end.

Fixpoint run_ops {S} (step : InboxOp → S → InboxReply * S) (ops : list InboxOp) (s : S)
    : list InboxReply * S :=
  match ops with
  | [] => ([], s)
  | op :: ops => let '(r, s1) := step op s in
                 let '(rs, s2) := run_ops step ops s1 in (r :: rs, s2)
  end.

Record window_of (pending_cap window : nat) (b : MessageInbox) (log : list H256)
    (queue : list CrossChainMessage) : Prop := {
  wo_caps : ib_pending_cap b = Z.of_nat pending_cap ∧ ib_processed_cap b = Z.of_nat window;
  wo_order : ib_processed_order b = last_n window log;
  wo_set : ib_processed b = list_to_set (last_n window log);
  wo_once : NoDup (last_n window log);
  wo_queue : ib_pending b = queue;
}.

Lemma last_n_length {A} n (l : list A) : length (last_n n l) = Nat.min n (length l).
Proof. unfold last_n. rewrite length_drop. lia. Qed.

Lemma last_n_short {A} n (l : list A) : (length l <= n)%nat → last_n n l = l.
Proof. intros H. unfold last_n. by replace (length l - n)%nat with 0%nat by lia. Qed.

(** The window after one more id: the oldest leaves when it was full. *)
Lemma last_n_snoc {A} n (l : list A) x :
  (0 < n)%nat →
  last_n n (l ++ [x]) = (if (n <=? length l)%nat then tail (last_n n l) else last_n n l) ++ [x].
Proof.
  intros Hn. destruct (Nat.leb_spec n (length l)) as [Hle|Hlt].
  - unfold last_n. rewrite length_app. cbn [length].
    rewrite drop_app_le by lia. f_equal.
    replace (length l + 1 - n)%nat with ((length l - n) + 1)%nat by lia.
    rewrite <- drop_drop. by destruct (drop (length l - n) l).
  - rewrite !last_n_short; [done|lia|]. rewrite length_app. cbn. lia.
Qed.

Lemma receive_windows pending_cap window msg b log queue :
  (0 < window)%nat → window_of pending_cap window b log queue →
  (run_inbox (IReceive msg) b).1 = (spec_inbox pending_cap window (IReceive msg) (log, queue)).1 ∧
  let s := (spec_inbox pending_cap window (IReceive msg) (log, queue)).2 in
  window_of pending_cap window (run_inbox (IReceive msg) b).2 s.1 s.2.
Proof.
  intros Hw Hwo. pose proof Hwo as [[Hc1 Hc2] Ho Hs Hd Hq].
  unfold run_inbox, spec_inbox, Inbox.receive. mrun. cbn [id]. rewrite Hs, Hc1, Hq.
  destruct (decide (cm_id msg ∈ last_n window log)) as [Hin|Hni].
  { rewrite bool_decide_true by set_solver. done. }
  rewrite bool_decide_false by set_solver.
  destruct (Nat.leb_spec pending_cap (length queue)) as [Hle|Hlt].
  { rewrite (proj2 (Z.leb_le _ _)) by lia. done. }
  rewrite (proj2 (Z.leb_gt _ _)) by lia. split; [done|]. cbn [fst snd].
  unfold Inbox.evict. cbn [ib_processed_cap ib_processed ib_processed_order].
  rewrite Hc2, Ho, size_list_to_set, last_n_length by done.
  pose proof (last_n_snoc window log (cm_id msg) Hw) as Hsnoc.
  assert (NoDup (last_n window (log ++ [cm_id msg]))) as Hd'.
  { rewrite Hsnoc. apply NoDup_app. split; [|split; [|apply NoDup_singleton]].
    - destruct (_ <=? _)%nat; [|done]. by destruct (last_n window log); [|apply NoDup_cons in Hd as []].
    - intros x Hx ->%list_elem_of_singleton. apply Hni. destruct (_ <=? _)%nat; [|done].
      destruct (last_n window log); [done|by right]. }
  destruct (Nat.leb_spec window (length log)) as [Hfull|Hroom].
  - rewrite (proj2 (Z.leb_le _ _)) by lia.
    pose proof (last_n_length window log) as Hlen.
    destruct (last_n window log) as [|oldest rest] eqn:El; [cbn in Hlen; lia|].
    cbn [tail] in Hsnoc. split; cbn; [done|by rewrite Hsnoc| |done|done].
    rewrite Hsnoc, list_to_set_app_L. apply NoDup_cons in Hd as [Hold _]. set_solver.
  - rewrite (proj2 (Z.leb_gt _ _)) by lia.
    split; cbn; [done|by rewrite Hsnoc| |done|done].
    rewrite Hsnoc, list_to_set_app_L. set_solver.
Qed.

(** C26: however messages arrive and are taken, the inbox answers as a log that
    refuses a message whose id is among the last [window] accepted ones, or when
    the queue is full, and otherwise queues it in order: within the window no
    message is delivered twice. *)
Theorem inbox_refines_log chain_id pending_cap window ops :
  (0 < pending_cap)%nat → (0 < window)%nat →
  let b := Inbox.with_caps chain_id (Z.of_nat pending_cap) (Z.of_nat window) in
  (run_ops run_inbox ops b).1 = (run_ops (spec_inbox pending_cap window) ops ([], [])).1 ∧
  let s := (run_ops (spec_inbox pending_cap window) ops ([], [])).2 in
  window_of pending_cap window (run_ops run_inbox ops b).2 s.1 s.2.
Proof.
  intros Hp Hw b. assert (window_of pending_cap window b [] []) as Hwo.
  { split; cbn; try done; [lia|constructor]. }
  revert Hwo. generalize b, (@nil H256), (@nil CrossChainMessage). clear b.
  induction ops as [|op ops IH]; intros b log queue Hwo; [by split|]. cbn [run_ops].
  assert ((run_inbox op b).1 = (spec_inbox pending_cap window op (log, queue)).1 ∧
    let s := (spec_inbox pending_cap window op (log, queue)).2 in
    window_of pending_cap window (run_inbox op b).2 s.1 s.2) as [Hr Hwo'].
  { destruct op as [msg|]; [by apply receive_windows|].
    destruct Hwo as [Hc Ho Hs Hd Hq]. cbn. unfold Inbox.next_pending. rewrite Hq.
    destruct queue as [|m queue]; (split; [done|]); by split. }
  destruct (run_inbox op b) as [r1 b1], (spec_inbox _ _ op _) as [r2 [log1 queue1]].
  cbn [fst snd] in *. subst r2. destruct (IH b1 log1 queue1 Hwo') as [IH1 IH2].
  destruct (run_ops run_inbox ops b1), (run_ops (spec_inbox _ _) ops _). cbn in *. by subst.
Qed.

Lemma inbox_refines_log_witness :
  let m n := MkCrossChainMessage (MkH256 n) 0 1 2 Address_ZERO Address_ZERO (MpVttTransfer 5) MsPending 0 in
  let ops := [IReceive (m "a"); IReceive (m "a"); INext; IReceive (m "b"); INext; IReceive (m "a")] in
  (run_ops run_inbox ops (Inbox.with_caps 2 (Z.of_nat 3) (Z.of_nat 1))).1 =
  (run_ops (spec_inbox 3 1) ops ([], [])).1.
Proof. intros m ops. apply (inbox_refines_log 2 3 1 ops); lia. Defined.

(** ** The registry *)

(** Ids below the counter are the only ones in use, each under its own id, and
    the relay entry is the one installed at creation. *)
Record registry_inv (r : ChainRegistry) : Prop := {
  ri_next : 1 <= cr_next_chain_id r < 2 ^ 32;
  ri_ids : ∀ id c, cr_chains r !! id = Some c → id < cr_next_chain_id r ∧ rg_chain_id c = id;
  ri_relay : cr_chains r !! ChainId_RELAY = Some Registry.relay;
}.

Lemma registry_new_inv : registry_inv Registry.new.
Proof.
  split; [done| |done]. intros id c. unfold Registry.new. cbn [cr_chains cr_next_chain_id]. rewrite lookup_singleton_Some. intros [<- <-]. done.
Qed.

(** A registration takes an unused id and leaves every other chain alone. *)
Lemma register_fresh req r r' id :
  registry_inv r → cr_next_chain_id r + 1 < 2 ^ 32 →
  Registry.register_chain req r = (Ok id, r') →
  registry_inv r' ∧ Registry.get r id = None ∧ is_Some (Registry.get r' id) ∧
  ∀ id', id' ≠ id → Registry.get r' id' = Registry.get r id'.
Proof.
  intros [Hn Hi Hr] Hroom Hrun. unfold Registry.register_chain in Hrun. inv_ok.
  unfold Registry.get. cbn [cr_chains cr_next_chain_id].
  assert (cr_chains r !! cr_next_chain_id r = None) as Hnone.
  { destruct (cr_chains r !! cr_next_chain_id r) eqn:E; [|done]. apply Hi in E. lia. }
  split; [|split; [done|split; [by rewrite lookup_insert_eq|]]].
  - split; cbn.
    + rewrite wrap_small; unfold in_width; lia.
    + intros id c. rewrite wrap_small by (unfold in_width; lia).
      rewrite lookup_insert_Some. intros [[<- <-]|[? Hc]]; [cbn; lia|]. apply Hi in Hc. lia.
    + rewrite lookup_insert_ne; [done|]. unfold ChainId_RELAY. lia.
  - intros id' Hne. by rewrite lookup_insert_ne.
Qed.

(** Only an existing application chain can be deactivated. *)
Lemma deactivate_exact id r :
  registry_inv r →
  match Registry.deactivate id r with
  | (Ok _, r') => registry_inv r' ∧ id ≠ ChainId_RELAY ∧
      (∃ c, Registry.get r id = Some c ∧ Registry.get r' id = Some (c <| rg_active := false |>)) ∧
      ∀ id', id' ≠ id → Registry.get r' id' = Registry.get r id'
  | (Err e, r') => r' = r ∧ (e = ReCannotModifyRelay ∧ id = ChainId_RELAY ∨
                             e = ReNotFound id ∧ Registry.get r id = None)
  | (Panic, _) => False
  end.
Proof.
  intros [Hn Hi Hr]. unfold Registry.deactivate, is_relay. mrun.
  destruct (Z.eqb_spec id 0) as [->|Hid]; [by eauto|]. unfold Registry.get.
  destruct (cr_chains r !! id) as [c|] eqn:E; [|by eauto]. cbn [cr_chains].
  split; [|split; [done|split; [exists c; by rewrite lookup_insert_eq|]]].
  - split; cbn; [done| |by rewrite lookup_insert_ne].
    intros id' c'. rewrite lookup_insert_Some. intros [[<- <-]|[? Hc]]; [|by apply Hi].
    cbn. by apply Hi.
  - intros id' Hne. by rewrite lookup_insert_ne.
Qed.
