(* ===== verification/Vm.v ===== *)
(** * The contract host ([crates/vtt-vm])

    The gas meter, the execution context, the host functions a contract calls
    and the engine that runs one.  The WebAssembly runtime (wasmer) is a
    parameter: it compiles and instantiates bytecode, and an exported function
    is the tree of the host calls it makes, with the memory it leaves between
    them.  The [Arc<Mutex<..>>] fields are shared by all clones of a context, so
    a context is one state threaded through. *)

From S2P Require Import Prelude Primitives RustStr.

(** ** Gas ([gas.rs]) *)

Record GasMeter := MkGasMeter { gm_used : Z; gm_limit : Z }.

Module Gas.
Definition new (limit : Z) : GasMeter := MkGasMeter 0 limit.

(** [fetch_add] wraps; the check is on the unwrapped sum. *)
Definition consume (amount : Z) (m : GasMeter) : bool * GasMeter :=
  let prev := gm_used m in
  (match checked_add 64 prev amount with Some new => new <=? gm_limit m | None => false end,
   MkGasMeter (wrap 64 (prev + amount)) (gm_limit m)).

Definition remaining (m : GasMeter) : Z := saturating_sub (gm_limit m) (gm_used m).

Definition STORAGE_READ : Z := 200.
Definition STORAGE_WRITE : Z := 5000.
Definition STORAGE_WRITE_NEW : Z := 20000.
Definition HOST_CALL_BASE : Z := 100.
Definition LOG_BASE : Z := 375.
Definition LOG_PER_BYTE : Z := 8.
Definition MAX_CONTRACT_SIZE : Z := 512 * 1024.
Definition MAX_WASM_MEMORY_PAGES : Z := 256.
Definition MAX_CALL_STACK_DEPTH : Z := 64.
End Gas.

(** ** Context ([context.rs]) *)

Inductive VmError :=
  | VmCompilation (msg : string)
  | VmInstantiation (msg : string)
  | VmRuntime (msg : string)
  | VmOutOfGas (used limit : Z)
  | VmExportNotFound (method : string)
  | VmInvalidReturn
  | VmMemoryAccess (msg : string)
  | VmMemoryLimitExceeded (pages max : Z)
  | VmCallStackOverflow (depth max : Z).

Record BalanceChange := MkBalanceChange {
  bc_address : Address; bc_amount : Amount; bc_is_credit : bool }.

Record ExecutionParams := MkExecutionParams {
  ep_contract_address : Address;
  ep_caller : Address;
  ep_origin : Address;
  ep_value : Amount;
  ep_block_number : Z;
  ep_block_timestamp : Z;
  ep_chain_id : ChainId;
  ep_gas_limit : Z;
}.

Record ExecutionContext := MkExecutionContext {
  cx_params : ExecutionParams;
  cx_gas : GasMeter;
  cx_storage : gmap bytes bytes;
  cx_logs : list Log;
  cx_balance_changes : list BalanceChange;
  cx_wasm_memory : option bytes;
  cx_call_depth : Z;
  cx_max_call_depth : Z;
}.

Definition ExecutionContext_eta (c : ExecutionContext) : ExecutionContext :=
  MkExecutionContext (cx_params c) (cx_gas c) (cx_storage c) (cx_logs c) (cx_balance_changes c)
    (cx_wasm_memory c) (cx_call_depth c) (cx_max_call_depth c).

#[global] Instance upd_cx_gas : Updater cx_gas.
Proof. derive_updater ExecutionContext_eta. Defined.
#[global] Instance upd_cx_storage : Updater cx_storage.
Proof. derive_updater ExecutionContext_eta. Defined.
#[global] Instance upd_cx_logs : Updater cx_logs.
Proof. derive_updater ExecutionContext_eta. Defined.
#[global] Instance upd_cx_balance_changes : Updater cx_balance_changes.
Proof. derive_updater ExecutionContext_eta. Defined.
#[global] Instance upd_cx_wasm_memory : Updater cx_wasm_memory.
Proof. derive_updater ExecutionContext_eta. Defined.
#[global] Instance upd_cx_call_depth : Updater cx_call_depth.
Proof. derive_updater ExecutionContext_eta. Defined.

Module Ctx.
Definition new (params : ExecutionParams) : ExecutionContext :=
  MkExecutionContext params (Gas.new (ep_gas_limit params)) ∅ [] [] None 0
    Gas.MAX_CALL_STACK_DEPTH.

Definition storage_read (key : bytes) (c : ExecutionContext) : option bytes := cx_storage c !! key.

Definition storage_write (key value : bytes) (c : ExecutionContext) : ExecutionContext :=
  c <| cx_storage := <[key := value]> (cx_storage c) |>.

Definition storage_delete (key : bytes) (c : ExecutionContext) : ExecutionContext :=
  c <| cx_storage := base.delete key (cx_storage c) |>.

Definition emit_log (l : Log) (c : ExecutionContext) : ExecutionContext :=
  c <| cx_logs := cx_logs c ++ [l] |>.

Definition take_logs (c : ExecutionContext) : list Log * ExecutionContext :=
  (cx_logs c, c <| cx_logs := [] |>).

Definition record_transfer (to : Address) (amount : Amount) (c : ExecutionContext)
    : ExecutionContext :=
  c <| cx_balance_changes := cx_balance_changes c ++
         [MkBalanceChange (ep_contract_address (cx_params c)) amount false;
          MkBalanceChange to amount true] |>.

Definition take_balance_changes (c : ExecutionContext) : list BalanceChange * ExecutionContext :=
  (cx_balance_changes c, c <| cx_balance_changes := [] |>).

Definition set_memory (mem : bytes) (c : ExecutionContext) : ExecutionContext :=
  c <| cx_wasm_memory := Some mem |>.

Definition increment_call_depth (c : ExecutionContext) : res VmError unit * ExecutionContext :=
  let new_depth := wrap 32 (cx_call_depth c + 1) in
  if cx_max_call_depth c <? new_depth
  then (Err (VmCallStackOverflow new_depth (cx_max_call_depth c)), c)
  else (Ok tt, c <| cx_call_depth := new_depth |>).
End Ctx.

(** ** Host functions ([engine.rs]) *)

Module Host.
Definition MAX_HOST_IO_BYTES : Z := 2 ^ 20.

(** The [i32] and [i64] arguments are [Z] in the signed range; [as u32] and
    [as u64] wrap them. *)
Definition read_wasm_memory (c : ExecutionContext) (offset len : Z) : option bytes :=
  if MAX_HOST_IO_BYTES <? len then None
  else
    mem ← cx_wasm_memory c;
    if blen mem <? offset + len then None
    else Some (btake (Z.to_nat len) (bdrop (Z.to_nat offset) mem)).

(** [data] over the bytes of [mem] from [offset]. *)
Definition overwrite (offset : nat) (data mem : bytes) : bytes :=
  btake offset mem +:+ data +:+ bdrop (offset + String.length data) mem.

Definition write_wasm_memory (offset : Z) (data : bytes) (c : ExecutionContext)
    : option ExecutionContext :=
  if MAX_HOST_IO_BYTES <? blen data then None
  else
    mem ← cx_wasm_memory c;
    if blen mem <? offset + blen data then None
    else Some (Ctx.set_memory (overwrite (Z.to_nat offset) data mem) c).

Definition consume_gas (amount : Z) (c : ExecutionContext) : bool * ExecutionContext :=
  let '(ok, m) := Gas.consume amount (cx_gas c) in (ok, c <| cx_gas := m |>).

Definition host_storage_read (key_ptr key_len val_ptr val_max : Z) (c : ExecutionContext)
    : Z * ExecutionContext :=
  let '(ok, c) := consume_gas Gas.STORAGE_READ c in
  if negb ok then (-1, c)
  else
    match read_wasm_memory c (wrap 32 key_ptr) (wrap 32 key_len) with
    | None => (-1, c)
    | Some key =>
        match Ctx.storage_read key c with
        | None => (0, c)
        | Some value =>
            if wrap 64 val_max <? blen value then (-1, c)
            else match write_wasm_memory (wrap 32 val_ptr) value c with
                 | Some c' => (blen value, c')
                 | None => (-1, c)
                 end
        end
    end.

Definition host_storage_write (key_ptr key_len val_ptr val_len : Z) (c : ExecutionContext)
    : ExecutionContext :=
  match read_wasm_memory c (wrap 32 key_ptr) (wrap 32 key_len),
        read_wasm_memory c (wrap 32 val_ptr) (wrap 32 val_len) with
  | Some key, Some value =>
      let is_new := negb (bool_decide (is_Some (cx_storage c !! key))) in
      let '(ok, c) := consume_gas (if is_new then Gas.STORAGE_WRITE_NEW else Gas.STORAGE_WRITE) c in
      if ok then Ctx.storage_write key value c else c
  | _, _ => c
  end.

Definition host_emit_log (data_ptr data_len : Z) (c : ExecutionContext) : ExecutionContext :=
  let '(ok, c) := consume_gas (wrap 64 (Gas.LOG_BASE + Gas.LOG_PER_BYTE * wrap 64 data_len)) c in
  if negb ok then c
  else
    match read_wasm_memory c (wrap 32 data_ptr) (wrap 32 data_len) with
    | None => c
    | Some data => Ctx.emit_log (MkLog (ep_contract_address (cx_params c)) [] data) c
    end.

(** [as i64] and [as i32] of an unsigned value. *)
Definition signed (w x : Z) : Z := let y := wrap w x in if y <? 2 ^ (w - 1) then y else y - 2 ^ w.

Definition host_caller (c : ExecutionContext) : Z * ExecutionContext :=
  let '(_, c) := consume_gas Gas.HOST_CALL_BASE c in
  (signed 64 (from_le_bytes (btake 8 (address_bytes (ep_caller (cx_params c))))), c).

Definition host_caller_address (out_ptr : Z) (c : ExecutionContext) : Z * ExecutionContext :=
  let '(ok, c) := consume_gas Gas.HOST_CALL_BASE c in
  if negb ok then (-1, c)
  else match write_wasm_memory (wrap 32 out_ptr) (address_bytes (ep_caller (cx_params c))) c with
       | Some c' => (0, c')
       | None => (-1, c)
       end.

Definition host_block_number (c : ExecutionContext) : Z * ExecutionContext :=
  let '(_, c) := consume_gas Gas.HOST_CALL_BASE c in (signed 64 (ep_block_number (cx_params c)), c).

Definition host_block_timestamp (c : ExecutionContext) : Z * ExecutionContext :=
  let '(_, c) := consume_gas Gas.HOST_CALL_BASE c in
  (signed 64 (ep_block_timestamp (cx_params c)), c).

Definition host_chain_id (c : ExecutionContext) : Z * ExecutionContext :=
  let '(_, c) := consume_gas Gas.HOST_CALL_BASE c in (signed 32 (ep_chain_id (cx_params c)), c).

Definition host_gas_remaining (c : ExecutionContext) : Z * ExecutionContext :=
  (signed 64 (Gas.remaining (cx_gas c)), c).

Definition host_consume_gas (amount : Z) (c : ExecutionContext) : Z * ExecutionContext :=
  let '(ok, c) := consume_gas (wrap 64 amount) c in (if ok then 0 else -1, c).
End Host.

(** The imports of the ["env"] namespace. *)
Inductive HostCall :=
  | HcStorageRead (key_ptr key_len val_ptr val_max : Z)
  | HcStorageWrite (key_ptr key_len val_ptr val_len : Z)
  | HcCaller
  | HcCallerAddress (out_ptr : Z)
  | HcBlockNumber
  | HcBlockTimestamp
  | HcChainId
  | HcEmitLog (data_ptr data_len : Z)
  | HcGasRemaining
  | HcConsumeGas (amount : Z).

(** A call without result answers 0. *)
Definition host_call (h : HostCall) (c : ExecutionContext) : Z * ExecutionContext :=
  match h with
  | HcStorageRead kp kl vp vm => Host.host_storage_read kp kl vp vm c
  | HcStorageWrite kp kl vp vl => (0, Host.host_storage_write kp kl vp vl c)
  | HcCaller => Host.host_caller c
  | HcCallerAddress p => Host.host_caller_address p c
  | HcBlockNumber => Host.host_block_number c
  | HcBlockTimestamp => Host.host_block_timestamp c
  | HcChainId => Host.host_chain_id c
  | HcEmitLog p l => (0, Host.host_emit_log p l c)
  | HcGasRemaining => Host.host_gas_remaining c
  | HcConsumeGas a => Host.host_consume_gas a c
  end.

(** ** The runtime and the engine *)

(** What a run of an exported function can be: it ends with its first result
    (when that is an [i32]), it traps, it changes its own memory, or it calls
    the host and goes on with the answer and the memory.  A run that does not
    end is not represented. *)
Inductive Guest :=
  | GReturn (status : option Z)
  | GTrap
  | GStore (mem : bytes) (k : Guest)
  | GHost (h : HostCall) (k : Z → option bytes → Guest).

(** An instance: the exported memory with its limits in pages, and the exported
    functions, which see the memory as it is when they are called. *)
Record WasmInstance := MkWasmInstance {
  wi_memory : option (Z * option Z * bytes);
  wi_function : bytes → option (option bytes → Guest);
}.

Class WasmRuntime : Type := {
  module_new : bytes → bool;
  instance_new : bytes → option WasmInstance;
}.

Fixpoint run_guest (g : Guest) (c : ExecutionContext) : option (option Z) * ExecutionContext :=
  match g with
  | GReturn status => (Some status, c)
  | GTrap => (None, c)
  | GStore mem k =>
      run_guest k (match cx_wasm_memory c with Some _ => Ctx.set_memory mem c | None => c end)
  | GHost h k => let '(v, c) := host_call h c in run_guest (k v (cx_wasm_memory c)) c
  end.

Record VmResult := MkVmResult { vr_status : Z; vr_gas_used : Z; vr_return_data : bytes }.

Module VmEngine.
Section with_runtime.
Context `{!WasmRuntime}.

Definition compile (bytecode : bytes) : res VmError bytes :=
  if module_new bytecode then Ok bytecode else Err (VmCompilation "").

(** The page limits on the exported memory, if there is one. *)
Definition check_memory (i : WasmInstance) : res VmError unit :=
  match wi_memory i with
  | None => Ok tt
  | Some (minimum, maximum, _) =>
      _ ← guard_err (Gas.MAX_WASM_MEMORY_PAGES <? minimum)
            (VmMemoryLimitExceeded minimum Gas.MAX_WASM_MEMORY_PAGES);
      match maximum with
      | Some m => guard_err (Gas.MAX_WASM_MEMORY_PAGES <? m)
                    (VmMemoryLimitExceeded m Gas.MAX_WASM_MEMORY_PAGES)
      | None => Ok tt
      end
  end.

(** The arguments: their length at 0, then the bytes at 8. *)
Definition write_args (args mem : bytes) : res VmError bytes :=
  if bool_decide (args = "") then Ok mem
  else
    _ ← guard_err (blen mem <? 8) (VmMemoryAccess "");
    let mem := Host.overwrite 0 (to_le_bytes 8 (blen args)) mem in
    _ ← guard_err (blen mem <? 8 + blen args) (VmMemoryAccess "");
    Ok (Host.overwrite 8 args mem).

Definition read_return (status : Z) (c : ExecutionContext) : bytes :=
  match cx_wasm_memory c with
  | Some mem => if (0 <? status) && (status <=? blen mem) then btake (Z.to_nat status) mem else ""
  | None => ""
  end.

Definition execute (bytecode method args : bytes) : M ExecutionContext VmError VmResult :=
  _ ← fail_if (negb (module_new bytecode)) (VmCompilation "");
  i ← lift (ok_or (VmInstantiation "") (instance_new bytecode));
  _ ← lift (check_memory i);
  _ ← (match wi_memory i with
       | Some (_, _, mem) => modify (Ctx.set_memory mem)
       | None => mret tt
       end);
  _ ← (match wi_memory i with
       | Some (_, _, mem) =>
           mem ← lift (write_args args mem);
           modify (Ctx.set_memory mem)
       | None => mret tt
       end);
  f ← lift (ok_or (VmExportNotFound method) (wi_function i method));
  mem ← gets cx_wasm_memory;
  result ← (λ c, let '(r, c) := run_guest (f mem) c in (ok_or (VmRuntime "") r, c));
  let status := default 0 result in
  c ← gets (λ c, c);
  mret {| vr_status := status;
          vr_gas_used := gm_used (cx_gas c);
          vr_return_data := read_return status c |}.

Definition code_hash `{!Crypto} (bytecode : bytes) : H256 := blake3_hash bytecode.
End with_runtime.
End VmEngine.

(** ** What a contract can do to its context

    Whatever the contract, it cannot change who it is, its gas limit or the
    pending balance changes; it can only append logs under its own address, and
    add or overwrite storage entries. *)

Record confined (c c' : ExecutionContext) : Prop := {
  cf_params : cx_params c' = cx_params c;
  cf_limit : gm_limit (cx_gas c') = gm_limit (cx_gas c);
  cf_balance_changes : cx_balance_changes c' = cx_balance_changes c;
  cf_call_depth : cx_call_depth c' = cx_call_depth c;
  cf_storage : dom (cx_storage c) ⊆ dom (cx_storage c');
  cf_logs : ∃ new, cx_logs c' = cx_logs c ++ new ∧
      Forall (λ l, log_address l = ep_contract_address (cx_params c) ∧ log_topics l = []) new;
}.

#[global] Instance confined_preorder : PreOrder confined.
Proof.
  split.
  - intros c. split; try done. exists []. by rewrite app_nil_r.
  - intros c1 c2 c3 [] []. split; try congruence; [set_solver|].
    destruct cf_logs0 as (n1 & H1 & F1), cf_logs1 as (n2 & H2 & F2).
    exists (n1 ++ n2). split; [by rewrite H2, H1, app_assoc|].
    apply Forall_app. split; [done|]. by rewrite cf_params0 in F2.
Qed.

Lemma consume_gas_confined amount c : confined c (Host.consume_gas amount c).2.
Proof. split; try done. exists []. by rewrite app_nil_r. Qed.

Lemma set_memory_confined mem c : confined c (Ctx.set_memory mem c).
Proof. split; try done. exists []. by rewrite app_nil_r. Qed.

Lemma write_wasm_memory_confined offset data c c' :
  Host.write_wasm_memory offset data c = Some c' → confined c c'.
Proof.
  unfold Host.write_wasm_memory. case_match; [done|]. destruct (cx_wasm_memory c); cbn; [|done].
  case_match; [done|]. intros [= <-]. apply set_memory_confined.
Qed.

Create HintDb confined_db.
#[export] Hint Resolve consume_gas_confined set_memory_confined write_wasm_memory_confined : confined_db.

(** Name the context left by the gas charge, and split on its answer. *)
Ltac charge c :=
  let H := fresh "Hgas" in let ok := fresh "ok" in let c1 := fresh "c1" in
  match goal with
  | |- context [Host.consume_gas ?a c] =>
      pose proof (consume_gas_confined a c) as H;
      destruct (Host.consume_gas a c) as [ok c1]; cbn [snd] in H
  end.

Lemma host_storage_read_confined kp kl vp vm c :
  confined c (Host.host_storage_read kp kl vp vm c).2.
Proof.
  unfold Host.host_storage_read. charge c. destruct ok; cbn [negb]; [|done].
  repeat (case_match; [|try done]); try done.
  etrans; [done|]. by eapply write_wasm_memory_confined.
Qed.

Lemma host_storage_write_confined kp kl vp vl c :
  confined c (Host.host_storage_write kp kl vp vl c).
Proof.
  unfold Host.host_storage_write. repeat (case_match; [|try done]); try done.
  match goal with |- context [Host.consume_gas ?a c] =>
    pose proof (consume_gas_confined a c) as Hgas end.
  destruct (Host.consume_gas _ c) as [ok c1]. cbn [snd] in Hgas.
  destruct ok; [|done]. etrans; [done|]. split; try done; [|exists []; by rewrite app_nil_r].
  cbn. rewrite dom_insert_L. set_solver.
Qed.

Lemma host_emit_log_confined dp dl c : confined c (Host.host_emit_log dp dl c).
Proof.
  unfold Host.host_emit_log. charge c. destruct ok; cbn [negb]; [|done].
  case_match; [|done]. etrans; [done|]. split; try done. eexists. split; [done|]. by repeat constructor.
Qed.

Lemma host_call_confined h c : confined c (host_call h c).2.
Proof.
  destruct h; cbn [host_call snd]; auto using host_storage_read_confined,
    host_storage_write_confined, host_emit_log_confined;
    unfold Host.host_caller, Host.host_caller_address, Host.host_block_number,
      Host.host_block_timestamp, Host.host_chain_id, Host.host_consume_gas; try charge c; try done.
  destruct ok; cbn [negb]; [|done]. case_match; [|done].
  etrans; [done|]. by eapply write_wasm_memory_confined.
Qed.

Lemma run_guest_confined g c : confined c (run_guest g c).2.
Proof.
  revert c. induction g as [status| |mem k IH|h k IH]; intros c; cbn [run_guest]; [done|done| |].
  - etrans; [|apply IH]. case_match; [apply set_memory_confined|done].
  - pose proof (host_call_confined h c) as Hh. destruct (host_call h c) as [v c1].
    cbn [snd] in Hh. etrans; [done|]. apply IH.
Qed.

Lemma execute_confined `{!WasmRuntime} bytecode method args c :
  confined c (VmEngine.execute bytecode method args c).2.
Proof.
  assert (keeps (confined c) (VmEngine.execute bytecode method args)) as Hk; [|by apply Hk].
  unfold VmEngine.execute. solve_keeps.
  - etrans; [done|]. apply set_memory_confined.
  - etrans; [done|]. apply set_memory_confined.
  - intros s Hs. match goal with |- context [run_guest ?g s] =>
      pose proof (run_guest_confined g s) as Hg; destruct (run_guest g s) as [r s'] end.
    cbn in *. by etrans.
Qed.

(** ** The meter *)

Lemma consume_exact amount m :
  in_width 64 (gm_used m + amount) →
  Gas.consume amount m = (gm_used m + amount <=? gm_limit m, MkGasMeter (gm_used m + amount) (gm_limit m)).
Proof.
  intros Hw. unfold Gas.consume, checked_add. rewrite wrap_small by done.
  by rewrite (proj2 (Z.ltb_lt _ _)) by apply Hw.
Qed.

(** A refused request still moves the counter, and the addition wraps: one
    oversized [host_consume_gas] call empties the meter of a contract that has
    used up its gas, and its next write succeeds. *)
Theorem oversized_request_refills used limit :
  0 < used → used <= limit < 2 ^ 63 →
  Gas.consume (2 ^ 64 - used) (MkGasMeter used limit) = (false, MkGasMeter 0 limit) ∧
  Gas.remaining (MkGasMeter 0 limit) = limit.
Proof.
  intros Hu Hl. unfold Gas.consume, checked_add, Gas.remaining, saturating_sub, wrap.
  cbn [gm_used gm_limit]. replace (used + (2 ^ 64 - used)) with (2 ^ 64) by lia.
  rewrite Z.ltb_irrefl. change (2 ^ 64 mod 2 ^ 64) with 0. split; [done|]. lia.
Qed.

Lemma oversized_request_refills_witness :
  Gas.consume (2 ^ 64 - 1000) (MkGasMeter 1000 1000) = (false, MkGasMeter 0 1000).
Proof. apply (oversized_request_refills 1000 1000); lia. Defined.
