(* ===== verification/Contract.v ===== *)
(** * Contracts ([contracts/*/src/lib.rs]) and the host they run on

    A contract is a program over the host functions it imports.  Its local
    buffers live in its linear memory; here a call carries the bytes of the
    buffers it hands to the host and gets back the bytes the host leaves there.
    [run] executes a program on an execution context.  [ContractHost] lays the
    buffers out in memory and makes the host calls of the engine; the two agree,
    so that what is proved of a program holds of a contract the engine
    executes. *)

From S2P Require Import Prelude Primitives RustStr Vm.

(** ** Host calls with their buffers *)

Inductive Op :=
  | OpRead (key : bytes) (max : nat)
  | OpWrite (key value : bytes)
  | OpCallerAddress
  | OpCaller
  | OpEmit (data : bytes)
  | OpGas (amount : Z)
  | OpNumber
  | OpTimestamp.

(** What a call answers: its result, and the buffer it was given to fill. *)
Abbreviation Answer := (Z * bytes)%type.

Inductive Prog (A : Type) : Type :=
  | Ret (a : A)
  | Exit (code : Z)
  | Call (o : Op) (k : Answer → Prog A).
Arguments Ret {A}.
Arguments Exit {A}.
Arguments Call {A}.

#[global] Instance Prog_ret : MRet Prog := @Ret.
#[global] Instance Prog_bind : MBind Prog := λ A B f,
  fix go p := match p with
              | Ret a => f a
              | Exit code => Exit code
              | Call o k => Call o (λ r, go (k r))
              end.

Module Op.

(** The gas of a call; a write to a new key costs more. *)
Definition cost (o : Op) (st : gmap bytes bytes) : Z :=
  match o with
  | OpRead _ _ => Gas.STORAGE_READ
  | OpWrite key _ => if bool_decide (is_Some (st !! key)) then Gas.STORAGE_WRITE else Gas.STORAGE_WRITE_NEW
  | OpEmit data => wrap 64 (Gas.LOG_BASE + Gas.LOG_PER_BYTE * wrap 64 (blen data))
  | OpGas amount => wrap 64 amount
  | OpCallerAddress | OpCaller | OpNumber | OpTimestamp => Gas.HOST_CALL_BASE
  end.

(** The buffer handed to the host starts out as zeros. *)
Definition answer (o : Op) (c : ExecutionContext) : Answer :=
  match o with
  | OpRead key max =>
      match cx_storage c !! key with
      | None => (0, zeros max)
      | Some v => if Z.of_nat max <? blen v then (-1, zeros max)
                  else (blen v, v +:+ zeros (max - String.length v))
      end
  | OpCallerAddress => (0, address_bytes (ep_caller (cx_params c)))
  | OpCaller => (Host.signed 64 (from_le_bytes (btake 8 (address_bytes (ep_caller (cx_params c))))), "")
  | OpNumber => (Host.signed 64 (ep_block_number (cx_params c)), "")
  | OpTimestamp => (Host.signed 64 (ep_block_timestamp (cx_params c)), "")
  | OpWrite _ _ | OpEmit _ | OpGas _ => (0, "")
  end.

Definition effect (o : Op) (c : ExecutionContext) : ExecutionContext :=
  match o with
  | OpWrite key value => Ctx.storage_write key value c
  | OpEmit data => Ctx.emit_log (MkLog (ep_contract_address (cx_params c)) [] data) c
  | _ => c
  end.

(** A call whose gas is refused: a read and a gas request report it, a write and
    a log are dropped, and the block queries answer all the same. *)
Definition refusal (o : Op) (c : ExecutionContext) : Answer :=
  match o with
  | OpRead _ max => (-1, zeros max)
  | OpCallerAddress => (-1, zeros 20)
  | OpGas _ => (-1, "")
  | OpWrite _ _ | OpEmit _ | OpCaller | OpNumber | OpTimestamp => answer o c
  end.

Definition perform (o : Op) (c : ExecutionContext) : Answer * ExecutionContext :=
  let '(ok, c1) := Host.consume_gas (cost o (cx_storage c)) c in
  if ok then (answer o c, effect o c1) else (refusal o c, c1).

Definition accepted (o : Op) (c : ExecutionContext) : bool :=
  (Host.consume_gas (cost o (cx_storage c)) c).1.

End Op.
#[global] Arguments Op.perform : simpl never.
#[global] Arguments Op.accepted : simpl never.

(** ** Running *)

Fixpoint run {A} (p : Prog A) (c : ExecutionContext) : res Z A * ExecutionContext :=
  match p with
  | Ret a => (Ok a, c)
  | Exit code => (Err code, c)
  | Call o k => let '(r, c) := Op.perform o c in run (k r) c
  end.

(** Every gas charge of the run is accepted. *)
Fixpoint paid {A} (p : Prog A) (c : ExecutionContext) : bool :=
  match p with
  | Call o k => Op.accepted o c && (let '(r, c) := Op.perform o c in paid (k r) c)
  | _ => true
  end.

(** The [i32] of an entry point: the length of the returned data, or the code. *)
Definition status (r : res Z bytes) : option Z :=
  match r with
  | Ok data => Some (blen data)
  | Err code => Some code
  | Panic => None
  end.

Lemma run_bind {A B} (p : Prog A) (f : A → Prog B) c :
  run (p ≫= f) c = match run p c with
                   | (Ok a, c1) => run (f a) c1
                   | (Err e, c1) => (Err e, c1)
                   | (Panic, c1) => (Panic, c1)
                   end.
Proof.
  revert c. induction p as [a|code|o k IH]; intros c; [done..|].
  cbn. destruct (Op.perform o c) as [r c1]. apply IH.
Qed.

Lemma paid_bind {A B} (p : Prog A) (f : A → Prog B) c :
  paid (p ≫= f) c = paid p c && match run p c with
                                | (Ok a, c1) => paid (f a) c1
                                | _ => true
                                end.
Proof.
  revert c. induction p as [a|code|o k IH]; intros c; [done..|].
  cbn. destruct (Op.perform o c) as [r c1]. rewrite <- andb_assoc. f_equal. apply IH.
Qed.

(** ** What the contracts share *)

Definition byte_at (s : bytes) (i : nat) : Z :=
  match String.get i s with Some b => Z_of_byte b | None => 0 end.

(** One byte as a string. *)
Definition byte (x : Z) : bytes := String (byte_of_Z x) "".

(** [&s[start..start + len]]. *)
Definition slice (s : bytes) (start len : Z) : bytes :=
  btake (Z.to_nat len) (bdrop (Z.to_nat start) s).

(** [if b { return code }]. *)
Definition exit_if (b : bool) (code : Z) : Prog unit := if b then Exit code else Ret tt.

(** [if host_consume_gas(amount) != 0 { return -1 }]. *)
Definition consume_gas (amount : Z) : Prog unit :=
  Call (OpGas amount) (λ r, exit_if (negb (r.1 =? 0)) (-1)).

Definition storage_read (key : bytes) (max : nat) : Prog Answer := Call (OpRead key max) Ret.

Definition storage_write (key value : bytes) : Prog unit := Call (OpWrite key value) (λ _, Ret tt).

Definition emit_event (data : bytes) : Prog unit := Call (OpEmit data) (λ _, Ret tt).

(** The result of the host is ignored: the buffer stays zero on failure. *)
Definition get_caller : Prog bytes := Call OpCallerAddress (λ r, Ret r.2).

(** ** Running with enough gas

    When every charge is accepted, what a program answers and what it leaves in
    storage depend on the storage and on the call alone. *)

Definition read_at (st : gmap bytes bytes) (key : bytes) (max : nat) : Answer :=
  match st !! key with
  | None => (0, zeros max)
  | Some v => if Z.of_nat max <? blen v then (-1, zeros max)
              else (blen v, v +:+ zeros (max - String.length v))
  end.

Definition ideal_answer (ps : ExecutionParams) (o : Op) (st : gmap bytes bytes) : Answer :=
  match o with
  | OpRead key max => read_at st key max
  | OpCallerAddress => (0, address_bytes (ep_caller ps))
  | OpCaller => (Host.signed 64 (from_le_bytes (btake 8 (address_bytes (ep_caller ps)))), "")
  | OpNumber => (Host.signed 64 (ep_block_number ps), "")
  | OpTimestamp => (Host.signed 64 (ep_block_timestamp ps), "")
  | OpWrite _ _ | OpEmit _ | OpGas _ => (0, "")
  end.

Definition ideal_effect (o : Op) (st : gmap bytes bytes) : gmap bytes bytes :=
  match o with OpWrite key value => <[key := value]> st | _ => st end.

Fixpoint eval {A} (ps : ExecutionParams) (p : Prog A) : M (gmap bytes bytes) Z A := λ st,
  match p with
  | Ret a => (Ok a, st)
  | Exit code => (Err code, st)
  | Call o k => eval ps (k (ideal_answer ps o st)) (ideal_effect o st)
  end.

Lemma perform_accepted o c :
  Op.accepted o c = true →
  (Op.perform o c).1 = ideal_answer (cx_params c) o (cx_storage c)
  ∧ cx_storage (Op.perform o c).2 = ideal_effect o (cx_storage c)
  ∧ cx_params (Op.perform o c).2 = cx_params c.
Proof.
  unfold Op.accepted, Op.perform. destruct (Host.consume_gas _ c) as [ok c1] eqn:Hg. cbn. intros ->.
  unfold Host.consume_gas in Hg. destruct (Gas.consume _ _) as [ok m]. simplify_eq.
  by destruct o.
Qed.

Lemma paid_eval {A} (p : Prog A) c :
  paid p c = true →
  (run p c).1 = (eval (cx_params c) p (cx_storage c)).1
  ∧ cx_storage (run p c).2 = (eval (cx_params c) p (cx_storage c)).2.
Proof.
  revert c. induction p as [a|code|o k IH]; intros c; [done..|]. cbn [paid run eval].
  intros [Ho Hp]%andb_true_iff. destruct (perform_accepted o c Ho) as (Ha & Hs & Hps).
  destruct (Op.perform o c) as [r c1]. cbn in *. subst r.
  specialize (IH _ _ Hp). by rewrite Hs, Hps in IH.
Qed.

Lemma eval_bind {A B} ps (p : Prog A) (f : A → Prog B) st :
  eval ps (p ≫= f) st = match eval ps p st with
                        | (Ok a, st) => eval ps (f a) st
                        | (Err e, st) => (Err e, st)
                        | (Panic, st) => (Panic, st)
                        end.
Proof. revert st. induction p as [a|code|o k IH]; intros st; [done..|]. apply IH. Qed.

Lemma eval_exit_if ps b code st :
  eval ps (exit_if b code) st = (if b then Err code else Ok tt, st).
Proof. by destruct b. Qed.

Lemma eval_consume_gas ps amount st : eval ps (consume_gas amount) st = (Ok tt, st).
Proof. done. Qed.

Lemma eval_storage_read ps key max st : eval ps (storage_read key max) st = (Ok (read_at st key max), st).
Proof. done. Qed.

Lemma eval_storage_write ps key value st :
  eval ps (storage_write key value) st = (Ok tt, <[key := value]> st).
Proof. done. Qed.

Lemma eval_emit_event ps data st : eval ps (emit_event data) st = (Ok tt, st).
Proof. done. Qed.

Lemma eval_get_caller ps st : eval ps get_caller st = (Ok (address_bytes (ep_caller ps)), st).
Proof. done. Qed.

Lemma eval_ret {A} ps (a : A) st : eval ps (mret a) st = (Ok a, st).
Proof. done. Qed.

Create Rewrite HintDb eval_db.
#[export] Hint Rewrite @eval_bind eval_exit_if eval_consume_gas eval_storage_read eval_storage_write
  eval_emit_event eval_get_caller @eval_ret : eval_db.

(** A read into a buffer of the stored length. *)
Lemma read_at_full st key max v :
  read_at st key max = (Z.of_nat max, v) → (max > 0)%nat → st !! key = Some v ∧ String.length v = max.
Proof.
  unfold read_at. destruct (st !! key) as [w|]; [|intros [=]; lia].
  case_match eqn:Hm; [intros [=]; lia|]. unfold blen in *. intros [= Hl <-] _.
  apply Nat2Z.inj in Hl. rewrite Hl, Nat.sub_diag, bapp_nil. done.
Qed.

(** ** Arguments *)

Lemma bdrop_length n s : String.length (bdrop n s) = (String.length s - n)%nat.
Proof. revert s. induction n as [|n IH]; intros [|c s]; cbn; [done..|apply IH]. Qed.

Lemma slice_length s start len :
  0 <= start → 0 <= len → start + len <= blen s → String.length (slice s start len) = Z.to_nat len.
Proof. intros H0 H1 H2. unfold slice, blen in *. rewrite btake_length, bdrop_length. lia. Qed.

Lemma byte_at_bound s i : 0 <= byte_at s i < 256.
Proof.
  unfold byte_at. destruct (String.get i s) as [c|]; [|lia].
  unfold Z_of_byte. pose proof (Ascii.N_ascii_bounded c). lia.
Qed.

Lemma from_le_bytes_bound s : 0 <= from_le_bytes s < 256 ^ blen s.
Proof.
  unfold blen. induction s as [|c s IH]; [cbn; lia|]. cbn [from_le_bytes String.length].
  rewrite Nat2Z.inj_succ, Z.pow_succ_r by lia. unfold Z_of_byte.
  pose proof (Ascii.N_ascii_bounded c). lia.
Qed.

Lemma slice_word_bound s start n :
  0 <= start → start + n <= blen s → 0 <= n → 0 <= from_le_bytes (slice s start n) < 256 ^ n.
Proof.
  intros H0 H1 Hn. pose proof (from_le_bytes_bound (slice s start n)) as Hb.
  unfold blen in Hb. by rewrite slice_length, Z2Nat.id in Hb.
Qed.

(** ** How much gas is enough *)

Definition account_call (c : ExecutionContext) : Prop :=
  String.length (address_bytes (ep_caller (cx_params c))) = 20%nat.

(** From any context with [g] gas left, the run pays all its charges and spends
    at most [g]. *)
Definition spends {A} (p : Prog A) (g : Z) : Prop := ∀ c,
  account_call c → 0 <= gm_used (cx_gas c) →
  gm_used (cx_gas c) + g <= gm_limit (cx_gas c) < 2 ^ 64 →
  paid p c = true ∧ account_call (run p c).2
  ∧ gm_used (cx_gas c) <= gm_used (cx_gas (run p c).2) <= gm_used (cx_gas c) + g
  ∧ gm_limit (cx_gas (run p c).2) = gm_limit (cx_gas c).

Lemma perform_pays o c :
  let used := gm_used (cx_gas c) in
  let g := Op.cost o (cx_storage c) in
  0 <= used → 0 <= g → used + g <= gm_limit (cx_gas c) < 2 ^ 64 →
  Op.accepted o c = true ∧ gm_used (cx_gas (Op.perform o c).2) = used + g
  ∧ gm_limit (cx_gas (Op.perform o c).2) = gm_limit (cx_gas c)
  ∧ cx_params (Op.perform o c).2 = cx_params c.
Proof.
  intros used g Hu Hg Hl. unfold Op.accepted, Op.perform, Host.consume_gas, Gas.consume. fold used g.
  replace (checked_add 64 used g) with (Some (used + g))
    by (unfold checked_add; symmetry; case_match; [done|lia]).
  destruct (Z.leb_spec (used + g) (gm_limit (cx_gas c))) as [_|]; [|lia].
  rewrite wrap_small by (unfold in_width; lia). by destruct o.
Qed.

Lemma cost_nonneg o st : 0 <= Op.cost o st.
Proof. destruct o; cbn; try case_match; try (apply Z.mod_pos_bound); unfold Gas.STORAGE_READ, Gas.STORAGE_WRITE, Gas.STORAGE_WRITE_NEW, Gas.HOST_CALL_BASE; lia. Qed.

Lemma spends_ret {A} (a : A) : spends (mret a) 0.
Proof. intros c Hc Hu Hl. split_and!; cbn; done || lia. Qed.

Lemma spends_exit {A} code : spends (A:=A) (Exit code) 0.
Proof. intros c Hc Hu Hl. split_and!; cbn; done || lia. Qed.

Lemma spends_weaken {A} (p : Prog A) g g' : spends p g → g <= g' → spends p g'.
Proof.
  intros Hp Hg c Hc Hu Hl. destruct (Hp c Hc Hu) as (? & ? & ? & ?); [lia|]. split_and!; done || lia.
Qed.

Lemma spends_perform {A} o (k : Answer → Prog A) g g' c :
  (∀ st, Op.cost o st <= g) → 0 <= g' → account_call c → 0 <= gm_used (cx_gas c) →
  gm_used (cx_gas c) + (g + g') <= gm_limit (cx_gas c) < 2 ^ 64 →
  spends (k (ideal_answer (cx_params c) o (cx_storage c))) g' →
  paid (Call o k) c = true ∧ account_call (run (Call o k) c).2
  ∧ gm_used (cx_gas c) <= gm_used (cx_gas (run (Call o k) c).2) <= gm_used (cx_gas c) + (g + g')
  ∧ gm_limit (cx_gas (run (Call o k) c).2) = gm_limit (cx_gas c).
Proof.
  intros Ho Hg Hc Hu Hl Hk. pose proof (cost_nonneg o (cx_storage c)). specialize (Ho (cx_storage c)).
  destruct (perform_pays o c Hu) as (Ha & Hu' & Hl' & Hp'); [lia..|].
  destruct (perform_accepted o c Ha) as (Hr & _). cbn [paid run]. rewrite Ha.
  destruct (Op.perform o c) as [r c1]. cbn [fst snd andb] in *. subst r.
  destruct (Hk c1) as (? & ? & ? & ?); [unfold account_call; by rewrite Hp'|lia..|].
  split_and!; [done..|lia|lia|congruence].
Qed.

Lemma spends_call {A} o (k : Answer → Prog A) g g' :
  (∀ st, Op.cost o st <= g) → (∀ r, spends (k r) g') → 0 <= g' → spends (Call o k) (g + g').
Proof. intros Ho Hk Hg c Hc Hu Hl. by apply spends_perform. Qed.

(** The caller's address has twenty bytes. *)
Lemma spends_caller {A} (f : bytes → Prog A) g :
  (∀ a, String.length a = 20%nat → spends (f a) g) → 0 <= g →
  spends (caller ← get_caller; f caller) (100 + g).
Proof. intros Hf Hg c Hc Hu Hl. apply spends_perform; [done..|]. by apply Hf. Qed.

Lemma spends_bind {A B} (p : Prog A) (f : A → Prog B) g g' :
  spends p g → (∀ a, spends (f a) g') → 0 <= g' → spends (p ≫= f) (g + g').
Proof.
  intros Hp Hf Hg c Hc Hu Hl. destruct (Hp c Hc Hu) as (Hpd & Hc1 & Hu1 & Hl1); [lia|].
  rewrite paid_bind, run_bind, Hpd.
  destruct (run p c) as [[a|e|] c1]; cbn [snd andb] in *; [|split_and!; done || lia..].
  destruct (Hf a c1) as (? & ? & ? & ?); [done|lia..|]. split_and!; [done..|lia|lia|congruence].
Qed.

Lemma spends_exit_if b code : spends (exit_if b code) 0.
Proof. destruct b; [apply spends_exit|apply spends_ret]. Qed.

Lemma spends_if {A} (b : bool) (p q : Prog A) g g' :
  spends p g → spends q g' → spends (if b then p else q) (Z.max g g').
Proof. intros Hp Hq. destruct b; eapply spends_weaken; [done|lia|done|lia]. Qed.

Lemma spends_consume_gas amount : in_width 64 amount → spends (consume_gas amount) (amount + 0).
Proof.
  intros Ha. apply spends_call; [|intros r; apply spends_exit_if|lia].
  intros st. cbn. rewrite wrap_small; done || lia.
Qed.

Lemma spends_storage_read key max : spends (storage_read key max) (200 + 0).
Proof. apply spends_call; [done|intros r; apply spends_ret|lia]. Qed.

Lemma spends_storage_write key value : spends (storage_write key value) (20000 + 0).
Proof. apply spends_call; [intros st; cbn; by case_match|intros r; apply spends_ret|lia]. Qed.

Lemma spends_get_caller : spends get_caller (100 + 0).
Proof. apply spends_call; [done|intros r; apply spends_ret|lia]. Qed.

Lemma spends_emit_event data n :
  blen data <= n → 0 <= n < 2 ^ 60 → spends (emit_event data) (375 + 8 * n + 0).
Proof.
  intros Hd Hn. apply spends_call; [|intros r; apply spends_ret|lia]. intros st. cbn.
  assert (0 <= blen data) by (unfold blen; lia).
  unfold Gas.LOG_BASE, Gas.LOG_PER_BYTE. rewrite !wrap_small by (unfold in_width; rewrite ?wrap_small by (unfold in_width; lia); lia).
  lia.
Qed.

Create HintDb spends_db.
#[export] Hint Resolve spends_ret spends_exit spends_exit_if spends_storage_read spends_storage_write
  spends_get_caller : spends_db.
#[export] Hint Extern 1 (spends (consume_gas _) _) =>
  apply spends_consume_gas; unfold in_width; lia : spends_db.

(** Bounds the gas of a program without loops. *)
Ltac spends_step :=
  first [ eapply spends_caller; [intros ??; spends_step|lia]
        | solve [eauto with spends_db]
        | eapply spends_bind; [spends_step|intros ?; spends_step|lia]
        | eapply spends_if; [spends_step|spends_step] ].

Ltac solve_spends := eapply spends_weaken; [spends_step|lia].

(** ** Calls as the executor makes them *)

Record Invocation := MkInvocation { iv_params : ExecutionParams; iv_args : bytes }.

Definition context (ps : ExecutionParams) (st : gmap bytes bytes) : ExecutionContext :=
  (Ctx.new ps) <| cx_storage := st |>.

(** The storage is kept only when the entry point returns zero. *)
Definition invoke (entry : bytes → Prog bytes) (iv : Invocation) (st : gmap bytes bytes)
    : gmap bytes bytes :=
  let '(r, c) := run (entry (iv_args iv)) (context (iv_params iv) st) in
  if bool_decide (status r = Some 0) then cx_storage c else st.

(** The storages of a contract whose callers are accounts and pay for their
    calls. *)
Inductive reachable (entry : bytes → Prog bytes) : gmap bytes bytes → Prop :=
  | reachable_new : reachable entry ∅
  | reachable_call st iv :
      reachable entry st →
      String.length (address_bytes (ep_caller (iv_params iv))) = 20%nat →
      paid (entry (iv_args iv)) (context (iv_params iv) st) = true →
      reachable entry (invoke entry iv st).

(** A stored flag: the single byte 1. *)
Lemma read_flag st key :
  ((read_at st key 1).1 =? 1) && (byte_at (read_at st key 1).2 0 =? 1) = bool_decide (st !! key = Some (byte 1)).
Proof.
  unfold read_at. destruct (st !! key) as [v|]; [|done]. unfold blen.
  destruct v as [|b [|b' v]]; [by rewrite bool_decide_false| |].
  - change ((Z_of_byte b =? 1) = bool_decide (Some (String b "") = Some (byte 1))).
    destruct (Z.eqb_spec (Z_of_byte b) 1) as [Hb|Hb].
    + rewrite bool_decide_true; [done|]. do 2 f_equal. rewrite <- (Ascii.ascii_N_embedding b).
      unfold Z_of_byte in Hb. by replace (Ascii.N_of_ascii b) with 1%N by lia.
    + rewrite bool_decide_false; [done|]. intros [= ->]. by apply Hb.
  - rewrite bool_decide_false by done. destruct (Z.ltb_spec (Z.of_nat 1) (Z.of_nat (String.length (String b (String b' v))))) as [|Hl]; [done|].
    cbn in Hl. lia.
Qed.

Lemma btake_app_length s t : btake (String.length s) (s +:+ t) = s.
Proof. induction s as [|b s IH]; [by destruct t|]. exact (f_equal (String b) IH). Qed.

Lemma btake_full s : btake (String.length s) s = s.
Proof. rewrite <- (bapp_nil s) at 2. apply btake_app_length. Qed.

Lemma slice_prefix a b n : Z.of_nat (String.length a) = n → slice (a +:+ b) 0 n = a.
Proof. intros <-. unfold slice. cbn. rewrite Nat2Z.id. apply btake_app_length. Qed.

Lemma slice_app a s n m : Z.of_nat (String.length a) = n → slice (a +:+ s) n m = slice s 0 m.
Proof. intros <-. unfold slice. by rewrite !Nat2Z.id, bdrop_app. Qed.

Lemma slice_suffix a b n m :
  Z.of_nat (String.length a) = n → Z.of_nat (String.length b) = m → slice (a +:+ b) n m = b.
Proof. intros <- <-. unfold slice. rewrite !Nat2Z.id, bdrop_app. apply btake_full. Qed.

(** ** What programs keep *)

(** A run with enough gas by an account keeps [P], whatever its outcome. *)
Definition kept {A} (P : gmap bytes bytes → Prop) (p : Prog A) : Prop :=
  ∀ ps st, String.length (address_bytes (ep_caller ps)) = 20%nat → P st → P (eval ps p st).2.

(** Writing [key] never breaks [P]. *)
Definition stable (P : gmap bytes bytes → Prop) (key : bytes) : Prop :=
  ∀ st v, P st → P (<[key := v]> st).

(** Programs that do not write. *)
Definition readonly {A} (p : Prog A) : Prop := ∀ ps st, (eval ps p st).2 = st.

Lemma kept_bind {A B} P (p : Prog A) (f : A → Prog B) :
  kept P p → (∀ a, kept P (f a)) → kept P (p ≫= f).
Proof.
  intros Hp Hf ps st Hc Hb. rewrite eval_bind. specialize (Hp ps st Hc Hb).
  destruct (eval ps p st) as [[a| |] st1]; [by apply Hf|done..].
Qed.

Lemma readonly_bind {A B} (p : Prog A) (f : A → Prog B) :
  readonly p → (∀ a, readonly (f a)) → readonly (p ≫= f).
Proof.
  intros Hp Hf ps st. rewrite eval_bind. specialize (Hp ps st).
  destruct (eval ps p st) as [[a| |] st1]; cbn in *; subst; [apply Hf|done..].
Qed.

Lemma readonly_exit_if b code : readonly (exit_if b code).
Proof. intros ps st. by destruct b. Qed.

Lemma kept_readonly {A} P (p : Prog A) : readonly p → kept P p.
Proof. intros Hp ps st _ Hb. by rewrite Hp. Qed.

Lemma kept_write P k v : stable P k → kept P (storage_write k v).
Proof. intros Hk ps st _ Hb. by apply Hk. Qed.

(** The caller is twenty bytes long. *)
Lemma kept_get_caller {A} P (f : bytes → Prog A) :
  (∀ a, String.length a = 20%nat → kept P (f a)) → kept P (caller ← get_caller; f caller).
Proof. intros Hf ps st Hc Hb. rewrite eval_bind. by apply Hf. Qed.

Create HintDb contract_db.
#[export] Hint Resolve readonly_exit_if kept_write : contract_db.

Ltac solve_readonly :=
  repeat first [ apply readonly_bind; [|intros ?] | case_match | by intros ?? | solve [auto with contract_db] ].

Ltac solve_kept :=
  repeat first [ apply kept_get_caller; intros ??
               | solve [apply kept_readonly; solve_readonly]
               | solve [auto with contract_db]
               | apply kept_bind; [|intros ?] | case_match ].

(** One call. *)
Lemma invoke_kept P entry iv st :
  kept P (entry (iv_args iv)) →
  String.length (address_bytes (ep_caller (iv_params iv))) = 20%nat →
  paid (entry (iv_args iv)) (context (iv_params iv) st) = true →
  P st → P (invoke entry iv st).
Proof.
  intros Hk Hc Hp HP. unfold invoke. destruct (paid_eval _ _ Hp) as [_ Hs].
  destruct (run _ _) as [r c]. cbn [snd] in Hs. case_bool_decide; [|done].
  rewrite Hs. by apply Hk.
Qed.

Lemma reachable_kept P entry st : P ∅ → (∀ args, kept P (entry args)) → reachable entry st → P st.
Proof.
  intros H0 Hk. induction 1 as [|st iv Hr IH Hc Hp]; [done|]. by apply invoke_kept.
Qed.

(** ** Stored integers *)

(** The integer a value of [n] bytes holds; values of another length read as
    zero. *)
Definition int_of (n : nat) (v : bytes) : Z := if blen v =? Z.of_nat n then from_le_bytes v else 0.

Definition int_at (n : nat) (st : gmap bytes bytes) (key : bytes) : Z :=
  from_option (int_of n) 0 (st !! key).

Lemma int_of_bound n v : 0 <= int_of n v < 256 ^ Z.of_nat n.
Proof.
  unfold int_of. destruct (Z.eqb_spec (blen v) (Z.of_nat n)) as [Hl|]; [|lia].
  rewrite <- Hl. apply from_le_bytes_bound.
Qed.

Lemma int_at_bound n st key : 0 <= int_at n st key < 256 ^ Z.of_nat n.
Proof. unfold int_at. destruct (st !! key); cbn; [apply int_of_bound|lia]. Qed.

Lemma int_of_encode n x : 0 <= x < 256 ^ Z.of_nat n → int_of n (to_le_bytes n x) = x.
Proof.
  intros Hx. unfold int_of, blen. rewrite to_le_bytes_length, Z.eqb_refl. by apply from_to_le_bytes.
Qed.

Lemma int_at_insert n st key x :
  0 <= x < 256 ^ Z.of_nat n → int_at n (<[key := to_le_bytes n x]> st) key = x.
Proof. intros Hx. unfold int_at. rewrite lookup_insert_eq. by apply int_of_encode. Qed.

Lemma int_at_insert_ne n st key key' v : key ≠ key' → int_at n (<[key := v]> st) key' = int_at n st key'.
Proof. intros Hne. unfold int_at. by rewrite lookup_insert_ne. Qed.

(** Reading an integer into a buffer of its size. *)
Lemma read_int st key n :
  (if (read_at st key n).1 =? Z.of_nat n then from_le_bytes (read_at st key n).2 else 0) = int_at n st key.
Proof.
  unfold int_at, read_at. destruct (st !! key) as [v|]; cbn [from_option].
  2: { cbn. destruct n; [done|]. by destruct (Z.eqb_spec 0 (Z.of_nat (S n))); [lia|]. }
  unfold int_of, blen. destruct (Z.ltb_spec (Z.of_nat n) (Z.of_nat (String.length v))); cbn [fst snd].
  - destruct (Z.eqb_spec (-1) (Z.of_nat n)); [lia|].
    by destruct (Z.eqb_spec (Z.of_nat (String.length v)) (Z.of_nat n)); [lia|].
  - case_match eqn:Hl; [|done]. apply Z.eqb_eq in Hl.
    replace (n - String.length v)%nat with 0%nat by lia. by rewrite bapp_nil.
Qed.
