(* ===== verification/EquityToken.v ===== *)
(** * The equity token ([contracts/equity-token/src/lib.rs]) *)

From S2P Require Import Prelude Primitives RustStr Vm Contract.

Definition ADDR_LEN : Z := 20.
Definition U128_LEN : Z := 16.
Definition MAX_NAME_LEN : Z := 64.
Definition MAX_SYMBOL_LEN : Z := 16.

Definition KEY_INITIALIZED : bytes := "init".
Definition KEY_NAME : bytes := "name".
Definition KEY_SYMBOL : bytes := "sym".
Definition KEY_TOTAL_SUPPLY : bytes := "tsup".
Definition KEY_ISSUER : bytes := "issr".
Definition KEY_COMPLIANCE : bytes := "comp".
Definition KEY_DECIMALS : bytes := "dec".
Definition KEY_HOLDER_COUNT : bytes := "hcnt".

Module Equity.

Definition METHOD_INIT : Z := 1.
Definition METHOD_TRANSFER : Z := 2.
Definition METHOD_BALANCE_OF : Z := 3.
Definition METHOD_APPROVE : Z := 4.
Definition METHOD_TRANSFER_FROM : Z := 5.
Definition METHOD_TOTAL_SUPPLY : Z := 6.
Definition METHOD_DISTRIBUTE_REVENUE : Z := 7.
Definition METHOD_SET_COMPLIANCE : Z := 8.
Definition METHOD_ADD_TO_WHITELIST : Z := 9.
Definition METHOD_REMOVE_FROM_WHITELIST : Z := 10.
Definition METHOD_IS_WHITELISTED : Z := 11.

(** ** Helpers *)

Definition read_u128 (key : bytes) : Prog Z :=
  r ← storage_read key 16;
  mret (if r.1 =? U128_LEN then from_le_bytes r.2 else 0).

Definition write_u128 (key : bytes) (val : Z) : Prog unit := storage_write key (to_le_bytes 16 val).

Definition balance_key (addr : bytes) : bytes := "bal:" +:+ addr.
Definition whitelist_key (addr : bytes) : bytes := "wl:" +:+ addr.
Definition allowance_key (owner spender : bytes) : bytes := "alw:" +:+ owner +:+ spender.
Definition holder_index_key (index : Z) : bytes := "hld:" +:+ to_le_bytes 4 index.

(** The caller must be the stored issuer. *)
Definition require_issuer (caller : bytes) : Prog unit :=
  r ← storage_read KEY_ISSUER 20;
  _ ← exit_if (negb (r.1 =? ADDR_LEN)) (-7);
  exit_if (negb (bool_decide (caller = r.2))) (-8).

(** [wl:] of the address holds a single 1. *)
Definition require_whitelisted (addr : bytes) (code : Z) : Prog unit :=
  r ← storage_read (whitelist_key addr) 1;
  exit_if (negb (r.1 =? 1) || negb (byte_at r.2 0 =? 1)) code.

(** ** Methods *)

(** The arguments of [init]: name, symbol, supply and issuer, or [-3]. *)
Definition parse_init (args : bytes) : option (bytes * bytes * Z * bytes * Z) :=
  if blen args <? 1 then None
  else
    let name_len := byte_at args 0 in
    let offset := 1 in
    if (blen args <? offset + name_len) || (MAX_NAME_LEN <? name_len) then None
    else
      let name := slice args offset name_len in
      let offset := offset + name_len in
      if blen args <=? offset then None
      else
        let symbol_len := byte_at args (Z.to_nat offset) in
        let offset := offset + 1 in
        if (blen args <? offset + symbol_len) || (MAX_SYMBOL_LEN <? symbol_len) then None
        else
          let symbol := slice args offset symbol_len in
          let offset := offset + symbol_len in
          if blen args <? offset + U128_LEN then None
          else
            let total_supply := from_le_bytes (slice args offset U128_LEN) in
            let offset := offset + U128_LEN in
            if blen args <? offset + ADDR_LEN then None
            else Some (name, symbol, total_supply, slice args offset ADDR_LEN, offset + ADDR_LEN).

Definition require_uninitialized : Prog unit :=
  r ← storage_read KEY_INITIALIZED 1;
  exit_if ((0 <? r.1) && (byte_at r.2 0 =? 1)) (-2).

(** The supply is minted to the issuer, who becomes holder 0. *)
Definition mint_supply (issuer : bytes) (total_supply : Z) : Prog unit :=
  _ ← write_u128 (balance_key issuer) total_supply;
  _ ← storage_write (holder_index_key 0) issuer;
  _ ← write_u128 KEY_HOLDER_COUNT 1;
  _ ← storage_write KEY_INITIALIZED (byte 1);
  emit_event (byte METHOD_INIT +:+ issuer +:+ to_le_bytes 16 total_supply).

Definition method_init (args : bytes) : Prog bytes :=
  _ ← consume_gas 5000;
  _ ← require_uninitialized;
  match parse_init args with
  | None => Exit (-3)
  | Some (name, symbol, total_supply, issuer, _) =>
      _ ← storage_write KEY_NAME name;
      _ ← storage_write KEY_SYMBOL symbol;
      _ ← write_u128 KEY_TOTAL_SUPPLY total_supply;
      _ ← storage_write KEY_ISSUER issuer;
      _ ← storage_write KEY_DECIMALS (byte 18);
      _ ← mint_supply issuer total_supply;
      mret ""
  end.

(** The whitelist applies when a compliance address is set. *)
Definition check_compliance (from to : bytes) : Prog unit :=
  r ← storage_read KEY_COMPLIANCE 20;
  if r.1 =? ADDR_LEN then
    _ ← require_whitelisted from (-13);
    require_whitelisted to (-14)
  else mret tt.

(** A recipient whose balance was zero is appended to the holders. *)
Definition track_holder (addr : bytes) : Prog unit :=
  count ← read_u128 KEY_HOLDER_COUNT;
  let holder_count := wrap 32 count in
  _ ← storage_write (holder_index_key holder_count) addr;
  write_u128 KEY_HOLDER_COUNT (wrap 32 (holder_count + 1)).

Definition do_transfer (from to : bytes) (amount : Z) : Prog bytes :=
  _ ← check_compliance from to;
  from_balance ← read_u128 (balance_key from);
  _ ← exit_if (from_balance <? amount) (-5);
  _ ← write_u128 (balance_key from) (from_balance - amount);
  to_balance ← read_u128 (balance_key to);
  _ ← write_u128 (balance_key to) (wrap 128 (to_balance + amount));
  _ ← (if to_balance =? 0 then track_holder to else mret tt);
  _ ← emit_event (byte METHOD_TRANSFER +:+ from +:+ to +:+ to_le_bytes 16 amount);
  mret "".

Definition method_transfer (args : bytes) : Prog bytes :=
  _ ← consume_gas 3000;
  _ ← exit_if (blen args <? ADDR_LEN + U128_LEN) (-3);
  let to := slice args 0 ADDR_LEN in
  let amount := from_le_bytes (slice args ADDR_LEN U128_LEN) in
  _ ← exit_if (amount =? 0) (-4);
  caller ← get_caller;
  do_transfer caller to amount.

Definition method_balance_of (args : bytes) : Prog bytes :=
  _ ← consume_gas 500;
  _ ← exit_if (blen args <? ADDR_LEN) (-3);
  balance ← read_u128 (balance_key (slice args 0 ADDR_LEN));
  mret (to_le_bytes 16 balance).

Definition method_approve (args : bytes) : Prog bytes :=
  _ ← consume_gas 2000;
  _ ← exit_if (blen args <? ADDR_LEN + U128_LEN) (-3);
  let spender := slice args 0 ADDR_LEN in
  let amount := from_le_bytes (slice args ADDR_LEN U128_LEN) in
  caller ← get_caller;
  _ ← write_u128 (allowance_key caller spender) amount;
  _ ← emit_event (byte METHOD_APPROVE +:+ caller +:+ spender +:+ to_le_bytes 16 amount);
  mret "".

Definition method_transfer_from (args : bytes) : Prog bytes :=
  _ ← consume_gas 4000;
  _ ← exit_if (blen args <? ADDR_LEN * 2 + U128_LEN) (-3);
  let from := slice args 0 ADDR_LEN in
  let to := slice args ADDR_LEN ADDR_LEN in
  let amount := from_le_bytes (slice args (ADDR_LEN * 2) U128_LEN) in
  _ ← exit_if (amount =? 0) (-4);
  caller ← get_caller;
  allowance ← read_u128 (allowance_key from caller);
  _ ← exit_if (allowance <? amount) (-6);
  _ ← write_u128 (allowance_key from caller) (allowance - amount);
  do_transfer from to amount.

Definition method_total_supply : Prog bytes :=
  _ ← consume_gas 200;
  supply ← read_u128 KEY_TOTAL_SUPPLY;
  mret (to_le_bytes 16 supply).

(** The share of the holder with index [i], added to its balance. *)
Definition pay_holder (total_amount total_supply i distributed : Z) : Prog Z :=
  r ← storage_read (holder_index_key i) 20;
  if negb (r.1 =? ADDR_LEN) then mret distributed
  else
    let bkey := balance_key r.2 in
    holder_balance ← read_u128 bkey;
    if holder_balance =? 0 then mret distributed
    else
      match checked_mul 128 holder_balance total_amount ≫= λ v, checked_div v total_supply with
      | Some share =>
          if 0 <? share then
            _ ← write_u128 bkey (wrap 128 (holder_balance + share));
            mret (wrap 128 (distributed + share))
          else mret distributed
      | None => mret distributed
      end.

Fixpoint pay_holders (total_amount total_supply : Z) (holders : list Z) (distributed : Z) : Prog Z :=
  match holders with
  | [] => mret distributed
  | i :: holders =>
      distributed ← pay_holder total_amount total_supply i distributed;
      pay_holders total_amount total_supply holders distributed
  end.

Definition method_distribute_revenue (args : bytes) : Prog bytes :=
  _ ← consume_gas 5000;
  _ ← exit_if (blen args <? U128_LEN) (-3);
  caller ← get_caller;
  _ ← require_issuer caller;
  let total_amount := from_le_bytes (slice args 0 U128_LEN) in
  if total_amount =? 0 then mret ""
  else
    total_supply ← read_u128 KEY_TOTAL_SUPPLY;
    _ ← exit_if (total_supply =? 0) (-9);
    count ← read_u128 KEY_HOLDER_COUNT;
    let holder_count := wrap 32 count in
    _ ← consume_gas (holder_count * 500);
    distributed ← pay_holders total_amount total_supply (seqZ 0 holder_count) 0;
    _ ← write_u128 KEY_TOTAL_SUPPLY (wrap 128 (total_supply + distributed));
    _ ← emit_event (byte METHOD_DISTRIBUTE_REVENUE +:+ to_le_bytes 16 total_amount +:+
                    to_le_bytes 16 distributed);
    mret "".

Definition method_set_compliance (args : bytes) : Prog bytes :=
  _ ← consume_gas 2000;
  _ ← exit_if (blen args <? ADDR_LEN) (-3);
  caller ← get_caller;
  _ ← require_issuer caller;
  let compliance_addr := slice args 0 ADDR_LEN in
  _ ← storage_write KEY_COMPLIANCE compliance_addr;
  _ ← emit_event (byte METHOD_SET_COMPLIANCE +:+ compliance_addr);
  mret "".

Definition method_add_to_whitelist (args : bytes) : Prog bytes :=
  _ ← consume_gas 2000;
  _ ← exit_if (blen args <? ADDR_LEN) (-3);
  caller ← get_caller;
  _ ← require_issuer caller;
  _ ← storage_write (whitelist_key (slice args 0 ADDR_LEN)) (byte 1);
  mret "".

Definition method_remove_from_whitelist (args : bytes) : Prog bytes :=
  _ ← consume_gas 2000;
  _ ← exit_if (blen args <? ADDR_LEN) (-3);
  caller ← get_caller;
  _ ← require_issuer caller;
  _ ← storage_write (whitelist_key (slice args 0 ADDR_LEN)) (byte 0);
  mret "".

Definition method_is_whitelisted (args : bytes) : Prog bytes :=
  _ ← consume_gas 500;
  _ ← exit_if (blen args <? ADDR_LEN) (-3);
  r ← storage_read (whitelist_key (slice args 0 ADDR_LEN)) 1;
  mret (byte (if (r.1 =? 1) && (byte_at r.2 0 =? 1) then 1 else 0)).

(** ** Entry points *)

Definition call (args : bytes) : Prog bytes :=
  _ ← consume_gas 1000;
  if bool_decide (args = "") then method_total_supply
  else
    let method := byte_at args 0 in
    let payload := bdrop 1 args in
    if method =? METHOD_INIT then method_init payload
    else if method =? METHOD_TRANSFER then method_transfer payload
    else if method =? METHOD_BALANCE_OF then method_balance_of payload
    else if method =? METHOD_APPROVE then method_approve payload
    else if method =? METHOD_TRANSFER_FROM then method_transfer_from payload
    else if method =? METHOD_TOTAL_SUPPLY then method_total_supply
    else if method =? METHOD_DISTRIBUTE_REVENUE then method_distribute_revenue payload
    else if method =? METHOD_SET_COMPLIANCE then method_set_compliance payload
    else if method =? METHOD_ADD_TO_WHITELIST then method_add_to_whitelist payload
    else if method =? METHOD_REMOVE_FROM_WHITELIST then method_remove_from_whitelist payload
    else if method =? METHOD_IS_WHITELISTED then method_is_whitelisted payload
    else Exit (-10).

Definition get_info : Prog bytes := Call OpNumber (λ _, Call OpCaller (λ _, Ret "")).

End Equity.
