(* ===== verification/EquityProps.v ===== *)
(** * Properties of the equity token *)

From S2P Require Import Prelude Primitives RustStr Vm Contract EquityToken.

(** ** The token's books in the contract's storage *)

Abbreviation word := (int_of 16).
Abbreviation u128_at := (int_at 16).

Definition is_balance (key : bytes) : bool :=
  Str.starts_with "bal:" key && (String.length key =? 24)%nat.

Definition balance (st : gmap bytes bytes) (a : bytes) : Z := u128_at st (Equity.balance_key a).
Definition supply (st : gmap bytes bytes) : Z := u128_at st KEY_TOTAL_SUPPLY.

(** The sum of all balances. *)
Definition total (st : gmap bytes bytes) : Z :=
  map_sumZ (λ k v, if is_balance k then word v else 0) st.

Lemma word_bound v : 0 <= word v < 2 ^ 128.
Proof. apply (int_of_bound 16). Qed.

Lemma u128_at_bound st key : 0 <= u128_at st key < 2 ^ 128.
Proof. apply (int_at_bound 16). Qed.

Lemma word_encode x : 0 <= x < 2 ^ 128 → word (to_le_bytes 16 x) = x.
Proof. apply (int_of_encode 16). Qed.

Lemma u128_at_insert st key x :
  0 <= x < 2 ^ 128 → u128_at (<[key := to_le_bytes 16 x]> st) key = x.
Proof. apply (int_at_insert 16). Qed.

Lemma eval_read_u128 ps key st : eval ps (Equity.read_u128 key) st = (Ok (u128_at st key), st).
Proof. unfold Equity.read_u128. autorewrite with eval_db. by rewrite <- read_int. Qed.

Lemma eval_write_u128 ps key x st :
  eval ps (Equity.write_u128 key x) st = (Ok tt, <[key := to_le_bytes 16 x]> st).
Proof. done. Qed.

#[export] Hint Rewrite eval_read_u128 eval_write_u128 : eval_db.

(** ** The sum of the balances *)

Lemma is_balance_key a : String.length a = 20%nat → is_balance (Equity.balance_key a) = true.
Proof.
  intros Ha. unfold is_balance. change (String.length (Equity.balance_key a)) with (4 + String.length a)%nat.
  by rewrite Ha.
Qed.

Lemma total_insert_other st k v : is_balance k = false → total (<[k := v]> st) = total st.
Proof.
  intros Hk. unfold total. rewrite map_sumZ_insert, Hk. destruct (st !! k); cbn; lia.
Qed.

Lemma total_insert_balance st a x :
  String.length a = 20%nat → 0 <= x < 2 ^ 128 →
  total (<[Equity.balance_key a := to_le_bytes 16 x]> st) = total st - balance st a + x.
Proof.
  intros Ha Hx. unfold total. rewrite map_sumZ_insert, is_balance_key, word_encode by done.
  unfold balance, int_at. destruct (st !! _); cbn; lia.
Qed.

Lemma balance_le_total st a : String.length a = 20%nat → balance st a <= total st.
Proof.
  intros Ha. unfold balance, int_at. destruct (st !! Equity.balance_key a) as [v|] eqn:Hv; cbn.
  - assert (Hnn : ∀ k w, st !! k = Some w → 0 <= if is_balance k then word w else 0).
    { intros k w _. case_match; [apply word_bound|lia]. }
    pose proof (map_sumZ_lookup_le _ _ _ _ Hnn Hv) as Hle. cbn in Hle.
    by rewrite is_balance_key in Hle.
  - apply map_sumZ_nonneg. intros k w _. case_match; [apply word_bound|lia].
Qed.

(** ** Keeping the books *)

(** The balances add up to the supply, modulo the width of a balance; before
    [init] there are none. *)
Definition books (st : gmap bytes bytes) : Prop :=
  wrap 128 (total st) = supply st ∧ (st !! KEY_INITIALIZED ≠ Some (byte 1) → total st = 0).

(** A key that is neither a balance, nor the supply, nor the mark of [init]. *)
Definition neutral (key : bytes) : Prop :=
  is_balance key = false ∧ key ≠ KEY_TOTAL_SUPPLY ∧ key ≠ KEY_INITIALIZED.

Lemma books_write st k v : neutral k → books st → books (<[k := v]> st).
Proof.
  intros (Hb & Hs & Hi) [Ht H0]. unfold books, supply.
  by rewrite total_insert_other, int_at_insert_ne, lookup_insert_ne by done.
Qed.

Lemma readonly_read_u128 key : readonly (Equity.read_u128 key).
Proof. intros ps st. by rewrite eval_read_u128. Qed.

Lemma kept_write_u128 P k x : stable P k → kept P (Equity.write_u128 k x).
Proof. apply kept_write. Qed.

Lemma stable_neutral k : neutral k → stable books k.
Proof. intros Hk st v. by apply books_write. Qed.

Lemma neutral_whitelist a : neutral (Equity.whitelist_key a).
Proof. done. Qed.
Lemma neutral_allowance a b : neutral (Equity.allowance_key a b).
Proof. done. Qed.
Lemma neutral_holder i : neutral (Equity.holder_index_key i).
Proof. done. Qed.

#[export] Hint Resolve readonly_read_u128 kept_write_u128 stable_neutral neutral_whitelist neutral_allowance neutral_holder : contract_db.
#[export] Hint Extern 1 (neutral _) => done : contract_db.

Lemma readonly_check_compliance from to : readonly (Equity.check_compliance from to).
Proof. unfold Equity.check_compliance, Equity.require_whitelisted. solve_readonly. Qed.
Lemma readonly_require_issuer caller : readonly (Equity.require_issuer caller).
Proof. unfold Equity.require_issuer. solve_readonly. Qed.
#[export] Hint Resolve readonly_check_compliance readonly_require_issuer : contract_db.

Lemma kept_track_holder a : kept books (Equity.track_holder a).
Proof. unfold Equity.track_holder. solve_kept. Qed.
#[export] Hint Resolve kept_track_holder : contract_db.

(** ** The methods that move balances *)

Lemma wrap_eqm x y : (x - y) mod 2 ^ 128 = 0 → wrap 128 x = wrap 128 y.
Proof.
  intros H. unfold wrap. replace x with (y + (x - y)) by lia.
  rewrite Z.add_mod, H, Z.add_0_r by lia. apply Z.mod_mod. lia.
Qed.

Lemma wrap_add_l x y : wrap 128 (wrap 128 x + y) = wrap 128 (x + y).
Proof. unfold wrap. apply Zplus_mod_idemp_l. Qed.

(** Adding to a balance, as a transfer and a distribution do. *)
Lemma total_credit st a x :
  String.length a = 20%nat → 0 <= x →
  let st' := <[Equity.balance_key a := to_le_bytes 16 (wrap 128 (balance st a + x))]> st in
  wrap 128 (total st') = wrap 128 (total st + x) ∧ (total st + x < 2 ^ 128 → total st' = total st + x).
Proof.
  intros Ha Hx st'. pose proof (u128_at_bound st (Equity.balance_key a)) as Hb.
  pose proof (balance_le_total st a Ha) as Hle. fold (balance st a) in Hb.
  pose proof (Z.mod_pos_bound (balance st a + x) (2 ^ 128) ltac:(lia)) as Hw.
  unfold st'. rewrite total_insert_balance by done. split.
  - replace (total st - balance st a + wrap 128 (balance st a + x))
      with (wrap 128 (balance st a + x) + (total st - balance st a)) by lia.
    rewrite wrap_add_l. f_equal. lia.
  - intros Hlt. rewrite wrap_small by (unfold in_width; lia). lia.
Qed.

Lemma supply_write_balance st a v : supply (<[Equity.balance_key a := v]> st) = supply st.
Proof. by apply int_at_insert_ne. Qed.

Lemma kept_do_transfer from to amount :
  String.length from = 20%nat → String.length to = 20%nat → 0 <= amount →
  kept books (Equity.do_transfer from to amount).
Proof.
  intros Hf Ht Ha. unfold Equity.do_transfer.
  apply kept_bind; [solve_kept|intros _]. intros ps st Hc [Hw Hi].
  autorewrite with eval_db. fold (balance st from).
  destruct (Z.ltb_spec (balance st from) amount) as [Hlt|Hge]; [done|]. cbn [negb].
  autorewrite with eval_db.
  set (st1 := <[Equity.balance_key from := to_le_bytes 16 (balance st from - amount)]> st).
  fold (balance st1 to).
  pose proof (u128_at_bound st (Equity.balance_key from)) as Hb. fold (balance st from) in Hb.
  assert (Ht1 : total st1 = total st - amount).
  { unfold st1. rewrite total_insert_balance by (done || lia). lia. }
  destruct (total_credit st1 to amount Ht Ha) as [Hm Hs].
  set (st2 := <[Equity.balance_key to := _]> st1) in *.
  assert (Hb2 : books st2).
  { split.
    - unfold st2, st1. rewrite !supply_write_balance. fold st1. fold st2. rewrite Hm, Ht1.
      rewrite <- Hw. f_equal. lia.
    - intros H0. assert (total st = 0).
      { apply Hi. unfold st2, st1 in H0. by rewrite !lookup_insert_ne in H0. }
      rewrite Hs; lia. }
  revert Hb2. generalize st2. intros st3 Hb3.
  assert (Hk : ∀ u : Z, kept books (_ ← (if u =? 0 then Equity.track_holder to else mret tt);
    _ ← emit_event (byte Equity.METHOD_TRANSFER +:+ from +:+ to +:+ to_le_bytes 16 amount); mret ""))
    by (intros u; solve_kept).
  specialize (Hk (balance st1 to) ps st3 Hc Hb3). by rewrite eval_bind in Hk.
Qed.

(** A distribution adds to the balances what it reports. *)
Lemma pay_holder_total ps ta ts i d st :
  0 <= ta → 0 < ts → 0 <= d →
  ∃ d' st', eval ps (Equity.pay_holder ta ts i d) st = (Ok d', st')
    ∧ wrap 128 (total st' - d') = wrap 128 (total st - d) ∧ 0 <= d'
    ∧ supply st' = supply st ∧ st' !! KEY_INITIALIZED = st !! KEY_INITIALIZED
    ∧ (total st = 0 → total st' = 0).
Proof.
  intros Hta Hts Hd. unfold Equity.pay_holder. autorewrite with eval_db.
  destruct (Z.eqb_spec (read_at st (Equity.holder_index_key i) 20).1 ADDR_LEN) as [Hr|]; cbn [negb];
    [|by eexists _, _].
  set (a := (read_at st (Equity.holder_index_key i) 20).2) in *.
  destruct (read_at_full st (Equity.holder_index_key i) 20 a) as [_ Ha];
    [by rewrite (surjective_pairing (read_at _ _ _)), Hr|lia|].
  autorewrite with eval_db. fold (balance st a).
  destruct (Z.eqb_spec (balance st a) 0) as [H0|H0]; [by eexists _, _|].
  destruct (checked_mul 128 _ ta ≫= _) as [share|] eqn:Hshare; [|by eexists _, _].
  destruct (Z.ltb_spec 0 share) as [Hpos|]; [|by eexists _, _].
  autorewrite with eval_db. eexists _, _. split; [reflexivity|].
  destruct (total_credit st a share Ha ltac:(lia)) as [Hm Hs].
  pose proof (balance_le_total st a Ha) as Hle.
  pose proof (u128_at_bound st (Equity.balance_key a)) as Hb. fold (balance st a) in Hb.
  split_and!.
  - replace (total st - d) with (total st + share - (d + share)) by lia.
    unfold wrap in *. rewrite Zminus_mod, Hm, (Zminus_mod (total st + share)), Z.mod_mod by lia. done.
  - apply Z.mod_pos_bound. lia.
  - apply supply_write_balance.
  - by rewrite lookup_insert_ne.
  - lia.
Qed.

Lemma pay_holders_total ps ta ts holders d st :
  0 <= ta → 0 < ts → 0 <= d →
  ∃ d' st', eval ps (Equity.pay_holders ta ts holders d) st = (Ok d', st')
    ∧ wrap 128 (total st' - d') = wrap 128 (total st - d) ∧ 0 <= d'
    ∧ supply st' = supply st ∧ st' !! KEY_INITIALIZED = st !! KEY_INITIALIZED
    ∧ (total st = 0 → total st' = 0).
Proof.
  intros Hta Hts. revert d st. induction holders as [|i holders IH]; intros d st Hd; cbn [Equity.pay_holders].
  { by eexists _, _. }
  rewrite eval_bind. destruct (pay_holder_total ps ta ts i d st Hta Hts Hd)
    as (d1 & st1 & -> & Hw1 & Hd1 & Hs1 & Hi1 & H01).
  destruct (IH d1 st1 Hd1) as (d2 & st2 & -> & Hw2 & Hd2 & Hs2 & Hi2 & H02).
  eexists _, _. split; [reflexivity|]. rewrite Hw2, Hw1, Hs2, Hs1, Hi2, Hi1. split_and!; auto.
Qed.

(** The books are balanced again when the supply is raised by what was paid. *)
Lemma distribution_books ps ta holders st :
  books st → 0 <= ta → supply st ≠ 0 →
  ∃ d st1, eval ps (Equity.pay_holders ta (supply st) holders 0) st = (Ok d, st1)
    ∧ books (<[KEY_TOTAL_SUPPLY := to_le_bytes 16 (wrap 128 (supply st + d))]> st1).
Proof.
  intros [Hw Hi] Hta Hs0. pose proof (u128_at_bound st KEY_TOTAL_SUPPLY) as Hsb. fold (supply st) in Hsb.
  destruct (pay_holders_total ps ta (supply st) holders 0 st)
    as (d & st1 & -> & Hw1 & Hd & Hs1 & Hi1 & H01); [lia..|].
  exists d, st1. split; [done|]. split.
  - unfold supply. rewrite total_insert_other, u128_at_insert by (done || apply Z.mod_pos_bound; lia).
    fold (supply st). rewrite <- Hw, wrap_add_l. rewrite Z.sub_0_r in Hw1.
    unfold wrap in *. rewrite <- Zplus_mod_idemp_l, <- Hw1, Zplus_mod_idemp_l. f_equal. lia.
  - intros H0. rewrite lookup_insert_ne, Hi1 in H0 by done. rewrite total_insert_other by done. auto.
Qed.

Lemma kept_distribute_revenue args : kept books (Equity.method_distribute_revenue args).
Proof.
  unfold Equity.method_distribute_revenue.
  do 2 (apply kept_bind; [solve_kept|intros _]). apply kept_get_caller. intros caller _.
  apply kept_bind; [solve_kept|intros _].
  pose proof (from_le_bytes_bound (slice args 0 U128_LEN)) as Hta.
  set (ta := from_le_bytes _) in *. case_match; [solve_kept|].
  intros ps st Hc Hb. autorewrite with eval_db. fold (supply st).
  destruct (Z.eqb_spec (supply st) 0) as [|Hs0]; [done|]. autorewrite with eval_db.
  destruct (distribution_books ps ta (seqZ 0 (wrap 32 (u128_at st KEY_HOLDER_COUNT))) st)
    as (d & st1 & -> & Hb1); [done|lia|done|]. by autorewrite with eval_db.
Qed.

Lemma balance_zero st a : String.length a = 20%nat → total st = 0 → balance st a = 0.
Proof.
  intros Ha H0. pose proof (balance_le_total st a Ha).
  pose proof (u128_at_bound st (Equity.balance_key a)). unfold balance in *. lia.
Qed.

(** The supply is minted into an empty book. *)
Lemma mint_supply_books ps st issuer S :
  String.length issuer = 20%nat → 0 <= S < 2 ^ 128 → total st = 0 → supply st = S →
  books (eval ps (Equity.mint_supply issuer S) st).2.
Proof.
  intros Hl HS H0 Hs. unfold Equity.mint_supply. autorewrite with eval_db. cbn [snd]. split.
  - unfold supply. rewrite !int_at_insert_ne, !total_insert_other by done.
    fold (supply st). rewrite Hs, total_insert_balance, (balance_zero st issuer), H0 by done.
    apply wrap_small. unfold in_width. lia.
  - by rewrite lookup_insert_eq.
Qed.

Lemma eval_require_uninitialized ps st :
  eval ps Equity.require_uninitialized st =
  (if bool_decide (st !! KEY_INITIALIZED = Some (byte 1)) then Err (-2) else Ok tt, st).
Proof.
  unfold Equity.require_uninitialized. autorewrite with eval_db. rewrite <- read_flag. do 2 f_equal.
  unfold read_at. destruct (st !! KEY_INITIALIZED) as [v|]; [|done].
  destruct (Z.ltb_spec (Z.of_nat 1) (blen v)) as [|Hl]; [done|]. cbn [fst snd].
  unfold blen in *. destruct (String.length v) as [|[|]] eqn:Hv; [done..|lia].
Qed.
#[export] Hint Rewrite eval_require_uninitialized : eval_db.

Lemma parse_init_issuer args name symbol S issuer offset :
  Equity.parse_init args = Some (name, symbol, S, issuer, offset) →
  String.length issuer = 20%nat ∧ 0 <= S < 2 ^ 128.
Proof.
  unfold Equity.parse_init, ADDR_LEN, U128_LEN.
  pose proof (byte_at_bound args 0) as H0.
  pose proof (byte_at_bound args (Z.to_nat (1 + byte_at args 0))) as H1.
  repeat (case_match; [done|]). intros [= <- <- <- <- <-].
  rewrite slice_length by lia. split; [done|]. apply (slice_word_bound _ _ 16); lia.
Qed.

Lemma kept_init args : kept books (Equity.method_init args).
Proof.
  intros ps st Hc [Hw Hi]. unfold Equity.method_init. autorewrite with eval_db.
  case_bool_decide as Hinit; [done|].
  destruct (Equity.parse_init args) as [[[[[name symbol] S] issuer] off]|] eqn:Hp; [|done].
  apply parse_init_issuer in Hp as [Hl HS]. autorewrite with eval_db.
  set (st' := <[KEY_DECIMALS := _]> _).
  assert (Hb : books (eval ps (Equity.mint_supply issuer S) st').2); [|by destruct (eval ps _ st') as [[]]].
  apply mint_supply_books; [done..| |].
  - unfold st'. rewrite !total_insert_other by done. by apply Hi.
  - unfold st', supply. rewrite !int_at_insert_ne by done. by apply u128_at_insert.
Qed.

Lemma kept_transfer args : kept books (Equity.method_transfer args).
Proof.
  unfold Equity.method_transfer. apply kept_bind; [solve_kept|intros _].
  destruct (blen args <? ADDR_LEN + U128_LEN) eqn:Hl; [by intros ps st|].
  cbn [exit_if]. apply kept_bind; [solve_kept|intros _]. apply kept_bind; [solve_kept|intros _].
  apply kept_get_caller. intros a Ha. unfold ADDR_LEN, U128_LEN in *.
  apply kept_do_transfer; [done|by apply slice_length; lia|]. apply slice_word_bound; lia.
Qed.

Lemma kept_transfer_from args : kept books (Equity.method_transfer_from args).
Proof.
  unfold Equity.method_transfer_from. apply kept_bind; [solve_kept|intros _].
  destruct (blen args <? ADDR_LEN * 2 + U128_LEN) eqn:Hl; [by intros ps st|].
  cbn [exit_if]. do 2 (apply kept_bind; [solve_kept|intros _]).
  apply kept_get_caller. intros a Ha. unfold ADDR_LEN, U128_LEN in *.
  do 3 (apply kept_bind; [solve_kept|intros ?]).
  apply kept_do_transfer; [apply slice_length; lia..|]. apply slice_word_bound; lia.
Qed.

Lemma kept_call args : kept books (Equity.call args).
Proof.
  unfold Equity.call. apply kept_bind; [solve_kept|intros _].
  repeat (case_match; [solve [auto using kept_init, kept_transfer, kept_transfer_from,
    kept_distribute_revenue | unfold Equity.method_total_supply, Equity.method_balance_of,
      Equity.method_approve, Equity.method_set_compliance, Equity.method_add_to_whitelist,
      Equity.method_remove_from_whitelist, Equity.method_is_whitelisted; solve_kept]|]).
  solve_kept.
Qed.

Lemma spends_read_u128 key : spends (Equity.read_u128 key) (200 + 0 + 0).
Proof. unfold Equity.read_u128. spends_step. Qed.
Lemma spends_write_u128 key x : spends (Equity.write_u128 key x) (20000 + 0).
Proof. apply spends_storage_write. Qed.
#[export] Hint Resolve spends_read_u128 spends_write_u128 : spends_db.

Lemma spends_do_transfer from to amount :
  String.length from = 20%nat → String.length to = 20%nat → spends (Equity.do_transfer from to amount) 82031.
Proof.
  intros Hf Ht. unfold Equity.do_transfer, Equity.check_compliance, Equity.require_whitelisted, Equity.track_holder.
  assert (He : spends (emit_event (byte Equity.METHOD_TRANSFER +:+ from +:+ to +:+ to_le_bytes 16 amount))
    (375 + 8 * 57 + 0)).
  { apply spends_emit_event; [|lia]. unfold blen. rewrite !blen_app, to_le_bytes_length, Hf, Ht. done. }
  solve_spends.
Qed.

(** ** Conservation *)

Lemma books_conserved st :
  books st → wrap 128 (total st) = supply st ∧ (total st < 2 ^ 128 → total st = supply st).
Proof.
  intros [Hw _]. split; [done|]. intros Hlt. rewrite <- Hw. symmetry. apply wrap_small.
  split; [|done]. apply map_sumZ_nonneg. intros k v _. case_match; [apply word_bound|lia].
Qed.

(** C16: The balances of an equity token always add up to its supply.  Whatever
    accounts call whatever methods in whatever order, with arguments of any form,
    the sum of all balances equals the recorded supply modulo the width of a
    balance, and exactly when it fits: no transfer creates or destroys units, and
    a distribution raises the supply by what it credited to the holders, each share
    rounded down, not by the amount it was called with.  Each call must have enough
    gas. *)
Theorem equity_conserves st :
  reachable Equity.call st →
  wrap 128 (total st) = supply st ∧ (total st < 2 ^ 128 → total st = supply st).
Proof.
  intros Hr. apply books_conserved, (reachable_kept books Equity.call); [done|apply kept_call|done].
Qed.

(** ** Transfers *)

Definition regulated (st : gmap bytes bytes) : bool := (read_at st KEY_COMPLIANCE 20).1 =? ADDR_LEN.

Definition whitelisted (st : gmap bytes bytes) (a : bytes) : bool :=
  bool_decide (st !! Equity.whitelist_key a = Some (byte 1)).

(** Why a transfer is refused, if it is. *)
Definition transfer_refused (st : gmap bytes bytes) (from to : bytes) (amount : Z) : option Z :=
  if regulated st && negb (whitelisted st from) then Some (-13)
  else if regulated st && negb (whitelisted st to) then Some (-14)
  else if balance st from <? amount then Some (-5)
  else None.

Lemma eval_require_whitelisted ps a code st :
  eval ps (Equity.require_whitelisted a code) st = (if whitelisted st a then Ok tt else Err code, st).
Proof.
  unfold Equity.require_whitelisted, whitelisted. autorewrite with eval_db. rewrite <- read_flag.
  by destruct (_ =? 1), (_ =? 1).
Qed.

Lemma balance_write_eq st a x :
  0 <= x < 2 ^ 128 → balance (<[Equity.balance_key a := to_le_bytes 16 x]> st) a = x.
Proof. apply u128_at_insert. Qed.

Lemma balance_key_inj a b : Equity.balance_key a = Equity.balance_key b → a = b.
Proof. intros He. by injection He. Qed.

Lemma balance_write_ne st a b v : a ≠ b → balance (<[Equity.balance_key a := v]> st) b = balance st b.
Proof. intros Hne. apply int_at_insert_ne. by intros He%balance_key_inj. Qed.

Lemma balance_write_neutral st k v b :
  String.length b = 20%nat → neutral k → balance (<[k := v]> st) b = balance st b.
Proof.
  intros Hb (Hk & _). apply int_at_insert_ne. intros ->. by rewrite is_balance_key in Hk.
Qed.

(** The next free place in the list of holders is given to [a]. *)
Definition registered (a : bytes) (st : gmap bytes bytes) : gmap bytes bytes :=
  let n := wrap 32 (u128_at st KEY_HOLDER_COUNT) in
  <[KEY_HOLDER_COUNT := to_le_bytes 16 (wrap 32 (n + 1))]> (<[Equity.holder_index_key n := a]> st).

(** The storage after an accepted transfer. *)
Definition transferred (from to : bytes) (amount : Z) (st : gmap bytes bytes) : gmap bytes bytes :=
  let st1 := <[Equity.balance_key from := to_le_bytes 16 (balance st from - amount)]> st in
  let st2 := <[Equity.balance_key to := to_le_bytes 16 (wrap 128 (balance st1 to + amount))]> st1 in
  if balance st1 to =? 0 then registered to st2 else st2.

Lemma eval_do_transfer ps from to amount st :
  eval ps (Equity.do_transfer from to amount) st =
  match transfer_refused st from to amount with
  | Some code => (Err code, st)
  | None => (Ok "", transferred from to amount st)
  end.
Proof.
  unfold Equity.do_transfer, Equity.check_compliance, Equity.track_holder, transfer_refused.
  autorewrite with eval_db. fold (regulated st).
  destruct (regulated st); cbn [andb];
    rewrite ?eval_bind, ?eval_require_whitelisted, ?eval_ret.
  1: destruct (whitelisted st from); [|done].
  1: destruct (whitelisted st to); [|done].
  all: cbn [negb]; autorewrite with eval_db; fold (balance st from);
    destruct (balance st from <? amount); [done|]; autorewrite with eval_db;
    unfold transferred, balance; destruct (u128_at _ (Equity.balance_key to) =? 0); by autorewrite with eval_db.
Qed.

Lemma transferred_balance from to amount st a :
  String.length from = 20%nat → String.length to = 20%nat → String.length a = 20%nat → 0 <= amount →
  total st < 2 ^ 128 → amount <= balance st from →
  balance (transferred from to amount st) a =
    balance st a - (if decide (a = from) then amount else 0) + (if decide (a = to) then amount else 0).
Proof.
  intros Hf Ht Hl Ha Htot Hb. unfold transferred.
  set (st1 := <[Equity.balance_key from := _]> st).
  pose proof (u128_at_bound st (Equity.balance_key from)) as Hbf. fold (balance st from) in Hbf.
  assert (H1 : ∀ b, balance st1 b = balance st b - (if decide (b = from) then amount else 0)).
  { intros b. unfold st1. case_decide as Hd; [subst; rewrite balance_write_eq; lia|].
    rewrite balance_write_ne by done. lia. }
  assert (Ht1 : total st1 = total st - amount)
    by (unfold st1; rewrite total_insert_balance by (done || lia); lia).
  pose proof (balance_le_total st1 to Ht) as Hle.
  pose proof (u128_at_bound st1 (Equity.balance_key to)) as Hbt. fold (balance st1 to) in Hbt.
  set (st2 := <[Equity.balance_key to := _]> st1).
  assert (H2 : balance st2 a = balance st1 a + (if decide (a = to) then amount else 0)).
  { unfold st2. rewrite wrap_small by (unfold in_width; lia).
    case_decide as Hd; [subst; rewrite balance_write_eq; lia|]. rewrite balance_write_ne by done. lia. }
  rewrite <- H1, <- H2. destruct (balance st1 to =? 0); [|done].
  unfold registered. by rewrite !balance_write_neutral.
Qed.

Lemma transferred_supply from to amount st : supply (transferred from to amount st) = supply st.
Proof.
  unfold transferred, registered. case_match; [unfold supply; rewrite !int_at_insert_ne by done|];
    by rewrite ?supply_write_balance; try apply supply_write_balance.
Qed.

(** The call of a transfer, and its arguments as the method reads them. *)
Lemma call_transfer x :
  Equity.call (byte Equity.METHOD_TRANSFER +:+ x) = (_ ← consume_gas 1000; Equity.method_transfer x).
Proof. unfold Equity.call. by rewrite bool_decide_false. Qed.

Lemma method_transfer_args to amount :
  String.length to = 20%nat → 0 < amount < 2 ^ 128 →
  Equity.method_transfer (to +:+ to_le_bytes 16 amount) =
  (_ ← consume_gas 3000; _ ← mret tt; _ ← mret tt; caller ← get_caller; Equity.do_transfer caller to amount).
Proof.
  intros Ht Ha. unfold Equity.method_transfer.
  replace (blen _ <? ADDR_LEN + U128_LEN) with false
    by (unfold blen; by rewrite blen_app, to_le_bytes_length, Ht).
  rewrite slice_prefix, slice_suffix by (rewrite ?Ht, ?to_le_bytes_length; done).
  rewrite from_to_le_bytes by lia. by destruct (Z.eqb_spec amount 0); [lia|].
Qed.

(** What a transfer does, for every account, amount and storage.  With the
    gas below, the call is refused with the code of the first condition that
    fails and leaves the storage as it was, or it moves exactly the amount from
    the caller to the recipient, touches no other balance, and keeps the
    supply. *)
Theorem equity_transfer_exact c to amount :
  let from := address_bytes (ep_caller (cx_params c)) in
  let st := cx_storage c in
  let r := run (Equity.call (byte Equity.METHOD_TRANSFER +:+ to +:+ to_le_bytes 16 amount)) c in
  String.length from = 20%nat → String.length to = 20%nat →
  0 < amount < 2 ^ 128 → total st < 2 ^ 128 →
  0 <= gm_used (cx_gas c) → gm_used (cx_gas c) + 86131 <= gm_limit (cx_gas c) < 2 ^ 64 →
  match transfer_refused st from to amount with
  | Some code => r.1 = Err code ∧ cx_storage r.2 = st
  | None => r.1 = Ok "" ∧ supply (cx_storage r.2) = supply st ∧
      ∀ a, String.length a = 20%nat →
        balance (cx_storage r.2) a = balance st a - (if decide (a = from) then amount else 0)
                                     + (if decide (a = to) then amount else 0)
  end.
Proof.
  intros from st r Hf Ht Ha Htot Hu Hl.
  unfold r. rewrite call_transfer, method_transfer_args by done. clear r. set (p := _ ≫= _).
  assert (He : eval (cx_params c) p st = eval (cx_params c) (Equity.do_transfer from to amount) st)
    by (unfold p; by autorewrite with eval_db).
  assert (Hp : paid p c = true).
  { assert (Hs : spends p 86131) by (unfold p; pose proof spends_do_transfer; solve_spends).
    by apply Hs. }
  destruct (paid_eval p c Hp) as [H1 H2]. fold st in H1, H2. rewrite He, eval_do_transfer in H1, H2.
  rewrite H1, H2. destruct (transfer_refused st from to amount) eqn:Hr; [done|].
  split_and!; [done|apply transferred_supply|]. intros a Hl'.
  apply transferred_balance; [done..|lia|done|].
  unfold transfer_refused in Hr. repeat (case_match; [done|]). lia.
Qed.

(** ** Examples *)

Definition demo_holder (n : Z) : Address := MkAddress (byte n +:+ zeros 19).

Definition demo_params (caller gas : Z) : ExecutionParams :=
  MkExecutionParams (demo_holder 99) (demo_holder caller) (demo_holder caller) 0 1 1000 0 gas.

Definition init_args (name symbol : bytes) (supply : Z) (issuer : Address) : bytes :=
  byte Equity.METHOD_INIT +:+ byte (blen name) +:+ name +:+ byte (blen symbol) +:+ symbol
  +:+ to_le_bytes 16 supply +:+ address_bytes issuer.

Definition transfer_args (to : Address) (amount : Z) : bytes :=
  byte Equity.METHOD_TRANSFER +:+ address_bytes to +:+ to_le_bytes 16 amount.

Definition distribute_args (amount : Z) : bytes :=
  byte Equity.METHOD_DISTRIBUTE_REVENUE +:+ to_le_bytes 16 amount.

(** Holder 1 issues a thousand shares and gives half of them to holder 2. *)
Definition demo_shares : gmap bytes bytes :=
  Eval vm_compute in
    invoke Equity.call (MkInvocation (demo_params 1 300000) (transfer_args (demo_holder 2) 500))
      (invoke Equity.call (MkInvocation (demo_params 1 300000) (init_args "Acme" "ACM" 1000 (demo_holder 1))) ∅).

Definition demo_balance (st : gmap bytes bytes) (n : Z) : Z := balance st (address_bytes (demo_holder n)).

Lemma demo_shares_reachable : reachable Equity.call demo_shares.
Proof.
  assert (Hr : reachable Equity.call (invoke Equity.call (MkInvocation (demo_params 1 300000)
    (init_args "Acme" "ACM" 1000 (demo_holder 1))) ∅)).
  { apply reachable_call; [apply reachable_new|reflexivity|vm_compute; reflexivity]. }
  pose proof (reachable_call Equity.call _ (MkInvocation (demo_params 1 300000) (transfer_args (demo_holder 2) 500))
    Hr) as Hs. exact (Hs ltac:(reflexivity) ltac:(vm_compute; reflexivity)).
Qed.

Lemma equity_conserves_witness :
  reachable Equity.call demo_shares ∧ total demo_shares = 1000 ∧ supply demo_shares = 1000.
Proof.
  split; [exact demo_shares_reachable|].
  assert (Ht : total demo_shares = 1000) by (vm_compute; reflexivity). split; [exact Ht|].
  destruct (equity_conserves demo_shares demo_shares_reachable) as [_ He].
  rewrite <- He; rewrite Ht; [reflexivity|lia].
Defined.

(** Revenue of 3 on a thousand shares held in halves: each holder gets one unit,
    and the supply rises by two. *)
Example distribution_rounds_down :
  let st := invoke Equity.call (MkInvocation (demo_params 1 300000) (distribute_args 3)) demo_shares in
  demo_balance st 1 = 501 ∧ demo_balance st 2 = 501 ∧ supply st = 1002.
Proof. vm_compute. done. Qed.

Lemma equity_transfer_exact_witness :
  let c := context (demo_params 2 100000) demo_shares in
  let r := run (Equity.call (byte Equity.METHOD_TRANSFER +:+ address_bytes (demo_holder 3)
                             +:+ to_le_bytes 16 200)) c in
  r.1 = Ok "" ∧ demo_balance (cx_storage r.2) 2 = 300 ∧ demo_balance (cx_storage r.2) 3 = 200.
Proof.
  intros c r.
  pose proof (equity_transfer_exact c (address_bytes (demo_holder 3)) 200) as H. cbv zeta in H.
  assert (Hr : transfer_refused (cx_storage c) (address_bytes (ep_caller (cx_params c)))
    (address_bytes (demo_holder 3)) 200 = None) by (vm_compute; reflexivity).
  rewrite Hr in H. destruct H as (Ho & _ & Hb);
    [reflexivity|reflexivity|lia|vm_compute; reflexivity|vm_compute; discriminate
    |vm_compute; split; [discriminate|reflexivity]|].
  split; [exact Ho|]. unfold demo_balance. rewrite !Hb by reflexivity. split; vm_compute; reflexivity.
Defined.

(** A transfer with too little gas for its second write reports success: the
    debit is stored, the credit is dropped without an error, and the units are
    gone. *)
Example transfer_out_of_gas_burns :
  let iv := MkInvocation (demo_params 2 10000) (transfer_args (demo_holder 3) 200) in
  let st := invoke Equity.call iv demo_shares in
  status (run (Equity.call (iv_args iv)) (context (iv_params iv) demo_shares)).1 = Some 0
  ∧ demo_balance st 2 = 300 ∧ demo_balance st 3 = 0 ∧ total st = 800 ∧ supply st = 1000.
Proof. vm_compute. split_and!; reflexivity. Qed.

(** A holder who sends its whole balance to itself is entered into the list of
    holders once more, and is paid once more by every distribution: after three
    such transfers holder 2, with half of the shares, receives most of the
    revenue. *)
Example self_transfers_multiply_revenue :
  let again := MkInvocation (demo_params 2 300000) (transfer_args (demo_holder 2) 500) in
  let pay := MkInvocation (demo_params 1 300000) (distribute_args 1000) in
  let st := invoke Equity.call pay demo_shares in
  let st' := invoke Equity.call pay (Nat.iter 3 (invoke Equity.call again) demo_shares) in
  demo_balance st 1 = 1000 ∧ demo_balance st 2 = 1000
  ∧ demo_balance st' 1 = 1000 ∧ demo_balance st' 2 = 8000.
Proof. vm_compute. split_and!; reflexivity. Qed.
