(* ===== verification/RealEstateToken.v ===== *)
(** * The real-estate token ([contracts/real-estate-token/src/lib.rs])

    The equity token with a property record: the helpers and the transfer
    methods are the same code, the issuer's methods differ.  Its balances add up
    to its supply, and the rent it reports is the supply it added. *)

From S2P Require Import Prelude Primitives RustStr Vm Contract EquityToken EquityProps.

Definition MAX_URI_LEN : Z := 256.
Definition KEY_PROPERTY_URI : bytes := "puri".
Definition KEY_VALUATION : bytes := "pval".
Definition KEY_TOTAL_RENT_DISTRIBUTED : bytes := "tren".

Module RealEstate.

Definition METHOD_DISTRIBUTE_RENT : Z := 7.
Definition METHOD_UPDATE_VALUATION : Z := 9.
Definition METHOD_PROPERTY_INFO : Z := 10.
Definition METHOD_ADD_TO_WHITELIST : Z := 11.
Definition METHOD_REMOVE_FROM_WHITELIST : Z := 12.
Definition METHOD_IS_WHITELISTED : Z := 13.

(** ** The code shared with the equity token *)

Definition read_u128 (key : bytes) : Prog Z := Equity.read_u128 key.
Definition write_u128 (key : bytes) (val : Z) : Prog unit := Equity.write_u128 key val.
Definition do_transfer (from to : bytes) (amount : Z) : Prog bytes := Equity.do_transfer from to amount.
Definition method_transfer (args : bytes) : Prog bytes := Equity.method_transfer args.
Definition method_balance_of (args : bytes) : Prog bytes := Equity.method_balance_of args.
Definition method_transfer_from (args : bytes) : Prog bytes := Equity.method_transfer_from args.
Definition method_total_supply : Prog bytes := Equity.method_total_supply.
Definition method_is_whitelisted (args : bytes) : Prog bytes := Equity.method_is_whitelisted args.

(** ** Its own methods *)

Definition is_issuer (caller : bytes) : Prog bool :=
  r ← storage_read KEY_ISSUER 20;
  mret ((r.1 =? ADDR_LEN) && bool_decide (caller = r.2)).

Definition require_issuer (caller : bytes) : Prog unit :=
  b ← is_issuer caller;
  exit_if (negb b) (-8).

(** The optional URI after the issuer's address; one that does not fit is
    dropped. *)
Definition parse_uri (args : bytes) (offset : Z) : bytes :=
  if offset <? blen args then
    let uri_len := byte_at args (Z.to_nat offset) in
    let offset := offset + 1 in
    if (offset + uri_len <=? blen args) && (uri_len <=? MAX_URI_LEN)
    then slice args offset uri_len else ""
  else "".

Definition method_init (args : bytes) : Prog bytes :=
  _ ← consume_gas 6000;
  _ ← Equity.require_uninitialized;
  match Equity.parse_init args with
  | None => Exit (-3)
  | Some (name, symbol, total_supply, issuer, offset) =>
      let property_uri := parse_uri args offset in
      _ ← storage_write KEY_NAME name;
      _ ← storage_write KEY_SYMBOL symbol;
      _ ← write_u128 KEY_TOTAL_SUPPLY total_supply;
      _ ← storage_write KEY_ISSUER issuer;
      _ ← (if bool_decide (property_uri = "") then mret tt
           else storage_write KEY_PROPERTY_URI property_uri);
      _ ← Equity.mint_supply issuer total_supply;
      mret ""
  end.

Definition method_approve (args : bytes) : Prog bytes :=
  _ ← consume_gas 2000;
  _ ← exit_if (blen args <? ADDR_LEN + U128_LEN) (-3);
  let spender := slice args 0 ADDR_LEN in
  let amount := from_le_bytes (slice args ADDR_LEN U128_LEN) in
  caller ← get_caller;
  _ ← write_u128 (Equity.allowance_key caller spender) amount;
  mret "".

Definition method_distribute_rent (args : bytes) : Prog bytes :=
  _ ← consume_gas 5000;
  _ ← exit_if (blen args <? U128_LEN) (-3);
  caller ← get_caller;
  _ ← require_issuer caller;
  let total_amount := from_le_bytes (slice args 0 U128_LEN) in
  if total_amount =? 0 then mret ""
  else
    total_supply ← read_u128 KEY_TOTAL_SUPPLY;
    _ ← exit_if (total_supply =? 0) (-9);
    count ← read_u128 KEY_HOLDER_COUNT;
    let holder_count := wrap 32 count in
    _ ← consume_gas (holder_count * 500);
    distributed ← Equity.pay_holders total_amount total_supply (seqZ 0 holder_count) 0;
    _ ← write_u128 KEY_TOTAL_SUPPLY (wrap 128 (total_supply + distributed));
    prev_rent ← read_u128 KEY_TOTAL_RENT_DISTRIBUTED;
    _ ← write_u128 KEY_TOTAL_RENT_DISTRIBUTED (wrap 128 (prev_rent + distributed));
    _ ← emit_event (byte METHOD_DISTRIBUTE_RENT +:+ to_le_bytes 16 total_amount +:+
                    to_le_bytes 16 distributed);
    mret "".

Definition method_set_compliance (args : bytes) : Prog bytes :=
  _ ← consume_gas 2000;
  _ ← exit_if (blen args <? ADDR_LEN) (-3);
  caller ← get_caller;
  _ ← require_issuer caller;
  _ ← storage_write KEY_COMPLIANCE (slice args 0 ADDR_LEN);
  mret "".

Definition method_update_valuation (args : bytes) : Prog bytes :=
  _ ← consume_gas 2000;
  _ ← exit_if (blen args <? U128_LEN) (-3);
  caller ← get_caller;
  _ ← require_issuer caller;
  let valuation := from_le_bytes (slice args 0 U128_LEN) in
  _ ← write_u128 KEY_VALUATION valuation;
  _ ← emit_event (byte METHOD_UPDATE_VALUATION +:+ to_le_bytes 16 valuation);
  mret "".

Definition method_property_info : Prog bytes :=
  _ ← consume_gas 500;
  r ← storage_read KEY_PROPERTY_URI 256;
  let uri_len := if 0 <? r.1 then r.1 else 0 in
  valuation ← read_u128 KEY_VALUATION;
  total_rent ← read_u128 KEY_TOTAL_RENT_DISTRIBUTED;
  mret (byte uri_len +:+ slice r.2 0 uri_len +:+ to_le_bytes 16 valuation +:+ to_le_bytes 16 total_rent).

Definition method_add_to_whitelist (args : bytes) : Prog bytes :=
  _ ← consume_gas 2000;
  _ ← exit_if (blen args <? ADDR_LEN) (-3);
  caller ← get_caller;
  _ ← require_issuer caller;
  _ ← storage_write (Equity.whitelist_key (slice args 0 ADDR_LEN)) (byte 1);
  mret "".

Definition method_remove_from_whitelist (args : bytes) : Prog bytes :=
  _ ← consume_gas 2000;
  _ ← exit_if (blen args <? ADDR_LEN) (-3);
  caller ← get_caller;
  _ ← require_issuer caller;
  _ ← storage_write (Equity.whitelist_key (slice args 0 ADDR_LEN)) (byte 0);
  mret "".

Definition call (args : bytes) : Prog bytes :=
  _ ← consume_gas 1000;
  if bool_decide (args = "") then method_total_supply
  else
    let method := byte_at args 0 in
    let payload := bdrop 1 args in
    if method =? Equity.METHOD_INIT then method_init payload
    else if method =? Equity.METHOD_TRANSFER then method_transfer payload
    else if method =? Equity.METHOD_BALANCE_OF then method_balance_of payload
    else if method =? Equity.METHOD_APPROVE then method_approve payload
    else if method =? Equity.METHOD_TRANSFER_FROM then method_transfer_from payload
    else if method =? Equity.METHOD_TOTAL_SUPPLY then method_total_supply
    else if method =? METHOD_DISTRIBUTE_RENT then method_distribute_rent payload
    else if method =? Equity.METHOD_SET_COMPLIANCE then method_set_compliance payload
    else if method =? METHOD_UPDATE_VALUATION then method_update_valuation payload
    else if method =? METHOD_PROPERTY_INFO then method_property_info
    else if method =? METHOD_ADD_TO_WHITELIST then method_add_to_whitelist payload
    else if method =? METHOD_REMOVE_FROM_WHITELIST then method_remove_from_whitelist payload
    else if method =? METHOD_IS_WHITELISTED then method_is_whitelisted payload
    else Exit (-10).

Definition get_info : Prog bytes := Call OpNumber (λ _, Call OpCaller (λ _, Ret "")).

End RealEstate.

(** ** Conservation *)

Lemma readonly_re_issuer caller : readonly (RealEstate.require_issuer caller).
Proof. unfold RealEstate.require_issuer, RealEstate.is_issuer. solve_readonly. Qed.
#[export] Hint Resolve readonly_re_issuer : contract_db.

Lemma kept_re_init args : kept books (RealEstate.method_init args).
Proof.
  intros ps st Hc [Hw Hi]. unfold RealEstate.method_init, RealEstate.write_u128.
  autorewrite with eval_db. case_bool_decide as Hinit; [done|].
  destruct (Equity.parse_init args) as [[[[[name symbol] S] issuer] off]|] eqn:Hp; [|done].
  apply parse_init_issuer in Hp as [Hl HS]. autorewrite with eval_db.
  set (st1 := <[KEY_ISSUER := _]> _).
  assert (Hst1 : total st1 = 0 ∧ supply st1 = S).
  { split; [unfold st1; rewrite !total_insert_other by done; by apply Hi|].
    unfold st1, supply. rewrite !int_at_insert_ne by done. by apply u128_at_insert. }
  assert (Hb : ∀ st', total st' = 0 ∧ supply st' = S → books (eval ps (Equity.mint_supply issuer S ≫= λ _, mret "") st').2).
  { intros st' [H0 Hs]. rewrite eval_bind. pose proof (mint_supply_books ps st' issuer S Hl HS H0 Hs).
    by destruct (eval ps _ st') as [[]]. }
  case_bool_decide; autorewrite with eval_db; rewrite <- eval_bind; apply Hb; [done|].
  destruct Hst1 as [H0 Hs]. rewrite total_insert_other by done. unfold supply. by rewrite int_at_insert_ne.
Qed.

Lemma kept_distribute_rent args : kept books (RealEstate.method_distribute_rent args).
Proof.
  unfold RealEstate.method_distribute_rent, RealEstate.read_u128, RealEstate.write_u128.
  do 2 (apply kept_bind; [solve_kept|intros _]). apply kept_get_caller. intros caller _.
  apply kept_bind; [solve_kept|intros _].
  pose proof (from_le_bytes_bound (slice args 0 U128_LEN)) as Hta.
  set (ta := from_le_bytes _) in *. case_match; [solve_kept|].
  intros ps st Hc Hb. autorewrite with eval_db. fold (supply st).
  destruct (Z.eqb_spec (supply st) 0) as [|Hs0]; [done|]. autorewrite with eval_db.
  destruct (distribution_books ps ta (seqZ 0 (wrap 32 (u128_at st KEY_HOLDER_COUNT))) st)
    as (d & st1 & -> & Hb1); [done|lia|done|]. autorewrite with eval_db. by apply books_write.
Qed.

Lemma kept_re_call args : kept books (RealEstate.call args).
Proof.
  unfold RealEstate.call. apply kept_bind; [solve_kept|intros _].
  repeat (case_match; [solve [auto using kept_re_init, kept_transfer, kept_transfer_from,
    kept_distribute_rent | unfold RealEstate.method_total_supply, Equity.method_total_supply,
      RealEstate.method_balance_of, Equity.method_balance_of, RealEstate.method_property_info,
      RealEstate.method_approve, RealEstate.method_set_compliance, RealEstate.method_add_to_whitelist,
      RealEstate.method_update_valuation, RealEstate.method_remove_from_whitelist,
      RealEstate.method_is_whitelisted, Equity.method_is_whitelisted,
      RealEstate.read_u128, RealEstate.write_u128; solve_kept]|]).
  solve_kept.
Qed.

(** ** The rent record *)

Definition rent (st : gmap bytes bytes) : Z := u128_at st KEY_TOTAL_RENT_DISTRIBUTED.

(** The token is initialized, and its supply without the rent is [x]. *)
Definition issued (x : Z) (st : gmap bytes bytes) : Prop :=
  st !! KEY_INITIALIZED = Some (byte 1) ∧ wrap 128 (supply st - rent st) = x.

Lemma stable_issued x k :
  k ≠ KEY_INITIALIZED → k ≠ KEY_TOTAL_SUPPLY → k ≠ KEY_TOTAL_RENT_DISTRIBUTED → stable (issued x) k.
Proof.
  intros Hi Hs Hr st v [H0 Hx]. unfold issued, supply, rent.
  by rewrite lookup_insert_ne, !int_at_insert_ne.
Qed.
#[export] Hint Extern 1 (stable (issued _) _) => apply stable_issued; done : contract_db.

Lemma issued_pay_holders x ta ts holders d : kept (issued x) (Equity.pay_holders ta ts holders d).
Proof.
  revert d. induction holders as [|i holders IH]; intros d; cbn [Equity.pay_holders]; [solve_kept|].
  apply kept_bind; [|done]. unfold Equity.pay_holder. solve_kept.
Qed.

Lemma issued_do_transfer x from to amount : kept (issued x) (Equity.do_transfer from to amount).
Proof. unfold Equity.do_transfer, Equity.track_holder. solve_kept. Qed.
#[export] Hint Resolve issued_do_transfer issued_pay_holders : contract_db.

Lemma issued_init x args : kept (issued x) (RealEstate.method_init args).
Proof.
  intros ps st Hc [Hi Hx]. unfold RealEstate.method_init. autorewrite with eval_db.
  by rewrite bool_decide_true.
Qed.

Lemma issued_distribute_rent x args : kept (issued x) (RealEstate.method_distribute_rent args).
Proof.
  unfold RealEstate.method_distribute_rent, RealEstate.read_u128, RealEstate.write_u128.
  do 2 (apply kept_bind; [solve_kept|intros _]). apply kept_get_caller. intros caller _.
  apply kept_bind; [solve_kept|intros _]. set (ta := from_le_bytes _). case_match; [solve_kept|].
  intros ps st Hc Hx. autorewrite with eval_db. fold (supply st).
  destruct (Z.eqb_spec (supply st) 0) as [|Hs0]; [done|]. autorewrite with eval_db.
  set (holders := seqZ 0 _).
  pose proof (issued_pay_holders x ta (supply st) holders 0 ps st Hc Hx) as Hx1.
  pose proof (u128_at_bound st KEY_TOTAL_SUPPLY) as Hsb. fold (supply st) in Hsb.
  pose proof (from_le_bytes_bound (slice args 0 U128_LEN)) as Hta. fold ta in Hta.
  destruct (pay_holders_total ps ta (supply st) holders 0 st) as (d & st1 & He & _ & Hd & Hs1 & _); [lia..|].
  rewrite He in Hx1 |- *. cbn [snd] in Hx1. autorewrite with eval_db. cbn [snd].
  destruct Hx1 as [Hi1 Hx1]. split; [by rewrite !lookup_insert_ne|]. unfold supply, rent.
  rewrite (int_at_insert_ne 16 st1 KEY_TOTAL_SUPPLY KEY_TOTAL_RENT_DISTRIBUTED) by done. fold (rent st1) (supply st).
  rewrite int_at_insert_ne, !u128_at_insert by (done || apply Z.mod_pos_bound; lia).
  rewrite <- Hx1, Hs1. unfold wrap. rewrite <- Zminus_mod. f_equal. lia.
Qed.

Lemma issued_call x args : kept (issued x) (RealEstate.call args).
Proof.
  unfold RealEstate.call. apply kept_bind; [solve_kept|intros _].
  repeat (case_match; [solve [auto using issued_init, issued_distribute_rent
    | unfold RealEstate.method_transfer, Equity.method_transfer, RealEstate.method_transfer_from,
      Equity.method_transfer_from, RealEstate.method_total_supply, Equity.method_total_supply,
      RealEstate.method_balance_of, Equity.method_balance_of, RealEstate.method_property_info,
      RealEstate.method_approve, RealEstate.method_set_compliance, RealEstate.method_add_to_whitelist,
      RealEstate.method_update_valuation, RealEstate.method_remove_from_whitelist,
      RealEstate.method_is_whitelisted, Equity.method_is_whitelisted,
      RealEstate.read_u128, RealEstate.write_u128; solve_kept]|]).
  solve_kept.
Qed.

(** The books of a real-estate token.  In every storage accounts can reach
    with paid calls, the balances add up to the supply (modulo the width of a
    balance, and exactly when the sum fits); and once the token is initialized, no
    call changes the supply by anything but the rent it records. *)
Theorem real_estate_conserves st iv :
  reachable RealEstate.call st →
  wrap 128 (total st) = supply st ∧ (total st < 2 ^ 128 → total st = supply st) ∧
  (st !! KEY_INITIALIZED = Some (byte 1) →
   String.length (address_bytes (ep_caller (iv_params iv))) = 20%nat →
   paid (RealEstate.call (iv_args iv)) (context (iv_params iv) st) = true →
   let st' := invoke RealEstate.call iv st in
   wrap 128 (supply st' - rent st') = wrap 128 (supply st - rent st)).
Proof.
  intros Hr. assert (Hb : books st)
    by (apply (reachable_kept books RealEstate.call); [done|apply kept_re_call|done]).
  destruct (books_conserved st Hb) as [Hw He]. split_and!; [done..|]. intros Hi Hc Hp st'.
  by destruct (invoke_kept (issued (wrap 128 (supply st - rent st))) RealEstate.call iv st
    (issued_call _ _) Hc Hp ltac:(done)).
Qed.

(** ** Example *)

Definition re_init_args (uri : bytes) (supply : Z) (issuer : Address) : bytes :=
  init_args "Via Roma 1" "VR1" supply issuer +:+ byte (blen uri) +:+ uri.

Definition demo_property : gmap bytes bytes :=
  Eval vm_compute in
    invoke RealEstate.call (MkInvocation (demo_params 1 300000) (transfer_args (demo_holder 2) 250))
      (invoke RealEstate.call
         (MkInvocation (demo_params 1 300000) (re_init_args "ipfs://x" 1000 (demo_holder 1))) ∅).

Lemma demo_property_reachable : reachable RealEstate.call demo_property.
Proof.
  assert (Hr : reachable RealEstate.call (invoke RealEstate.call
    (MkInvocation (demo_params 1 300000) (re_init_args "ipfs://x" 1000 (demo_holder 1))) ∅)).
  { apply reachable_call; [apply reachable_new|reflexivity|vm_compute; reflexivity]. }
  pose proof (reachable_call RealEstate.call _ (MkInvocation (demo_params 1 300000) (transfer_args (demo_holder 2) 250))
    Hr) as Hs. exact (Hs ltac:(reflexivity) ltac:(vm_compute; reflexivity)).
Qed.

Lemma real_estate_conserves_witness :
  let iv := MkInvocation (demo_params 1 300000) (distribute_args 100) in
  let st' := invoke RealEstate.call iv demo_property in
  total demo_property = supply demo_property ∧ rent st' = 100
  ∧ wrap 128 (supply st' - rent st') = 1000.
Proof.
  intros iv st'. destruct (real_estate_conserves demo_property iv demo_property_reachable) as (_ & He & Hr).
  split; [apply He; vm_compute; reflexivity|]. split; [vm_compute; reflexivity|].
  unfold st'. rewrite Hr; [vm_compute; reflexivity..].
Defined.
