(* ===== verification/RegDCompliance.v ===== *)
(** * The compliance contracts ([contracts/compliance-regd/src/lib.rs],
      [contracts/compliance-open/src/lib.rs])

    The Regulation D policy keeps a whitelist, a lock-up end and a cap on the
    number of holders; the open policy allows everything. *)

From S2P Require Import Prelude Primitives RustStr Vm Contract EquityToken EquityProps.

Definition KEY_LOCKUP_END : bytes := "lock".
Definition KEY_MAX_HOLDERS : bytes := "maxh".

Module RegD.

Definition METHOD_INIT : Z := 1.
Definition METHOD_SET_WHITELIST : Z := 2.
Definition METHOD_CHECK_TRANSFER : Z := 3.
Definition METHOD_IS_WHITELISTED : Z := 4.
Definition METHOD_SET_LOCKUP : Z := 5.
Definition METHOD_SET_MAX_HOLDERS : Z := 6.

Definition whitelist_key (addr : bytes) : bytes := "wl:" +:+ addr.

Definition read_u32_storage (key : bytes) : Prog Z :=
  r ← storage_read key 4;
  mret (if r.1 =? 4 then from_le_bytes r.2 else 0).

Definition write_u32_storage (key : bytes) (val : Z) : Prog unit := storage_write key (to_le_bytes 4 val).

Definition read_u64_storage (key : bytes) : Prog Z :=
  r ← storage_read key 8;
  mret (if r.1 =? 8 then from_le_bytes r.2 else 0).

Definition write_u64_storage (key : bytes) (val : Z) : Prog unit := storage_write key (to_le_bytes 8 val).

Definition is_issuer (caller : bytes) : Prog bool :=
  r ← storage_read KEY_ISSUER 20;
  mret ((r.1 =? ADDR_LEN) && bool_decide (caller = r.2)).

Definition require_issuer (caller : bytes) : Prog unit :=
  b ← is_issuer caller;
  exit_if (negb b) (-8).

Definition addr_is_whitelisted (addr : bytes) : Prog bool :=
  r ← storage_read (whitelist_key addr) 1;
  mret ((r.1 =? 1) && (byte_at r.2 0 =? 1)).

(** ** Methods *)

Definition method_init (args : bytes) : Prog bytes :=
  _ ← consume_gas 3000;
  r ← storage_read KEY_INITIALIZED 1;
  _ ← exit_if ((0 <? r.1) && (byte_at r.2 0 =? 1)) (-2);
  _ ← exit_if (blen args <? ADDR_LEN) (-3);
  let issuer := slice args 0 ADDR_LEN in
  _ ← storage_write KEY_ISSUER issuer;
  _ ← storage_write KEY_INITIALIZED (byte 1);
  _ ← storage_write (whitelist_key issuer) (byte 1);
  _ ← write_u32_storage KEY_HOLDER_COUNT 1;
  _ ← emit_event (byte METHOD_INIT +:+ issuer);
  mret "".

(** The three cases of [set_whitelist]. *)
Definition update_whitelist (addr : bytes) (status : Z) (was_whitelisted : bool) : Prog unit :=
  let wkey := whitelist_key addr in
  if (status =? 1) && negb was_whitelisted then
    max_holders ← read_u32_storage KEY_MAX_HOLDERS;
    _ ← (if 0 <? max_holders then
           current ← read_u32_storage KEY_HOLDER_COUNT;
           exit_if (max_holders <=? current) (-11)
         else mret tt);
    _ ← storage_write wkey (byte 1);
    count ← read_u32_storage KEY_HOLDER_COUNT;
    write_u32_storage KEY_HOLDER_COUNT (wrap 32 (count + 1))
  else if (status =? 0) && was_whitelisted then
    _ ← storage_write wkey (byte 0);
    count ← read_u32_storage KEY_HOLDER_COUNT;
    if 0 <? count then write_u32_storage KEY_HOLDER_COUNT (count - 1) else mret tt
  else storage_write wkey (byte (Z.min status 1)).

Definition method_set_whitelist (args : bytes) : Prog bytes :=
  _ ← consume_gas 2000;
  _ ← exit_if (blen args <? ADDR_LEN + 1) (-3);
  caller ← get_caller;
  _ ← require_issuer caller;
  let addr := slice args 0 ADDR_LEN in
  let status := byte_at args 20 in
  was_whitelisted ← addr_is_whitelisted addr;
  _ ← update_whitelist addr status was_whitelisted;
  _ ← emit_event (byte METHOD_SET_WHITELIST +:+ addr +:+ byte status);
  mret "".

Definition require_whitelisted (addr : bytes) (code : Z) : Prog unit :=
  b ← addr_is_whitelisted addr;
  exit_if (negb b) code.

Definition method_check_transfer (args : bytes) : Prog bytes :=
  _ ← consume_gas 1000;
  _ ← exit_if (blen args <? ADDR_LEN * 2 + 16) (-3);
  let from := slice args 0 ADDR_LEN in
  let to := slice args ADDR_LEN ADDR_LEN in
  lockup_end ← read_u64_storage KEY_LOCKUP_END;
  _ ← (if 0 <? lockup_end then
         Call OpTimestamp (λ now, exit_if (wrap 64 now.1 <? lockup_end) (-12))
       else mret tt);
  _ ← require_whitelisted from (-13);
  _ ← require_whitelisted to (-14);
  mret "".

Definition method_is_whitelisted (args : bytes) : Prog bytes :=
  _ ← consume_gas 500;
  _ ← exit_if (blen args <? ADDR_LEN) (-3);
  b ← addr_is_whitelisted (slice args 0 ADDR_LEN);
  mret (byte (if b : bool then 1 else 0)).

Definition method_set_lockup (args : bytes) : Prog bytes :=
  _ ← consume_gas 2000;
  _ ← exit_if (blen args <? 8) (-3);
  caller ← get_caller;
  _ ← require_issuer caller;
  let lockup_end := from_le_bytes (slice args 0 8) in
  _ ← write_u64_storage KEY_LOCKUP_END lockup_end;
  _ ← emit_event (byte METHOD_SET_LOCKUP +:+ to_le_bytes 8 lockup_end);
  mret "".

Definition method_set_max_holders (args : bytes) : Prog bytes :=
  _ ← consume_gas 1000;
  _ ← exit_if (blen args <? 4) (-3);
  caller ← get_caller;
  _ ← require_issuer caller;
  let max_holders := from_le_bytes (slice args 0 4) in
  _ ← write_u32_storage KEY_MAX_HOLDERS max_holders;
  _ ← emit_event (byte METHOD_SET_MAX_HOLDERS +:+ to_le_bytes 4 max_holders);
  mret "".

(** ** Entry points *)

Definition call (args : bytes) : Prog bytes :=
  _ ← consume_gas 500;
  if bool_decide (args = "") then mret ""
  else
    let method := byte_at args 0 in
    let payload := bdrop 1 args in
    if method =? METHOD_INIT then method_init payload
    else if method =? METHOD_SET_WHITELIST then method_set_whitelist payload
    else if method =? METHOD_CHECK_TRANSFER then method_check_transfer payload
    else if method =? METHOD_IS_WHITELISTED then method_is_whitelisted payload
    else if method =? METHOD_SET_LOCKUP then method_set_lockup payload
    else if method =? METHOD_SET_MAX_HOLDERS then method_set_max_holders payload
    else Exit (-10).

Definition check_transfer : Prog bytes := Call (OpGas 100) (λ _, Ret "").
Definition can_hold : Prog bytes := Ret "".

End RegD.

(** The open policy. *)
Module OpenPolicy.

Definition check_transfer : Prog bytes := _ ← consume_gas 100; mret "".
Definition can_hold : Prog bytes := _ ← consume_gas 100; mret "".
Definition can_issue : Prog bytes := _ ← consume_gas 100; mret "".

Definition call (args : bytes) : Prog bytes :=
  _ ← consume_gas 100;
  _ ← emit_event "compliance_open:allowed";
  mret "".

End OpenPolicy.

(** ** Reading the storage *)

Definition is_whitelist_key (key : bytes) : bool :=
  Str.starts_with "wl:" key && (String.length key =? 23)%nat.

(** How many addresses are whitelisted, and how many the contract counts. *)
Definition whitelist_size (st : gmap bytes bytes) : Z :=
  map_sumZ (λ k v, if is_whitelist_key k && bool_decide (v = byte 1) then 1 else 0) st.

Definition holder_count (st : gmap bytes bytes) : Z := int_at 4 st KEY_HOLDER_COUNT.
Definition max_holders (st : gmap bytes bytes) : Z := int_at 4 st KEY_MAX_HOLDERS.
Definition lockup_end (st : gmap bytes bytes) : Z := int_at 8 st KEY_LOCKUP_END.

Definition issued_by (st : gmap bytes bytes) (caller : bytes) : bool :=
  let r := read_at st KEY_ISSUER 20 in (r.1 =? ADDR_LEN) && bool_decide (caller = r.2).

Lemma eval_read_u32 ps key st : eval ps (RegD.read_u32_storage key) st = (Ok (int_at 4 st key), st).
Proof. unfold RegD.read_u32_storage. autorewrite with eval_db. by rewrite <- read_int. Qed.

Lemma eval_read_u64 ps key st : eval ps (RegD.read_u64_storage key) st = (Ok (int_at 8 st key), st).
Proof. unfold RegD.read_u64_storage. autorewrite with eval_db. by rewrite <- read_int. Qed.

Lemma eval_write_u32 ps key x st :
  eval ps (RegD.write_u32_storage key x) st = (Ok tt, <[key := to_le_bytes 4 x]> st).
Proof. done. Qed.

Lemma eval_write_u64 ps key x st :
  eval ps (RegD.write_u64_storage key x) st = (Ok tt, <[key := to_le_bytes 8 x]> st).
Proof. done. Qed.

Lemma eval_regd_issuer ps caller st :
  eval ps (RegD.require_issuer caller) st = (if issued_by st caller then Ok tt else Err (-8), st).
Proof.
  unfold RegD.require_issuer, RegD.is_issuer, issued_by. autorewrite with eval_db. by destruct (_ && _).
Qed.

Lemma eval_addr_is_whitelisted ps addr st :
  eval ps (RegD.addr_is_whitelisted addr) st = (Ok (whitelisted st addr), st).
Proof. unfold RegD.addr_is_whitelisted. autorewrite with eval_db. by rewrite read_flag. Qed.

#[export] Hint Rewrite eval_read_u32 eval_read_u64 eval_write_u32 eval_write_u64 eval_regd_issuer
  eval_addr_is_whitelisted : eval_db.

(** ** The count of holders *)

Lemma size_insert_other st k v : is_whitelist_key k = false → whitelist_size (<[k := v]> st) = whitelist_size st.
Proof.
  intros Hk. unfold whitelist_size. rewrite map_sumZ_insert, Hk. destruct (st !! k); cbn; lia.
Qed.

Definition flag (b : bool) : Z := if b then 1 else 0.

Lemma size_insert_whitelist st a b :
  String.length a = 20%nat →
  whitelist_size (<[RegD.whitelist_key a := byte (flag b)]> st)
  = whitelist_size st - flag (whitelisted st a) + flag b.
Proof.
  intros Ha. unfold whitelist_size, whitelisted.
  assert (Hk : is_whitelist_key (RegD.whitelist_key a) = true).
  { unfold is_whitelist_key.
    change (String.length (RegD.whitelist_key a)) with (3 + String.length a)%nat. by rewrite Ha. }
  rewrite map_sumZ_insert, Hk. change (Equity.whitelist_key a) with (RegD.whitelist_key a).
  destruct (st !! RegD.whitelist_key a) as [v|]; cbn [from_option]; rewrite ?Hk; cbn [andb].
  - rewrite (bool_decide_ext (Some v = Some (byte 1)) (v = byte 1)) by naive_solver.
    destruct b; do 2 case_bool_decide; cbn; done || lia.
  - rewrite (bool_decide_false (None = Some (byte 1))) by done.
    destruct b; case_bool_decide; cbn; done || lia.
Qed.

Lemma size_empty : whitelist_size ∅ = 0.
Proof. apply map_sumZ_empty. Qed.

Lemma size_nonneg st : 0 <= whitelist_size st.
Proof. apply map_sumZ_nonneg. intros k v _. case_match; lia. Qed.

Lemma whitelisted_size st a : String.length a = 20%nat → flag (whitelisted st a) <= whitelist_size st.
Proof.
  intros Ha. pose proof (size_insert_whitelist st a false Ha) as He.
  pose proof (size_nonneg (<[RegD.whitelist_key a := byte (flag false)]> st)). cbn in *. lia.
Qed.

(** Nothing is written before [init]; after it the count is right. *)
Definition counted (st : gmap bytes bytes) : Prop :=
  st = ∅ ∨ st !! KEY_INITIALIZED = Some (byte 1) ∧ holder_count st = whitelist_size st.

(** What one call may do to the whitelist. *)
Definition regd_step (st st' : gmap bytes bytes) : Prop :=
  counted st' ∧ whitelist_size st' <= whitelist_size st + 1
  ∧ (0 < max_holders st → whitelist_size st' <= Z.max (whitelist_size st) (max_holders st)).

Lemma regd_step_refl st : counted st → regd_step st st.
Proof. intros Hc. split_and!; [done|lia..]. Qed.

Lemma regd_step_readonly {A} ps (p : Prog A) st : readonly p → counted st → regd_step st (eval ps p st).2.
Proof. intros Hp Hc. rewrite Hp. by apply regd_step_refl. Qed.

(** The setters write their own key. *)
Lemma regd_step_setting st k v :
  counted st → st ≠ ∅ → is_whitelist_key k = false → k ≠ KEY_INITIALIZED → k ≠ KEY_HOLDER_COUNT →
  regd_step st (<[k := v]> st).
Proof.
  intros [->|[Hi Hh]] Hne Hk Hki Hkh; [done|]. unfold regd_step. rewrite size_insert_other by done.
  split_and!; [|lia..]. right. unfold holder_count. rewrite lookup_insert_ne, int_at_insert_ne, size_insert_other; done.
Qed.

Lemma issued_by_nonempty st caller : issued_by st caller = true → st ≠ ∅.
Proof. by intros H ->. Qed.

Lemma regd_init_step ps args st :
  counted st → regd_step st (eval ps (RegD.method_init args) st).2.
Proof.
  intros Hc. unfold RegD.method_init. autorewrite with eval_db.
  destruct (_ && _) eqn:Hf; [by apply regd_step_refl|]. autorewrite with eval_db.
  destruct Hc as [->|[Hi _]]; [|unfold read_at in Hf; by rewrite Hi in Hf].
  destruct (Z.ltb_spec (blen args) ADDR_LEN) as [|Hl]; [by apply regd_step_refl; left|].
  autorewrite with eval_db. cbn [snd].
  assert (Ha : String.length (slice args 0 ADDR_LEN) = 20%nat) by (apply slice_length; unfold ADDR_LEN in *; lia).
  set (issuer := slice args 0 ADDR_LEN) in *.
  assert (Hs : whitelist_size (<[KEY_HOLDER_COUNT := to_le_bytes 4 1]> (<[RegD.whitelist_key issuer := byte 1]>
    (<[KEY_INITIALIZED := byte 1]> (<[KEY_ISSUER := issuer]> ∅)))) = 1).
  { rewrite size_insert_other by done. change (byte 1) with (byte (flag true)) at 1.
    rewrite size_insert_whitelist, !size_insert_other by done. done. }
  unfold regd_step. rewrite Hs. change (max_holders ∅) with 0. rewrite size_empty.
  split_and!; [|lia..]. right. rewrite Hs. split.
  - rewrite 2!lookup_insert_ne by done. apply lookup_insert_eq.
  - unfold holder_count. rewrite int_at_insert; [reflexivity|lia].
Qed.

(** Writing a flag and the new count. *)
Lemma regd_step_write st a b n :
  String.length a = 20%nat → counted st → st ≠ ∅ →
  n = whitelist_size st - flag (whitelisted st a) + flag b → n < 2 ^ 32 → n <= whitelist_size st + 1 →
  (0 < max_holders st → n <= Z.max (whitelist_size st) (max_holders st)) →
  regd_step st (<[KEY_HOLDER_COUNT := to_le_bytes 4 n]> (<[RegD.whitelist_key a := byte (flag b)]> st)).
Proof.
  intros Ha [->|[Hi Hh]] Hne Hn Hlt Hle Hmax; [done|].
  set (st' := <[KEY_HOLDER_COUNT := _]> _).
  assert (Hs : whitelist_size st' = n)
    by (unfold st'; rewrite size_insert_other, size_insert_whitelist by done; done).
  pose proof (size_nonneg st') as H0. unfold regd_step. rewrite Hs. split_and!; [|done..].
  right. rewrite Hs. split; [unfold st'; by rewrite 2!lookup_insert_ne|].
  unfold holder_count, st'. rewrite int_at_insert; [reflexivity|lia].
Qed.

Lemma regd_step_same st a :
  String.length a = 20%nat → counted st → st ≠ ∅ →
  regd_step st (<[RegD.whitelist_key a := byte (flag (whitelisted st a))]> st).
Proof.
  intros Ha [->|[Hi Hh]] Hne; [done|]. unfold regd_step. rewrite size_insert_whitelist by done.
  split_and!; [|lia..]. right. unfold holder_count.
  rewrite lookup_insert_ne, int_at_insert_ne, size_insert_whitelist by done. split; [done|].
  fold (holder_count st). lia.
Qed.

Lemma regd_update_step ps a status st :
  String.length a = 20%nat → 0 <= status <= 1 → counted st → st ≠ ∅ → whitelist_size st + 1 < 2 ^ 32 →
  regd_step st (eval ps (RegD.update_whitelist a status (whitelisted st a)) st).2.
Proof.
  intros Ha Hst Hc Hne Hlt. pose proof (whitelisted_size st a Ha) as Hw. pose proof (size_nonneg st) as H0.
  assert (Hh : holder_count st = whitelist_size st) by (by destruct Hc as [->|[_ ?]]).
  unfold RegD.update_whitelist.
  assert (Hcount : ∀ v, int_at 4 (<[RegD.whitelist_key a := v]> st) KEY_HOLDER_COUNT = whitelist_size st)
    by (intros v; by rewrite int_at_insert_ne).
  assert (status = 0 ∨ status = 1) as [-> | ->] by lia; destruct (whitelisted st a) eqn:Hwl;
    cbn [andb negb Z.eqb Pos.eqb].
  - autorewrite with eval_db. rewrite Hcount. destruct (Z.ltb_spec 0 (whitelist_size st)); [|cbn in Hw; lia].
    autorewrite with eval_db. apply (regd_step_write st a false); rewrite ?Hwl; cbn in *; done || lia.
  - pose proof (regd_step_same st a Ha Hc Hne) as Hs. by rewrite Hwl in Hs.
  - pose proof (regd_step_same st a Ha Hc Hne) as Hs. by rewrite Hwl in Hs.
  - autorewrite with eval_db. fold (max_holders st).
    destruct (Z.ltb_spec 0 (max_holders st)) as [Hm|Hm]; autorewrite with eval_db; fold (holder_count st).
    1: destruct (Z.leb_spec (max_holders st) (holder_count st)); [by apply regd_step_refl|].
    all: autorewrite with eval_db; rewrite Hcount, wrap_small by (unfold in_width; lia);
      apply (regd_step_write st a true); rewrite ?Hwl; cbn -[Z.max] in *; done || lia.
Qed.

(** The statuses the documentation of [set_whitelist] names. *)
Definition plain_status (args : bytes) : Prop :=
  byte_at args 0 = RegD.METHOD_SET_WHITELIST → byte_at args 21 <= 1.

Lemma regd_set_whitelist_step ps args st :
  byte_at args 20 <= 1 → counted st → whitelist_size st + 1 < 2 ^ 32 →
  regd_step st (eval ps (RegD.method_set_whitelist args) st).2.
Proof.
  intros Hs Hc Hlt. unfold RegD.method_set_whitelist. autorewrite with eval_db.
  destruct (Z.ltb_spec (blen args) (ADDR_LEN + 1)) as [|Hl]; [by apply regd_step_refl|].
  autorewrite with eval_db. destruct (issued_by st _) eqn:Hi; [|by apply regd_step_refl].
  autorewrite with eval_db.
  assert (Ha : String.length (slice args 0 ADDR_LEN) = 20%nat) by (apply slice_length; unfold ADDR_LEN in *; lia).
  pose proof (byte_at_bound args 20) as Hb.
  pose proof (regd_update_step ps _ (byte_at args 20) st Ha ltac:(lia) Hc (issued_by_nonempty _ _ Hi) Hlt) as Hu.
  by destruct (eval ps (RegD.update_whitelist _ _ _) st) as [[] st'].
Qed.

Lemma readonly_timestamp {A} (k : Answer → Prog A) : (∀ r, readonly (k r)) → readonly (Call OpTimestamp k).
Proof. intros Hk ps st. apply Hk. Qed.

Lemma readonly_check_transfer args : readonly (RegD.method_check_transfer args).
Proof.
  unfold RegD.method_check_transfer, RegD.require_whitelisted, RegD.addr_is_whitelisted,
    RegD.read_u64_storage.
  repeat first [ apply readonly_timestamp; intros ? | progress solve_readonly ].
Qed.

Lemma regd_setting_step ps (check : Prog unit) k v (data : bytes) st :
  readonly check → counted st → is_whitelist_key k = false → k ≠ KEY_INITIALIZED → k ≠ KEY_HOLDER_COUNT →
  regd_step st (eval ps (_ ← check; caller ← get_caller; _ ← RegD.require_issuer caller;
                         _ ← storage_write k v; _ ← emit_event data; mret "") st).2.
Proof.
  intros Hro Hc Hk Hki Hkh. rewrite eval_bind. specialize (Hro ps st).
  destruct (eval ps check st) as [[] st1]; cbn [snd] in Hro; subst st1; [|by apply regd_step_refl..].
  autorewrite with eval_db. destruct (issued_by st _) eqn:Hi; [|by apply regd_step_refl].
  autorewrite with eval_db. apply regd_step_setting; [done|by eapply issued_by_nonempty|done..].
Qed.

Lemma regd_call_step ps args st :
  plain_status args → counted st → whitelist_size st + 1 < 2 ^ 32 →
  regd_step st (eval ps (RegD.call args) st).2.
Proof.
  intros Hp Hc Hlt. unfold RegD.call. autorewrite with eval_db.
  case_bool_decide; [by apply regd_step_refl|].
  case_match; [by apply regd_init_step|].
  case_match; [apply regd_set_whitelist_step; [|done..]; by destruct args; [|apply Hp; apply Z.eqb_eq]|].
  case_match; [by apply regd_step_readonly; [apply readonly_check_transfer|]|].
  case_match; [apply regd_step_readonly; [|done]; unfold RegD.method_is_whitelisted,
    RegD.addr_is_whitelisted; solve_readonly|].
  case_match; [unfold RegD.method_set_lockup; rewrite eval_bind, eval_consume_gas;
    by apply regd_setting_step; [apply readonly_exit_if|..]|].
  case_match; [unfold RegD.method_set_max_holders; rewrite eval_bind, eval_consume_gas;
    by apply regd_setting_step; [apply readonly_exit_if|..]|].
  by apply regd_step_refl.
Qed.

(** ** Histories *)

(** [n] paid calls by accounts, with the documented statuses. *)
Inductive regd_history : nat → gmap bytes bytes → Prop :=
  | regd_new : regd_history 0 ∅
  | regd_call n st iv :
      regd_history n st → plain_status (iv_args iv) →
      paid (RegD.call (iv_args iv)) (context (iv_params iv) st) = true →
      regd_history (S n) (invoke RegD.call iv st).

Lemma regd_invoke_step iv st :
  plain_status (iv_args iv) → counted st → whitelist_size st + 1 < 2 ^ 32 →
  paid (RegD.call (iv_args iv)) (context (iv_params iv) st) = true →
  regd_step st (invoke RegD.call iv st).
Proof.
  intros Hs Hc Hlt Hp. unfold invoke. destruct (paid_eval _ _ Hp) as [_ He].
  destruct (run _ _) as [r c]. cbn [snd] in He. case_bool_decide; [|by apply regd_step_refl].
  rewrite He. by apply regd_call_step.
Qed.

Lemma regd_history_counted n st :
  regd_history n st → Z.of_nat n < 2 ^ 32 → counted st ∧ whitelist_size st <= Z.of_nat n.
Proof.
  induction 1 as [|n st iv Hh IH Hs Hp]; intros Hn; [split; [by left|by rewrite size_empty]|].
  destruct IH as [Hc Hle]; [lia|].
  destruct (regd_invoke_step iv st Hs Hc ltac:(lia) Hp) as (Hc' & Hs' & _). split; [done|lia].
Qed.

(** The Regulation D contract counts its whitelist.  After any paid calls by
    any accounts with the documented statuses, the stored number of holders is
    the number of whitelisted addresses, and a call never raises it above the
    configured maximum (or above what it was, when the maximum was lowered). *)
Theorem regd_holders_capped n st iv :
  regd_history n st → Z.of_nat n + 1 < 2 ^ 32 → plain_status (iv_args iv) →
  paid (RegD.call (iv_args iv)) (context (iv_params iv) st) = true →
  let st' := invoke RegD.call iv st in
  holder_count st = whitelist_size st ∧ holder_count st' = whitelist_size st'
  ∧ (0 < max_holders st → holder_count st' <= Z.max (holder_count st) (max_holders st)).
Proof.
  intros Hh Hn Hs Hp st'. destruct (regd_history_counted n st Hh) as [Hc Hle]; [lia|].
  destruct (regd_invoke_step iv st Hs Hc ltac:(lia) Hp) as (Hc' & _ & Hm). fold st' in Hc', Hm.
  assert (Heq : ∀ st, counted st → holder_count st = whitelist_size st).
  { intros st0 [->|[_ ?]]; [by rewrite size_empty|done]. }
  by rewrite !Heq.
Qed.

(** Why a transfer is blocked, if it is. *)
Definition blocked (st : gmap bytes bytes) (now : Z) (from to : bytes) : option Z :=
  if (0 <? lockup_end st) && (now <? lockup_end st) then Some (-12)
  else if negb (whitelisted st from) then Some (-13)
  else if negb (whitelisted st to) then Some (-14)
  else None.

Definition check_args (from to : bytes) (amount : Z) : bytes :=
  byte RegD.METHOD_CHECK_TRANSFER +:+ from +:+ to +:+ to_le_bytes 16 amount.

Lemma signed_wrap x : in_width 64 x → wrap 64 (Host.signed 64 x) = x.
Proof.
  unfold in_width. intros Hx. unfold Host.signed. rewrite (wrap_small 64 x) by done. case_match.
  - by apply wrap_small.
  - unfold wrap. replace (x - 2 ^ 64) with (x + (-1) * 2 ^ 64) by lia. rewrite Z_mod_plus_full.
    by apply Z.mod_small.
Qed.

Lemma call_check_transfer x :
  RegD.call (byte RegD.METHOD_CHECK_TRANSFER +:+ x) = (_ ← consume_gas 500; RegD.method_check_transfer x).
Proof. unfold RegD.call. by rewrite bool_decide_false. Qed.

Lemma spends_timestamp {A} (k : Answer → Prog A) g :
  (∀ r, spends (k r) g) → 0 <= g → spends (Call OpTimestamp k) (100 + g).
Proof. intros Hk Hg. by apply spends_call. Qed.

Lemma spends_check_transfer x : spends (_ ← consume_gas 500; RegD.method_check_transfer x) 2200.
Proof.
  unfold RegD.method_check_transfer, RegD.require_whitelisted, RegD.addr_is_whitelisted,
    RegD.read_u64_storage.
  assert (Ht : ∀ z, spends (Call OpTimestamp (λ now, exit_if (wrap 64 now.1 <? z) (-12))) (100 + 0))
    by (intros z; apply spends_timestamp; [intros r; apply spends_exit_if|lia]).
  solve_spends.
Qed.

(** [check_transfer] decides exactly the policy: with the gas below, it
    answers zero if and only if the lock-up is over and both parties are
    whitelisted, and otherwise the code of the first condition that fails; it
    never changes the storage. *)
Theorem regd_check_exact c from to amount :
  let now := ep_block_timestamp (cx_params c) in
  let r := run (RegD.call (check_args from to amount)) c in
  account_call c → in_width 64 now → String.length from = 20%nat → String.length to = 20%nat →
  0 <= gm_used (cx_gas c) → gm_used (cx_gas c) + 2200 <= gm_limit (cx_gas c) < 2 ^ 64 →
  cx_storage r.2 = cx_storage c
  ∧ r.1 = match blocked (cx_storage c) now from to with Some code => Err code | None => Ok "" end.
Proof.
  intros now r Hc Hnow Hf Ht Hu Hl. unfold r, check_args. rewrite call_check_transfer.
  set (x := from +:+ _). destruct (spends_check_transfer x c Hc Hu Hl) as (Hp & _).
  destruct (paid_eval _ _ Hp) as [-> ->]. unfold RegD.method_check_transfer, RegD.require_whitelisted.
  replace (blen x <? ADDR_LEN * 2 + 16) with false
    by (unfold x, blen; by rewrite !blen_app, to_le_bytes_length, Hf, Ht).
  replace (slice x 0 ADDR_LEN) with from by (symmetry; apply slice_prefix; by rewrite Hf).
  replace (slice x ADDR_LEN ADDR_LEN) with to.
  2: { unfold x. rewrite slice_app by (by rewrite Hf). symmetry. apply slice_prefix. by rewrite Ht. }
  autorewrite with eval_db. fold (lockup_end (cx_storage c)). unfold blocked.
  destruct (Z.ltb_spec 0 (lockup_end (cx_storage c))); cbn [andb eval ideal_answer fst]; autorewrite with eval_db.
  1: rewrite signed_wrap by done; fold now; destruct (now <? _); [done|].
  all: autorewrite with eval_db; destruct (whitelisted _ from); [|done];
    cbn [negb]; autorewrite with eval_db; by destruct (whitelisted _ to).
Qed.

(** ** Examples *)

Definition set_whitelist_args (a : Address) (status : Z) : bytes :=
  byte RegD.METHOD_SET_WHITELIST +:+ address_bytes a +:+ byte status.

Definition set_max_args (n : Z) : bytes := byte RegD.METHOD_SET_MAX_HOLDERS +:+ to_le_bytes 4 n.

(** Issuer 1 caps the holders at two. *)
Definition regd_demo : list Invocation :=
  [MkInvocation (demo_params 1 300000) (byte RegD.METHOD_INIT +:+ address_bytes (demo_holder 1));
   MkInvocation (demo_params 1 300000) (set_max_args 2);
   MkInvocation (demo_params 1 300000) (set_whitelist_args (demo_holder 2) 1)].

Definition regd_demo_storage : gmap bytes bytes :=
  Eval vm_compute in foldl (λ st iv, invoke RegD.call iv st) ∅ regd_demo.

Lemma regd_demo_history : regd_history 3 regd_demo_storage.
Proof.
  assert (H : regd_history 3 (foldl (λ st iv, invoke RegD.call iv st) ∅ regd_demo)); [|exact H].
  unfold regd_demo. cbn [foldl].
  repeat (apply regd_call; [|unfold plain_status; vm_compute; intros; discriminate|vm_compute; reflexivity]).
  apply regd_new.
Qed.

Lemma regd_holders_capped_witness :
  let iv := MkInvocation (demo_params 1 300000) (set_whitelist_args (demo_holder 3) 1) in
  holder_count regd_demo_storage = 2 ∧ holder_count (invoke RegD.call iv regd_demo_storage) <= 2.
Proof.
  intros iv. assert (H2 : holder_count regd_demo_storage = 2) by (vm_compute; reflexivity).
  assert (Hm : max_holders regd_demo_storage = 2) by (vm_compute; reflexivity).
  destruct (regd_holders_capped 3 regd_demo_storage iv regd_demo_history) as (_ & _ & H);
    [lia|unfold plain_status; vm_compute; intros; discriminate|vm_compute; reflexivity|].
  split; [exact H2|]. rewrite Hm, H2 in H. apply H. lia.
Defined.

Lemma regd_check_exact_witness :
  let c := context (demo_params 1 5000) regd_demo_storage in
  (run (RegD.call (check_args (address_bytes (demo_holder 1)) (address_bytes (demo_holder 3)) 10)) c).1
  = Err (-14).
Proof.
  intros c.
  destruct (regd_check_exact c (address_bytes (demo_holder 1)) (address_bytes (demo_holder 3)) 10)
    as [_ H]; [reflexivity|split; [discriminate|reflexivity]|reflexivity|reflexivity|discriminate
    |split; [discriminate|reflexivity]|].
  rewrite H. vm_compute. reflexivity.
Defined.

(** A status above one whitelists an address without counting it: the cap of two
    is passed. *)
Example uncounted_status_passes_cap :
  let iv n := MkInvocation (demo_params 1 300000) (set_whitelist_args (demo_holder n) 2) in
  let st := foldl (λ st iv, invoke RegD.call iv st) regd_demo_storage (iv <$> [3; 4; 5]) in
  max_holders st = 2 ∧ holder_count st = 2 ∧ whitelist_size st = 5.
Proof. vm_compute. split_and!; reflexivity. Qed.
