(* ===== verification/ExecAssets.v ===== *)
(** * Executing asset transactions ([crates/vtt-executor/src/lib.rs])

    Creation, transfer, freezing, revenue distribution, redemption, asset
    governance, and the KYC, jurisdiction and holder-count gates.  [ExecCodec]
    gathers the Borsh codecs of the log payloads and of the hashed identifiers. *)

From stdpp Require Import pretty.
From S2P Require Import Prelude Primitives RustStr Storage Assets Oracle StateDB ExecStaking.

Class ExecCodec : Type := {
  xc_transfer :: Borsh (Address * Address * Amount);
  xc_names :: Borsh (Address * bytes * bytes);
  xc_id :: Borsh H256;
  xc_u128 :: Borsh Z;
  xc_pair :: Borsh (Z * Z);
  xc_fund :: Borsh (Address * Amount);
  xc_claim :: Borsh (Address * Amount * Amount);
  xc_kyc :: Borsh (Address * bool);
  xc_feed :: Borsh (H256 * bytes * list Address * Z);
  xc_value :: Borsh (Address * Amount * Z * bool);
  xc_country :: Borsh (Address * bytes);
  xc_deposit :: Borsh (Address * H256 * Amount);
  xc_owned :: Borsh (Address * H256);
  xc_call :: Borsh (Address * Address * bytes);
  xc_revenue :: Borsh (Address * H256 * Amount * Z);
  xc_proposal :: Borsh (Address * H256 * H256);
  xc_status :: Borsh (Address * H256 * bytes);
  xc_withdraw :: Borsh (Address * H256 * Amount * Z * Address);
  xc_vote :: Borsh Vote;
  xc_proposal_id :: Borsh (H256 * Address * Z * Z);
}.

(** [Display] of [StateError]. *)
Definition state_error_msg (e : StateError) : string :=
  match e with
  | StInsufficientBalance have need =>
      "insufficient balance: have " +:+ amount_to_string have +:+ ", need " +:+ amount_to_string need
  | AccountNotFound a => "account not found: " +:+ address_to_string a
  | NonceMismatch expected got =>
      "nonce mismatch: expected " +:+ pretty expected +:+ ", got " +:+ pretty got
  | Serialization m => "serialization error: " +:+ m
  end.

Definition asset_not_found (asset_id : H256) : ExecutionError :=
  Custom ("asset not found: " +:+ h256_to_string asset_id).

Definition INVALID_JURISDICTION : ExecutionError :=
  Custom "jurisdiction must be a 2-letter ISO 3166-1 alpha-2 code for regulated asset classes".

Module AssetTx.
Section with_env.
Context `{!Env, !ExecCodec}.

Definition log (sender : Address) (name : bytes) (ids : list H256) (data : bytes) : Log :=
  {| log_address := sender; log_topics := blake3_hash name :: ids; log_data := data |}.

(** [let asset = state.get_asset(id).ok_or(e)?]. *)
Definition find_asset (id : H256) (e : ExecutionError) : M StateDB ExecutionError AssetRecord :=
  asset ← gets (λ s, State.get_asset s id);
  lift (ok_or e asset).

(** [let asset_mut = state.get_asset_mut(id).ok_or(e)?] and what is written
    through it; the reference is marked dirty before the write fails. *)
Definition with_asset_mut (id : H256) (e : ExecutionError)
    (f : AssetRecord → res ExecutionError AssetRecord) : M StateDB ExecutionError unit :=
  asset ← find_asset id e;
  match f asset with
  | Ok asset' => modify (State.get_asset_mut id (λ _, asset'))
  | Err e' => _ ← modify (State.get_asset_mut id (λ a, a)); throw e'
  | Panic => lift Panic
  end.

(** ** Creation *)

Definition parse_asset_class (asset_class : bytes) : AssetClass :=
  if bool_decide (asset_class = "equity") then Equity
  else if bool_decide (asset_class = "debt") then Debt
  else if bool_decide (asset_class = "real_estate") then RealEstate
  else if bool_decide (asset_class = "commodity") then Commodity
  else if bool_decide (asset_class = "fund") then Fund
  else if bool_decide (asset_class = "ip") then IntellectualProperty
  else if bool_decide (asset_class = "carbon") then CarbonCredit
  else if bool_decide (asset_class = "invoice") then Invoice
  else ACCustom asset_class.

Definition is_regulated (class : AssetClass) : bool :=
  match class with Equity | Debt | RealEstate | Fund => true | _ => false end.

Definition asset_id_of (sender : Address) (name symbol : bytes) : H256 :=
  blake3_hash (to_vec (sender, name, symbol)).

(** [let mut o = state.get_ownership(..); o.credit(amount); state.put_ownership(o)]. *)
Definition credit_ownership (asset_id : H256) (owner : Address) (amount : Amount)
    : M StateDB ExecutionError unit :=
  ownership ← gets (λ s, State.get_ownership s asset_id owner);
  ownership ← lift (Own.credit amount ownership);
  map_err ExState (State.put_ownership ownership).

Definition execute_create_asset (sender : Address) (name symbol metadata_uri : bytes)
    (total_supply : Amount) (decimals : Z) (asset_class jurisdiction legal_entity : bytes)
    (block_number : Z) : M StateDB ExecutionError unit :=
  let asset_id := asset_id_of sender name symbol in
  let class := parse_asset_class asset_class in
  let regulated := is_regulated class in
  _ ← fail_if (regulated && (negb (blen jurisdiction =? 2)
                             || negb (Str.all Str.is_ascii_alphabetic jurisdiction)))
        INVALID_JURISDICTION;
  _ ← fail_if (regulated && bool_decide (Str.trim legal_entity = ""))
        (Custom "legal_entity is required for regulated asset classes");
  let asset := {|
    as_id := asset_id;
    as_name := name;
    as_symbol := symbol;
    as_class := class;
    as_origin_chain := ChainId_RELAY;
    as_issuer := sender;
    as_total_supply := total_supply;
    as_decimals := decimals;
    as_status := Active;
    as_compliance_policy := None;
    as_valuation_oracle := None;
    as_documents := [];
    as_metadata_uri := metadata_uri;
    as_jurisdiction := jurisdiction;
    as_legal_entity := legal_entity;
    as_transfer_mode := PeerToPeer;
    as_registrar := None;
    as_redemption_pool := 0;
    as_requires_kyc := regulated;
    as_created_at := block_number;
  |} in
  _ ← map_err ExState (State.register_asset asset);
  credit_ownership asset_id sender total_supply.

(** ** Transfer and its gates *)

Definition check_jurisdiction_policy (s : StateDB) (a : Address) : res ExecutionError unit :=
  let whitelist := State.get_jurisdiction_whitelist s in
  let blacklist := State.get_jurisdiction_blacklist s in
  if bool_decide (whitelist = []) && bool_decide (blacklist = []) then Ok tt
  else
    let jur := Str.to_ascii_uppercase <$> State.get_address_jurisdiction s a in
    _ ← (if bool_decide (whitelist = []) then Ok tt
         else match jur with
              | None => Err (Custom ("address " +:+ address_to_string a +:+
                  " has no jurisdiction set; chain requires whitelisted jurisdiction"))
              | Some code =>
                  guard_err (negb (existsb (λ c, Str.eq_ignore_ascii_case c code) whitelist))
                    (Custom ("jurisdiction '" +:+ code +:+ "' is not in the chain whitelist"))
              end);
    match jur with
    | None => Ok tt
    | Some code => guard_err (existsb (λ c, Str.eq_ignore_ascii_case c code) blacklist)
                     (Custom ("jurisdiction '" +:+ code +:+ "' is blacklisted on this chain"))
    end.

Definition check_max_holders (s : StateDB) (asset_id : H256) (sender recipient : Address)
    (amount : Amount) : res ExecutionError unit :=
  let max := State.get_max_holders_per_asset s in
  if max =? 0 then Ok tt
  else
    recipient_total ← Own.total (State.get_ownership s asset_id recipient);
    if negb (Amount.is_zero recipient_total) then Ok tt
    else
      sender_total ← Own.total (State.get_ownership s asset_id sender);
      if (saturating_sub sender_total amount =? 0) && negb (Amount.is_zero sender_total) then Ok tt
      else guard_err (max <=? State.asset_holder_count s asset_id)
             (Custom ("asset has reached max_holders_per_asset (" +:+ pretty max +:+
                "); recipient is a new holder")).

(** The registrar and KYC conditions of the [AssetTransfer] arm. *)
Definition check_registrar (asset : AssetRecord) (sender : Address) : res ExecutionError unit :=
  match as_transfer_mode asset with
  | PeerToPeer => Ok tt
  | RegistrarMediated =>
      registrar ← ok_or (Custom "asset configured as RegistrarMediated but has no registrar")
                    (as_registrar asset);
      guard_err (bool_decide (sender ≠ registrar))
        (Custom "registrar-mediated asset: only the registrar can originate transfers")
  end.

Definition check_kyc (s : StateDB) (asset : AssetRecord) (sender to : Address)
    : res ExecutionError unit :=
  if as_requires_kyc asset then
    _ ← guard_err (negb (State.is_kyc_approved s sender))
          (Custom "sender is not KYC-approved for this regulated asset");
    guard_err (negb (State.is_kyc_approved s to))
      (Custom "recipient is not KYC-approved for this regulated asset")
  else Ok tt.

Definition execute_asset_transfer (sender : Address) (asset_id : H256) (to : Address)
    (amount : Amount) : M StateDB ExecutionError (list Log) :=
  asset ← find_asset asset_id AssetNotFound;
  _ ← lift (check_registrar asset sender);
  s ← gets (λ s, s);
  _ ← lift (check_kyc s asset sender to);
  _ ← lift (check_jurisdiction_policy s sender);
  _ ← lift (check_jurisdiction_policy s to);
  _ ← lift (check_max_holders s asset_id sender to amount);
  _ ← map_err ExState (State.transfer_asset asset_id sender to amount);
  mret [log sender "AssetTransfer" [asset_id] (to_vec (sender, to, amount))].

(** ** Freezing *)

Definition execute_freeze_asset (sender : Address) (asset_id : H256)
    : M StateDB ExecutionError (list Log) :=
  asset ← gets (λ s, State.get_asset_owned s asset_id);
  asset ← lift (ok_or AssetNotFound asset);
  _ ← fail_if (bool_decide (as_issuer asset ≠ sender)) NotIssuer;
  _ ← modify (State.put_asset asset_id (Asset.freeze asset));
  mret [log sender "FreezeAsset" [asset_id] (to_vec (sender, asset_id))].

Definition execute_unfreeze_asset (sender : Address) (asset_id : H256)
    : M StateDB ExecutionError (list Log) :=
  asset ← gets (λ s, State.get_asset_owned s asset_id);
  asset ← lift (ok_or AssetNotFound asset);
  _ ← fail_if (bool_decide (as_issuer asset ≠ sender)) NotIssuer;
  _ ← modify (State.put_asset asset_id (Asset.unfreeze asset).2);
  mret [log sender "UnfreezeAsset" [asset_id] (to_vec (sender, asset_id))].

(** ** Redemption *)

Definition execute_fund_redemption_pool (sender : Address) (asset_id : H256) (amount : Amount)
    : M StateDB ExecutionError (list Log) :=
  _ ← fail_if (Amount.is_zero amount) (Custom "amount is zero");
  asset ← find_asset asset_id AssetNotFound;
  _ ← fail_if (bool_decide (as_status asset ≠ RedemptionPending))
        (Custom "asset is not in RedemptionPending state");
  _ ← fail_if (bool_decide (as_issuer asset ≠ sender))
        (Custom "only the asset issuer can fund the redemption pool");
  _ ← map_err ExState (State.sub_balance sender amount);
  _ ← with_asset_mut asset_id AssetNotFound (λ a,
        pool ← ok_or (ExState (Serialization "redemption_pool overflow"))
                 (checked_add 128 (as_redemption_pool a) amount);
        Ok (a <| as_redemption_pool := pool |>));
  mret [log sender "FundRedemptionPool" [asset_id] (to_vec (sender, amount))].

(** The asset after a holder of [holder_total] took [share] out of the pool. *)
Definition redeem (holder_total share : Amount) (a : AssetRecord) : res ExecutionError AssetRecord :=
  supply ← Amount.sub (as_total_supply a) holder_total;
  pool ← Amount.sub (as_redemption_pool a) share;
  let a := a <| as_total_supply := supply |> <| as_redemption_pool := pool |> in
  Ok (if Amount.is_zero supply then a <| as_status := Redeemed |> else a).

Definition execute_claim_redemption (sender : Address) (asset_id : H256)
    : M StateDB ExecutionError (list Log) :=
  asset ← find_asset asset_id AssetNotFound;
  _ ← fail_if (bool_decide (as_status asset ≠ RedemptionPending))
        (Custom "asset is not in RedemptionPending state");
  let total_supply := as_total_supply asset in
  let pool := as_redemption_pool asset in
  _ ← fail_if (Amount.is_zero total_supply) (Custom "asset has zero total supply");
  _ ← fail_if (Amount.is_zero pool) (Custom "redemption pool is empty, no proceeds to claim");
  ownership ← gets (λ s, State.get_ownership s asset_id sender);
  holder_total ← lift (Own.total ownership);
  _ ← fail_if (Amount.is_zero holder_total) (Custom "caller holds no tokens for this asset");
  product ← lift (ok_or (ExState (Serialization "redemption share overflow"))
                    (checked_mul 128 holder_total pool));
  let share := product / total_supply in
  _ ← map_err ExState (State.put_ownership (ownership <| ow_available := 0 |> <| ow_locked := 0 |>));
  _ ← map_err (λ e, Custom ("credit failed: " +:+ state_error_msg e)) (State.add_balance sender share);
  _ ← with_asset_mut asset_id AssetNotFound (redeem holder_total share);
  mret [log sender "ClaimRedemption" [asset_id] (to_vec (sender, holder_total, share))].

Definition execute_finalize_redemption (asset_id : H256) : M StateDB ExecutionError unit :=
  asset ← find_asset asset_id (asset_not_found asset_id);
  _ ← fail_if (bool_decide (as_status asset ≠ RedemptionPending))
        (Custom "FinalizeRedemption only applies to assets in RedemptionPending");
  let remaining := as_redemption_pool asset in
  treasury ← gets db_treasury_address;
  _ ← with_asset_mut asset_id (asset_not_found asset_id) (λ a,
        Ok (a <| as_status := Redeemed |> <| as_redemption_pool := 0 |>));
  if Amount.is_zero remaining then mret tt
  else map_err (λ e, Custom (state_error_msg e)) (State.add_balance treasury remaining).

(** ** Revenue distribution *)

(** [a * b / c]; a zero divisor panics, the other operators wrap. *)
Definition mul_div {E} (a b c : Z) : res E Z :=
  if c =? 0 then Panic
  else
    match checked_mul 128 a b with
    | Some product => Ok (product / c)
    | None =>
        let q1 := wrap 128 ((a / c) * b) in
        let r1 := a mod c in
        let q2 := match checked_mul 128 r1 b with
                  | Some prod => prod / c
                  | None => wrap 128 ((r1 / c) * b + (r1 mod c) * (b / c))
                  end in
        Ok (wrap 128 (q1 + q2))
    end.

(** The loop over the holders: the sum distributed and the recipients. *)
Fixpoint pay_holders (holders : list (Address * Amount)) (total_amount total_supply : Amount)
    (distributed num_recipients : Z) : M StateDB ExecutionError (Amount * Z) :=
  match holders with
  | [] => mret (distributed, num_recipients)
  | (holder, available) :: holders =>
      share ← lift (mul_div available total_amount total_supply);
      if 0 <? share then
        _ ← map_err ExState (State.add_balance holder share);
        distributed ← lift (Amount.add distributed share);
        pay_holders holders total_amount total_supply distributed (wrap 64 (num_recipients + 1))
      else pay_holders holders total_amount total_supply distributed num_recipients
  end.

Definition holders_of (s : StateDB) (asset_id : H256) : list (Address * Amount) :=
  (λ r, (ow_owner r, ow_available r)) <$>
    filter (λ r, Amount.is_zero (ow_available r) = false) (State.iter_ownership_for_asset s asset_id).

Definition execute_distribute_revenue (sender : Address) (asset_id : H256) (total_amount : Amount)
    : M StateDB ExecutionError (list Log) :=
  _ ← fail_if (Amount.is_zero total_amount) (Custom "distribution amount must be non-zero");
  asset ← find_asset asset_id (asset_not_found asset_id);
  _ ← fail_if (bool_decide (as_issuer asset ≠ sender))
        (Custom "only the asset issuer can distribute revenue");
  let total_supply := as_total_supply asset in
  _ ← fail_if (Amount.is_zero total_supply) (Custom "asset has zero total supply");
  holders ← gets (λ s, holders_of s asset_id);
  _ ← fail_if (bool_decide (holders = [])) (Custom "no holders with available balance");
  _ ← map_err ExState (State.sub_balance sender total_amount);
  '(distributed, num_recipients) ← pay_holders holders total_amount total_supply 0 0;
  _ ← (match checked_sub total_amount distributed with
       | Some remainder => if Amount.is_zero remainder then mret tt
                           else map_err ExState (State.add_balance sender remainder)
       | None => mret tt
       end);
  mret [log sender "DistributeRevenue" [asset_id]
          (to_vec (sender, asset_id, total_amount, num_recipients))].

(** ** Asset governance *)

Definition is_finalize_redemption (a : AssetProposalAction) : bool :=
  match a with APFinalizeRedemption _ => true | _ => false end.

Definition execute_propose_asset_action (sender : Address) (asset_id : H256)
    (action : AssetProposalAction) (description : bytes) (block_number nonce : Z)
    : M StateDB ExecutionError (list Log) :=
  asset ← find_asset asset_id (asset_not_found asset_id);
  ownership ← gets (λ s, State.get_ownership s asset_id sender);
  _ ← fail_if (Amount.is_zero (ow_available ownership))
        (Custom "only token holders can propose asset actions");
  balance ← gets (λ s, State.get_balance s sender);
  _ ← (match action with
       | APDistributeRevenue total => fail_if (balance <? total) (ExInsufficientBalance balance total)
       | _ => mret tt
       end);
  _ ← fail_if (is_finalize_redemption action && bool_decide (as_status asset ≠ RedemptionPending))
        (Custom "FinalizeRedemption can only be proposed on an asset in RedemptionPending");
  let proposal_id := blake3_hash (to_vec (asset_id, sender, block_number, nonce)) in
  let proposal := {|
    ap_id := proposal_id;
    ap_asset_id := asset_id;
    ap_proposer := sender;
    ap_action := action;
    ap_description := description;
    ap_created_at := block_number;
    ap_voting_end := wrap 64 (block_number + ASSET_VOTING_PERIOD_BLOCKS);
    ap_status := APActive;
    ap_votes_yes := 0;
    ap_votes_no := 0;
    ap_votes_abstain := 0;
    ap_voters := [];
  |} in
  _ ← modify (State.put_asset_proposal proposal);
  mret [log sender "ProposeAssetAction" [proposal_id] (to_vec (sender, asset_id, proposal_id))].

Definition find_proposal (id : H256) : M StateDB ExecutionError AssetProposal :=
  proposal ← gets (λ s, State.get_asset_proposal s id);
  lift (ok_or (Custom "asset proposal not found") proposal).

Definition vote_code (v : Vote) : Z := match v with Yes => 0 | No => 1 | Abstain => 2 end.

(** The vote written through [get_asset_proposal_mut]. *)
Definition cast_vote (vote : Vote) (power : Amount) (voter : Address) (p : AssetProposal)
    : res ExecutionError AssetProposal :=
  p ← match vote with
      | Yes => v ← Amount.add (ap_votes_yes p) power; Ok (p <| ap_votes_yes := v |>)
      | No => v ← Amount.add (ap_votes_no p) power; Ok (p <| ap_votes_no := v |>)
      | Abstain => v ← Amount.add (ap_votes_abstain p) power; Ok (p <| ap_votes_abstain := v |>)
      end;
  Ok (p <| ap_voters := ap_voters p ++ [voter] |>).

Definition execute_vote_asset_proposal (sender : Address) (proposal_id : H256) (vote : Vote)
    (current_block : Z) : M StateDB ExecutionError (list Log) :=
  proposal ← find_proposal proposal_id;
  _ ← fail_if (bool_decide (ap_status proposal ≠ APActive)) (Custom "proposal is not active");
  _ ← fail_if (AssetProposal.is_voting_ended proposal current_block) (Custom "voting period has ended");
  _ ← fail_if (AssetProposal.has_voted proposal sender) (Custom "already voted on this proposal");
  voting_power ← gets (λ s, ow_available (State.get_ownership s (ap_asset_id proposal) sender));
  _ ← fail_if (Amount.is_zero voting_power) (Custom "no token holdings to vote with");
  proposal ← find_proposal proposal_id;
  proposal' ← lift (cast_vote vote voting_power sender proposal);
  _ ← modify (State.get_asset_proposal_mut proposal_id (λ _, proposal'));
  mret [log sender "VoteAssetProposal" [proposal_id] (to_vec (sender, vote_code vote, voting_power))].

(** What a passed proposal does. *)
Definition perform (action : AssetProposalAction) (proposer : Address) (asset_id : H256)
    : M StateDB ExecutionError unit :=
  match action with
  | APDistributeRevenue total => _ ← execute_distribute_revenue proposer asset_id total; mret tt
  | APChangeIssuer new_issuer =>
      with_asset_mut asset_id (asset_not_found asset_id) (λ a, Ok (a <| as_issuer := new_issuer |>))
  | APSignal _ => mret tt
  | APDisposeAsset _ =>
      with_asset_mut asset_id (asset_not_found asset_id)
        (λ a, Ok (a <| as_status := RedemptionPending |>))
  | APFinalizeRedemption _ => execute_finalize_redemption asset_id
  end.

Definition passes (p : AssetProposal) : bool :=
  match ap_action p with
  | APChangeIssuer _ | APDisposeAsset _ | APFinalizeRedemption _ =>
      AssetProposal.passes_supermajority p
  | _ => AssetProposal.passes_threshold p
  end.

Definition set_proposal_status (id : H256) (st : AssetProposalStatus)
    : M StateDB ExecutionError unit :=
  _ ← find_proposal id;
  modify (State.get_asset_proposal_mut id (λ p, p <| ap_status := st |>)).

Definition status_str (st : AssetProposalStatus) : bytes :=
  match st with APExecuted => "Executed" | APRejected => "Rejected" | _ => "Unknown" end.

Definition execute_finalize_asset_proposal (sender : Address) (proposal_id : H256)
    (current_block : Z) : M StateDB ExecutionError (list Log) :=
  proposal ← find_proposal proposal_id;
  _ ← fail_if (bool_decide (ap_status proposal ≠ APActive)) (Custom "proposal is not active");
  _ ← fail_if (negb (AssetProposal.is_voting_ended proposal current_block))
        (Custom "voting period has not ended yet");
  let asset_id := ap_asset_id proposal in
  asset ← find_asset asset_id (asset_not_found asset_id);
  has_quorum ← lift (AssetProposal.has_quorum proposal (as_total_supply asset));
  _ ← (if has_quorum && passes proposal then
         _ ← perform (ap_action proposal) (ap_proposer proposal) asset_id;
         set_proposal_status proposal_id APExecuted
       else set_proposal_status proposal_id APRejected);
  final ← gets (λ s, State.get_asset_proposal s proposal_id);
  final ← lift (ok_or (Custom "asset proposal disappeared during finalization") final);
  mret [log sender "FinalizeAssetProposal" [proposal_id]
          (to_vec (sender, proposal_id, status_str (ap_status final)))].

End with_env.
End AssetTx.
