(* ===== verification/ExecAdmin.v ===== *)
(** * Executing oracle, compliance and bridge transactions
    ([crates/vtt-executor/src/lib.rs])

    The treasury-gated handlers (KYC, jurisdictions, oracle feeds), oracle
    submissions, and bridge deposits and withdrawals. *)

From S2P Require Import Prelude Primitives RustStr Storage Assets Oracle StateDB ExecStaking ExecAssets.

Module AdminTx.
Section with_env.
Context `{!Env, !ExecCodec}.

Definition execute_set_kyc_approval (sender address : Address) (approved : bool)
    : M StateDB ExecutionError (list Log) :=
  treasury ← gets db_treasury_address;
  _ ← fail_if (bool_decide (sender ≠ treasury))
        (Custom "only the treasury / admin can set KYC approval");
  _ ← modify (State.set_kyc_approved address approved);
  mret [AssetTx.log sender "SetKycApproval" [] (to_vec (address, approved))].

Definition execute_set_address_jurisdiction (sender address : Address) (country : bytes)
    : M StateDB ExecutionError (list Log) :=
  treasury ← gets db_treasury_address;
  _ ← fail_if (bool_decide (sender ≠ treasury))
        (Custom "only the treasury / admin can set address jurisdiction");
  let country_upper := Str.to_ascii_uppercase (Str.trim country) in
  _ ← fail_if (negb (bool_decide (country_upper = "")) && negb (blen country_upper =? 2))
        (Custom "jurisdiction must be an ISO 3166-1 alpha-2 code (2 letters) or empty");
  _ ← fail_if (negb (Str.all Str.is_ascii_alphabetic country_upper))
        (Custom "jurisdiction must contain only ASCII letters");
  _ ← modify (State.set_address_jurisdiction address country_upper);
  mret [AssetTx.log sender "SetAddressJurisdiction" [] (to_vec (address, country_upper))].

(** ** Oracle feeds *)

(** The hexadecimal asset id of an ["asset:"] feed; [s] has the prefix. *)
Definition parse_asset_feed (s : bytes) : res ExecutionError OracleFeedType :=
  let tail := Str.trim_start_matches "asset:" s in
  let hex_str := default tail (Str.strip_prefix "0x" tail) in
  _ ← guard_err (negb (blen hex_str =? 64))
        (Custom "oracle feed_type 'asset:<hex>' expects 32-byte asset id");
  id ← res_map_err (λ _, Custom "oracle feed_type 'asset:<hex>': invalid hex")
         (Str.hex_bytes 32 0 hex_str);
  Ok (AssetValuation (MkH256 id)).

Definition parse_feed_type (feed_type : bytes) : res ExecutionError OracleFeedType :=
  if Str.starts_with "price:" feed_type
  then Ok (MarketPrice (Str.trim_start_matches "price:" feed_type))
  else if Str.starts_with "rate:" feed_type
  then Ok (InterestRate (Str.trim_start_matches "rate:" feed_type))
  else if Str.starts_with "asset:" feed_type then parse_asset_feed feed_type
  else Ok (OFCustom feed_type).

Definition oracle_registration_error (feed_id : H256) (e : StateError) : ExecutionError :=
  match e with
  | Serialization m =>
      if Str.contains "already exists" m
      then Custom ("oracle feed_id already registered: " +:+ h256_to_string feed_id)
      else Custom (state_error_msg e)
  | _ => Custom (state_error_msg e)
  end.

(** The argument checks, in order. *)
Definition check_feed_args (name feed_type : bytes) (authorized_sources : list Address)
    (quorum : Z) : res ExecutionError unit :=
  _ ← guard_err (bool_decide (name = "") || (128 <? blen name))
        (Custom "oracle feed name must be 1..=128 chars");
  _ ← guard_err (bool_decide (feed_type = "") || (64 <? blen feed_type))
        (Custom "oracle feed_type must be 1..=64 chars");
  _ ← guard_err (bool_decide (authorized_sources = [])
                 || (32 <? Z.of_nat (length authorized_sources)))
        (Custom "oracle feed must have between 1 and 32 authorized sources");
  _ ← guard_err (bool_decide (¬ NoDup authorized_sources))
        (Custom "oracle authorized_sources contains duplicates");
  guard_err ((quorum =? 0) || (Z.of_nat (length authorized_sources) <? quorum))
    (Custom "oracle quorum must be between 1 and the number of authorized sources").

Definition execute_create_oracle_feed (sender : Address) (feed_id : H256) (name feed_type : bytes)
    (authorized_sources : list Address) (quorum max_staleness_ms decimals block_number : Z)
    : M StateDB ExecutionError (list Log) :=
  _ ← fail_if (30 <? decimals) (Custom "oracle decimals must be <= 30");
  treasury ← gets db_treasury_address;
  _ ← fail_if (bool_decide (sender ≠ treasury))
        (Custom "only the treasury / admin can create oracle feeds");
  _ ← lift (check_feed_args name feed_type authorized_sources quorum);
  parsed_type ← lift (parse_feed_type feed_type);
  let feed := Oracle.new_with_decimals feed_id name parsed_type authorized_sources quorum
                max_staleness_ms decimals in
  let feed := feed <| of_created_at := block_number |> in
  _ ← map_err (oracle_registration_error feed_id) (State.register_oracle feed);
  mret [AssetTx.log sender "CreateOracleFeed" [feed_id]
          (to_vec (feed_id, name, authorized_sources, quorum))].

Definition execute_submit_oracle_value (sender : Address) (feed_id : H256) (value : Amount)
    (block_timestamp : Z) : M StateDB ExecutionError (list Log) :=
  reached ← map_err (λ e, Custom (state_error_msg e))
              (State.submit_oracle feed_id sender value block_timestamp);
  mret [AssetTx.log sender "SubmitOracleValue" [feed_id]
          (to_vec (sender, value, block_timestamp, reached))].

(** ** Bridge *)

Definition execute_bridge_deposit (sender : Address) (source_tx_hash : H256) (source_chain : Z)
    (recipient : Address) (token : H256) (amount : Amount)
    : M StateDB ExecutionError (list Log) :=
  paused ← gets State.is_bridge_paused;
  _ ← fail_if paused (Custom "bridge is paused");
  relayer ← gets State.bridge_relayer;
  _ ← fail_if (bool_decide (relayer = Address_ZERO)) (Custom "bridge relayer not configured");
  _ ← fail_if (bool_decide (sender ≠ relayer))
        (Custom "only the configured bridge relayer can submit BridgeDeposit");
  processed ← gets (λ s, State.bridge_deposit_processed s source_chain source_tx_hash);
  _ ← fail_if processed (Custom "bridge deposit already processed");
  _ ← fail_if (Amount.is_zero amount) (Custom "bridge deposit amount is zero");
  _ ← (if bool_decide (token = H256_ZERO) then
         map_err (λ e, Custom ("credit recipient failed: " +:+ state_error_msg e))
           (State.add_balance recipient amount)
       else
         asset ← AssetTx.find_asset token (Custom ("bridge asset not found: " +:+ h256_to_string token));
         _ ← fail_if (negb (Asset.is_tradeable asset)) (Custom "bridge asset is not active");
         AssetTx.credit_ownership token recipient amount);
  _ ← modify (State.mark_bridge_deposit_processed source_chain source_tx_hash);
  mret [AssetTx.log sender "BridgeDeposit" [source_tx_hash; token]
          (to_vec (recipient, token, amount))].

Definition execute_bridge_withdraw (sender : Address) (token : H256) (amount : Amount)
    (destination_chain : Z) (destination_address : Address)
    : M StateDB ExecutionError (list Log) :=
  paused ← gets State.is_bridge_paused;
  _ ← fail_if paused BridgePaused;
  _ ← fail_if (Amount.is_zero amount) (Custom "bridge withdraw amount must be non-zero");
  _ ← (if bool_decide (token = H256_ZERO) then
         map_err ExState (State.sub_balance sender amount)
       else
         _ ← AssetTx.find_asset token (asset_not_found token);
         map_err ExState (State.transfer_asset token sender Address_ZERO amount));
  mret [AssetTx.log sender "BridgeWithdraw" [token]
          (to_vec (sender, token, amount, destination_chain, destination_address))].

End with_env.
End AdminTx.
