(* ===== verification/ExecGov.v ===== *)
(** * On-chain governance ([crates/vtt-executor/src/lib.rs])

    Proposals are stored in the state as Borsh bytes.  Creating and voting are
    transactions; finalization after the voting period and execution after the
    timelock run once per block, in the order of the proposal ids. *)

From stdpp Require Import pretty.
From S2P Require Import Prelude Primitives RustStr Storage Assets Oracle StateDB ExecStaking.
From S2P Require Import ExecAssets Governance Compliance Multichain.

(** The JSON object of a [RegisterChain] proposal, missing fields defaulted;
    [serde_json] is third-party code. *)
Record AppChainConfig := MkAppChainConfig {
  acc_description : bytes;
  acc_validator_count : Z;
  acc_compliance : bytes;
  acc_trusted_issuers : list bytes;
}.

Class GovEnv : Type := {
  ge_process :: ProcessEnv;
  ge_proposal :: Borsh Proposal;
  ge_proposal_id :: Borsh (Z * Address * Z);
  ge_chain :: Borsh RegisteredChain;
  parse_config_json : bytes → option AppChainConfig;
}.

(** ** Parameters *)

(** The keys of the whitelist, with what their value is. *)
Inductive ParamKey :=
  | PkBridgeRelayer | PkTreasuryAddress | PkMinGasPrice | PkBaseTransferCost | PkCostPerByte
  | PkSlashDoubleSignBps | PkSlashDowntimeBps | PkDowntimeThresholdPct | PkUnbondingPeriodSecs
  | PkMaxHoldersPerAsset | PkJurisdictionWhitelist | PkJurisdictionBlacklist.

#[global] Instance ParamKey_eq_dec : EqDecision ParamKey.
Proof. solve_decision. Defined.

Definition param_keys : list (bytes * ParamKey) :=
  [("bridge_relayer", PkBridgeRelayer); ("treasury_address", PkTreasuryAddress);
   ("min_gas_price", PkMinGasPrice); ("base_transfer_cost", PkBaseTransferCost);
   ("cost_per_byte", PkCostPerByte); ("slash_double_sign_bps", PkSlashDoubleSignBps);
   ("slash_downtime_bps", PkSlashDowntimeBps); ("downtime_threshold_pct", PkDowntimeThresholdPct);
   ("unbonding_period_secs", PkUnbondingPeriodSecs); ("max_holders_per_asset", PkMaxHoldersPerAsset);
   ("jurisdiction_whitelist", PkJurisdictionWhitelist);
   ("jurisdiction_blacklist", PkJurisdictionBlacklist)].

(** The arms of [match key] on strings. *)
Definition param_key (key : bytes) : option ParamKey :=
  snd <$> (snd <$> list_find (λ kv, kv.1 = key) param_keys).

Module GovTx.

Definition parse_address (s : bytes) : res unit (option Address) :=
  let trimmed := default (Str.trim s) (Str.strip_prefix "0x" (Str.trim s)) in
  if negb (blen trimmed =? 40) then Ok None
  else
    match Str.hex_bytes 20 0 trimmed with
    | Ok b => Ok (Some (MkAddress b))
    | Err _ => Ok None
    | Panic => Panic
    end.

Section with_env.
Context `{!Env, !ExecCodec, !GovEnv}.

Definition valid_country_code (code : bytes) : bool :=
  bool_decide (code = "") || ((blen code =? 2) && Str.all Str.is_ascii_alphabetic code).

(** The value of a parameter: [Err] when it does not parse, [Panic] when the
    address is cut inside a character. *)
Definition check_param_value (k : ParamKey) (key value : bytes) : res ExecutionError unit :=
  let error (msg : string) : ExecutionError := Custom ("ParameterChange '" +:+ key +:+ "': " +:+ msg) in
  let number (w : Z) (msg : string) : res ExecutionError Z :=
    ok_or (error msg) (Str.parse w (Str.trim value)) in
  match k with
  | PkBridgeRelayer | PkTreasuryAddress =>
      a ← res_map_err (λ _, error "") (parse_address value);
      _ ← ok_or (error "value must be a 20-byte hex address") a;
      Ok tt
  | PkMinGasPrice => _ ← number 128 "value must be a u128 (raw Amount)"; Ok tt
  | PkBaseTransferCost | PkCostPerByte | PkUnbondingPeriodSecs =>
      _ ← number 64 "value must be a u64"; Ok tt
  | PkSlashDoubleSignBps | PkSlashDowntimeBps =>
      v ← number 16 "value must be a u16 (basis points 0..=10000)";
      guard_err (10000 <? v) (error ("basis points must be <= 10000 (got " +:+ pretty v +:+ ")"))
  | PkDowntimeThresholdPct =>
      v ← number 8 "value must be a u8 percentage 0..=100";
      guard_err (100 <? v) (error ("percentage must be <= 100 (got " +:+ pretty v +:+ ")"))
  | PkMaxHoldersPerAsset => _ ← number 32 "value must be a u32 (0 = unlimited)"; Ok tt
  | PkJurisdictionWhitelist | PkJurisdictionBlacklist =>
      match List.find (λ c, negb (valid_country_code c)) (Str.trim <$> Str.split Str.comma value) with
      | Some code => Err (error ("'" +:+ code +:+ "' is not a valid ISO 3166-1 alpha-2 code"))
      | None => Ok tt
      end
  end.

Definition ALLOWED_PARAMETERS : string :=
  "bridge_relayer, treasury_address, min_gas_price, base_transfer_cost, cost_per_byte, " +:+
  "slash_double_sign_bps, slash_downtime_bps, downtime_threshold_pct, unbonding_period_secs, " +:+
  "max_holders_per_asset, jurisdiction_whitelist, jurisdiction_blacklist".

Definition validate_parameter_change (key value : bytes) : res ExecutionError unit :=
  match param_key key with
  | Some k => check_param_value k key value
  | None => Err (Custom ("ParameterChange: unknown parameter '" +:+ key +:+ "'. Allowed: "
                         +:+ ALLOWED_PARAMETERS))
  end.

(** [if let Ok(v) = value.trim().parse() { if ok(v) { set(v) } }]. *)
Definition set_number (w : Z) (ok : Z → bool) (set : Z → StateDB → StateDB) (value : bytes)
    (s : StateDB) : StateDB :=
  match Str.parse w (Str.trim value) with
  | Some v => if ok v then set v s else s
  | None => s
  end.

Definition apply_parameter_change {E} (key value : bytes) : M StateDB E unit :=
  let any (v : Z) := true in
  let set_address (set : Address → StateDB → StateDB) : M StateDB E unit :=
    match parse_address value with
    | Ok (Some a) => modify (set a)
    | Ok None | Err _ => mret tt
    | Panic => lift Panic
    end in
  match param_key key with
  | Some PkBridgeRelayer => set_address State.set_bridge_relayer
  | Some PkTreasuryAddress => set_address State.set_treasury_address
  | Some PkMinGasPrice => modify (set_number 128 any State.set_min_gas_price value)
  | Some PkBaseTransferCost => modify (set_number 64 any State.set_base_transfer_cost value)
  | Some PkCostPerByte => modify (set_number 64 any State.set_cost_per_byte value)
  | Some PkSlashDoubleSignBps =>
      modify (set_number 16 (λ v, v <=? 10000) State.set_slash_double_sign_bps value)
  | Some PkSlashDowntimeBps =>
      modify (set_number 16 (λ v, v <=? 10000) State.set_slash_downtime_bps value)
  | Some PkDowntimeThresholdPct =>
      modify (set_number 8 (λ v, v <=? 100) State.set_downtime_threshold_pct value)
  | Some PkUnbondingPeriodSecs => modify (set_number 64 any State.set_unbonding_period_secs value)
  | Some PkMaxHoldersPerAsset => modify (set_number 32 any State.set_max_holders_per_asset value)
  | Some PkJurisdictionWhitelist => modify (State.set_jurisdiction_whitelist value)
  | Some PkJurisdictionBlacklist => modify (State.set_jurisdiction_blacklist value)
  | None => mret tt
  end.

(** ** Proposing and voting *)

(** The arms of [match action_type]. *)
Definition proposal_action (description action_type : bytes) (key value : option bytes)
    (recipient : option Address) (amount : option Amount) : res ExecutionError ProposalAction :=
  if bool_decide (action_type = "parameter_change") then
    let key := default "" key in
    let value := default description value in
    _ ← validate_parameter_change key value;
    Ok (ParameterChange key value)
  else if bool_decide (action_type = "treasury_spend") then
    Ok (TreasurySpend (default Address_ZERO recipient) (default 0 amount))
  else if bool_decide (action_type = "signal") then Ok (ProtocolUpgrade 0 description)
  else if bool_decide (action_type = "dex_pause") then Ok (DexPause true)
  else if bool_decide (action_type = "dex_unpause") then Ok (DexPause false)
  else if bool_decide (action_type = "bridge_pause") then Ok (BridgePause true)
  else if bool_decide (action_type = "bridge_unpause") then Ok (BridgePause false)
  else if bool_decide (action_type = "register_chain") then
    Ok (RegisterChain (default "" key) (default "{}" value))
  else Err (Custom ("invalid action_type '" +:+ action_type +:+
    "', must be one of: parameter_change, treasury_spend, signal, dex_pause, dex_unpause, " +:+
    "bridge_pause, bridge_unpause, register_chain")).

(** The stake that votes: the sender's own staking record. *)
Definition stake_of_account (acc : AccountState) : Amount :=
  default 0 (sk_total_stake <$> ac_staking acc).

Definition total_staked {E} (s : StateDB) : res E Amount :=
  fold_res (λ sum kv, match ac_staking kv.2 with
                      | Some k => Amount.add sum (sk_total_stake k)
                      | None => Ok sum
                      end) 0 (State.iter_accounts s).

Definition execute_governance_propose (sender : Address) (description action_type : bytes)
    (key value : option bytes) (recipient : option Address) (amount : option Amount)
    (block_number : Z) : M StateDB ExecutionError (list Log) :=
  _ ← fail_if (bool_decide (description = "")) (Custom "proposal description must not be empty");
  action ← lift (proposal_action description action_type key value recipient amount);
  account ← gets (λ s, State.get_account s sender);
  _ ← fail_if (Amount.is_zero (stake_of_account account))
        (Custom "sender must have staked VTT to create proposals");
  staked ← gets total_staked;
  staked ← lift staked;
  gov_seq ← State.next_governance_id;
  let proposal_id := blake3_hash (to_vec (gov_seq, sender, block_number)) in
  let proposal := Proposal.fresh proposal_id sender action description block_number staked in
  _ ← modify (State.put_governance_proposal proposal_id (to_vec proposal));
  mret [AssetTx.log sender "GovernancePropose" [proposal_id]
          (to_vec (sender, description, action_type))].

Definition voting_power (p : Proposal) (voter_stake : Amount) : Amount :=
  if negb (Amount.is_zero (pr_total_staked_at_creation p))
  then Z.min voter_stake (pr_total_staked_at_creation p) else voter_stake.

Definition execute_governance_vote (sender : Address) (proposal_id : H256) (vote : Vote)
    (block_number : Z) : M StateDB ExecutionError (list Log) :=
  data ← gets (λ s, State.get_governance_proposal_owned s proposal_id);
  data ← lift (ok_or (Custom "governance proposal not found") data);
  proposal ← lift (ok_or (Custom "corrupt governance proposal") (from_slice (A:=Proposal) data));
  _ ← fail_if (bool_decide (pr_status proposal ≠ PsActive)) (Custom "proposal is not active");
  _ ← fail_if (Proposal.is_voting_ended proposal block_number) (Custom "voting period has ended");
  _ ← fail_if (Proposal.has_voted proposal sender) (Custom "already voted on this proposal");
  account ← gets (λ s, State.get_account s sender);
  let voter_stake := stake_of_account account in
  _ ← fail_if (Amount.is_zero voter_stake) (Custom "no staked VTT to vote with");
  proposal ← lift (Proposal.apply_vote vote (voting_power proposal voter_stake) sender proposal);
  _ ← modify (State.put_governance_proposal proposal_id (to_vec proposal));
  mret [AssetTx.log sender "GovernanceVote" [proposal_id] (to_vec vote)].

(** ** Once per block *)

(** [iter().collect()] then [sort_by] the id bytes. *)
Definition proposals_by_id (s : StateDB) : list (H256 * bytes) :=
  stable_sort (λ a b, String.leb (h256_bytes a.1) (h256_bytes b.1))
    (State.iter_governance_proposals s).

(** One turn of the finalization loop: [true] when the proposal was closed. *)
Definition finalize_one {E} (current_block : Z) (staked : Amount) (id : H256) (data : bytes)
    : M StateDB E bool :=
  match from_slice (A:=Proposal) data with
  | None => mret false
  | Some p =>
      if bool_decide (pr_status p ≠ PsActive) then mret false
      else if negb (Proposal.is_voting_ended p current_block) then mret false
      else
        has_quorum ← lift (Proposal.has_quorum p staked);
        let status := if has_quorum && Proposal.passes_threshold p
                      then PsQueued (wrap 64 (current_block + execution_delay_blocks))
                      else PsRejected in
        _ ← modify (State.put_governance_proposal id (to_vec (p <| pr_status := status |>)));
        mret true
  end.

(** A [for] loop that counts the turns that returned [true]. *)
Fixpoint count_loop {E} (body : H256 → bytes → M StateDB E bool) (l : list (H256 * bytes))
    (count : Z) : M StateDB E Z :=
  match l with
  | [] => mret count
  | (id, data) :: l =>
      done ← body id data;
      count_loop body l (if (done : bool) then wrap 64 (count + 1) else count)
  end.

Definition finalize_governance_proposals {E} (current_block : Z) (staked : Amount)
    : M StateDB E Z :=
  proposals ← gets proposals_by_id;
  count_loop (finalize_one current_block staked) proposals 0.

(** One trusted issuer: skipped when it is not 64 hexadecimal digits. *)
Definition parse_issuer {E} (s : bytes) : res E (option H256) :=
  let trimmed := Str.trim_start_matches "0x" (Str.trim s) in
  if negb (blen trimmed =? 64) then Ok None
  else
    match Str.hex_bytes 32 0 trimmed with
    | Ok b => Ok (Some (MkH256 b))
    | Err _ => Ok None
    | Panic => Panic
    end.

Definition parse_issuers {E} (l : list bytes) : res E (list H256) :=
  fold_res (λ acc s, i ← parse_issuer s; Ok (acc ++ option_list i)) [] l.

Definition parse_compliance (cfg : AppChainConfig) : res string ChainComplianceConfig :=
  let mode := Str.to_ascii_lowercase (acc_compliance cfg) in
  if bool_decide (mode = "") || bool_decide (mode = "permissionless")
  then Ok Compliance.permissionless
  else if bool_decide (mode = "permissioned") then
    issuers ← parse_issuers (acc_trusted_issuers cfg);
    Ok (Compliance.permissioned issuers)
  else Err "unknown compliance mode".

Definition register_app_chain (name config_json : bytes) (proposer : Address) (current_block : Z)
    : M StateDB string ChainId :=
  cfg ← lift (ok_or "invalid config_json" (parse_config_json config_json));
  _ ← fail_if (acc_validator_count cfg =? 0) "validator_count must be > 0";
  compliance ← lift (parse_compliance cfg);
  chain_id ← (λ s, let '(id, s') := State.next_registered_chain_id s in (Ok id, s'));
  let record := {|
    rg_chain_id := chain_id;
    rg_name := name;
    rg_description := acc_description cfg;
    rg_validator_count := acc_validator_count cfg;
    rg_consensus := ConsensusParams_default;
    rg_gas := GasConfig_default;
    rg_compliance := compliance;
    rg_genesis_hash := H256_ZERO;
    rg_active := true;
    rg_registered_at := current_block;
    rg_proposer := proposer;
  |} in
  _ ← modify (State.put_registered_chain chain_id (to_vec record));
  mret chain_id.

Definition treasury_spend {E} (recipient : Address) (amount : Amount) : M StateDB E unit :=
  treasury ← gets db_treasury_address;
  balance ← gets (λ s, State.get_balance s treasury);
  if amount <=? balance then ignore_err (State.transfer treasury recipient amount) else mret tt.

(** What a proposal does when its timelock has expired. *)
Definition enact {E} (p : Proposal) (current_block : Z) : M StateDB E unit :=
  match pr_action p with
  | ParameterChange key value => apply_parameter_change key value
  | TreasurySpend recipient amount => treasury_spend recipient amount
  | RegisterChain name config_json =>
      ignore_err (register_app_chain name config_json (pr_proposer p) current_block)
  | ProtocolUpgrade _ _ => mret tt
  | DexPause paused => modify (State.set_dex_paused paused)
  | BridgePause paused => modify (State.set_bridge_paused paused)
  end.

Definition execute_one {E} (current_block : Z) (id : H256) (data : bytes) : M StateDB E bool :=
  match from_slice (A:=Proposal) data with
  | None => mret false
  | Some p =>
      match pr_status p with
      | PsQueued execute_after =>
          if current_block <? execute_after then mret false
          else
            _ ← enact p current_block;
            _ ← modify (State.put_governance_proposal id (to_vec (p <| pr_status := PsExecuted |>)));
            mret true
      | _ => mret false
      end
  end.

Definition execute_queued_proposals {E} (current_block : Z) : M StateDB E Z :=
  proposals ← gets proposals_by_id;
  count_loop (execute_one current_block) proposals 0.

End with_env.
End GovTx.
