(* ===== verification/Executor.v ===== *)
(** * Transactions and blocks ([crates/vtt-executor/src/lib.rs])

    Contract deployment and calls, the dispatch on the action, gas, the
    execution of one signed transaction with its roll-back, the execution of
    the transactions of a block, and the settlement that ends a block. *)

From stdpp Require Import pretty.
From S2P Require Import Prelude Primitives RustStr DexMath Storage Assets Oracle StateDB Dex.
From S2P Require Import Codecs Ledger Snapshot Consensus ExecStaking Governance Vm.
From S2P Require Import ExecAssets ExecAdmin ExecGov.

Record ExecutionResult := MkExecutionResult {
  er_receipt : TransactionReceipt;
  er_gas_used : Z;
}.

(** ** [Display] of the errors the executor carries as text *)

Definition dex_error_msg (e : DexError) : string :=
  match e with
  | PoolAlreadyExists id => "pool already exists: " +:+ h256_to_string id
  | PoolNotFound id => "pool not found: " +:+ h256_to_string id
  | ZeroAmount => "amount must be non-zero"
  | ZeroLiquidity => "pool has zero liquidity"
  | InsufficientBalance => "insufficient balance"
  | InsufficientLiquidity => "insufficient liquidity in pool"
  | SlippageExceeded expected got =>
      "slippage exceeded: expected >= " +:+ pretty expected +:+ ", got " +:+ pretty got
  | InvalidTokenPair => "invalid token pair"
  | SameToken => "cannot create pool with same token on both sides"
  | Overflow => "arithmetic overflow"
  | NotAuthorized => "not authorized for this operation"
  | MiningNotActive => "liquidity mining not active for this pool"
  | NothingToClaim => "nothing to claim"
  | DexPaused => "DEX is paused"
  end.

Definition vm_error_msg (e : VmError) : string :=
  match e with
  | VmCompilation msg => "compilation error: " +:+ msg
  | VmInstantiation msg => "instantiation error: " +:+ msg
  | VmRuntime msg => "runtime error: " +:+ msg
  | VmOutOfGas used limit => "out of gas: used " +:+ pretty used +:+ ", limit " +:+ pretty limit
  | VmExportNotFound method => "export not found: " +:+ method
  | VmInvalidReturn => "invalid return value"
  | VmMemoryAccess msg => "memory access error: " +:+ msg
  | VmMemoryLimitExceeded pages max =>
      "memory limit exceeded: " +:+ pretty pages +:+ " pages (max " +:+ pretty max +:+ ")"
  | VmCallStackOverflow depth max =>
      "call stack overflow: depth " +:+ pretty depth +:+ " exceeds max " +:+ pretty max
  end.

(** The environment of the executor: the state's, the governance's, the
    WebAssembly runtime, and the remaining codecs. *)
Class TxEnv : Type := {
  te_env :: Env;
  te_codec :: ExecCodec;
  te_gov :: GovEnv;
  te_wasm :: WasmRuntime;
  te_pool :: Borsh PoolState;
  te_mining :: Borsh MiningState;
  te_header :: Borsh BlockHeader;
  te_evidence :: Borsh DoubleSignEvidence;
  te_slash :: Borsh (Address * Amount * Z * Z);
  te_deploy :: Borsh (Address * Z);
  te_payload :: Borsh TransactionPayload;
}.

Definition INITIAL_SUPPLY_VTT : Z := 1000000000.

Record BlockSettlementSummary := MkBlockSettlementSummary {
  bs_minted : Amount;
  bs_burned : Amount;
  bs_treasury : Amount;
  bs_producer_total : Amount;
  bs_governance_finalized : Z;
  bs_governance_executed : Z;
}.

Definition BlockSettlementSummary_default : BlockSettlementSummary :=
  MkBlockSettlementSummary 0 0 0 0 0 0.

Definition BlockSettlementSummary_eta (b : BlockSettlementSummary) : BlockSettlementSummary :=
  MkBlockSettlementSummary (bs_minted b) (bs_burned b) (bs_treasury b) (bs_producer_total b)
    (bs_governance_finalized b) (bs_governance_executed b).

#[global] Instance upd_bs_minted : Updater bs_minted.
Proof. derive_updater BlockSettlementSummary_eta. Defined.
#[global] Instance upd_bs_burned : Updater bs_burned.
Proof. derive_updater BlockSettlementSummary_eta. Defined.
#[global] Instance upd_bs_treasury : Updater bs_treasury.
Proof. derive_updater BlockSettlementSummary_eta. Defined.
#[global] Instance upd_bs_producer_total : Updater bs_producer_total.
Proof. derive_updater BlockSettlementSummary_eta. Defined.
#[global] Instance upd_bs_governance_finalized : Updater bs_governance_finalized.
Proof. derive_updater BlockSettlementSummary_eta. Defined.
#[global] Instance upd_bs_governance_executed : Updater bs_governance_executed.
Proof. derive_updater BlockSettlementSummary_eta. Defined.

Definition dex_error (e : DexError) : ExecutionError := Custom (dex_error_msg e).

Module Tx.
Section with_env.
Context `{!TxEnv}.

(** ** Contracts *)

Definition contract_address (sender : Address) (nonce : Z) : Address :=
  address_from_slice (bdrop 12 (h256_bytes (blake3_hash (to_vec (sender, nonce))))).

Definition execute_deploy_contract (sender : Address) (code : bytes)
    : M StateDB ExecutionError (list Log) :=
  _ ← fail_if (Gas.MAX_CONTRACT_SIZE <? blen code)
        (ContractTooLarge (blen code) Gas.MAX_CONTRACT_SIZE);
  _ ← lift (res_map_err (λ _, ContractNotSupported) (VmEngine.compile code));
  code_hash ← (λ s, let '(h, s') := State.store_code code s in (Ok h, s'));
  nonce ← gets (λ s, State.get_nonce s sender);
  let contract_addr := contract_address sender nonce in
  _ ← modify (State.put_account contract_addr
        {| ac_nonce := 0; ac_balance := 0; ac_code_hash := Some code_hash;
           ac_storage_root := H256_ZERO; ac_staking := None |});
  mret [AssetTx.log contract_addr "ContractDeployed" [] (to_vec (contract_addr, code_hash))].

(** The balance changes collected by the context, in order. *)
Definition apply_balance_change (change : BalanceChange) : M StateDB ExecutionError unit :=
  map_err ExState (if bc_is_credit change
                   then State.add_balance (bc_address change) (bc_amount change)
                   else State.sub_balance (bc_address change) (bc_amount change)).

Definition execute_call_contract (sender contract : Address) (method args : bytes)
    (value : Amount) (block_number block_timestamp gas_limit : Z)
    : M StateDB ExecutionError (list Log) :=
  account ← gets (λ s, State.get_account s contract);
  code_hash ← lift (ok_or ContractNotSupported (ac_code_hash account));
  code ← gets (λ s, State.get_code s code_hash);
  code ← lift (ok_or ContractNotSupported code);
  _ ← (if Amount.is_zero value then mret tt
       else map_err ExState (State.transfer sender contract value));
  existing_storage ← gets (λ s, State.load_contract_storage s contract);
  let ctx := Ctx.new {|
    ep_contract_address := contract;
    ep_caller := sender;
    ep_origin := sender;
    ep_value := value;
    ep_block_number := block_number;
    ep_block_timestamp := block_timestamp;
    ep_chain_id := ChainId_RELAY;
    ep_gas_limit := gas_limit;
  |} in
  let ctx := ctx <| cx_storage := existing_storage |> in
  let '(r, ctx) := VmEngine.execute code method args ctx in
  result ← lift (res_map_err (λ e, ExState (Serialization (vm_error_msg e))) r);
  _ ← fail_if (negb (vr_status result =? 0))
        (ExState (Serialization ("contract reverted with status " +:+ pretty (vr_status result))));
  _ ← modify (λ s, foldl (λ s kv, State.put_contract_storage contract kv.1 kv.2 s) s
                     (hash_iter (cx_storage ctx)));
  let '(changes, ctx) := Ctx.take_balance_changes ctx in
  _ ← for_each changes apply_balance_change;
  let '(logs, _) := Ctx.take_logs ctx in
  mret (logs ++ [AssetTx.log contract "ContractCall" [] (to_vec (sender, contract, method))]).

(** ** Liquidity mining: the stored state around [claim_mining_rewards] *)

Definition current_epoch (s : StateDB) (block_number : Z) : Z :=
  default 0 (checked_div block_number (db_epoch_length s)).

Definition execute_claim_mining (sender : Address) (pool_id : H256) (block_number : Z)
    : M StateDB ExecutionError (list Log) :=
  epoch ← gets (λ s, current_epoch s block_number);
  data ← gets (λ s, State.get_mining_state_raw s pool_id);
  data ← lift (ok_or (Custom "mining not active for this pool") data);
  mining_state ← lift (ok_or (Custom "corrupt mining state") (from_slice (A:=MiningState) data));
  '(reward, mining_state) ← map_err dex_error
      (Dex.claim_mining_rewards sender pool_id epoch mining_state);
  _ ← modify (State.put_mining_state_raw pool_id (to_vec mining_state));
  mret [AssetTx.log sender "ClaimMiningRewards" [pool_id] (to_vec reward)].

(** ** Dispatch *)

Definition execute_action (sender : Address) (action : TransactionAction)
    (block_number block_timestamp nonce gas_limit : Z) : M StateDB ExecutionError (list Log) :=
  match action with
  | Transfer to amount =>
      _ ← map_err ExState (State.transfer sender to amount);
      mret [AssetTx.log sender "Transfer" [] (to_vec (sender, to, amount))]
  | Stake validator amount =>
      _ ← Exec.execute_stake sender validator amount;
      mret [AssetTx.log sender "Stake" [] (to_vec (sender, validator, amount))]
  | Unstake validator amount =>
      _ ← Exec.execute_unstake sender validator amount block_timestamp;
      mret [AssetTx.log sender "Unstake" [] (to_vec (sender, validator, amount))]
  | GovernanceVote proposal_id vote =>
      GovTx.execute_governance_vote sender proposal_id vote block_number
  | DeployContract code _ => execute_deploy_contract sender code
  | CallContract contract method args value =>
      execute_call_contract sender contract method args value block_number block_timestamp gas_limit
  | CreateAssetClass name symbol metadata_uri total_supply decimals asset_class jurisdiction
      legal_entity =>
      _ ← AssetTx.execute_create_asset sender name symbol metadata_uri total_supply decimals
            asset_class jurisdiction legal_entity block_number;
      mret [AssetTx.log sender "CreateAssetClass" [] (to_vec (sender, name, symbol))]
  | AssetTransfer asset_id to amount => AssetTx.execute_asset_transfer sender asset_id to amount
  | CrossChainTransfer destination_chain _ _ =>
      throw (Custom ("cross-chain routing to " +:+ pretty destination_chain +:+
        " is not yet live; the app-chain is registered but the relayer is not active"))
  | CreatePool token_a token_b amount_a amount_b =>
      epoch ← gets (λ s, current_epoch s block_number);
      pool ← map_err dex_error (Dex.create_pool sender token_a token_b amount_a amount_b epoch);
      mret [AssetTx.log sender "CreatePool" [pl_pool_id pool] (to_vec (pl_pool_id pool))]
  | AddLiquidity pool_id amount_a amount_b min_lp =>
      lp_minted ← map_err dex_error (Dex.add_liquidity sender pool_id amount_a amount_b min_lp);
      mret [AssetTx.log sender "AddLiquidity" [pool_id] (to_vec lp_minted)]
  | RemoveLiquidity pool_id lp_amount min_a min_b =>
      out ← map_err dex_error (Dex.remove_liquidity sender pool_id lp_amount min_a min_b);
      mret [AssetTx.log sender "RemoveLiquidity" [pool_id] (to_vec out)]
  | Swap pool_id token_in amount_in min_amount_out =>
      amount_out ← map_err dex_error
          (Dex.execute_swap sender pool_id token_in amount_in min_amount_out);
      mret [AssetTx.log sender "Swap" [pool_id] (to_vec amount_out)]
  | ClaimRevenue pool_id =>
      treasury ← gets db_treasury_address;
      fees ← map_err dex_error (Dex.claim_protocol_fees sender pool_id treasury);
      mret [AssetTx.log sender "ClaimRevenue" [pool_id] (to_vec fees)]
  | ClaimMiningRewards pool_id => execute_claim_mining sender pool_id block_number
  | DistributeRevenue asset_id total_amount =>
      AssetTx.execute_distribute_revenue sender asset_id total_amount
  | ProposeAssetAction asset_id action description =>
      AssetTx.execute_propose_asset_action sender asset_id action description block_number nonce
  | VoteAssetProposal proposal_id vote =>
      AssetTx.execute_vote_asset_proposal sender proposal_id vote block_number
  | FinalizeAssetProposal proposal_id =>
      AssetTx.execute_finalize_asset_proposal sender proposal_id block_number
  | BridgeWithdraw token amount destination_chain destination_address =>
      AdminTx.execute_bridge_withdraw sender token amount destination_chain destination_address
  | GovernancePropose description action_type key value recipient amount =>
      GovTx.execute_governance_propose sender description action_type key value recipient amount
        block_number
  | FreezeAsset asset_id => AssetTx.execute_freeze_asset sender asset_id
  | UnfreezeAsset asset_id => AssetTx.execute_unfreeze_asset sender asset_id
  | SubmitSlashingEvidence evidence =>
      Exec.execute_submit_slashing_evidence sender evidence block_number
  | FundRedemptionPool asset_id amount =>
      AssetTx.execute_fund_redemption_pool sender asset_id amount
  | ClaimRedemption asset_id => AssetTx.execute_claim_redemption sender asset_id
  | SetKycApproval address approved => AdminTx.execute_set_kyc_approval sender address approved
  | BridgeDeposit source_tx_hash source_chain recipient token amount =>
      AdminTx.execute_bridge_deposit sender source_tx_hash source_chain recipient token amount
  | SetAddressJurisdiction address country =>
      AdminTx.execute_set_address_jurisdiction sender address country
  | CreateOracleFeed feed_id name feed_type authorized_sources quorum max_staleness_ms decimals =>
      AdminTx.execute_create_oracle_feed sender feed_id name feed_type authorized_sources quorum
        max_staleness_ms decimals block_number
  | SubmitOracleValue feed_id value =>
      AdminTx.execute_submit_oracle_value sender feed_id value block_timestamp
  end.

(** ** Gas *)

Definition calculate_gas_cost (action : TransactionAction) (config : GasConfig) : Z :=
  let base n := wrap 64 (base_transfer_cost config * n) in
  let sized b := wrap 64 (base_transfer_cost config + wrap 64 (blen b * cost_per_byte config)) in
  match action with
  | Transfer _ _ | GovernanceVote _ _ => base_transfer_cost config
  | Stake _ _ | Unstake _ _ => base 2
  | DeployContract code _ => sized code
  | CallContract _ _ args _ => sized args
  | CreateAssetClass _ _ _ _ _ _ _ _ => base 5
  | AssetTransfer _ _ _ => base 2
  | CrossChainTransfer _ _ _ => base 3
  | CreatePool _ _ _ _ => 50000
  | AddLiquidity _ _ _ _ | RemoveLiquidity _ _ _ _ => 30000
  | Swap _ _ _ _ => 25000
  | ClaimRevenue _ | ClaimMiningRewards _ => 10000
  | DistributeRevenue _ _ => 50000
  | ProposeAssetAction _ _ _ => 100000
  | VoteAssetProposal _ _ => 30000
  | FinalizeAssetProposal _ => 100000
  | BridgeWithdraw _ _ _ _ => 50000
  | GovernancePropose _ _ _ _ _ _ => 100000
  | FreezeAsset _ | UnfreezeAsset _ => 30000
  | SubmitSlashingEvidence _ => 150000
  | BridgeDeposit _ _ _ _ _ => 80000
  | FundRedemptionPool _ _ => 50000
  | ClaimRedemption _ => 80000
  | SetKycApproval _ _ | SetAddressJurisdiction _ _ => 30000
  | CreateOracleFeed _ _ _ _ _ _ _ => 80000
  | SubmitOracleValue _ _ => 40000
  end.

Definition gas_to_use (tx : SignedTransaction) (config : GasConfig) : Z :=
  Z.min (calculate_gas_cost (tp_action (tx_payload tx)) config) (tp_gas_limit (tx_payload tx)).

Definition gas_fee (tx : SignedTransaction) (config : GasConfig) : Amount :=
  default 0 (checked_mul 128 (tp_gas_price (tx_payload tx)) (gas_to_use tx config)).

(** What the sender must hold besides the fee; [None] when the sum overflows. *)
Definition total_value (fee : Amount) (action : TransactionAction) : option Amount :=
  match action with
  | Transfer _ amount | Stake _ amount => checked_add 128 fee amount
  | CallContract _ _ _ value => checked_add 128 fee value
  | DistributeRevenue _ total_amount => checked_add 128 fee total_amount
  | BridgeWithdraw token amount _ _ =>
      if bool_decide (token = H256_ZERO) then checked_add 128 fee amount else Some fee
  | _ => Some fee
  end.

Definition fail_receipt (tx_hash : H256) (gas_used : Z) : ExecutionResult :=
  MkExecutionResult (MkTransactionReceipt tx_hash false gas_used []) gas_used.

(** ** One transaction *)

Definition tx_hash (tx : SignedTransaction) : H256 := blake3_hash (to_vec (tx_payload tx)).

Definition tx_sender (tx : SignedTransaction) : Address := address_from_public_key (tx_public_key tx).

(** The checks that reject a transaction without touching the state. *)
Definition admissible (s : StateDB) (tx : SignedTransaction) (gas_config : GasConfig)
    (chain_id : ChainId) : bool :=
  let p := tx_payload tx in
  let effective_min_gas_price :=
    default (min_gas_price gas_config) (State.get_min_gas_price_override s) in
  (tp_chain_id p =? chain_id)
  && match verify (to_vec p) (tx_signature tx) (tx_public_key tx) with Ok _ => true | _ => false end
  && (tp_nonce p =? State.get_nonce s (tx_sender tx))
  && (effective_min_gas_price <=? tp_gas_price p).

(** [let _ = state.sub_balance(&sender, fee); state.increment_nonce(&sender);] *)
Definition charge {E} (sender : Address) (fee : Amount) : M StateDB E unit :=
  _ ← ignore_err (State.sub_balance sender fee);
  _ ← State.increment_nonce sender;
  mret tt.

(** The match on the result of the action; a failed one is rolled back and
    then charged again. *)
Definition conclude {E} (tx : SignedTransaction) (gas : Z) (fee : Amount)
    (snapshot : StateSnapshot) (action : M StateDB ExecutionError (list Log))
    : M StateDB E ExecutionResult := λ s,
  match action s with
  | (Ok logs, s') =>
      (Ok (MkExecutionResult (MkTransactionReceipt (tx_hash tx) true gas logs) gas), s')
  | (Err _, s') =>
      (_ ← modify (Snapshot.restore snapshot);
       _ ← charge (tx_sender tx) fee;
       mret (fail_receipt (tx_hash tx) gas)) s'
  | (Panic, s') => (Panic, s')
  end.

Definition execute_transaction_at {E} (tx : SignedTransaction) (gas_config : GasConfig)
    (block_number block_timestamp : Z) (chain_id : ChainId) : M StateDB E ExecutionResult :=
  let p := tx_payload tx in
  let sender := tx_sender tx in
  ok ← gets (λ s, admissible s tx gas_config chain_id);
  if negb ok then mret (fail_receipt (tx_hash tx) 0)
  else
    let gas := gas_to_use tx gas_config in
    let fee := gas_fee tx gas_config in
    sender_balance ← gets (λ s, State.get_balance s sender);
    match total_value fee (tp_action p) with
    | None => mret (fail_receipt (tx_hash tx) gas)
    | Some total_needed =>
        if sender_balance <? total_needed then
          _ ← charge sender (Z.min fee sender_balance);
          mret (fail_receipt (tx_hash tx) gas)
        else
          snapshot ← gets Snapshot.snapshot;
          _ ← charge sender fee;
          conclude tx gas fee snapshot
            (execute_action sender (tp_action p) block_number block_timestamp (tp_nonce p)
               (tp_gas_limit p))
    end.

Definition execute_transaction {E} (tx : SignedTransaction) (gas_config : GasConfig)
    : M StateDB E ExecutionResult :=
  execute_transaction_at tx gas_config 0 0 ChainId_RELAY.

(** ** The transactions of a block *)

Fixpoint execute_loop {E} (transactions : list SignedTransaction) (gas_config : GasConfig)
    (block_gas_limit block_number block_timestamp : Z) (chain_id : ChainId)
    (receipts : list TransactionReceipt) (total_gas : Z)
    : M StateDB E (list TransactionReceipt * Z) :=
  match transactions with
  | [] => mret (receipts, total_gas)
  | tx :: transactions =>
      if block_gas_limit <=? total_gas then mret (receipts, total_gas)
      else
        result ← execute_transaction_at tx gas_config block_number block_timestamp chain_id;
        execute_loop transactions gas_config block_gas_limit block_number block_timestamp chain_id
          (receipts ++ [er_receipt result]) (wrap 64 (total_gas + er_gas_used result))
  end.

Definition execute_block_transactions_at {E} (transactions : list SignedTransaction)
    (gas_config : GasConfig) (block_gas_limit block_number block_timestamp : Z)
    (chain_id : ChainId) : M StateDB E (list TransactionReceipt * Z) :=
  _ ← ignore_err (State.process_unbonding block_timestamp);
  execute_loop transactions gas_config block_gas_limit block_number block_timestamp chain_id [] 0.

Definition execute_block_transactions {E} (transactions : list SignedTransaction)
    (gas_config : GasConfig) (block_gas_limit : Z) : M StateDB E (list TransactionReceipt * Z) :=
  execute_block_transactions_at transactions gas_config block_gas_limit 0 0 ChainId_RELAY.

(** ** Settlement *)

Definition milli_to_raw : Z := 10 ^ 15.

Definition circulating_supply (s : StateDB) : Amount :=
  saturating_sub
    (saturating_add 128 (Amount.from_vtt INITIAL_SUPPLY_VTT)
       (wrap 128 (db_total_minted_milli s * milli_to_raw)))
    (wrap 128 (db_total_burned_milli s * milli_to_raw)).

Definition per_block_reward (total_supply total_staked : Amount) (epoch_length : Z) : Amount :=
  let staking_ratio_pct :=
    if 0 <? total_supply then wrap 64 (wrap 128 (total_staked * 100) / total_supply) else 0 in
  let epoch_reward := calculate_epoch_reward total_supply staking_ratio_pct in
  if 0 <? epoch_length then epoch_reward / epoch_length else 0.

(** The inflation reward: 80% to the producer and the stakers, 20% to the
    treasury. *)
Definition pay_block_reward {E} (producer treasury_addr : Address) (reward : Amount)
    (summary : BlockSettlementSummary) : M StateDB E BlockSettlementSummary :=
  if 0 <? reward then
    let split := split_block_reward reward in
    _ ← Exec.distribute_producer_reward producer (brs_producer split);
    _ ← ignore_err (State.add_balance treasury_addr (brs_treasury split));
    _ ← modify (State.record_mint_milli (wrap 64 (reward / milli_to_raw)));
    mret (summary <| bs_minted := reward |> <| bs_producer_total := brs_producer split |>
                  <| bs_treasury := brs_treasury split |>)
  else mret summary.

(** The fees: 70% burned, 30% to the producer and the stakers. *)
Definition pay_gas_fees {E} (producer : Address) (total_gas_fees : Amount)
    (summary : BlockSettlementSummary) : M StateDB E BlockSettlementSummary :=
  if 0 <? total_gas_fees then
    let gas_split := split_gas_fees total_gas_fees in
    _ ← Exec.distribute_producer_reward producer (gfs_producer gas_split);
    _ ← modify (State.record_burn_milli (wrap 64 (gfs_burned gas_split / milli_to_raw)));
    let total := bs_producer_total summary in
    mret (summary <| bs_burned := gfs_burned gas_split |>
                  <| bs_producer_total :=
                       default total (checked_add 128 total (gfs_producer gas_split)) |>)
  else mret summary.

Definition apply_block_rewards_and_governance {E} (block_number gas_used : Z)
    (gas_config : GasConfig) (producer : Address) (total_staked : Amount)
    (consensus_params : ConsensusParams) : M StateDB E BlockSettlementSummary :=
  finalized ← GovTx.finalize_governance_proposals block_number total_staked;
  executed ← GovTx.execute_queued_proposals block_number;
  let summary := BlockSettlementSummary_default
    <| bs_governance_finalized := finalized |> <| bs_governance_executed := executed |> in
  total_supply ← gets circulating_supply;
  let reward := per_block_reward total_supply total_staked (epoch_length consensus_params) in
  summary ← pay_block_reward producer (treasury_address consensus_params) reward summary;
  pay_gas_fees producer (wrap 128 (gas_used * min_gas_price gas_config)) summary.

End with_env.
End Tx.
