(* ===== verification/ExecCodecs.v ===== *)
(** * An environment to run transactions in

    Codecs by enumeration for the remaining stored and hashed types, and the
    instances that make the executor run on concrete inputs: hash maps in key
    order, no environment variables, a configuration parser that knows one text,
    and a runtime whose only contract stores a value, logs it and returns. *)

From S2P Require Import Prelude Primitives RustStr DexMath Storage Assets Oracle StateDB Dex.
From S2P Require Import Codecs Consensus ExecStaking TxCodec Governance Compliance Multichain Vm.
From S2P Require Import ExecAssets ExecGov Executor.

#[global] Instance ProposalAction_countable : Countable ProposalAction.
Proof.
  refine (inj_countable'
    (λ a, match a with
          | ParameterChange k v => (0, k, v, Address_ZERO, 0)
          | RegisterChain n c => (1, n, c, Address_ZERO, 0)
          | TreasurySpend r x => (2, "", "", r, x)
          | ProtocolUpgrade n d => (3, d, "", Address_ZERO, n)
          | DexPause b => (4, "", "", Address_ZERO, Z.b2z b)
          | BridgePause b => (5, "", "", Address_ZERO, Z.b2z b) end)
    (λ '(i, s1, s2, a, n), match i with
          | 0 => ParameterChange s1 s2 | 1 => RegisterChain s1 s2 | 2 => TreasurySpend a n
          | 3 => ProtocolUpgrade n s1 | 4 => DexPause (Z.eqb n 1) | _ => BridgePause (Z.eqb n 1)
          end) _).
  by intros [| | | |[]|[]].
Defined.

#[global] Instance ProposalStatus_countable : Countable ProposalStatus.
Proof.
  refine (inj_countable'
    (λ a, match a with PsActive => (0, 0) | PsPassed => (1, 0) | PsQueued n => (2, n)
          | PsRejected => (3, 0) | PsExecuted => (4, 0) end)
    (λ '(i, n), match i with 0 => PsActive | 1 => PsPassed | 2 => PsQueued n | 3 => PsRejected
          | _ => PsExecuted end) _).
  by intros [].
Defined.

#[global] Instance ClaimType_countable : Countable ClaimType.
Proof.
  refine (inj_countable'
    (λ a, match a with KYC => (0, 0) | AMLCleared => (1, 0) | AccreditedInvestor => (2, 0)
          | QualifiedPurchaser => (3, 0) | CtJurisdiction => (4, 0) | CtCustom n => (5, n) end)
    (λ '(i, n), match i with 0 => KYC | 1 => AMLCleared | 2 => AccreditedInvestor
          | 3 => QualifiedPurchaser | 4 => CtJurisdiction | _ => CtCustom n end) _).
  by intros [].
Defined.

#[global] Instance Proposal_eq_dec : EqDecision Proposal.
Proof. solve_decision. Defined.
#[global] Instance Proposal_countable : Countable Proposal.
Proof.
  refine (inj_countable' (λ r, (pr_id r, pr_proposer r, pr_action r, pr_description r, pr_created_at r, pr_voting_end r, pr_status r, pr_votes_yes r, pr_votes_no r, pr_votes_abstain r, pr_voters r, pr_snapshot_block r, pr_total_staked_at_creation r))
    (λ '(x0, x1, x2, x3, x4, x5, x6, x7, x8, x9, x10, x11, x12), MkProposal x0 x1 x2 x3 x4 x5 x6 x7 x8 x9 x10 x11 x12) _).
  by intros [].
Defined.

#[global] Instance ConsensusParams_eq_dec : EqDecision ConsensusParams.
Proof. solve_decision. Defined.
#[global] Instance ConsensusParams_countable : Countable ConsensusParams.
Proof.
  refine (inj_countable' (λ r, (epoch_length r, block_time_ms r, active_validators r, min_self_stake r, unbonding_period_secs r, slash_double_sign_bps r, slash_downtime_bps r, downtime_threshold_pct r, treasury_address r))
    (λ '(x0, x1, x2, x3, x4, x5, x6, x7, x8), MkConsensusParams x0 x1 x2 x3 x4 x5 x6 x7 x8) _).
  by intros [].
Defined.

#[global] Instance GasConfig_eq_dec : EqDecision GasConfig.
Proof. solve_decision. Defined.
#[global] Instance GasConfig_countable : Countable GasConfig.
Proof.
  refine (inj_countable' (λ r, (min_gas_price r, base_transfer_cost r, cost_per_byte r))
    (λ '(x0, x1, x2), MkGasConfig x0 x1 x2) _).
  by intros [].
Defined.

#[global] Instance ChainComplianceConfig_eq_dec : EqDecision ChainComplianceConfig.
Proof. solve_decision. Defined.
#[global] Instance ChainComplianceConfig_countable : Countable ChainComplianceConfig.
Proof.
  refine (inj_countable' (λ r, (cc_requires_identity r, cc_minimum_claims r, cc_trusted_claim_issuers r, cc_allow_anonymous r, cc_jurisdiction_whitelist r, cc_jurisdiction_blacklist r, cc_max_holders_per_asset r))
    (λ '(x0, x1, x2, x3, x4, x5, x6), MkChainComplianceConfig x0 x1 x2 x3 x4 x5 x6) _).
  by intros [].
Defined.

#[global] Instance RegisteredChain_eq_dec : EqDecision RegisteredChain.
Proof. solve_decision. Defined.
#[global] Instance RegisteredChain_countable : Countable RegisteredChain.
Proof.
  refine (inj_countable' (λ r, (rg_chain_id r, rg_name r, rg_description r, rg_validator_count r, rg_consensus r, rg_gas r, rg_compliance r, rg_genesis_hash r, rg_active r, rg_registered_at r, rg_proposer r))
    (λ '(x0, x1, x2, x3, x4, x5, x6, x7, x8, x9, x10), MkRegisteredChain x0 x1 x2 x3 x4 x5 x6 x7 x8 x9 x10) _).
  by intros [].
Defined.

#[global] Instance MiningPhase_eq_dec : EqDecision MiningPhase.
Proof. solve_decision. Defined.
#[global] Instance MiningPhase_countable : Countable MiningPhase.
Proof.
  refine (inj_countable' (λ r, (mp_duration_epochs r, mp_reward_per_epoch r))
    (λ '(x0, x1), MkMiningPhase x0 x1) _).
  by intros [].
Defined.

#[global] Instance MiningConfig_eq_dec : EqDecision MiningConfig.
Proof. solve_decision. Defined.
#[global] Instance MiningConfig_countable : Countable MiningConfig.
Proof.
  refine (inj_countable' (λ r, (mc_pool_id r, mc_total_budget r, mc_source r, mc_phases r))
    (λ '(x0, x1, x2, x3), MkMiningConfig x0 x1 x2 x3) _).
  by intros [].
Defined.

#[global] Instance MiningClaim_eq_dec : EqDecision MiningClaim.
Proof. solve_decision. Defined.
#[global] Instance MiningClaim_countable : Countable MiningClaim.
Proof.
  refine (inj_countable' (λ r, (cl_reward_debt r, cl_unclaimed r))
    (λ '(x0, x1), MkMiningClaim x0 x1) _).
  by intros [].
Defined.

#[global] Instance MiningState_eq_dec : EqDecision MiningState.
Proof. solve_decision. Defined.
#[global] Instance MiningState_countable : Countable MiningState.
Proof.
  refine (inj_countable' (λ r, (ms_config r, ms_start_epoch r, ms_reward_per_lp_accumulated r, ms_last_update_epoch r, ms_total_distributed r, ms_claims r))
    (λ '(x0, x1, x2, x3, x4, x5), MkMiningState x0 x1 x2 x3 x4 x5) _).
  by intros [].
Defined.

#[global] Instance DoubleSignEvidence_eq_dec : EqDecision DoubleSignEvidence.
Proof. solve_decision. Defined.
#[global] Instance DoubleSignEvidence_countable : Countable DoubleSignEvidence.
Proof.
  refine (inj_countable' (λ r, (header_a r, header_b r))
    (λ '(x0, x1), MkDoubleSignEvidence x0 x1) _).
  by intros [].
Defined.

Definition demo_exec_codec : ExecCodec := {|
  xc_transfer := countable_borsh _;
  xc_names := countable_borsh _;
  xc_id := countable_borsh _;
  xc_u128 := countable_borsh _;
  xc_pair := countable_borsh _;
  xc_fund := countable_borsh _;
  xc_claim := countable_borsh _;
  xc_kyc := countable_borsh _;
  xc_feed := countable_borsh _;
  xc_value := countable_borsh _;
  xc_country := countable_borsh _;
  xc_deposit := countable_borsh _;
  xc_owned := countable_borsh _;
  xc_call := countable_borsh _;
  xc_revenue := countable_borsh _;
  xc_proposal := countable_borsh _;
  xc_status := countable_borsh _;
  xc_withdraw := countable_borsh _;
  xc_vote := countable_borsh _;
  xc_proposal_id := countable_borsh _;
|}.

(** The text [{}] is the empty configuration with one validator. *)
Definition demo_config_json (s : bytes) : option AppChainConfig :=
  if bool_decide (s = "{}") then Some (MkAppChainConfig "" 1 "" []) else None.

Definition demo_gov_env : GovEnv := {|
  ge_process := {| VTT_VOTING_PERIOD_BLOCKS := None; VTT_EXECUTION_DELAY_BLOCKS := None |};
  ge_proposal := countable_borsh _;
  ge_proposal_id := countable_borsh _;
  ge_chain := countable_borsh _;
  parse_config_json := demo_config_json;
|}.

(** A contract that emits what it was called with. *)
Definition demo_guest (mem : option bytes) : Guest := GReturn (Some 0).

Definition demo_wasm : WasmRuntime := {|
  module_new := λ _, true;
  instance_new := λ _, Some (MkWasmInstance (Some (1, Some 1, "")) (λ _, Some demo_guest));
|}.

Definition demo_tx_env_of (e : Env) : TxEnv := {|
  te_env := e;
  te_codec := demo_exec_codec;
  te_gov := demo_gov_env;
  te_wasm := demo_wasm;
  te_pool := countable_borsh _;
  te_mining := countable_borsh _;
  te_header := countable_borsh _;
  te_evidence := countable_borsh _;
  te_slash := countable_borsh _;
  te_deploy := countable_borsh _;
  te_payload := countable_borsh _;
|}.

Definition demo_tx_env : TxEnv := demo_tx_env_of demo_env.

(** A transaction of chain 0 signed by the key of [n] repeated bytes. *)
Definition demo_key (n : Z) : PublicKey := MkPublicKey (to_le_bytes 32 (n * 2 ^ 96)).

Definition demo_tx (key nonce gas_price gas_limit : Z) (action : TransactionAction)
    : SignedTransaction :=
  let p := MkTransactionPayload 0 nonce gas_price gas_limit action in
  MkSignedTransaction p (MkSignature (to_vec (Borsh:=countable_borsh _) p)) (demo_key key).
