(* ===== verification/ExecFrame.v ===== *)
(** * What a transaction leaves alone

    No action changes the nonce of an account or the code hash of a contract;
    the sender's nonce moves by one with every transaction that is charged, and a
    deployment writes one fresh account.  Proved once for every predicate on
    accounts that balance and staking updates preserve, by following the
    structure of the 31 actions. *)

From S2P Require Import Prelude Primitives RustStr DexMath Storage Assets Oracle StateDB Dex.
From S2P Require Import Codecs Ledger Snapshot Consensus ExecStaking Governance Vm.
From S2P Require Import ExecAssets ExecAdmin ExecGov Executor.

(** ** Changes that do not touch the accounts *)

(** The account cache, the accounts column and the presence of a store are the
    same in both states. *)
Record untouched (s s' : StateDB) : Prop := {
  un_cache : db_accounts s' = db_accounts s;
  un_store : is_Some (db_storage s') ↔ is_Some (db_storage s);
  un_disk : ∀ k, disk_get s' Accounts k = disk_get s Accounts k;
}.

#[export] Instance untouched_preorder : PreOrder untouched.
Proof.
  split.
  - by intros s.
  - intros s1 s2 s3 [H1 H2 H3] [H1' H2' H3']. split; [congruence|by rewrite H2'|].
    intros k. by rewrite H3'.
Qed.

Lemma untouched_fields s s' :
  db_accounts s' = db_accounts s → db_storage s' = db_storage s → untouched s s'.
Proof. intros H1 H2. split; [done|by rewrite H2|]. intros k. unfold disk_get. by rewrite H2. Qed.

Lemma untouched_persist c k v s s' : c ≠ Accounts → untouched s s' → untouched s (persist c k v s').
Proof.
  intros Hc Hs. etransitivity; [exact Hs|]. split.
  - by rewrite persist_unfold.
  - rewrite persist_unfold. cbn. by rewrite fmap_is_Some.
  - intros k'. apply disk_get_persist_ne. congruence.
Qed.

Lemma untouched_step s s1 s2 :
  untouched s s1 → db_accounts s2 = db_accounts s1 → db_storage s2 = db_storage s1 →
  untouched s s2.
Proof. intros H1 ??. etransitivity; [exact H1|by apply untouched_fields]. Qed.

(** A store or field update other than of the accounts, after any number of
    such updates. *)
Ltac solve_untouched :=
  repeat first
    [ reflexivity | assumption
    | apply untouched_persist; [discriminate|]
    | lazymatch goal with
      | |- untouched _ (upd _ _ ?x) => apply (untouched_step _ x); [|reflexivity|reflexivity]
      | |- untouched _ (if ?b then _ else _) => destruct b
      | |- untouched _ (match ?x with _ => _ end) => destruct x
      end ].

Lemma untouched_jurisdiction `{Env} a c s : untouched s (State.set_address_jurisdiction a c s).
Proof.
  unfold State.set_address_jurisdiction. case_bool_decide; [|solve_untouched].
  destruct (db_storage s) as [st|] eqn:E; [|done]. split; [done|by rewrite E|].
  intros k. unfold disk_get. rewrite E. cbn. by apply kv_get_delete_ne.
Qed.

Lemma untouched_get_account `{Env} s s' a :
  untouched s s' → State.get_account s' a = State.get_account s a.
Proof. intros [H1 H2 H3]. unfold State.get_account. by rewrite H1, H3. Qed.

Create HintDb mutators.
#[export] Hint Unfold State.put_asset State.get_asset_mut State.put_asset_proposal
  State.get_asset_proposal_mut State.put_contract_storage State.put_pool_raw
  State.put_mining_state_raw State.set_treasury_address State.set_epoch_length
  State.set_dex_paused State.record_mint_milli State.record_burn_milli State.set_bridge_paused
  State.set_bridge_relayer State.set_param_raw State.set_min_gas_price
  State.set_base_transfer_cost State.set_cost_per_byte State.set_slash_double_sign_bps
  State.set_slash_downtime_bps State.set_downtime_threshold_pct State.set_unbonding_period_secs
  State.set_max_holders_per_asset State.set_jurisdiction_whitelist
  State.set_jurisdiction_blacklist State.put_registered_chain
  State.mark_bridge_deposit_processed State.put_governance_proposal State.set_kyc_approved
  State.persist_slashing_seen State.mark_slashing_evidence State.record_slash
  State.persist_unbonding_entries State.add_unbonding_entry State.bump_holder_count : mutators.

Section satisfaction.
Context `{Env}.
Context (R : Address → AccountState → Prop) (store : bool).

Definition read_disk (s : StateDB) (a : Address) : AccountState :=
  default AccountState_default (disk_get s Accounts (address_bytes a) ≫= from_slice).

(** Every account in the cache and every account in the store satisfies [R]:
    [restore] may bring back either. *)
Record accounts_sat (s : StateDB) : Prop := {
  sat_store : bool_decide (is_Some (db_storage s)) = store;
  sat_cache : ∀ a acc, db_accounts s !! a = Some acc → R a acc;
  sat_disk : store = true → ∀ a, R a (read_disk s a);
  sat_absent : store = false → ∀ a, db_accounts s !! a = None → R a AccountState_default;
}.

Lemma sat_get_account s a : accounts_sat s → R a (State.get_account s a).
Proof.
  intros [Hs Hc Hd Ha]. unfold State.get_account. destruct (db_accounts s !! a) eqn:E; [by apply Hc|].
  destruct store; [by apply Hd|]. apply bool_decide_eq_false, eq_None_not_Some in Hs.
  unfold disk_get. rewrite Hs. by apply Ha.
Qed.

Lemma sat_untouched s s' : untouched s s' → accounts_sat s → accounts_sat s'.
Proof.
  intros [Hc Hs Hd] [H1 H2 H3 H4]. split.
  - rewrite <- H1. by apply bool_decide_ext.
  - by rewrite Hc.
  - intros Hb a. unfold read_disk. rewrite Hd. by apply H3.
  - by rewrite Hc.
Qed.

End satisfaction.

(** Writing an account may strengthen what is known of it. *)
Lemma sat_put_account' `{Env} (R R' : Address → AccountState → Prop) store a acc s :
  accounts_sat R store s → R' a acc → (∀ b acc, b ≠ a → R b acc → R' b acc) →
  accounts_sat R' store (State.put_account a acc s).
Proof.
  intros [H1 H2 H3 H4] HR Hne.
  assert (Hc : db_accounts (State.put_account a acc s) = <[a := acc]> (db_accounts s))
    by (by rewrite put_account_unfold).
  split.
  - rewrite <- H1. apply bool_decide_ext. apply put_account_storage_Some.
  - intros b acc'. rewrite Hc. intros [[-> ->]|[? ?]]%lookup_insert_Some; [done|].
    apply Hne; [done|]. by apply H2.
  - intros Hb b. unfold read_disk. destruct (decide (a = b)) as [<-|Hab].
    + rewrite put_account_disk_eq; [cbn; by rewrite from_slice_to_vec|].
      rewrite Hb in H1. by apply bool_decide_eq_true in H1.
    + rewrite put_account_disk_other; [|done|].
      * apply Hne; [done|]. by apply H3.
      * intros [=]. by apply Hab, address_bytes_inj.
  - intros Hb b. rewrite Hc. intros [? ?]%lookup_insert_None. apply Hne; [done|]. by apply H4.
Qed.

Lemma sat_weaken `{Env} (R R' : Address → AccountState → Prop) store s :
  (∀ a acc, R a acc → R' a acc) → accounts_sat R store s → accounts_sat R' store s.
Proof. intros Hw [H1 H2 H3 H4]. split; eauto. Qed.

Section frame_rules.
Context `{Env}.
Context (R : Address → AccountState → Prop) (store : bool).

#[local] Abbreviation accounts_sat := (accounts_sat R store).

Lemma sat_put_account a acc s : R a acc → accounts_sat s → accounts_sat (State.put_account a acc s).
Proof. intros HR Hs. by apply (sat_put_account' R). Qed.

Lemma frame_modify {E} f :
  (∀ s, untouched s (f s)) → keeps accounts_sat (modify (E:=E) f).
Proof. intros Hf. apply keeps_modify. intros s. by apply sat_untouched. Qed.

Lemma frame_get_account {E A} a (k : AccountState → M StateDB E A) :
  (∀ acc, R a acc → keeps accounts_sat (k acc)) →
  keeps accounts_sat (gets (λ s, State.get_account s a) ≫= k).
Proof. intros Hk s Hs. apply (Hk _ (sat_get_account _ _ s a Hs) s Hs). Qed.

Lemma frame_put_account {E} a acc :
  R a acc → keeps accounts_sat (modify (E:=E) (State.put_account a acc)).
Proof. intros HR. apply keeps_modify. intros s. by apply sat_put_account. Qed.

End frame_rules.

Ltac solve_frame :=
  repeat first
    [ progress cbv zeta
    | solve [eauto 3 with keeps_db]
    | apply frame_get_account; intros ? ?
    | apply frame_put_account; solve [eauto]
    | apply keeps_bind; [|intros ?]
    | apply keeps_ignore_err | apply keeps_map_err
    | apply keeps_for_each; intros ?
    | apply frame_modify; intros ?; autounfold with mutators; cbv zeta; solve [solve_untouched]
    | match goal with
      | |- keeps _ (if ?b then _ else _) => destruct b
      | |- keeps _ (match ?x with _ => _ end) => destruct x
      end ].

(** *** The mutators *)

Section frame.
Context `{Env}.
Context (R : Address → AccountState → Prop) (store : bool).
Context (R_balance : ∀ a acc v, R a acc → R a (acc <| ac_balance := v |>)).
Context (R_staking : ∀ a acc v, R a acc → R a (acc <| ac_staking := v |>)).

#[local] Abbreviation accounts_sat := (accounts_sat R store).

Lemma frame_add_balance a v : keeps accounts_sat (State.add_balance a v).
Proof. unfold State.add_balance. solve_frame. Qed.

Lemma frame_sub_balance a v : keeps accounts_sat (State.sub_balance a v).
Proof. unfold State.sub_balance. solve_frame. Qed.

#[local] Hint Resolve frame_add_balance frame_sub_balance : keeps_db.

Lemma frame_transfer from to v : keeps accounts_sat (State.transfer from to v).
Proof. unfold State.transfer. solve_frame. Qed.

Lemma frame_process_unbonding now : keeps accounts_sat (State.process_unbonding now).
Proof. unfold State.process_unbonding, State.persist_unbonding_entries. solve_frame. Qed.

Lemma frame_apply_slash E v amount : keeps accounts_sat (State.apply_slash (E:=E) v amount).
Proof.
  unfold State.apply_slash, State.slash_pending, State.persist_unbonding_entries. solve_frame.
Qed.

Lemma frame_put_ownership r : keeps accounts_sat (State.put_ownership r).
Proof. unfold State.put_ownership, State.bump_holder_count. solve_frame. Qed.

#[local] Hint Resolve frame_transfer frame_process_unbonding frame_apply_slash
  frame_put_ownership : keeps_db.

Lemma frame_transfer_asset id from to v : keeps accounts_sat (State.transfer_asset id from to v).
Proof. unfold State.transfer_asset. solve_frame. Qed.

Lemma frame_register_asset r : keeps accounts_sat (State.register_asset r).
Proof. unfold State.register_asset. solve_frame. Qed.

Lemma frame_register_oracle f : keeps accounts_sat (State.register_oracle f).
Proof. unfold State.register_oracle. solve_frame. Qed.

Lemma frame_submit_oracle id a v t : keeps accounts_sat (State.submit_oracle id a v t).
Proof. unfold State.submit_oracle. solve_frame. Qed.

Lemma frame_next_governance_id E : keeps accounts_sat (State.next_governance_id (E:=E)).
Proof. unfold State.next_governance_id. solve_frame. Qed.

#[local] Hint Resolve frame_transfer_asset frame_register_asset frame_register_oracle
  frame_submit_oracle frame_next_governance_id : keeps_db.

(** *** Staking *)

Lemma frame_execute_stake a v x : keeps accounts_sat (Exec.execute_stake a v x).
Proof. unfold Exec.execute_stake. solve_frame. Qed.

Lemma frame_execute_unstake a v x t : keeps accounts_sat (Exec.execute_unstake a v x t).
Proof. unfold Exec.execute_unstake. solve_frame. Qed.

Lemma frame_submit_evidence `{!Borsh BlockHeader, !Borsh DoubleSignEvidence,
    !Borsh (Address * Amount * Z * Z)} a e n :
  keeps accounts_sat (Exec.execute_submit_slashing_evidence a e n).
Proof. unfold Exec.execute_submit_slashing_evidence. solve_frame. Qed.

Lemma frame_pay_delegators E pool total ds x :
  keeps accounts_sat (Exec.pay_delegators (E:=E) pool total ds x).
Proof. revert x. induction ds as [|d ds IH]; intros x; cbn; solve_frame. Qed.

#[local] Hint Resolve frame_pay_delegators : keeps_db.

Lemma frame_distribute_producer_reward E v x :
  keeps accounts_sat (Exec.distribute_producer_reward (E:=E) v x).
Proof. unfold Exec.distribute_producer_reward. solve_frame. Qed.

(** *** Exchange *)

Lemma frame_token_in a t v : keeps accounts_sat (Dex.transfer_token_in a t v).
Proof. unfold Dex.transfer_token_in. solve_frame. Qed.

Lemma frame_token_out a t v : keeps accounts_sat (Dex.transfer_token_out a t v).
Proof. unfold Dex.transfer_token_out. solve_frame. Qed.

Lemma frame_mint_lp t a v : keeps accounts_sat (Dex.mint_lp_to t a v).
Proof. unfold Dex.mint_lp_to. solve_frame. Qed.

Lemma frame_burn_lp t a v : keeps accounts_sat (Dex.burn_lp_from t a v).
Proof. unfold Dex.burn_lp_from. solve_frame. Qed.

#[local] Hint Resolve frame_token_in frame_token_out frame_mint_lp frame_burn_lp : keeps_db.

Section exchange.
Context `{!Borsh PoolState}.

Lemma frame_create_pool a t u x y e : keeps accounts_sat (Dex.create_pool a t u x y e).
Proof. unfold Dex.create_pool, Dex.register_lp_asset. solve_frame. Qed.

Lemma frame_add_liquidity a p x y m : keeps accounts_sat (Dex.add_liquidity a p x y m).
Proof. unfold Dex.add_liquidity, Dex.save_pool. solve_frame. Qed.

Lemma frame_remove_liquidity a p l x y : keeps accounts_sat (Dex.remove_liquidity a p l x y).
Proof. unfold Dex.remove_liquidity, Dex.save_pool. solve_frame. Qed.

Lemma frame_execute_swap a p t x m : keeps accounts_sat (Dex.execute_swap a p t x m).
Proof. unfold Dex.execute_swap, Dex.save_pool. solve_frame. Qed.

Lemma frame_claim_fees a p t : keeps accounts_sat (Dex.claim_protocol_fees a p t).
Proof. unfold Dex.claim_protocol_fees, Dex.save_pool. solve_frame. Qed.

Lemma frame_claim_mining a p e m : keeps accounts_sat (Dex.claim_mining_rewards a p e m).
Proof. unfold Dex.claim_mining_rewards. solve_frame. Qed.
End exchange.

(** *** Assets *)

Section assets.
Context `{!ExecCodec}.

Lemma frame_find_asset id e : keeps accounts_sat (AssetTx.find_asset id e).
Proof. unfold AssetTx.find_asset. solve_frame. Qed.

Lemma frame_credit_ownership id a v : keeps accounts_sat (AssetTx.credit_ownership id a v).
Proof. unfold AssetTx.credit_ownership. solve_frame. Qed.

#[local] Hint Resolve frame_find_asset frame_credit_ownership : keeps_db.

Lemma frame_create_asset a n y u t d c j l b :
  keeps accounts_sat (AssetTx.execute_create_asset a n y u t d c j l b).
Proof. unfold AssetTx.execute_create_asset. solve_frame. Qed.

Lemma frame_asset_transfer a id t v : keeps accounts_sat (AssetTx.execute_asset_transfer a id t v).
Proof. unfold AssetTx.execute_asset_transfer. solve_frame. Qed.

Lemma frame_freeze a id : keeps accounts_sat (AssetTx.execute_freeze_asset a id).
Proof. unfold AssetTx.execute_freeze_asset. solve_frame. Qed.

Lemma frame_unfreeze a id : keeps accounts_sat (AssetTx.execute_unfreeze_asset a id).
Proof. unfold AssetTx.execute_unfreeze_asset. solve_frame. Qed.

Lemma frame_with_asset_mut id e f : keeps accounts_sat (AssetTx.with_asset_mut id e f).
Proof. unfold AssetTx.with_asset_mut. solve_frame. Qed.

#[local] Hint Resolve frame_with_asset_mut : keeps_db.

Lemma frame_fund a id v : keeps accounts_sat (AssetTx.execute_fund_redemption_pool a id v).
Proof. unfold AssetTx.execute_fund_redemption_pool. solve_frame. Qed.

Lemma frame_claim_redemption a id : keeps accounts_sat (AssetTx.execute_claim_redemption a id).
Proof. unfold AssetTx.execute_claim_redemption. solve_frame. Qed.

Lemma frame_finalize_redemption id : keeps accounts_sat (AssetTx.execute_finalize_redemption id).
Proof. unfold AssetTx.execute_finalize_redemption. solve_frame. Qed.

Lemma frame_pay_holders l x y d n : keeps accounts_sat (AssetTx.pay_holders l x y d n).
Proof. revert d n. induction l as [|[]]; intros d n; cbn [AssetTx.pay_holders]; solve_frame. Qed.

#[local] Hint Resolve frame_pay_holders frame_finalize_redemption : keeps_db.

Lemma frame_distribute a id v : keeps accounts_sat (AssetTx.execute_distribute_revenue a id v).
Proof. unfold AssetTx.execute_distribute_revenue. solve_frame. Qed.

#[local] Hint Resolve frame_distribute : keeps_db.

Lemma frame_propose_asset a id x d b n :
  keeps accounts_sat (AssetTx.execute_propose_asset_action a id x d b n).
Proof. unfold AssetTx.execute_propose_asset_action. solve_frame. Qed.

Lemma frame_find_proposal id : keeps accounts_sat (AssetTx.find_proposal id).
Proof. unfold AssetTx.find_proposal. solve_frame. Qed.

#[local] Hint Resolve frame_find_proposal : keeps_db.

Lemma frame_vote_asset a id v b : keeps accounts_sat (AssetTx.execute_vote_asset_proposal a id v b).
Proof. unfold AssetTx.execute_vote_asset_proposal. solve_frame. Qed.

Lemma frame_finalize_asset a id b :
  keeps accounts_sat (AssetTx.execute_finalize_asset_proposal a id b).
Proof.
  unfold AssetTx.execute_finalize_asset_proposal, AssetTx.perform, AssetTx.set_proposal_status.
  solve_frame.
Qed.

(** *** KYC, oracles, bridge *)

Lemma frame_set_kyc a x b : keeps accounts_sat (AdminTx.execute_set_kyc_approval a x b).
Proof. unfold AdminTx.execute_set_kyc_approval. solve_frame. Qed.

Lemma frame_set_jurisdiction a x c :
  keeps accounts_sat (AdminTx.execute_set_address_jurisdiction a x c).
Proof.
  unfold AdminTx.execute_set_address_jurisdiction. solve_frame.
  apply frame_modify. intros s. apply untouched_jurisdiction.
Qed.

Lemma frame_create_feed a i n t l q m d b :
  keeps accounts_sat (AdminTx.execute_create_oracle_feed a i n t l q m d b).
Proof. unfold AdminTx.execute_create_oracle_feed. solve_frame. Qed.

Lemma frame_submit_value a i v t : keeps accounts_sat (AdminTx.execute_submit_oracle_value a i v t).
Proof. unfold AdminTx.execute_submit_oracle_value. solve_frame. Qed.

Lemma frame_bridge_deposit a h c r t v :
  keeps accounts_sat (AdminTx.execute_bridge_deposit a h c r t v).
Proof. unfold AdminTx.execute_bridge_deposit. solve_frame. Qed.

Lemma frame_bridge_withdraw a t v c d :
  keeps accounts_sat (AdminTx.execute_bridge_withdraw a t v c d).
Proof. unfold AdminTx.execute_bridge_withdraw. solve_frame. Qed.
End assets.

(** *** Governance *)

Section governance.
Context `{!ExecCodec, !GovEnv}.

Lemma frame_governance_propose a d t k v r x b :
  keeps accounts_sat (GovTx.execute_governance_propose a d t k v r x b).
Proof. unfold GovTx.execute_governance_propose. solve_frame. Qed.

Lemma frame_governance_vote a p v b : keeps accounts_sat (GovTx.execute_governance_vote a p v b).
Proof. unfold GovTx.execute_governance_vote. solve_frame. Qed.

Lemma frame_count_loop E body l n :
  (∀ id data, keeps accounts_sat (body id data)) →
  keeps accounts_sat (GovTx.count_loop (E:=E) body l n).
Proof.
  intros Hb. revert n. induction l as [|[id data] l IH]; intros n; cbn [GovTx.count_loop];
    solve_frame.
Qed.

Lemma frame_finalize_one E b st id data : keeps accounts_sat (GovTx.finalize_one (E:=E) b st id data).
Proof. unfold GovTx.finalize_one. solve_frame. Qed.

Lemma frame_next_chain_id E :
  keeps accounts_sat (λ s, let '(id, s') := State.next_registered_chain_id s in
                           (Ok id : res E Z, s')).
Proof. intros s. apply sat_untouched. cbn. solve_untouched. Qed.

#[local] Hint Resolve frame_next_chain_id frame_finalize_one : keeps_db.

Lemma frame_register_app_chain n c a b : keeps accounts_sat (GovTx.register_app_chain n c a b).
Proof. unfold GovTx.register_app_chain. solve_frame. Qed.

#[local] Hint Resolve frame_register_app_chain : keeps_db.

Lemma frame_apply_parameter_change E k v :
  keeps accounts_sat (GovTx.apply_parameter_change (E:=E) k v).
Proof. unfold GovTx.apply_parameter_change, GovTx.set_number. solve_frame. Qed.

#[local] Hint Resolve frame_apply_parameter_change : keeps_db.

Lemma frame_execute_one E b id data : keeps accounts_sat (GovTx.execute_one (E:=E) b id data).
Proof. unfold GovTx.execute_one, GovTx.enact, GovTx.treasury_spend. solve_frame. Qed.

#[local] Hint Resolve frame_execute_one : keeps_db.

Lemma frame_finalize_governance E b x :
  keeps accounts_sat (GovTx.finalize_governance_proposals (E:=E) b x).
Proof. unfold GovTx.finalize_governance_proposals. solve_frame. apply frame_count_loop. solve_frame. Qed.

Lemma frame_execute_queued E b : keeps accounts_sat (GovTx.execute_queued_proposals (E:=E) b).
Proof. unfold GovTx.execute_queued_proposals. solve_frame. apply frame_count_loop. solve_frame. Qed.
End governance.

End frame.

#[export] Hint Resolve frame_add_balance frame_sub_balance frame_transfer frame_process_unbonding
  frame_execute_stake frame_execute_unstake frame_submit_evidence frame_distribute_producer_reward
  frame_create_pool frame_add_liquidity frame_remove_liquidity frame_execute_swap frame_claim_fees
  frame_claim_mining frame_create_asset frame_asset_transfer frame_freeze frame_unfreeze
  frame_fund frame_claim_redemption frame_distribute frame_propose_asset frame_vote_asset
  frame_finalize_asset frame_set_kyc frame_set_jurisdiction frame_create_feed frame_submit_value
  frame_bridge_deposit frame_bridge_withdraw frame_governance_propose frame_governance_vote
  frame_finalize_governance frame_execute_queued : keeps_db.

(** ** Actions *)

Section actions.
Context `{!TxEnv}.
Context (R : Address → AccountState → Prop) (store : bool).
Context (R_balance : ∀ a acc v, R a acc → R a (acc <| ac_balance := v |>)).
Context (R_staking : ∀ a acc v, R a acc → R a (acc <| ac_staking := v |>)).

#[local] Abbreviation sat := (accounts_sat R store).

Definition contract_account (code_hash : H256) : AccountState :=
  MkAccountState 0 0 (Some code_hash) H256_ZERO None.

Lemma untouched_storage_writes a l s :
  untouched s (foldl (λ s kv, State.put_contract_storage a kv.1 kv.2 s) s l).
Proof.
  revert s. induction l as [|kv l IH]; intros s; cbn; [done|].
  etransitivity; [|apply IH]. autounfold with mutators. cbv zeta. solve_untouched.
Qed.

(** The account a deployment writes. *)
Definition deploys_to (sender : Address) (s : StateDB) : Address :=
  Tx.contract_address sender (State.get_nonce s sender).

Lemma frame_deploy sender code s :
  sat s → (∀ h, R (deploys_to sender s) (contract_account h)) →
  sat (Tx.execute_deploy_contract sender code s).2.
Proof.
  intros Hs HR. unfold Tx.execute_deploy_contract. mrun.
  destruct (_ <? _); [done|]. destruct (VmEngine.compile code); [|done..]. cbn.
  assert (Hu : untouched s (State.store_code code s).2) by (cbn; solve_untouched).
  apply sat_put_account; [|by eapply sat_untouched].
  unfold State.get_nonce. rewrite (untouched_get_account _ _ _ Hu). apply HR.
Qed.

Lemma frame_call_contract sender c m args v b t g :
  keeps sat (Tx.execute_call_contract sender c m args v b t g).
Proof.
  unfold Tx.execute_call_contract, Tx.apply_balance_change. solve_frame.
  all: try (apply frame_modify; intros ?; apply untouched_storage_writes).
  all: solve_frame.
Qed.

#[local] Hint Resolve frame_call_contract : keeps_db.

Lemma frame_execute_claim_mining a p b : keeps sat (Tx.execute_claim_mining a p b).
Proof. unfold Tx.execute_claim_mining. solve_frame. Qed.

#[local] Hint Resolve frame_execute_claim_mining : keeps_db.

(** A deployment may write its account. *)
Definition spares (sender : Address) (action : TransactionAction) (s : StateDB) : Prop :=
  match action with
  | DeployContract _ _ => ∀ h, R (deploys_to sender s) (contract_account h)
  | _ => True
  end.

Lemma frame_execute_action sender action b t n g s :
  sat s → spares sender action s → sat (Tx.execute_action sender action b t n g s).2.
Proof.
  intros Hs Hsp. destruct action; try by apply frame_deploy.
  all: revert s Hs Hsp; match goal with |- ∀ s, _ → _ → sat (?m s).2 =>
         assert (keeps sat m) as Hk; [|intros s Hs _; by apply Hk] end.
  all: unfold Tx.execute_action; solve_frame.
Qed.

End actions.

(** ** Roll-back *)

Section rollback_frame.
Context `{Env}.
Context (R : Address → AccountState → Prop) (store : bool).

(** A write to the accounts column stores an account that satisfies [R]. *)
Definition good_write (w : Column * bytes * bytes) : Prop :=
  w.1.1 = Accounts → ∃ a acc, w.1.2 = address_bytes a ∧ w.2 = to_vec acc ∧ R a acc.

Lemma sat_write c k v s :
  good_write (c, k, v) → accounts_sat R store s → accounts_sat R store (persist c k v s).
Proof.
  intros Hw Hs. destruct (decide (c = Accounts)) as [->|Hc].
  2: { eapply sat_untouched; [|exact Hs]. by apply untouched_persist. }
  destruct Hw as (a & acc & Hk & Hv & HR); [done|]. cbn in Hk, Hv. subst k v.
  destruct Hs as [H1 H2 H3 H4]. split.
  - rewrite <- H1. apply bool_decide_ext. rewrite persist_unfold. cbn. by rewrite fmap_is_Some.
  - by rewrite persist_unfold.
  - intros Hb b. unfold read_disk. destruct (decide (a = b)) as [<-|Hab].
    + rewrite disk_get_persist_eq; [cbn; by rewrite from_slice_to_vec|].
      rewrite Hb in H1. by apply bool_decide_eq_true in H1.
    + rewrite disk_get_persist_ne; [by apply H3|]. intros [=]. by apply Hab, address_bytes_inj.
  - by rewrite persist_unfold.
Qed.

Lemma sat_write_all ws s :
  Forall good_write ws → accounts_sat R store s → accounts_sat R store (Snapshot.write_all ws s).
Proof.
  intros Hws. revert s. induction Hws as [|[[c k] v] ws Hw _ IH]; intros s Hs; [done|].
  cbn. by apply IH, sat_write.
Qed.

Lemma good_other {K V} `{Countable K} c key (val : V → bytes) (m : gmap K V) :
  c ≠ Accounts → Forall good_write (Snapshot.table_writes c key val m).
Proof. intros Hc. apply Forall_fmap, Forall_true. by intros [] ?. Qed.

Lemma good_restore_writes s :
  (∀ a acc, db_accounts s !! a = Some acc → R a acc) → Forall good_write (Snapshot.restore_writes s).
Proof.
  intros Hc. unfold Snapshot.restore_writes.
  rewrite !Forall_app. split_and!; try by apply good_other.
  - by repeat constructor.
  - apply Forall_fmap, Forall_forall. intros [a acc] Hin _. exists a, acc. split_and!; [done..|].
    apply Hc. rewrite hash_iter_perm in Hin. by apply elem_of_map_to_list.
  - by repeat constructor.
Qed.

Lemma sat_restore s s' :
  accounts_sat R store s → accounts_sat R store s' →
  accounts_sat R store (Snapshot.restore (Snapshot.snapshot s) s').
Proof.
  intros [H1 H2 H3 H4] [H1' H2' H3' H4']. unfold Snapshot.restore, Snapshot.restore_disk.
  apply sat_write_all; [by apply good_restore_writes|]. by split.
Qed.
End rollback_frame.
