(* ===== verification/ExecProps.v ===== *)
(** * Properties of transaction execution

    Replay protection, atomicity of a transaction, the gas a block counts, and
    what the settlement pays out. *)

From S2P Require Import Prelude Primitives RustStr DexMath Storage Assets Oracle StateDB Dex.
From S2P Require Import Codecs Ledger Snapshot Restart Consensus ExecStaking TxCodec Governance Vm.
From S2P Require Import ExecAssets ExecAdmin ExecGov Executor ExecCodecs ExecFrame.

(** ** The charge *)

Section charge.
Context `{!TxEnv}.

(** The sender's account after a charge; a fee above the balance is not taken. *)
Definition charged (fee : Amount) (acc : AccountState) : AccountState :=
  acc <| ac_balance := if fee <=? ac_balance acc then ac_balance acc - fee else ac_balance acc |>
      <| ac_nonce := wrap 64 (ac_nonce acc + 1) |>.

(** The state after [sub_balance], whether it succeeded or not. *)
Definition debited (sender : Address) (fee : Amount) (s : StateDB) : StateDB :=
  (State.sub_balance sender fee s).2.

Lemma charge_unfold {E} sender fee s :
  Tx.charge (E:=E) sender fee s =
    (Ok tt, State.put_account sender (charged fee (State.get_account s sender))
              (debited sender fee s)).
Proof.
  unfold Tx.charge, debited, ignore_err, State.increment_nonce. mrun.
  rewrite sub_balance_spec. unfold State.get_balance.
  destruct (State.get_account s sender) as [n b ch sr st] eqn:E1. cbn [ac_balance].
  unfold charged. cbn [ac_balance ac_nonce].
  destruct (fee <=? b); cbn [snd]; [by rewrite get_account_put_eq|by rewrite E1].
Qed.

Lemma debited_other sender fee s a :
  a ≠ sender → State.get_account (debited sender fee s) a = State.get_account s a.
Proof.
  intros Ha. unfold debited. rewrite sub_balance_spec. destruct (_ <=? _); [|done]. cbn [snd].
  by rewrite get_account_put_ne.
Qed.

Lemma charge_accounts {E} sender fee s a :
  State.get_account (Tx.charge (E:=E) sender fee s).2 a =
    if decide (a = sender) then charged fee (State.get_account s sender)
    else State.get_account s a.
Proof.
  rewrite charge_unfold. cbn [snd]. rewrite get_account_put.
  repeat case_decide; subst; try done. by rewrite debited_other.
Qed.

Lemma sat_charge {E} (R R' : Address → AccountState → Prop) store sender fee s :
  (∀ a acc v, R a acc → R a (acc <| ac_balance := v |>)) →
  (∀ acc, R sender acc → R' sender (acc <| ac_nonce := wrap 64 (ac_nonce acc + 1) |>)) →
  (∀ b acc, b ≠ sender → R b acc → R' b acc) →
  accounts_sat R store s → accounts_sat R' store (Tx.charge (E:=E) sender fee s).2.
Proof.
  intros Hbal Hn Hne Hs. rewrite charge_unfold. cbn [snd]. apply (sat_put_account' R); [|..|done].
  - unfold debited. by apply (frame_sub_balance R store Hbal).
  - unfold charged. generalize (if fee <=? ac_balance (State.get_account s sender)
      then ac_balance (State.get_account s sender) - fee
      else ac_balance (State.get_account s sender)). intros v.
    exact (Hn _ (Hbal _ _ v (sat_get_account R store s sender Hs))).
Qed.
End charge.

(** ** Nonces *)

Section nonces.
Context `{!TxEnv}.
Implicit Types (x : Address) (lo hi : Z).

(** The nonce of [x] is between [lo] and [hi], in the cache and on disk. *)
Definition nonce_in x lo hi (a : Address) (acc : AccountState) : Prop :=
  a = x → lo <= ac_nonce acc <= hi.

Definition nonce_sat x lo hi (s : StateDB) : Prop :=
  accounts_sat (nonce_in x lo hi) (bool_decide (is_Some (db_storage s))) s.

(** A deployment by the sender of [tx] never lands on the address [x]. *)
Definition spares_address x (tx : SignedTransaction) : Prop :=
  match tp_action (tx_payload tx) with
  | DeployContract _ _ => ∀ n, Tx.contract_address (Tx.tx_sender tx) n ≠ x
  | _ => True
  end.

(** The transaction is paid for, fully or as far as the balance reaches. *)
Definition payable (s : StateDB) (tx : SignedTransaction) (gc : GasConfig) (chain_id : ChainId)
    : Prop :=
  Tx.admissible s tx gc chain_id = true ∧
  is_Some (Tx.total_value (Tx.gas_fee tx gc) (tp_action (tx_payload tx))).

Definition raised x lo (tx : SignedTransaction) : Z :=
  if decide (Tx.tx_sender tx = x) then lo + 1 else lo.

Lemma coherent_nonce_sat x s :
  coherent s → nonce_sat x (State.get_nonce s x) (State.get_nonce s x) s.
Proof.
  intros Hc. split; [done|..].
  - intros a acc Ha ->. unfold State.get_nonce, State.get_account. by rewrite Ha.
  - intros Hs a ->. apply bool_decide_eq_true in Hs.
    unfold State.get_nonce, State.get_account, read_disk.
    destruct (db_accounts s !! x) as [acc|] eqn:E; [|done].
    rewrite (Hc x acc E Hs). cbn. by rewrite from_slice_to_vec.
  - intros Hs a Ha ->. apply bool_decide_eq_false, eq_None_not_Some in Hs.
    unfold State.get_nonce, State.get_account, disk_get. by rewrite Ha, Hs.
Qed.

Lemma charge_nonce {E} x lo hi b tx fee s :
  0 <= lo → hi + 1 < 2 ^ 64 →
  accounts_sat (nonce_in x lo hi) b s →
  accounts_sat (nonce_in x (raised x lo tx) (hi + 1)) b (Tx.charge (E:=E) (Tx.tx_sender tx) fee s).2.
Proof.
  intros Hlo Hhi. apply sat_charge.
  - by intros a [] v.
  - intros [n ????] Hn Hx. specialize (Hn Hx). cbn in *. unfold raised.
    rewrite decide_True by done. rewrite wrap_small; unfold in_width; lia.
  - intros a acc Ha Hn ->. specialize (Hn eq_refl). unfold raised. case_decide; [done|lia].
Qed.

Lemma nonce_in_weaken x lo hi lo' hi' b s :
  lo' <= lo → hi <= hi' →
  accounts_sat (nonce_in x lo hi) b s → accounts_sat (nonce_in x lo' hi') b s.
Proof. intros ??. apply sat_weaken. intros a acc Hn Hx. specialize (Hn Hx). lia. Qed.

Lemma raised_le x lo tx : lo <= raised x lo tx <= lo + 1.
Proof. unfold raised. case_decide; lia. Qed.

Lemma action_nonce x lo hi st tx b t s :
  spares_address x tx →
  accounts_sat (nonce_in x lo hi) st s →
  accounts_sat (nonce_in x lo hi) st
    (Tx.execute_action (Tx.tx_sender tx) (tp_action (tx_payload tx)) b t
       (tp_nonce (tx_payload tx)) (tp_gas_limit (tx_payload tx)) s).2.
Proof.
  intros Hsp Hs. apply frame_execute_action; [by intros ? [] ?..|done|].
  unfold spares, spares_address in *. destruct (tp_action (tx_payload tx)); try done.
  intros h Hx. exfalso. eapply Hsp, Hx.
Qed.

(** A paid transaction moves its sender's nonce up by one or, when it fails and
    the roll-back leaves a charged account on disk, by two. *)
Lemma conclude_nonce {E} x lo hi st tx gas fee b t s s1 :
  0 <= lo → hi + 2 < 2 ^ 64 → spares_address x tx →
  accounts_sat (nonce_in x lo hi) st s →
  accounts_sat (nonce_in x (raised x lo tx) (hi + 1)) st s1 →
  let p := tx_payload tx in
  let run := Tx.conclude (E:=E) tx gas fee (Snapshot.snapshot s)
    (Tx.execute_action (Tx.tx_sender tx) (tp_action p) b t (tp_nonce p) (tp_gas_limit p)) s1 in
  accounts_sat (nonce_in x (raised x lo tx) (hi + 2)) st run.2.
Proof.
  intros Hlo Hhi Hsp Hs Hs1 p run. unfold run, Tx.conclude. clear run.
  pose proof (action_nonce _ _ _ _ _ b t _ Hsp Hs1) as Ha. fold p in Ha.
  pose proof (raised_le x lo tx) as Hr.
  destruct (Tx.execute_action _ _ _ _ _ _ _) as [[logs|e|] s2]; cbn [snd] in *;
    [eapply nonce_in_weaken; [| |exact Ha]; lia| |eapply nonce_in_weaken; [| |exact Ha]; lia].
  mrun. rewrite charge_unfold. cbn [snd].
  set (r := Snapshot.restore (Snapshot.snapshot s) s2).
  assert (Hrs : accounts_sat (nonce_in x lo (hi + 1)) st r).
  { apply sat_restore; (eapply nonce_in_weaken; [| |eassumption]); lia. }
  pose proof (charge_nonce (E:=E) x lo (hi + 1) st tx fee r Hlo ltac:(lia) Hrs) as Hf.
  rewrite charge_unfold in Hf. cbn [snd] in Hf. by replace (hi + 2) with (hi + 1 + 1) by lia.
Qed.

Lemma transaction_nonce {E} x lo hi st tx gc b t chain_id s :
  0 <= lo → hi + 2 < 2 ^ 64 → spares_address x tx →
  accounts_sat (nonce_in x lo hi) st s →
  let s' := (Tx.execute_transaction_at (E:=E) tx gc b t chain_id s).2 in
  accounts_sat (nonce_in x lo (hi + 2)) st s' ∧
  (payable s tx gc chain_id → accounts_sat (nonce_in x (raised x lo tx) (hi + 2)) st s').
Proof.
  intros Hlo Hhi Hsp Hs s'. pose proof (raised_le x lo tx) as Hr.
  assert (Hsame : accounts_sat (nonce_in x lo (hi + 2)) st s)
    by (eapply nonce_in_weaken; [| |exact Hs]; lia).
  cut ((s' = s ∧ ¬ payable s tx gc chain_id)
       ∨ accounts_sat (nonce_in x (raised x lo tx) (hi + 2)) st s').
  { intros [[-> Hp]|Hp]; [done|]. split; [|done]. eapply nonce_in_weaken; [| |exact Hp]; lia. }
  unfold s', Tx.execute_transaction_at, payable. clear s'. mrun.
  destruct (Tx.admissible s tx gc chain_id); cbn [negb]; [|left; naive_solver].
  destruct (Tx.total_value _ _) as [need|]; [|left; split; [done|]; intros [_ []]; done].
  right. pose proof (λ fee, charge_nonce (E:=E) x lo hi st tx fee s Hlo ltac:(lia) Hs) as Hc.
  setoid_rewrite charge_unfold in Hc.
  destruct (_ <? _); rewrite charge_unfold; cbn [snd].
  - eapply nonce_in_weaken; [| |apply Hc]; lia.
  - apply conclude_nonce; [done..|apply Hc].
Qed.

(** A block as the executor sees it: its transactions, then its settlement. *)
Record BlockRun := MkBlockRun {
  br_transactions : list SignedTransaction;
  br_gas_limit : Z;
  br_number : Z;
  br_timestamp : Z;
  br_chain_id : ChainId;
  br_gas : GasConfig;
  br_producer : Address;
  br_total_staked : Amount;
  br_params : ConsensusParams;
}.

(** The state after the block; a panic leaves what was written before it. *)
Definition run_block (s : StateDB) (b : BlockRun) : StateDB :=
  let '(r, s) := Tx.execute_block_transactions_at (E:=Empty_set) (br_transactions b) (br_gas b)
    (br_gas_limit b) (br_number b) (br_timestamp b) (br_chain_id b) s in
  match r with
  | Ok (_, gas_used) =>
      (Tx.apply_block_rewards_and_governance (E:=Empty_set) (br_number b) gas_used (br_gas b)
         (br_producer b) (br_total_staked b) (br_params b) s).2
  | _ => s
  end.

Definition run_blocks (bs : list BlockRun) (s : StateDB) : StateDB := foldl run_block s bs.

Lemma frame_settlement {E} x lo hi st n g gc p ts cp :
  keeps (accounts_sat (nonce_in x lo hi) st)
    (Tx.apply_block_rewards_and_governance (E:=E) n g gc p ts cp).
Proof.
  unfold Tx.apply_block_rewards_and_governance, Tx.pay_block_reward, Tx.pay_gas_fees.
  assert (Hb : ∀ a acc v, nonce_in x lo hi a acc → nonce_in x lo hi a (acc <| ac_balance := v |>))
    by (by intros ? [] ?).
  solve_frame.
Qed.

Lemma loop_nonce {E} x lo st gc lim b t chain_id txs : ∀ hi receipts gas s,
  0 <= lo → hi + 2 * Z.of_nat (length txs) < 2 ^ 64 → Forall (spares_address x) txs →
  accounts_sat (nonce_in x lo hi) st s →
  accounts_sat (nonce_in x lo (hi + 2 * Z.of_nat (length txs))) st
    (Tx.execute_loop (E:=E) txs gc lim b t chain_id receipts gas s).2.
Proof.
  induction txs as [|tx txs IH]; intros hi receipts gas s Hlo Hhi Hsp Hs; cbn [Tx.execute_loop length].
  { eapply nonce_in_weaken; [| |exact Hs]; cbn; lia. }
  inversion_clear Hsp. destruct (_ <=? _); [eapply nonce_in_weaken; [| |exact Hs]; cbn; lia|].
  cbn [length] in Hhi. mrun.
  destruct (transaction_nonce (E:=E) x lo hi st tx gc b t chain_id s) as [Ht _]; [lia..|done|done|].
  destruct (Tx.execute_transaction_at _ _ _ _ _ _) as [[r|e|] s1]; cbn [snd] in *.
  - replace (hi + 2 * Z.of_nat (S (length txs))) with (hi + 2 + 2 * Z.of_nat (length txs)) by lia.
    apply IH; [done|lia|done|done].
  - eapply nonce_in_weaken; [| |exact Ht]; lia.
  - eapply nonce_in_weaken; [| |exact Ht]; lia.
Qed.

Definition block_sizes (bs : list BlockRun) : Z :=
  list_sumZ (λ b, Z.of_nat (length (br_transactions b))) bs.

Lemma block_sizes_nonneg bs : 0 <= block_sizes bs.
Proof. apply list_sumZ_nonneg. intros b _. apply Nat2Z.is_nonneg. Qed.

Lemma run_block_nonce x lo hi st b s :
  0 <= lo → hi + 2 * Z.of_nat (length (br_transactions b)) < 2 ^ 64 →
  Forall (spares_address x) (br_transactions b) →
  accounts_sat (nonce_in x lo hi) st s →
  accounts_sat (nonce_in x lo (hi + 2 * Z.of_nat (length (br_transactions b)))) st (run_block s b).
Proof.
  intros Hlo Hhi Hsp Hs. unfold run_block, Tx.execute_block_transactions_at. mrun.
  assert (Hu : accounts_sat (nonce_in x lo hi) st
    (ignore_err (E':=Empty_set) (State.process_unbonding (br_timestamp b)) s).2).
  { apply keeps_ignore_err; [|done]. apply frame_process_unbonding. by intros ? [] ?. }
  destruct (ignore_err _ _) as [[[]|[]|] s0]; cbn [snd] in Hu.
  2: { eapply nonce_in_weaken; [| |exact Hu]; lia. }
  pose proof (loop_nonce (E:=Empty_set) x lo st (br_gas b) (br_gas_limit b) (br_number b)
    (br_timestamp b) (br_chain_id b) _ hi [] 0 s0 Hlo Hhi Hsp Hu) as Hl.
  destruct (Tx.execute_loop _ _ _ _ _ _ _ _ _) as [[[receipts gas]|[]|] s1]; [|done].
  by apply frame_settlement.
Qed.

Lemma run_blocks_nonce x lo st bs : ∀ hi s,
  0 <= lo → hi + 2 * block_sizes bs < 2 ^ 64 →
  Forall (λ b, Forall (spares_address x) (br_transactions b)) bs →
  accounts_sat (nonce_in x lo hi) st s →
  accounts_sat (nonce_in x lo (hi + 2 * block_sizes bs)) st (run_blocks bs s).
Proof.
  induction bs as [|b bs IH]; intros hi s Hlo Hhi Hsp Hs.
  { change (block_sizes []) with 0. by rewrite Z.add_0_r. }
  inversion_clear Hsp. pose proof (block_sizes_nonneg bs).
  change (block_sizes (b :: bs)) with (Z.of_nat (length (br_transactions b)) + block_sizes bs) in *.
  replace (hi + _) with (hi + 2 * Z.of_nat (length (br_transactions b)) + 2 * block_sizes bs) by lia.
  apply IH; [done|lia|done|]. apply run_block_nonce; [done|lia|done|done].
Qed.

(** C7: a transaction that was charged can never be charged again.  After it
    ran, and after any further blocks with their settlements, running it again
    in any block leaves the state as it is and reports failure with no gas
    used: its sender's nonce has moved past it and nothing ever moves a nonce
    back.  The bound keeps the 64-bit counter from wrapping around, and no
    contract is deployed onto the sender's own address. *)
Theorem replay_rejected tx gc b t chain_id s bs gc' b' t' chain_id' :
  let x := Tx.tx_sender tx in
  coherent s → 0 <= State.get_nonce s x →
  payable s tx gc chain_id →
  State.get_nonce s x + 2 * (1 + block_sizes bs) < 2 ^ 64 →
  spares_address x tx → Forall (λ b, Forall (spares_address x) (br_transactions b)) bs →
  let s1 := (Tx.execute_transaction_at (E:=Empty_set) tx gc b t chain_id s).2 in
  let s2 := run_blocks bs s1 in
  Tx.execute_transaction_at (E:=Empty_set) tx gc' b' t' chain_id' s2 =
    (Ok (Tx.fail_receipt (Tx.tx_hash tx) 0), s2).
Proof.
  intros x Hc H0 Hp Hlim Hsp Hsps s1 s2.
  pose proof (block_sizes_nonneg bs).
  set (st := bool_decide (is_Some (db_storage s))).
  assert (Hs1 : accounts_sat (nonce_in x (State.get_nonce s x + 1) (State.get_nonce s x + 2)) st s1).
  { destruct (transaction_nonce (E:=Empty_set) x (State.get_nonce s x) (State.get_nonce s x) st tx
      gc b t chain_id s) as [_ Ht]; [lia..|done|by apply coherent_nonce_sat|].
    specialize (Ht Hp). unfold raised in Ht. by rewrite decide_True in Ht by done. }
  assert (Hs2 : accounts_sat (nonce_in x (State.get_nonce s x + 1)
    (State.get_nonce s x + 2 + 2 * block_sizes bs)) st s2)
    by (apply run_blocks_nonce; [lia|lia|done|done]).
  pose proof (sat_get_account _ _ _ x Hs2 eq_refl) as Hn. fold (State.get_nonce s2 x) in Hn.
  destruct Hp as [Ha _]. unfold Tx.admissible in Ha.
  apply andb_true_iff in Ha as [Ha _]. apply andb_true_iff in Ha as [_ Ha%Z.eqb_eq].
  unfold Tx.execute_transaction_at. mrun.
  replace (Tx.admissible s2 tx gc' chain_id') with false; [done|].
  unfold Tx.admissible. symmetry. apply andb_false_iff. left. apply andb_false_iff. right.
  apply Z.eqb_neq. fold x in Ha |- *. unfold State.get_nonce in *. lia.
Qed.
End nonces.

(** ** Atomicity *)

Section atomicity.
Context `{!TxEnv}.

Lemma snapshot_put r s a acc :
  Snapshot.snapshot r = Snapshot.snapshot s →
  Snapshot.snapshot (State.put_account a acc r) = Snapshot.snapshot (State.put_account a acc s).
Proof.
  rewrite !put_account_unfold. generalize (put_account_storage a acc r) (put_account_storage a acc s).
  intros st st'. destruct r, s. unfold Snapshot.snapshot. cbn. intros [=]. by subst.
Qed.

Lemma charge_snapshot {E} sender fee s r :
  Snapshot.snapshot r = Snapshot.snapshot s →
  State.get_account r sender = State.get_account s sender →
  Snapshot.snapshot (Tx.charge (E:=E) sender fee r).2 =
    Snapshot.snapshot (Tx.charge (E:=E) sender fee s).2.
Proof.
  intros Hs Ha. rewrite !charge_unfold. cbn [snd]. rewrite Ha. apply snapshot_put.
  unfold debited. rewrite !sub_balance_spec. unfold State.get_balance. rewrite !Ha.
  destruct (fee <=? _); cbn [snd]; [by apply snapshot_put|done].
Qed.

(** An account that a roll-back brings back: one in the cache, or any account of a
    state without a store. *)
Definition revertible (s : StateDB) (a : Address) : Prop :=
  is_Some (db_accounts s !! a) ∨ db_storage s = None.

(** A state without a store stays without one. *)
Lemma action_no_store sender action b t n g s :
  db_storage s = None → db_storage (Tx.execute_action sender action b t n g s).2 = None.
Proof.
  intros Hs. assert (Hsat : accounts_sat (λ _ _, True) false s)
    by (split; [by rewrite Hs|done..]).
  apply (frame_execute_action (λ _ _, True) false ltac:(done) ltac:(done) sender action b t n g) in Hsat;
    [|by destruct action].
  by apply sat_store, bool_decide_eq_false, eq_None_not_Some in Hsat.
Qed.

Lemma restore_revertible s s2 a :
  revertible s a → (db_storage s = None → db_storage s2 = None) →
  State.get_account (Snapshot.restore (Snapshot.snapshot s) s2) a = State.get_account s a.
Proof.
  intros [Hc|Hs] Hs2; [by apply restore_cached|]. apply get_account_frame; [apply restore_accounts|].
  unfold Snapshot.restore. rewrite restore_disk_None; [|by apply Hs2]. rewrite Hs. by apply Hs2.
Qed.

Lemma charge_no_store {E} sender fee s :
  db_storage s = None → db_storage (Tx.charge (E:=E) sender fee s).2 = None.
Proof.
  intros Hs. rewrite charge_unfold. cbn [snd]. unfold debited. rewrite sub_balance_spec.
  destruct (_ <=? _); cbn [snd]; apply eq_None_not_Some; intros Hn;
    repeat apply put_account_storage_Some in Hn; rewrite Hs in Hn; by destruct Hn.
Qed.

(** C3: a transaction that reports failure leaves no trace but its fee, on a node
    that keeps its state in memory or has its sender's account in the cache.
    Either it was refused outright and the state is untouched; or what is left is
    the state with the sender charged the computed gas fee, or the whole balance
    if that is less: every table of the state is the one of that charge, the
    sender's account is charged once, and every other account reads as before,
    if it too was in the cache or the node has no store.  An account that is in
    the store only is not covered, and rightly so: see
    [uncached_sender_charged_twice]. *)
Theorem failed_transaction_atomic tx gc b t chain_id s r s' :
  let sender := Tx.tx_sender tx in
  revertible s sender →
  Tx.execute_transaction_at (E:=Empty_set) tx gc b t chain_id s = (Ok r, s') →
  rc_success (er_receipt r) = false →
  (s' = s ∧ (Tx.admissible s tx gc chain_id = false
             ∨ Tx.total_value (Tx.gas_fee tx gc) (tp_action (tx_payload tx)) = None)) ∨
  ∃ fee, (fee = Tx.gas_fee tx gc ∨ fee = Z.min (Tx.gas_fee tx gc) (State.get_balance s sender)) ∧
    Snapshot.snapshot s' = Snapshot.snapshot (Tx.charge (E:=Empty_set) sender fee s).2 ∧
    State.get_account s' sender = charged fee (State.get_account s sender) ∧
    ∀ a, a ≠ sender → revertible s a → State.get_account s' a = State.get_account s a.
Proof.
  intros sender Hc. unfold Tx.execute_transaction_at. mrun. fold sender.
  destruct (Tx.admissible _ _ _ _); cbn [negb]; [|intros [= <- <-]; by auto].
  destruct (Tx.total_value _ _) as [need|]; [|intros [= <- <-]; by auto].
  set (fee := Tx.gas_fee tx gc). destruct (_ <? need).
  - pose proof (charge_accounts (E:=Empty_set) sender (Z.min fee (State.get_balance s sender)) s) as Ha.
    destruct (Tx.charge _ _ s) as [[[]|[]|] s1] eqn:E; rewrite charge_unfold in E; [|done].
    cbn [snd] in Ha. intros [= <- <-] _. right. exists (Z.min fee (State.get_balance s sender)).
    rewrite charge_unfold. injection E as ->. cbn [snd].
    split_and!; [by right|done|by rewrite Ha, decide_True|].
    intros a Hne _. by rewrite Ha, decide_False.
  - pose proof (charge_no_store (E:=Empty_set) sender fee s) as Hns.
    destruct (Tx.charge _ _ s) as [[[]|[]|] s1] eqn:E; rewrite charge_unfold in E; [|done].
    unfold Tx.conclude. intros Hrun Hf. cbn [snd] in Hns.
    pose proof (action_no_store sender (tp_action (tx_payload tx)) b t (tp_nonce (tx_payload tx))
      (tp_gas_limit (tx_payload tx)) s1) as Hns2. fold sender in Hrun.
    destruct (Tx.execute_action _ _ _ _ _ _ _) as [[logs|e|] s2]; [by injection Hrun as <- _| |done].
    revert Hrun. mrun. fold sender. set (rs := Snapshot.restore (Snapshot.snapshot s) s2).
    assert (Hback : ∀ a, revertible s a → State.get_account rs a = State.get_account s a).
    { intros a Hr. apply restore_revertible; [done|]. intros Hs. by apply Hns2, Hns. }
    pose proof (charge_accounts (E:=Empty_set) sender fee rs) as Ha.
    pose proof (charge_snapshot (E:=Empty_set) sender fee s rs (restore_snapshot s s2)
      (Hback _ Hc)) as Hsn.
    destruct (Tx.charge _ _ rs) as [[[]|[]|] s3]; [|done]. cbn [snd] in Ha, Hsn.
    intros [= <- <-]. right. exists fee. split_and!; [by left|exact Hsn| |].
    + rewrite Ha, decide_True by done. f_equal. by apply Hback.
    + intros a Hne Hin. rewrite Ha, decide_False by done. by apply Hback.
Qed.

(** [restore] leaves on disk what was written to an account that was not in the
    cache when the snapshot was taken. *)
Lemma restore_uncached s s' a :
  db_accounts s !! a = None →
  State.get_account (Snapshot.restore (Snapshot.snapshot s) s') a =
    default AccountState_default (disk_get s' Accounts (address_bytes a) ≫= from_slice).
Proof.
  intros Ha. unfold State.get_account. rewrite restore_accounts.
  change (sn_accounts (Snapshot.snapshot s)) with (db_accounts s). rewrite Ha.
  unfold Snapshot.restore, Snapshot.restore_disk. rewrite write_all_storage. unfold disk_get.
  set (r := Snapshot.restore_memory (Snapshot.snapshot s) s'). cbn [db_storage upd upd_db_storage].
  change (db_storage r) with (db_storage s'). destruct (db_storage s') as [st|]; [|done].
  cbn [fmap option_fmap option_map mbind option_bind].
  rewrite kv_get_writes_other; [done|].
  assert (Ht : ∀ {K V} `{Countable K} c key (val : V → bytes) (m : gmap K V), c ≠ Accounts →
    Forall (λ w, (w.1.1, w.1.2) ≠ (Accounts, address_bytes a)) (Snapshot.table_writes c key val m)).
  { intros K V ?? c key val m Hc. apply Forall_fmap, Forall_true. intros [x y]. cbn. congruence. }
  unfold Snapshot.restore_writes. rewrite !Forall_app. split_and!; try by apply Ht.
  - by repeat constructor.
  - apply Forall_forall. intros [[c k] v] (_ & x & y & Hx & -> & ->)%elem_table_writes. cbn.
    intros [= _ ->%address_bytes_inj]. change (db_accounts r) with (db_accounts s) in Hx. congruence.
  - by repeat constructor.
Qed.

(** On a node that has just restarted, where the sender's account is in the
    store and not yet in the cache, a transaction that fails charges its sender
    twice: the roll-back does not undo the first charge, which is already on
    disk, and the second one is taken on top.  A node that has been running
    charges once, so the two disagree on the state from there on.  Stated for a
    cross-chain transfer, which always fails. *)
Theorem uncached_sender_charged_twice tx gc b t chain_id s dest to payload :
  let sender := Tx.tx_sender tx in
  let fee := Tx.gas_fee tx gc in
  tp_action (tx_payload tx) = CrossChainTransfer dest to payload →
  Tx.admissible s tx gc chain_id = true →
  db_accounts s !! sender = None → is_Some (db_storage s) → fee <= State.get_balance s sender →
  State.get_account (Tx.execute_transaction_at (E:=Empty_set) tx gc b t chain_id s).2 sender =
    charged fee (charged fee (State.get_account s sender)).
Proof.
  intros sender fee Hact Hadm Hun Hsto Hfee. unfold Tx.execute_transaction_at. mrun.
  rewrite Hadm, Hact. cbn [negb Tx.total_value]. fold sender fee.
  replace (_ <? fee) with false by (symmetry; apply Z.ltb_ge; done).
  rewrite charge_unfold. unfold Tx.conclude. cbn [Tx.execute_action]. mrun. fold sender.
  set (s1 := State.put_account _ _ _). set (rs := Snapshot.restore _ s1).
  pose proof (charge_accounts (E:=Empty_set) sender fee rs sender) as Ha.
  destruct (Tx.charge _ _ rs) as [[[]|[]|] s3] eqn:E; rewrite charge_unfold in E; [|done].
  cbn [snd] in Ha |- *. rewrite Ha, decide_True by done. f_equal. unfold rs.
  rewrite restore_uncached by done. unfold s1. rewrite put_account_disk_eq.
  - cbn. by rewrite from_slice_to_vec.
  - unfold debited. rewrite sub_balance_spec.
    destruct (_ <=? _); [|done]. cbn [snd]. by apply put_account_storage_Some.
Qed.
End atomicity.

(** ** Gas *)

Section gas.
Context `{!TxEnv}.

(** A transaction reports no gas when it is rejected, and the gas it is to use
    otherwise. *)
Lemma transaction_gas {E} tx gc b t chain_id s r s' :
  Tx.execute_transaction_at (E:=E) tx gc b t chain_id s = (Ok r, s') →
  er_gas_used r = rc_gas_used (er_receipt r) ∧
  (er_gas_used r = 0 ∨ er_gas_used r = Tx.gas_to_use tx gc).
Proof.
  unfold Tx.execute_transaction_at. mrun.
  destruct (Tx.admissible _ _ _ _); cbn [negb]; [|intros [= <- <-]; by auto].
  destruct (Tx.total_value _ _); [|intros [= <- <-]; by auto].
  destruct (_ <? _); rewrite charge_unfold; [intros [= <- <-]; by auto|].
  unfold Tx.conclude. destruct (Tx.execute_action _ _ _ _ _ _ _) as [[logs|e|] s2];
    [intros [= <- <-]; by auto| |done].
  mrun. rewrite charge_unfold. intros [= <- <-]; by auto.
Qed.

Definition receipts_gas (l : list TransactionReceipt) : Z := list_sumZ rc_gas_used l.

Lemma execute_loop_gas {E} gc lim b t chain_id G txs : ∀ receipts gas s receipts' gas' s',
  0 <= lim → lim + G < 2 ^ 64 → (∀ tx, tx ∈ txs → 0 <= Tx.gas_to_use tx gc <= G) →
  0 <= gas → (gas = 0 ∨ gas < lim + G) → gas = receipts_gas receipts →
  Tx.execute_loop (E:=E) txs gc lim b t chain_id receipts gas s = (Ok (receipts', gas'), s') →
  gas' = receipts_gas receipts' ∧ (gas' = 0 ∨ gas' < lim + G) ∧
  ∃ done, receipts' = receipts ++ done ∧ (length done <= length txs)%nat ∧
    ((length done < length txs)%nat → lim <= gas').
Proof.
  induction txs as [|tx txs IH]; intros receipts gas s receipts' gas' s' Hl HG Htx H0 Hg He Hrun;
    cbn [Tx.execute_loop] in Hrun.
  { injection Hrun as <- <- _. split_and!; [done..|]. exists []. rewrite app_nil_r.
    split_and!; [done|done|cbn; lia]. }
  destruct (Z.leb_spec lim gas) as [Hle|Hlt].
  { injection Hrun as <- <- _. split_and!; [done..|]. exists []. rewrite app_nil_r.
    split_and!; [done|cbn; lia|done]. }
  revert Hrun. mrun. destruct (Tx.execute_transaction_at _ _ _ _ _ _) as [[r|e|] s1] eqn:E1; [|done..].
  intros Hrun. destruct (transaction_gas _ _ _ _ _ _ _ _ E1) as [Hr Hr'].
  assert (Hb : 0 <= er_gas_used r <= G) by (pose proof (Htx tx ltac:(left)); destruct Hr'; lia).
  rewrite wrap_small in Hrun by (unfold in_width; lia).
  apply IH in Hrun; [|done|done|intros; apply Htx; by right|lia|right; lia|].
  - destruct Hrun as (? & ? & done' & -> & Hlen & Hlim). split_and!; [done..|].
    exists (er_receipt r :: done'). rewrite <- app_assoc. cbn. split_and!; [done|lia|lia].
  - unfold receipts_gas in *. rewrite list_sumZ_app, He. cbn. lia.
Qed.

(** C38: the gas a block reports is the sum over its receipts and stays below
    the limit plus the gas of one transaction, with no wrap-around; there is at
    most one receipt per transaction, and transactions are left out only when
    the limit was reached. *)
Theorem block_gas_bounded txs gc lim b t chain_id G s receipts gas s' :
  0 <= lim → lim + G < 2 ^ 64 → (∀ tx, tx ∈ txs → 0 <= Tx.gas_to_use tx gc <= G) →
  Tx.execute_block_transactions_at (E:=Empty_set) txs gc lim b t chain_id s = (Ok (receipts, gas), s') →
  gas = receipts_gas receipts ∧ (gas = 0 ∨ gas < lim + G) ∧
  (length receipts <= length txs)%nat ∧ ((length receipts < length txs)%nat → lim <= gas).
Proof.
  intros Hl HG Htx. unfold Tx.execute_block_transactions_at. mrun.
  destruct (ignore_err _ _) as [[[]|[]|] s0]; [|done]. intros Hrun.
  apply (execute_loop_gas _ _ _ _ _ G) in Hrun; [|done|done|done|lia|by left|done].
  destruct Hrun as (? & ? & done' & -> & ? & ?). by split_and!.
Qed.

Lemma process_unbonding_none t s :
  db_unbonding_entries s = ∅ →
  ∃ s', ignore_err (E':=Empty_set) (State.process_unbonding t) s = (Ok tt, s') ∧
    db_accounts s' = db_accounts s ∧ db_storage s' = db_storage s.
Proof.
  intros Hu. unfold ignore_err, State.process_unbonding. mrun. rewrite Hu.
  assert (hash_iter (∅ : gmap Address (list UnbondingEntry)) = []) as ->
    by (apply Permutation_nil; by rewrite hash_iter_perm).
  cbn. eexists. split; [done|]. done.
Qed.

Lemma admissible_frame s s' tx gc chain_id :
  db_accounts s' = db_accounts s → db_storage s' = db_storage s →
  Tx.admissible s' tx gc chain_id = Tx.admissible s tx gc chain_id.
Proof.
  intros Ha Hs. unfold Tx.admissible, State.get_nonce, State.get_min_gas_price_override,
    State.get_param_le, State.get_param_raw, disk_get.
  by rewrite (get_account_frame s s' _ Ha Hs), Hs.
Qed.

Lemma distribute_no_stake {E} p x s :
  x ≠ 0 → ac_staking (State.get_account s p) = None → State.get_balance s p + x < 2 ^ 128 →
  ∃ s', Exec.distribute_producer_reward (E:=E) p x s = (Ok tt, s') ∧
    ∀ a, State.get_balance s' a = State.get_balance s a + (if decide (a = p) then x else 0).
Proof.
  intros Hx Hs Hb. unfold Exec.distribute_producer_reward.
  replace (x =? 0) with false by (symmetry; by apply Z.eqb_neq). mrun. rewrite Hs.
  unfold ignore_err. rewrite add_balance_spec.
  replace (_ <? _) with true by (symmetry; by apply Z.ltb_lt). eexists. split; [done|].
  intros a. rewrite get_balance_put. repeat case_decide; subst; cbn; try done; lia.
Qed.

(** The producer of a block is paid for gas that nobody paid.  A block with
    one transaction of an account that holds nothing takes no fee from anyone,
    but the gas of the transaction counts, and the settlement of the fees then
    credits the producer with 30% of its price: the block creates that much out
    of nothing. *)
Theorem unpaid_gas_pays_producer tx gc b t chain_id lim need producer summary s :
  let sender := Tx.tx_sender tx in
  let gas := Tx.gas_to_use tx gc in
  let fees := gas * min_gas_price gc in
  Tx.admissible s tx gc chain_id = true →
  Tx.total_value (Tx.gas_fee tx gc) (tp_action (tx_payload tx)) = Some need → 0 < need →
  State.get_balance s sender = 0 → 0 <= Tx.gas_fee tx gc → db_unbonding_entries s = ∅ →
  0 < lim → 0 <= gas < 2 ^ 64 → 4 <= fees → fees * 100 < 2 ^ 128 →
  ac_staking (State.get_account s producer) = None →
  State.get_balance s producer + fees * 30 / 100 < 2 ^ 128 →
  ∃ s1 s2 summary',
    Tx.execute_block_transactions_at (E:=Empty_set) [tx] gc lim b t chain_id s =
      (Ok ([er_receipt (Tx.fail_receipt (Tx.tx_hash tx) gas)], gas), s1) ∧
    Tx.pay_gas_fees (E:=Empty_set) producer (wrap 128 fees) summary s1 = (Ok summary', s2) ∧
    ∀ a, State.get_balance s2 a =
         State.get_balance s a + (if decide (a = producer) then fees * 30 / 100 else 0).
Proof.
  intros sender gas fees Hadm Hneed Hpos Hbal Hfee Hub Hlim Hgas Hf1 Hf2 Hst Hov.
  unfold Tx.execute_block_transactions_at.
  destruct (process_unbonding_none t s Hub) as (s0 & Hun & Ha0 & Hs0). mrun. rewrite Hun.
  assert (Hacc : ∀ a, State.get_account s0 a = State.get_account s a)
    by (intros; by apply get_account_frame).
  assert (Hbal0 : ∀ a, State.get_balance s0 a = State.get_balance s a)
    by (intros; unfold State.get_balance; by rewrite Hacc).
  cbn [Tx.execute_loop]. replace (lim <=? 0) with false by (symmetry; apply Z.leb_gt; lia).
  unfold Tx.execute_transaction_at. mrun. rewrite (admissible_frame s s0) by done.
  rewrite Hadm, Hneed. cbn [negb]. fold sender gas. rewrite Hbal0, Hbal.
  replace (0 <? need) with true by (symmetry; apply Z.ltb_lt; lia). rewrite Z.min_r by done.
  pose proof (charge_accounts (E:=Empty_set) sender 0 s0) as Hch.
  destruct (Tx.charge _ _ s0) as [[[]|[]|] s1] eqn:E; rewrite charge_unfold in E; [|done].
  clear E. cbn [snd] in Hch.
  cbn [er_receipt er_gas_used Tx.fail_receipt app]. rewrite Z.add_0_l, (wrap_small 64) by done.
  assert (Hsame : ∀ a, State.get_balance s1 a = State.get_balance s a
    ∧ ac_staking (State.get_account s1 a) = ac_staking (State.get_account s a)).
  { intros a. unfold State.get_balance in *. rewrite Hch. case_decide; [|by rewrite Hacc].
    subst a. unfold charged. cbn. rewrite Hacc, Hbal. done. }
  exists s1. unfold Tx.pay_gas_fees. rewrite wrap_small by (unfold in_width; lia).
  replace (0 <? fees) with true by (symmetry; apply Z.ltb_lt; lia). mrun.
  replace (gfs_producer (split_gas_fees fees)) with (fees * 30 / 100)
    by (unfold split_gas_fees, GAS_PRODUCER_PCT; cbn; rewrite wrap_small; [done|unfold in_width; lia]).
  destruct (distribute_no_stake (E:=Empty_set) producer (fees * 30 / 100) s1) as (s2 & Hd & Hb2).
  { apply Z.neq_sym, Z.lt_neq, Z.div_str_pos. lia. }
  { by rewrite (proj2 (Hsame producer)). }
  { by rewrite (proj1 (Hsame producer)). }
  rewrite Hd. do 2 eexists. split; [done|]. split; [done|]. intros a.
  rewrite <- (proj1 (Hsame a)), <- Hb2. unfold State.get_balance. f_equal.
  apply untouched_get_account. autounfold with mutators. cbv zeta. solve_untouched.
Qed.
End gas.


(** ** Concrete runs *)

#[local] Existing Instance demo_tx_env.

(** A node with a store, where the account [1] holds [balance]. *)
Definition demo_funded (balance : Z) : StateDB :=
  State.put_account (demo_address 1) (Account.with_balance balance)
    (StateDB_new <| db_storage := Some Kv.new |>).

Lemma demo_funded_coherent balance : coherent (demo_funded balance).
Proof. apply put_account_inv. split; [by intros ??|]. intros a. split; [set_solver|by intros (?&?&?)]. Qed.

(** Account [1] sends 5 to account [2]. *)
Definition demo_payment (nonce : Z) : SignedTransaction :=
  demo_tx 1 nonce 1000000000 21000 (Transfer (demo_address 2) 5).

Definition demo_block (txs : list SignedTransaction) : BlockRun :=
  MkBlockRun txs 10000000 7 1000 0 GasConfig_default (demo_address 9) 0 ConsensusParams_default.

Lemma replay_rejected_witness :
  let s := demo_funded (Amount.from_vtt 1) in
  let s1 := (Tx.execute_transaction_at (E:=Empty_set) (demo_payment 0) GasConfig_default 7 1000 0 s).2 in
  let s2 := run_blocks [demo_block [demo_payment 1; demo_payment 0]] s1 in
  (Tx.execute_transaction_at (E:=Empty_set) (demo_payment 0) GasConfig_default 8 4000 0 s2).2 = s2.
Proof.
  intros s s1 s2.
  pose proof (replay_rejected (demo_payment 0) GasConfig_default 7 1000 0 s
    [demo_block [demo_payment 1; demo_payment 0]] GasConfig_default 8 4000 0) as Hr.
  cbv zeta in Hr. unfold s2, s1. rewrite Hr; [done|..].
  - apply demo_funded_coherent.
  - vm_compute. discriminate.
  - split; [vm_compute; reflexivity|]. exists 21000000000005. vm_compute. reflexivity.
  - vm_compute. reflexivity.
  - exact I.
  - repeat constructor.
Defined.

(** Account [1] asks for a cross-chain transfer, which always fails. *)
Definition demo_failing : SignedTransaction :=
  demo_tx 1 0 1000000000 100000 (CrossChainTransfer 3 (demo_address 2) (VttTransfer 5)).

Lemma failed_transaction_atomic_witness :
  let s := demo_funded (Amount.from_vtt 1) in
  let s' := (Tx.execute_transaction_at (E:=Empty_set) demo_failing GasConfig_default 7 1000 0 s).2 in
  State.get_account s' (demo_address 1) = charged 63000000000000 (Account.with_balance (Amount.from_vtt 1)).
Proof.
  intros s s'.
  assert (Hr : (Tx.execute_transaction_at (E:=Empty_set) demo_failing GasConfig_default 7 1000 0 s).1
    = Ok (Tx.fail_receipt (Tx.tx_hash demo_failing) 63000)) by (vm_compute; reflexivity).
  apply run_Ok in Hr.
  assert (Hx : db_accounts s !! Tx.tx_sender demo_failing = Some (Account.with_balance (Amount.from_vtt 1)))
    by (vm_compute; reflexivity).
  assert (Ha0 : State.get_account s (Tx.tx_sender demo_failing) = Account.with_balance (Amount.from_vtt 1))
    by (vm_compute; reflexivity).
  assert (Hf : Tx.gas_fee demo_failing GasConfig_default = 63000000000000) by (vm_compute; reflexivity).
  assert (Hse : Tx.tx_sender demo_failing = demo_address 1) by (vm_compute; reflexivity).
  assert (Had : Tx.admissible s demo_failing GasConfig_default 0 = true) by (vm_compute; reflexivity).
  assert (Hv : Tx.total_value 63000000000000 (tp_action (tx_payload demo_failing)) = Some 63000000000000)
    by reflexivity.
  assert (Hm : Z.min 63000000000000 (State.get_balance s (demo_address 1)) = 63000000000000)
    by (vm_compute; reflexivity).
  pose proof (failed_transaction_atomic demo_failing GasConfig_default 7 1000 0 s _ _
    (or_introl (mk_is_Some _ _ Hx)) Hr eq_refl) as Ht.
  unfold s'. rewrite Hf, Ha0, Hse, Had, Hv, Hm in Ht.
  destruct Ht as [[_ [Hn|Hn]]|(fee & [->| ->] & _ & Ha & _)]; [discriminate Hn|discriminate Hn|exact Ha|exact Ha].
Defined.

(** The same node after a restart. *)
Definition demo_cold (balance : Z) : StateDB :=
  StateDB_new <| db_storage := Some (Kv.put Accounts (address_bytes (demo_address 1))
    (to_vec (Account.with_balance balance)) Kv.new) |>.

Lemma uncached_sender_charged_twice_witness :
  let s := demo_cold (Amount.from_vtt 1) in
  let s' := (Tx.execute_transaction_at (E:=Empty_set) demo_failing GasConfig_default 7 1000 0 s).2 in
  State.get_nonce s' (demo_address 1) = 2
  ∧ State.get_balance s' (demo_address 1) = Amount.from_vtt 1 - 2 * 63000000000000.
Proof.
  intros s s'.
  assert (Hf : Tx.gas_fee demo_failing GasConfig_default = 63000000000000) by (vm_compute; reflexivity).
  assert (Hse : Tx.tx_sender demo_failing = demo_address 1) by (vm_compute; reflexivity).
  assert (Hadm : Tx.admissible s demo_failing GasConfig_default 0 = true) by (vm_compute; reflexivity).
  assert (Hb : Tx.gas_fee demo_failing GasConfig_default <= State.get_balance s (Tx.tx_sender demo_failing))
    by (vm_compute; discriminate).
  assert (Hun : db_accounts s !! Tx.tx_sender demo_failing = None) by (vm_compute; reflexivity).
  assert (Hst : is_Some (db_storage s)) by (by eexists).
  pose proof (uncached_sender_charged_twice demo_failing GasConfig_default 7 1000 0 s 3 (demo_address 2)
    (VttTransfer 5) eq_refl Hadm Hun Hst Hb) as Ht.
  cbv zeta in Ht. unfold State.get_nonce, State.get_balance, s'. rewrite <- Hse, Ht.
  split; vm_compute; reflexivity.
Defined.

Lemma block_gas_bounded_witness :
  let s := demo_funded (Amount.from_vtt 1) in
  let run := Tx.execute_block_transactions_at (E:=Empty_set) [demo_payment 0; demo_payment 1]
    GasConfig_default 21000 7 1000 0 s in
  ∃ receipts gas, run.1 = Ok (receipts, gas) ∧ gas = receipts_gas receipts ∧ 21000 <= gas < 42000.
Proof.
  intros s run.
  assert (Hr : match run.1 with Ok (l, g) => g = 21000 ∧ length l = 1%nat | _ => False end)
    by (vm_compute; split; reflexivity).
  unfold run in *. clear run.
  destruct (Tx.execute_block_transactions_at _ _ _ _ _ _ s) as [[[l g]|e|] s1] eqn:Hrun;
    [|destruct Hr..]. destruct Hr as [Hg Hl]. exists l, g.
  destruct (block_gas_bounded [demo_payment 0; demo_payment 1] GasConfig_default 21000 7 1000 0 21000
    s l g s1) as (Hsum & _ & _ & Hlim).
  - lia.
  - lia.
  - intros tx [->|[->|[]%elem_of_nil]%elem_of_cons]%elem_of_cons; vm_compute; split; discriminate.
  - exact Hrun.
  - split; [reflexivity|]. split; [exact Hsum|]. rewrite Hl in Hlim. specialize (Hlim ltac:(cbn; lia)). lia.
Defined.

(** A transfer by the account [5], which holds nothing. *)
Definition demo_penniless : SignedTransaction :=
  demo_tx 5 0 1000000000 21000 (Transfer (demo_address 2) 5).

Lemma unpaid_gas_pays_producer_witness :
  ∃ s', State.get_balance s' (demo_address 9) = 6300000000000 ∧ State.get_balance s' (demo_address 5) = 0.
Proof.
  assert (Hg : Tx.gas_to_use demo_penniless GasConfig_default = 21000) by (vm_compute; reflexivity).
  pose proof (unpaid_gas_pays_producer demo_penniless GasConfig_default 7 1000 0 10000000 21000000000005
    (demo_address 9) BlockSettlementSummary_default StateDB_new) as Ht.
  cbv zeta in Ht. rewrite Hg in Ht.
  destruct Ht as (s1 & s2 & sm & _ & _ & Hb).
  all: try (vm_compute; (reflexivity || discriminate)).
  { split; vm_compute; [discriminate|reflexivity]. }
  exists s2. rewrite !Hb. split; vm_compute; reflexivity.
Defined.
