(* ===== verification/GovProps.v ===== *)
(** * Properties of on-chain governance

    The life cycle of a stored proposal across the settlement of a block, the
    round trip of an address through a parameter change, and the proposal that
    stops a node. *)

From S2P Require Import Prelude Primitives RustStr Storage Assets Oracle StateDB Codecs Ledger.
From S2P Require Import Snapshot ExecStaking Governance Compliance Multichain Vm.
From S2P Require Import ExecAssets ExecGov Executor ExecCodecs ExecFrame.

(** ** Addresses as parameter values *)

(** The last byte of a hexadecimal text is a hexadecimal digit. *)
Lemma hex_encode_last s c :
  ∃ d, 0 <= d < 16 ∧ first_byte (brev (Str.hex_encode (String c s))) = Some (Str.hex_digit d).
Proof.
  revert c. induction s as [|c' s IH]; intros c.
  - destruct (byte_nibbles c) as [_ H2]. by eexists.
  - destruct (IH c') as (d & Hd & Hb). exists d. split; [done|].
    change (Str.hex_encode (String c (String c' s))) with
      (String (Str.hex_digit (Z_of_byte c / 16)) (String (Str.hex_digit (Z_of_byte c mod 16)) "")
         +:+ Str.hex_encode (String c' s)).
    rewrite brev_app. destruct (brev (Str.hex_encode (String c' s))); done.
Qed.

Lemma trim_address a : address_bytes a ≠ "" → Str.trim (address_to_string a) = address_to_string a.
Proof.
  destruct a as [[|c s]]; [done|]. intros _. destruct (hex_encode_last s c) as (d & Hd & Hb).
  apply (trim_solid (Str.hex_digit 0) (Str.hex_digit d)).
  - by apply hex_digit_solid.
  - by apply hex_digit_solid.
  - done.
  - unfold address_to_string. cbn [address_bytes]. rewrite brev_app.
    by destruct (brev (Str.hex_encode (String c s))).
Qed.

Lemma parse_address_print a :
  String.length (address_bytes a) = 20%nat → GovTx.parse_address (address_to_string a) = Ok (Some a).
Proof.
  intros Hl. unfold GovTx.parse_address. rewrite trim_address by (intros E; by rewrite E in Hl).
  replace (default _ _) with (Str.hex_encode (address_bytes a)) by done.
  replace (blen _ =? 40) with true
    by (symmetry; apply Z.eqb_eq; unfold blen; rewrite hex_encode_length, Hl; done).
  cbn [negb]. rewrite <- Hl, hex_bytes_encode. by destruct a.
Qed.

Section parameters.
Context `{!Env, !ExecCodec, !GovEnv}.

(** An address written as the node prints it survives a parameter change:
    the value passes the validation of the proposal, and executing it installs
    exactly that address, as the treasury or as the bridge relayer. *)
Theorem address_parameter_roundtrip {E} a s :
  String.length (address_bytes a) = 20%nat → is_Some (db_storage s) →
  let text := address_to_string a in
  GovTx.validate_parameter_change "treasury_address" text = Ok tt ∧
  GovTx.validate_parameter_change "bridge_relayer" text = Ok tt ∧
  (∃ s', GovTx.apply_parameter_change (E:=E) "treasury_address" text s = (Ok tt, s') ∧
         db_treasury_address s' = a) ∧
  (∃ s', GovTx.apply_parameter_change (E:=E) "bridge_relayer" text s = (Ok tt, s') ∧
         State.bridge_relayer s' = a).
Proof.
  intros Hl Hs text.
  assert (Ht : param_key "treasury_address" = Some PkTreasuryAddress) by (vm_compute; reflexivity).
  assert (Hr : param_key "bridge_relayer" = Some PkBridgeRelayer) by (vm_compute; reflexivity).
  unfold GovTx.validate_parameter_change, GovTx.check_param_value, GovTx.apply_parameter_change.
  rewrite Ht, Hr. unfold text. rewrite parse_address_print by done.
  split; [done|]. split; [done|]. split; eexists; (split; [done|]).
  - done.
  - unfold State.bridge_relayer, State.set_bridge_relayer. rewrite disk_get_persist_eq by done.
    unfold blen. rewrite Hl. by destruct a.
Qed.
End parameters.

(** ** The proposal that stops a node *)

(** Forty bytes with the two-byte letter U+00E9 across the second offset. *)
Definition cut_value : bytes :=
  "a" +:+ String (Ascii.ascii_of_nat 195) (String (Ascii.ascii_of_nat 169)
    "0000000000000000000000000000000000000").

Section crash.
Context `{!TxEnv}.

(** Any funded account, staked or not, can stop every node that executes its
    transaction: a proposal to change the bridge relayer or the treasury address
    to a forty-byte text whose characters do not start at even offsets is cut
    inside a character while it is validated, which panics. *)
Theorem proposal_value_panics tx gc b t chain_id s description key recipient amount :
  key = "bridge_relayer" ∨ key = "treasury_address" →
  description ≠ "" →
  tp_action (tx_payload tx) =
    GovernancePropose description "parameter_change" (Some key) (Some cut_value) recipient amount →
  Tx.admissible s tx gc chain_id = true →
  Tx.gas_fee tx gc <= State.get_balance s (Tx.tx_sender tx) →
  (Tx.execute_transaction_at (E:=Empty_set) tx gc b t chain_id s).1 = Panic.
Proof.
  intros Hk Hd Hact Hadm Hfee. unfold Tx.execute_transaction_at. mrun.
  rewrite Hadm, Hact. cbn [negb Tx.total_value].
  replace (_ <? _) with false by (symmetry; by apply Z.ltb_ge).
  assert (Hp : ∀ s1, (Tx.execute_action (Tx.tx_sender tx) (GovernancePropose description
    "parameter_change" (Some key) (Some cut_value) recipient amount) b t (tp_nonce (tx_payload tx))
    (tp_gas_limit (tx_payload tx)) s1) = (Panic, s1)).
  { intros s1. cbn [Tx.execute_action]. unfold GovTx.execute_governance_propose. mrun.
    rewrite bool_decide_false by done.
    assert (Hpa : GovTx.proposal_action description "parameter_change" (Some key) (Some cut_value)
      recipient amount = Panic) by (destruct Hk as [-> | ->]; vm_compute; reflexivity).
    by rewrite Hpa. }
  destruct (Tx.charge _ _ s) as [[[]|[]|] s1]; [|done]. unfold Tx.conclude. by rewrite Hp.
Qed.
End crash.

(** ** The life cycle of a stored proposal *)

Section lifecycle.
Context `{!Env, !ExecCodec, !GovEnv}.

Definition proposal_of (s : StateDB) (id : H256) : option Proposal :=
  db_governance_proposals s !! id ≫= from_slice.

(** What the settlement of block [b] does to a proposal: one rule applies to each. *)
Inductive proposal_step (b : Z) (staked : Amount) : Proposal → Proposal → Prop :=
  | step_open p :
      pr_status p = PsActive → Proposal.is_voting_ended p b = false → proposal_step b staked p p
  | step_queue p :
      pr_status p = PsActive → Proposal.is_voting_ended p b = true →
      Proposal.has_quorum (E:=Empty_set) p staked = Ok true → Proposal.passes_threshold p = true →
      proposal_step b staked p (p <| pr_status := PsQueued (b + execution_delay_blocks) |>)
  | step_reject p :
      pr_status p = PsActive → Proposal.is_voting_ended p b = true →
      Proposal.has_quorum (E:=Empty_set) p staked = Ok false ∨ Proposal.passes_threshold p = false →
      proposal_step b staked p (p <| pr_status := PsRejected |>)
  | step_wait p after :
      pr_status p = PsQueued after → b < after → proposal_step b staked p p
  | step_execute p after :
      pr_status p = PsQueued after → after <= b →
      proposal_step b staked p (p <| pr_status := PsExecuted |>)
  | step_closed p :
      pr_status p ∈ [PsPassed; PsRejected; PsExecuted] → proposal_step b staked p p.

(** The tables of two states differ at most at [id]. *)
Definition only_at (id : H256) (s s' : StateDB) : Prop :=
  ∀ j, j ≠ id → db_governance_proposals s' !! j = db_governance_proposals s !! j.

(** The proposal at [id], if there is one, made a step of [Q]. *)
Definition stepped (Q : Proposal → Proposal → Prop) (s s' : StateDB) (id : H256) : Prop :=
  match proposal_of s id with
  | Some p => ∃ p', proposal_of s' id = Some p' ∧ Q p p'
  | None => proposal_of s' id = None
  end.

Lemma put_proposal_at id data s :
  db_governance_proposals (State.put_governance_proposal id data s) !! id = Some data
  ∧ only_at id s (State.put_governance_proposal id data s).
Proof.
  unfold State.put_governance_proposal, only_at. rewrite persist_unfold. cbn.
  split; [apply lookup_insert_eq|]. intros j Hj. by rewrite lookup_insert_ne.
Qed.

(** A loop body that touches the proposal it is given only, by a step of [Q]. *)
Definition good_body {E} (Q : Proposal → Proposal → Prop) (body : H256 → bytes → M StateDB E bool)
    : Prop :=
  ∀ id data s r s', db_governance_proposals s !! id = Some data → body id data s = (Ok r, s') →
    only_at id s s' ∧ stepped Q s s' id.

Lemma stepped_at Q s s' t t' id :
  db_governance_proposals t !! id = db_governance_proposals s !! id →
  db_governance_proposals t' !! id = db_governance_proposals s' !! id →
  stepped Q s s' id → stepped Q t t' id.
Proof. unfold stepped, proposal_of. by intros -> ->. Qed.

Lemma count_loop_stepped {E} Q (body : H256 → bytes → M StateDB E bool) l : ∀ n s n' s',
  good_body Q body → NoDup l.*1 →
  (∀ id data, (id, data) ∈ l → db_governance_proposals s !! id = Some data) →
  GovTx.count_loop body l n s = (Ok n', s') →
  (∀ id, id ∉ l.*1 → db_governance_proposals s' !! id = db_governance_proposals s !! id) ∧
  ∀ id, id ∈ l.*1 → stepped Q s s' id.
Proof.
  induction l as [|[id data] l IH]; intros n s n' s' Hb Hnd Hl Hrun; cbn [GovTx.count_loop] in Hrun.
  { injection Hrun as _ <-. split; [done|by intros id Hi%elem_of_nil]. }
  revert Hrun. mrun. destruct (body id data s) as [[r|e|] s1] eqn:E1; [|done..]. intros Hrun.
  apply NoDup_cons in Hnd as [Hni Hnd].
  destruct (Hb id data s r s1) as [Hon Hst]; [apply Hl; by left|done|].
  apply IH in Hrun as [Hout Hrest]; [|done|done|].
  2: { intros i d Hi. rewrite Hon; [apply Hl; by right|].
       intros ->. apply Hni. apply list_elem_of_fmap. by exists (id, d). }
  split.
  - intros i [Hi Hil]%not_elem_of_cons. rewrite Hout by done. by apply Hon.
  - intros j Hj. destruct (decide (j = id)) as [->|Hne].
    + eapply stepped_at; [..|exact Hst]; [done|by apply Hout].
    + apply elem_of_cons in Hj as [?|Hj]; [done|].
      eapply stepped_at; [..|exact (Hrest j Hj)]; [by rewrite Hon|done].
Qed.

(** The loops run over every stored proposal, each once. *)
Lemma proposals_by_id_spec s :
  NoDup (GovTx.proposals_by_id s).*1 ∧
  ∀ id data, (id, data) ∈ GovTx.proposals_by_id s ↔ db_governance_proposals s !! id = Some data.
Proof.
  assert (Hp : GovTx.proposals_by_id s ≡ₚ map_to_list (db_governance_proposals s)).
  { unfold GovTx.proposals_by_id, State.iter_governance_proposals.
    rewrite <- hash_iter_perm. apply stable_sort_perm. }
  split.
  - rewrite Hp. apply NoDup_fst_map_to_list.
  - intros id data. rewrite Hp. apply elem_of_map_to_list.
Qed.

Lemma all_stepped {E} Q (body : H256 → bytes → M StateDB E bool) n s n' s' :
  good_body Q body → GovTx.count_loop body (GovTx.proposals_by_id s) n s = (Ok n', s') →
  ∀ id, stepped Q s s' id.
Proof.
  intros Hb Hrun id. destruct (proposals_by_id_spec s) as [Hnd Hin].
  apply (count_loop_stepped Q) in Hrun as [Hout Hst]; [|done|done|intros; by apply Hin].
  destruct (db_governance_proposals s !! id) as [data|] eqn:Hid.
  - apply Hst, list_elem_of_fmap. exists (id, data). split; [done|by apply Hin].
  - unfold stepped, proposal_of. rewrite Hout, Hid; [done|].
    intros ([i d] & Heq & Hi)%list_elem_of_fmap. cbn in Heq. subst i. apply Hin in Hi. congruence.
Qed.

Lemma stepped_put Q p p' id data s s0 :
  db_governance_proposals s !! id = Some data → from_slice data = Some p → Q p p' →
  stepped Q s (State.put_governance_proposal id (to_vec p') s0) id.
Proof.
  intros Hs Hd HQ. unfold stepped, proposal_of.
  rewrite Hs, (proj1 (put_proposal_at id (to_vec p') s0)). cbn.
  rewrite Hd, from_slice_to_vec. by exists p'.
Qed.

Lemma stepped_same Q id data s :
  db_governance_proposals s !! id = Some data → (∀ p, from_slice data = Some p → Q p p) →
  only_at id s s ∧ stepped Q s s id.
Proof.
  intros Hs HQ. split; [done|]. unfold stepped, proposal_of. rewrite Hs. cbn.
  destruct (from_slice data) as [p|]; [|done]. exists p. split; [done|by apply HQ].
Qed.

(** Finalization: the open proposals step, the others wait. *)
Definition finalized (b : Z) (staked : Amount) (p p' : Proposal) : Prop :=
  if bool_decide (pr_status p = PsActive) then proposal_step b staked p p' else p' = p.

Lemma finalize_one_body b staked :
  0 < execution_delay_blocks → 0 <= b → b + execution_delay_blocks < 2 ^ 64 →
  good_body (finalized b staked) (GovTx.finalize_one (E:=Empty_set) b staked).
Proof.
  intros Hdel Hb Hlim id data s r s' Hs. unfold GovTx.finalize_one.
  destruct (from_slice data) as [p|] eqn:Hd;
    [|intros [= <- <-]; apply (stepped_same _ id data); [done|congruence]].
  case_bool_decide as Ha.
  { intros [= <- <-]. apply (stepped_same _ id data); [done|]. intros p' Hp'. simplify_eq.
    unfold finalized. by rewrite bool_decide_false. }
  assert (Hact : pr_status p = PsActive) by (destruct (pr_status p); congruence || by destruct Ha).
  destruct (Proposal.is_voting_ended p b) eqn:He; cbn [negb].
  2: { intros [= <- <-]. apply (stepped_same _ id data); [done|]. intros p' Hp'. simplify_eq.
       unfold finalized. rewrite bool_decide_true by done. by apply step_open. }
  mrun. destruct (Proposal.has_quorum p staked) as [q|[]|] eqn:Hq; [|done]. intros [= <- <-].
  rewrite wrap_small by (unfold in_width; lia). split; [apply put_proposal_at|].
  eapply stepped_put; [done|done|]. unfold finalized. rewrite bool_decide_true by done.
  destruct q, (Proposal.passes_threshold p) eqn:Ht; cbn [andb];
    try (by apply step_queue); apply step_reject; by auto.
Qed.

(** Finalization writes proposals and nothing else. *)
Lemma finalize_loop_writes b staked l : ∀ n s n' s',
  GovTx.count_loop (GovTx.finalize_one (E:=Empty_set) b staked) l n s = (Ok n', s') →
  ∃ w, s' = foldl (λ s kv, State.put_governance_proposal kv.1 kv.2 s) s w.
Proof.
  induction l as [|[id data] l IH]; intros n s n' s' Hrun; cbn [GovTx.count_loop] in Hrun.
  { injection Hrun as _ <-. by exists []. }
  revert Hrun. mrun.
  destruct (GovTx.finalize_one b staked id data s) as [[r|e|] s1] eqn:E1; [|done..].
  intros (w & ->)%IH. revert E1. unfold GovTx.finalize_one.
  destruct (from_slice data) as [p|]; [|intros [= <- <-]; by exists w].
  case_bool_decide; [intros [= <- <-]; by exists w|].
  destruct (Proposal.is_voting_ended p b); cbn [negb]; [|intros [= <- <-]; by exists w].
  mrun. destruct (Proposal.has_quorum p staked) as [q|[]|]; [|done]. intros [= <- <-].
  by eexists ((_, _) :: w).
Qed.

Lemma put_proposals_dex w : ∀ s,
  db_dex_paused (foldl (λ s kv, State.put_governance_proposal kv.1 kv.2 s) s w) = db_dex_paused s.
Proof.
  induction w as [|kv w IH]; intros s; cbn; [done|]. rewrite IH.
  unfold State.put_governance_proposal. by rewrite persist_unfold.
Qed.

(** What a proposal does when it is executed does not touch the proposals, and
    pauses the exchange only when it says so. *)
Section enact.
Context (m : gmap H256 bytes * bool).

#[local] Definition table_is (s : StateDB) : Prop := (db_governance_proposals s, db_dex_paused s) = m.

Lemma persist_table c k v s : table_is s → table_is (persist c k v s).
Proof. unfold table_is. by rewrite persist_unfold. Qed.

Lemma put_account_table a acc s : table_is s → table_is (State.put_account a acc s).
Proof. unfold table_is. by rewrite put_account_unfold. Qed.

#[local] Hint Resolve persist_table put_account_table : keeps_db.

Lemma add_balance_table a v : keeps table_is (State.add_balance a v).
Proof. unfold State.add_balance. solve_keeps. Qed.

Lemma sub_balance_table a v : keeps table_is (State.sub_balance a v).
Proof. unfold State.sub_balance. solve_keeps. Qed.

#[local] Hint Resolve add_balance_table sub_balance_table : keeps_db.

Lemma apply_parameter_change_table E k v : keeps table_is (GovTx.apply_parameter_change (E:=E) k v).
Proof.
  unfold GovTx.apply_parameter_change, GovTx.set_number.
  destruct (param_key k) as [[]|]; solve_keeps; autounfold with mutators; cbv zeta;
    repeat match goal with
           | |- table_is (match ?x with _ => _ end) => destruct x
           | |- table_is (if ?x then _ else _) => destruct x
           end; try done; by apply persist_table.
Qed.

Lemma register_app_chain_table n c a b : keeps table_is (GovTx.register_app_chain n c a b).
Proof.
  unfold GovTx.register_app_chain. solve_keeps. intros s Hs. by apply persist_table.
Qed.

#[local] Hint Resolve apply_parameter_change_table register_app_chain_table : keeps_db.

Lemma enact_table E p b :
  (∀ x, pr_action p ≠ DexPause x) → keeps table_is (GovTx.enact (E:=E) p b).
Proof.
  intros Hp. unfold GovTx.enact, GovTx.treasury_spend, State.transfer.
  destruct (pr_action p) eqn:Ha; solve_keeps; first [by apply persist_table|by destruct (Hp paused)].
Qed.
End enact.

(** The switch of the exchange after a proposal. *)
Definition dex_switch (paused : bool) (p : Proposal) : bool :=
  match pr_action p with DexPause x => x | _ => paused end.

Lemma enact_effect E p b s :
  db_governance_proposals (GovTx.enact (E:=E) p b s).2 = db_governance_proposals s
  ∧ db_dex_paused (GovTx.enact (E:=E) p b s).2 = dex_switch (db_dex_paused s) p.
Proof.
  unfold dex_switch. destruct (pr_action p) eqn:Ha.
  5: { unfold GovTx.enact. rewrite Ha. unfold modify, State.set_dex_paused. cbn. by rewrite persist_unfold. }
  all: pose proof (enact_table (db_governance_proposals s, db_dex_paused s) E p b) as Hk;
    unfold keeps, table_is in Hk; rewrite Ha in Hk; specialize (Hk ltac:(done) s eq_refl); by simplify_eq.
Qed.

(** The timelock of a queued proposal has expired. *)
Definition ripe (b : Z) (p : Proposal) : bool :=
  match pr_status p with PsQueued after => after <=? b | _ => false end.

(** The proposals that are due at block [b], in the order of their ids. *)
Definition due (b : Z) (s : StateDB) : list (H256 * Proposal) :=
  omap (λ kv, p ← from_slice kv.2; if ripe b p then Some (kv.1, p) else None) (GovTx.proposals_by_id s).

(** A proposal takes effect and is recorded as executed. *)
Definition carry_out (b : Z) (kv : H256 * Proposal) : M StateDB Empty_set unit :=
  _ ← GovTx.enact kv.2 b;
  modify (State.put_governance_proposal kv.1 (to_vec (kv.2 <| pr_status := PsExecuted |>))).

Lemma elem_of_due b s id p : (id, p) ∈ due b s ↔ proposal_of s id = Some p ∧ ripe b p = true.
Proof.
  unfold due, proposal_of. rewrite list_elem_of_omap. split.
  - intros ([i d] & Hin%proposals_by_id_spec & Hp). cbn in Hp.
    destruct (from_slice d) as [q|] eqn:Hd; cbn in Hp; [|done].
    destruct (ripe b q) eqn:Hr; [|done]. simplify_eq. rewrite Hin. by cbn.
  - destruct (db_governance_proposals s !! id) as [d|] eqn:Hid; cbn; [|by intros []].
    intros [Hd Hr]. exists (id, d). split; [by apply proposals_by_id_spec|]. cbn. rewrite Hd. cbn. by rewrite Hr.
Qed.

(** One turn of the execution loop. *)
Lemma execute_one_spec b id data s r s' :
  GovTx.execute_one (E:=Empty_set) b id data s = (Ok r, s') →
  match from_slice data with
  | Some p => if ripe b p then carry_out b (id, p) s = (Ok tt, s') else s' = s
  | None => s' = s
  end.
Proof.
  unfold GovTx.execute_one, ripe, carry_out.
  destruct (from_slice data) as [p|]; [|by intros [= _ <-]].
  destruct (pr_status p) as [| |after| |]; try by intros [= _ <-].
  rewrite Z.leb_antisym. destruct (b <? after); cbn [negb]; [by intros [= _ <-]|].
  mrun. cbn [fst snd]. destruct (GovTx.enact p b s) as [[[]|[]|] s1]; [|done]. by intros [= _ <-].
Qed.

Lemma execute_one_body b :
  good_body (λ p p', p' = if ripe b p then p <| pr_status := PsExecuted |> else p)
    (GovTx.execute_one (E:=Empty_set) b).
Proof.
  intros id data s r s' Hs Hrun%execute_one_spec.
  destruct (from_slice data) as [p|] eqn:Hd;
    [|subst s'; apply (stepped_same _ id data); [done|congruence]].
  destruct (ripe b p) eqn:Hr.
  2: { subst s'. apply (stepped_same _ id data); [done|]. intros q Hq. simplify_eq. by rewrite Hr. }
  revert Hrun. unfold carry_out. mrun. cbn [fst snd].
  destruct (enact_effect Empty_set p b s) as [He _].
  destruct (GovTx.enact p b s) as [[[]|[]|] s1]; [|done]. intros [= <-]. cbn [snd] in He. split.
  - intros j Hj. rewrite (proj2 (put_proposal_at id _ s1) j Hj). by rewrite He.
  - eapply stepped_put; [done|done|]. by rewrite Hr.
Qed.

(** The loop carries out what is due. *)
Lemma execute_loop_due b l : ∀ n s n' s',
  GovTx.count_loop (GovTx.execute_one (E:=Empty_set) b) l n s = (Ok n', s') →
  for_each (omap (λ kv, p ← from_slice kv.2; if ripe b p then Some (kv.1, p) else None) l)
    (carry_out b) s = (Ok tt, s').
Proof.
  induction l as [|[id data] l IH]; intros n s n' s' Hrun; cbn [GovTx.count_loop] in Hrun.
  { by injection Hrun as _ <-. }
  revert Hrun. mrun. destruct (GovTx.execute_one b id data s) as [[r|e|] s1] eqn:E1; [|done..].
  intros Hrun%IH. apply execute_one_spec in E1. cbn [omap list_omap fst snd].
  destruct (from_slice data) as [p|]; cbn [mbind option_bind]; [|by subst s1].
  destruct (ripe b p); [|by subst s1]. cbn [for_each]. mrun. by rewrite E1.
Qed.

Lemma carry_out_switch b id p s s' :
  carry_out b (id, p) s = (Ok tt, s') → db_dex_paused s' = dex_switch (db_dex_paused s) p.
Proof.
  unfold carry_out. mrun. cbn [fst snd]. destruct (enact_effect Empty_set p b s) as [_ He].
  destruct (GovTx.enact p b s) as [[[]|[]|] s1]; [|done]. cbn [snd] in He. intros [= <-].
  rewrite <- He. unfold State.put_governance_proposal. by rewrite persist_unfold.
Qed.

Lemma carry_out_dex b l : ∀ s s',
  for_each l (carry_out b) s = (Ok tt, s') →
  db_dex_paused s' = foldl dex_switch (db_dex_paused s) l.*2.
Proof.
  induction l as [|[id p] l IH]; intros s s' Hrun; cbn [for_each] in Hrun.
  { by injection Hrun as <-. }
  revert Hrun. mrun. destruct (carry_out b (id, p) s) as [[[]|[]|] s1] eqn:E1; [|done].
  intros ->%IH. cbn. f_equal. by apply carry_out_switch in E1.
Qed.

Lemma finalize_effects b staked s n s1 :
  0 < execution_delay_blocks → 0 <= b → b + execution_delay_blocks < 2 ^ 64 →
  GovTx.finalize_governance_proposals (E:=Empty_set) b staked s = (Ok n, s1) →
  ∃ w, s1 = foldl (λ s kv, State.put_governance_proposal kv.1 kv.2 s) s w
     ∧ ∀ id, stepped (finalized b staked) s s1 id.
Proof.
  intros Hd Hb Hlim. unfold GovTx.finalize_governance_proposals. mrun. intros Hf.
  destruct (finalize_loop_writes _ _ _ _ _ _ _ Hf) as [w Hw]. exists w. split; [done|].
  eapply all_stepped; [|exact Hf]. by apply finalize_one_body.
Qed.

(** A proposal that finalization left is not due unless it was before. *)
Lemma finalized_ripe b staked p p' :
  0 < execution_delay_blocks → finalized b staked p p' → ripe b p' = true → p' = p ∧ ripe b p = true.
Proof.
  intros Hd. unfold finalized. case_bool_decide as Ha; [|by intros ->].
  intros Hst. destruct Hst; unfold ripe; cbn; rewrite ?Ha; try done.
  intros Hle%Z.leb_le. lia.
Qed.

Lemma settled_step b staked p p' :
  0 < execution_delay_blocks → finalized b staked p p' →
  proposal_step b staked p (if ripe b p' then p' <| pr_status := PsExecuted |> else p').
Proof.
  intros Hd Hf. destruct (ripe b p') eqn:Hr.
  - destruct (finalized_ripe _ _ _ _ Hd Hf Hr) as [-> Hr']. revert Hr'. unfold ripe.
    destruct (pr_status p) as [| |after| |] eqn:Hs; try done. intros Hle%Z.leb_le. by eapply step_execute.
  - revert Hf. unfold finalized. case_bool_decide as Ha; [done|]. intros ->. revert Hr. unfold ripe.
    destruct (pr_status p) as [| |after| |] eqn:Hs; try done; try (intros _; apply step_closed; rewrite Hs; set_solver).
    intros Hlt%Z.leb_gt. by eapply step_wait.
Qed.

Lemma due_before b staked s s1 id p :
  0 < execution_delay_blocks → stepped (finalized b staked) s s1 id →
  proposal_of s1 id = Some p ∧ ripe b p = true ↔ proposal_of s id = Some p ∧ ripe b p = true.
Proof.
  intros Hd. unfold stepped. destruct (proposal_of s id) as [q|].
  - intros (p1 & -> & Hf). split; intros [[= ->] Hr].
    + by destruct (finalized_ripe _ _ _ _ Hd Hf Hr) as [-> _].
    + revert Hf. unfold finalized. rewrite bool_decide_false; [by intros ->|].
      intros Ha. unfold ripe in Hr. by rewrite Ha in Hr.
  - intros ->. by split; intros [].
Qed.

Lemma NoDup_due b s : NoDup (due b s).*1.
Proof.
  destruct (proposals_by_id_spec s) as [Hnd _]. unfold due. revert Hnd.
  induction (GovTx.proposals_by_id s) as [|[id data] l IH]; cbn; [constructor|].
  intros [Hni Hnd]%NoDup_cons. destruct (from_slice data) as [p|]; cbn; [|by apply IH].
  destruct (ripe b p); [|by apply IH]. cbn. apply NoDup_cons. split; [|by apply IH].
  intros ([i q] & Heq & Hin)%list_elem_of_fmap. cbn in Heq. subst i. apply Hni.
  apply list_elem_of_omap in Hin as ([i d] & Hin & Hp). apply list_elem_of_fmap. exists (i, d).
  cbn in Hp. destruct (from_slice d) as [r|]; [|done]. cbn in Hp. destruct (ripe b r); by simplify_eq.
Qed.

End lifecycle.

#[local] Existing Instance demo_tx_env.

Lemma address_parameter_roundtrip_witness :
  ∃ s', GovTx.apply_parameter_change (E:=Empty_set) "treasury_address"
          (address_to_string (demo_address 77)) (StateDB_new <| db_storage := Some Kv.new |>) = (Ok tt, s')
    ∧ db_treasury_address s' = demo_address 77.
Proof.
  pose proof (address_parameter_roundtrip (E:=Empty_set) (demo_address 77)
    (StateDB_new <| db_storage := Some Kv.new |>) (to_le_bytes_length 20 77) ltac:(by eexists)) as H.
  exact (proj1 (proj2 (proj2 H))).
Defined.

(** The account [1], which has staked nothing, proposes a new bridge relayer. *)
Definition demo_cut_proposal : SignedTransaction :=
  demo_tx 1 0 1000000000 100000
    (GovernancePropose "relayer" "parameter_change" (Some "bridge_relayer") (Some cut_value) None None).

Lemma proposal_value_panics_witness :
  let s := State.with_accounts [(demo_address 1, Account.with_balance (Amount.from_vtt 1))] in
  (Tx.execute_transaction_at (E:=Empty_set) demo_cut_proposal GasConfig_default 7 1000 0 s).1 = Panic.
Proof.
  intros s.
  assert (Hadm : Tx.admissible s demo_cut_proposal GasConfig_default 0 = true)
    by (vm_compute; reflexivity).
  assert (Hfee : Tx.gas_fee demo_cut_proposal GasConfig_default
    <= State.get_balance s (Tx.tx_sender demo_cut_proposal)) by (vm_compute; discriminate).
  exact (proposal_value_panics demo_cut_proposal GasConfig_default 7 1000 0 s "relayer" "bridge_relayer"
    None None (or_introl eq_refl) ltac:(discriminate) eq_refl Hadm Hfee).
Defined.

(** A proposal to pause the exchange, carried by the whole stake. *)
Definition demo_proposal (status : ProposalStatus) : Proposal :=
  MkProposal (demo_hash 8) (demo_address 1) (DexPause true) "pause" 0 10 status 100 0 0
    [demo_address 1] 0 100.

