(* ===== verification/AssetProps.v ===== *)
(** * Properties of revenue distribution and redemption

    What each holder receives, what the issuer and the redemption pool give, and
    when the two sides agree. *)

From S2P Require Import Prelude Primitives RustStr Storage Assets Oracle StateDB Codecs Ledger.
From S2P Require Import Holdings ExecStaking TxCodec ExecAssets ExecAdmin Executor ExecCodecs ExecFrame.

Section revenue.
Context `{!Env, !ExecCodec}.

(** The share the code computes for a holder: [mul_div], zero or more. *)
Definition share (amount supply : Z) (h : Address * Amount) : Z :=
  match AssetTx.mul_div (E:=Empty_set) h.2 amount supply with Ok x => Z.max 0 x | _ => 0 end.

Definition revenue_shares (amount supply : Z) (hs : list (Address * Amount)) : Z :=
  list_sumZ (share amount supply) hs.

(** What the address [x] receives. *)
Definition received (amount supply : Z) (hs : list (Address * Amount)) (x : Address) : Z :=
  list_sumZ (λ h, if decide (h.1 = x) then share amount supply h else 0) hs.

Lemma mul_div_exact {E} a b c : 0 < c → a * b < 2 ^ 128 → AssetTx.mul_div (E:=E) a b c = Ok (a * b / c).
Proof.
  intros Hc Hab. unfold AssetTx.mul_div, checked_mul.
  rewrite (proj2 (Z.eqb_neq c 0)) by lia. by rewrite (proj2 (Z.ltb_lt _ _)).
Qed.

(** The share is the exact one, rounded down, as long as its product fits in 128
    bits. *)
Lemma share_exact amount supply h :
  0 <= amount → 0 < supply → 0 <= h.2 → h.2 * amount < 2 ^ 128 →
  share amount supply h = h.2 * amount / supply.
Proof.
  intros Ha Hs Hh Hp. unfold share. rewrite mul_div_exact by done.
  apply Z.max_r, Z.div_pos; nia.
Qed.

(** Beyond that the fallback loses it: a holding and an amount below the supply
    give nothing. *)
Lemma share_lost amount supply h :
  0 <= amount < supply → 0 <= h.2 < supply → 2 ^ 128 <= h.2 * amount → share amount supply h = 0.
Proof.
  intros Ha Hh Hp. unfold share, AssetTx.mul_div, checked_mul.
  rewrite (proj2 (Z.eqb_neq supply 0)) by lia. rewrite (proj2 (Z.ltb_ge _ _)) by lia.
  rewrite (Z.div_small h.2), (Z.mod_small h.2), (proj2 (Z.ltb_ge _ _)) by lia.
  by rewrite (Z.div_small h.2), (Z.div_small amount), Z.mul_0_r by lia.
Qed.

Lemma pay_holders_exact hs amount supply : ∀ d n s d' n' s',
  AssetTx.pay_holders hs amount supply d n s = (Ok (d', n'), s') →
  d' = d + revenue_shares amount supply hs ∧
  ∀ x, State.get_balance s' x = State.get_balance s x + received amount supply hs x.
Proof.
  induction hs as [|[h a] hs IH]; intros d n s d' n' s'; cbn [AssetTx.pay_holders].
  { intros [= <- <- <-]. unfold revenue_shares, received. cbn. split; [lia|]. intros x. lia. }
  mrun. unfold revenue_shares, received. cbn [list_sumZ fst snd].
  assert (Hsh : ∀ x, AssetTx.mul_div (E:=ExecutionError) a amount supply = Ok x →
    share amount supply (h, a) = Z.max 0 x).
  { intros x. unfold share, AssetTx.mul_div. cbn [snd]. by repeat case_match; intros [= <-]. }
  destruct (AssetTx.mul_div a amount supply) as [x|e|]; [|done..]. rewrite (Hsh x) by done.
  destruct (Z.ltb_spec 0 x) as [Hpos|Hz].
  - rewrite add_balance_spec. destruct (_ <? _); [|done].
    unfold Amount.add, checked_add. destruct (_ <? _); [|done]. cbn [expect mret res_ret].
    intros Hrun. apply IH in Hrun as [-> Hb]. split; [unfold revenue_shares; lia|].
    intros y. rewrite Hb, get_balance_put. unfold received. cbn [ac_balance upd upd_ac_balance].
    repeat case_decide; subst; try done; unfold State.get_balance in *; cbn; lia.
  - intros Hrun. apply IH in Hrun as [-> Hb]. rewrite Z.max_l by lia. split; [unfold revenue_shares; lia|].
    intros y. rewrite Hb. unfold received. case_decide; lia.
Qed.

Lemma shares_bound amount supply hs :
  0 <= amount → 0 < supply → Forall (λ h, 0 <= h.2 ∧ h.2 * amount < 2 ^ 128) hs →
  supply * revenue_shares amount supply hs <= list_sumZ snd hs * amount.
Proof.
  intros Ha Hs. unfold revenue_shares. induction 1 as [|h hs [Hh Hp] _ IH]; cbn; [lia|].
  rewrite share_exact by done. pose proof (Z.mul_div_le (h.2 * amount) supply Hs). lia.
Qed.

(** C27: distributing revenue credits every holder with the share the code computes
    for it and debits the issuer with the smaller of the amount and what was
    distributed: nothing else moves, and only the issuer can do it.  The share
    is the exact one rounded down while holding times amount stays below [2 ^ 128];
    beyond that a holder below the supply gets nothing of an amount below the
    supply.  When no product overflows and the holdings add up to no more than the
    supply, what is distributed is at most the amount, so the issuer pays exactly
    what the holders receive; with holdings beyond the supply the excess is
    created. *)
Theorem distribute_revenue_exact sender asset_id amount asset s logs s' :
  let supply := as_total_supply asset in
  let hs := AssetTx.holders_of s asset_id in
  State.get_asset s asset_id = Some asset → 0 <= amount → 0 < supply →
  AssetTx.execute_distribute_revenue sender asset_id amount s = (Ok logs, s') →
  as_issuer asset = sender ∧ amount <= State.get_balance s sender ∧
  (∀ x, State.get_balance s' x = State.get_balance s x + received amount supply hs x
          - (if decide (x = sender) then Z.min amount (revenue_shares amount supply hs) else 0)) ∧
  (∀ h, h ∈ hs → 0 <= h.2 →
     (h.2 * amount < 2 ^ 128 → share amount supply h = h.2 * amount / supply)
     ∧ (2 ^ 128 <= h.2 * amount → h.2 < supply → amount < supply → share amount supply h = 0)) ∧
  (Forall (λ h, 0 <= h.2 ∧ h.2 * amount < 2 ^ 128) hs → list_sumZ snd hs <= supply →
     revenue_shares amount supply hs <= amount).
Proof.
  intros supply hs Hasset Ha Hs. unfold AssetTx.execute_distribute_revenue, AssetTx.find_asset.
  mrun. destruct (Amount.is_zero amount); [done|]. rewrite Hasset. fold supply.
  case_bool_decide as Hiss; [done|]. destruct (Amount.is_zero supply); [done|]. fold hs.
  case_bool_decide as Hne; [done|]. rewrite sub_balance_spec.
  destruct (Z.leb_spec amount (State.get_balance s sender)) as [Hle|]; [|done].
  set (s1 := State.put_account _ _ _).
  assert (Hb1 : ∀ x, State.get_balance s1 x =
    State.get_balance s x - (if decide (x = sender) then amount else 0)).
  { intros x. unfold s1. rewrite get_balance_put. unfold State.get_balance. cbn.
    repeat case_decide; subst; try done; lia. }
  destruct (AssetTx.pay_holders _ _ _ _ _ _) as [[[d n]|e|] s2] eqn:Hpay; [|done..].
  apply pay_holders_exact in Hpay as [-> Hb2]. rewrite Z.add_0_l. intros Hrun.
  split; [done|]. split; [done|]. split; [|split].
  2: { intros h _ Hh. split; intros; [by apply share_exact|by apply share_lost]. }
  2: { intros Hf Hsum. pose proof (shares_bound amount supply hs Ha Hs Hf). nia. }
  unfold checked_sub in Hrun. destruct (Z.leb_spec (revenue_shares amount supply hs) amount) as [Hs1|Hs1].
  - rewrite Z.min_r by done. unfold Amount.is_zero in Hrun.
    destruct (Z.eqb_spec (amount - revenue_shares amount supply hs) 0) as [Hz|Hz].
    + injection Hrun as _ <-. intros x. rewrite Hb2, Hb1. case_decide; lia.
    + rewrite add_balance_spec in Hrun. destruct (_ <? _); [|done]. injection Hrun as _ <-.
      intros x. rewrite get_balance_put. cbn [ac_balance upd upd_ac_balance].
      repeat case_decide; subst; try done; unfold State.get_balance in *; cbn;
        rewrite ?Hb2, ?Hb1, ?decide_True, ?decide_False by done; lia.
  - rewrite Z.min_l by lia. injection Hrun as _ <-. intros x. by rewrite Hb2, Hb1; case_decide; lia.
Qed.
End revenue.

(** ** Redemption *)

Section redemption.
Context `{!Env, !ExecCodec}.

Lemma put_ownership_untouched r s : untouched s (State.put_ownership r s).2.
Proof.
  assert (keeps (untouched s) (State.put_ownership r)) as Hk; [|by apply Hk].
  unfold State.put_ownership, State.bump_holder_count. solve_keeps; solve_untouched.
Qed.

(** C28: a holder who redeems gives up all its units and receives its share of
    the pool, rounded down; the pool and the supply go down by exactly that, so
    the pool is never overdrawn, and the asset is closed when the last unit is
    in.  Nobody else's balance moves, and units and supply shrink together. *)
Theorem claim_redemption_exact sender asset_id asset s logs s' :
  let h := rec_total (rec_at s (asset_id, sender)) in
  let S := as_total_supply asset in
  let P := as_redemption_pool asset in
  let paid := h * P / S in
  own_inv s → State.get_asset s asset_id = Some asset → 0 <= S → 0 <= P →
  AssetTx.execute_claim_redemption sender asset_id s = (Ok logs, s') →
  as_status asset = RedemptionPending ∧ 0 < h <= S ∧ 0 <= paid <= P ∧ (h = S → paid = P) ∧
  (∀ x, State.get_balance s' x = State.get_balance s x + (if decide (x = sender) then paid else 0)) ∧
  asset_total s' asset_id = asset_total s asset_id - h ∧
  State.get_asset s' asset_id = Some (asset <| as_total_supply := S - h |>
    <| as_redemption_pool := P - paid |>
    <| as_status := if decide (S = h) then Redeemed else RedemptionPending |>).
Proof.
  intros h S P paid Hinv Hasset HS HP. unfold AssetTx.execute_claim_redemption, AssetTx.find_asset.
  mrun. rewrite Hasset. case_bool_decide as Hst; [done|]. fold S P.
  destruct (rec_at_total s (asset_id, sender) Hinv) as (_ & Hok & Hkey).
  change (State.get_ownership s asset_id sender) with (rec_at s (asset_id, sender)).
  rewrite (total_Ok _ Hok). fold h. unfold Amount.is_zero, checked_mul.
  destruct (Z.eqb_spec S 0); [done|]. destruct (Z.eqb_spec P 0); [done|].
  destruct (Z.eqb_spec h 0); [done|]. destruct (_ <? _); [|done]. fold paid.
  set (r0 := (rec_at s (asset_id, sender)) <| ow_available := 0 |> <| ow_locked := 0 |>).
  assert (Hr0 : rec_ok r0) by (unfold rec_ok, rec_total; cbn; lia).
  assert (Hk0 : (ow_asset_id r0, ow_owner r0) = (asset_id, sender)) by exact Hkey.
  destruct (put_ownership_spec r0 s Hinv Hr0) as (s1 & Hput & Hown & Hassets & _).
  pose proof (put_ownership_untouched r0 s) as Hun. rewrite Hput in Hun |- *. cbn [snd] in Hun.
  rewrite add_balance_spec. destruct (_ <? _); [|done].
  set (s2 := State.put_account _ _ s1).
  assert (Hs2 : db_assets s2 = db_assets s1 ∧ db_ownership s2 = db_ownership s1)
    by (unfold s2; by rewrite put_account_unfold).
  destruct Hs2 as [Ha2 Ho2]. unfold AssetTx.with_asset_mut, AssetTx.find_asset. mrun.
  unfold State.get_asset at 1. rewrite Ha2, Hassets. fold (State.get_asset s asset_id). rewrite Hasset.
  unfold AssetTx.redeem, Amount.sub, checked_sub. fold S P.
  destruct (Z.leb_spec h S) as [HhS|]; [|done]. cbn [expect mbind res_bind].
  destruct (Z.leb_spec paid P) as [HpP|]; [|done]. cbn [expect mbind res_bind]. intros [= _ <-].
  assert (Hh : 0 < h) by (destruct Hok as (? & ? & _); unfold h, rec_total in *; lia).
  assert (Hpaid : 0 <= paid) by (apply Z.div_pos; nia).
  assert (Hasset2 : db_assets s2 !! asset_id = Some asset) by (by rewrite Ha2, Hassets).
  split; [done|]. split; [lia|]. split; [lia|]. split.
  { intros Hall. unfold paid. rewrite Hall, Z.mul_comm. apply Z.div_mul. lia. }
  split; [|split].
  - intros x. unfold State.get_asset_mut. rewrite Hasset2.
    assert (Hb1 : State.get_balance s1 x = State.get_balance s x)
      by (unfold State.get_balance; by rewrite (untouched_get_account _ _ _ Hun)).
    transitivity (State.get_balance s2 x); [unfold State.get_balance; by rewrite (get_account_frame s2)|].
    unfold s2. rewrite get_balance_put. cbn [ac_balance upd upd_ac_balance].
    repeat case_decide; subst; try done; cbn; unfold State.get_balance in *; lia.
  - unfold State.get_asset_mut. rewrite Hasset2.
    change (asset_total s2 asset_id = asset_total s asset_id - h).
    rewrite (asset_total_put s s2 r0 asset_id Hinv) by (by rewrite Ho2).
    assert (Hid : ow_asset_id r0 = asset_id) by exact (f_equal fst Hk0).
    rewrite Hk0, Hid, decide_True by done. fold h. unfold rec_total at 1. cbn. lia.
  - unfold State.get_asset, State.get_asset_mut. rewrite Hasset2. cbn. rewrite lookup_insert_eq.
    unfold Amount.is_zero. destruct (Z.eqb_spec (S - h) 0); case_decide; try lia; [done|].
    f_equal. rewrite <- Hst. by destruct asset.
Qed.
End redemption.

#[local] Existing Instance demo_env.
#[local] Existing Instance demo_exec_codec.

(** An asset of 120 units held by its issuer, the account [1], with a balance of
    1000 and a redemption pool of 500. *)
Definition demo_issued (status : AssetStatus) : StateDB :=
  let asset := (demo_asset (demo_hash 7) (demo_address 1) 120)
    <| as_status := status |> <| as_redemption_pool := 500 |> in
  (State.put_ownership (MkOwnershipRecord (demo_hash 7) (demo_address 1) 100 20)
    (State.put_account (demo_address 1) (Account.with_balance 1000)
      (StateDB_new <| db_assets := {[demo_hash 7 := asset]} |>))).2.

Lemma demo_issued_inv status : own_inv (demo_issued status).
Proof.
  eapply (put_ownership_inv (MkOwnershipRecord (demo_hash 7) (demo_address 1) 100 20)
    (State.put_account (demo_address 1) (Account.with_balance 1000)
      (StateDB_new <| db_assets := {[demo_hash 7 := (demo_asset (demo_hash 7) (demo_address 1) 120)
        <| as_status := status |> <| as_redemption_pool := 500 |> ]} |>))).
  - split; [done|]. intros id. reflexivity.
  - unfold rec_ok, rec_total. cbn. lia.
  - reflexivity.
  - vm_compute. reflexivity.
Qed.

Lemma distribute_revenue_exact_witness :
  let s := demo_issued Active in
  let s' := (AssetTx.execute_distribute_revenue (demo_address 1) (demo_hash 7) 600 s).2 in
  State.get_balance s' (demo_address 1) = 1000.
Proof.
  intros s s'.
  assert (Hr : match (AssetTx.execute_distribute_revenue (demo_address 1) (demo_hash 7) 600 s).1 with
               | Ok _ => True | _ => False end) by (vm_compute; exact I).
  assert (Hh : AssetTx.holders_of s (demo_hash 7) = [(demo_address 1, 100)]) by (vm_compute; reflexivity).
  assert (Hb : State.get_balance s (demo_address 1) = 1000) by (vm_compute; reflexivity).
  assert (Ha : State.get_asset s (demo_hash 7) = Some ((demo_asset (demo_hash 7) (demo_address 1) 120)
    <| as_status := Active |> <| as_redemption_pool := 500 |>)) by (vm_compute; reflexivity).
  unfold s'. destruct (AssetTx.execute_distribute_revenue (demo_address 1) (demo_hash 7) 600 s)
    as [[logs|e|] s1] eqn:Hrun; [|destruct Hr..]. clear Hr s'.
  destruct (distribute_revenue_exact (demo_address 1) (demo_hash 7) 600 _ s logs s1 Ha ltac:(lia)
    ltac:(vm_compute; reflexivity) Hrun) as (_ & _ & Hx & _).
  cbn [snd]. rewrite Hx, Hh, Hb. vm_compute. reflexivity.
Defined.

Lemma claim_redemption_exact_witness :
  let s := demo_issued RedemptionPending in
  let s' := (AssetTx.execute_claim_redemption (demo_address 1) (demo_hash 7) s).2 in
  State.get_balance s' (demo_address 1) = 1500 ∧ asset_total s' (demo_hash 7) = 0.
Proof.
  intros s s'.
  assert (Hr : match (AssetTx.execute_claim_redemption (demo_address 1) (demo_hash 7) s).1 with
               | Ok _ => True | _ => False end) by (vm_compute; exact I).
  assert (Hb : State.get_balance s (demo_address 1) = 1000) by (vm_compute; reflexivity).
  assert (Ht : asset_total s (demo_hash 7) = 120) by (vm_compute; reflexivity).
  assert (Hh : rec_total (rec_at s (demo_hash 7, demo_address 1)) = 120) by (vm_compute; reflexivity).
  assert (Ha : State.get_asset s (demo_hash 7) = Some ((demo_asset (demo_hash 7) (demo_address 1) 120)
    <| as_status := RedemptionPending |> <| as_redemption_pool := 500 |>)) by (vm_compute; reflexivity).
  unfold s'. destruct (AssetTx.execute_claim_redemption (demo_address 1) (demo_hash 7) s)
    as [[logs|e|] s1] eqn:Hrun; [|destruct Hr..]. clear Hr s'.
  destruct (claim_redemption_exact (demo_address 1) (demo_hash 7) _ s logs s1
    (demo_issued_inv RedemptionPending) Ha ltac:(vm_compute; discriminate) ltac:(vm_compute; discriminate)
    Hrun) as (_ & _ & _ & _ & Hx & Htot & _).
  cbn [snd]. rewrite Hx, Htot, Hh, Hb, Ht. split; vm_compute; reflexivity.
Defined.

(** Units that arrived over the bridge share in the revenue but not in the
    supply: after a deposit of another 100 units, distributing 600 debits the
    issuer 600 and pays out 1000. *)
Example bridged_units_mint_revenue :
  let s := State.set_bridge_relayer (demo_address 8)
    ((demo_issued Active) <| db_storage := Some Kv.new |>) in
  let s1 := (AdminTx.execute_bridge_deposit (demo_address 8) (demo_hash 1) 5 (demo_address 2)
    (demo_hash 7) 100 s).2 in
  let s2 := (AssetTx.execute_distribute_revenue (demo_address 1) (demo_hash 7) 600 s1).2 in
  State.get_balance s (demo_address 1) + State.get_balance s (demo_address 2) = 1000 ∧
  State.get_balance s2 (demo_address 1) + State.get_balance s2 (demo_address 2) = 1400.
Proof. split; vm_compute; reflexivity. Qed.

(** With 18 decimals the revenue of a large asset is not distributed: of a supply
    of 120,000,000 units, 100,000,000 of them with the issuer, a distribution of
    1,000,000 pays nobody. *)
Example large_revenue_not_distributed :
  let unit := 10 ^ 18 in
  share (1000000 * unit) (120000000 * unit) (demo_address 1, 100000000 * unit) = 0
  ∧ 100000000 * unit * (1000000 * unit) / (120000000 * unit) = 833333333333333333333333.
Proof. split; vm_compute; reflexivity. Qed.

(** Freezing an asset that is being redeemed and unfreezing it again makes it
    active, with the funded pool still in it and out of reach of the holders. *)
Example freezing_cancels_redemption :
  let s := demo_issued RedemptionPending in
  let s1 := (AssetTx.execute_freeze_asset (demo_address 1) (demo_hash 7) s).2 in
  let s2 := (AssetTx.execute_unfreeze_asset (demo_address 1) (demo_hash 7) s1).2 in
  (as_status <$> State.get_asset s2 (demo_hash 7)) = Some Active ∧
  (as_redemption_pool <$> State.get_asset s2 (demo_hash 7)) = Some 500 ∧
  (AssetTx.execute_claim_redemption (demo_address 1) (demo_hash 7) s2).1 =
    Err (Custom "asset is not in RedemptionPending state").
Proof. split_and!; vm_compute; reflexivity. Qed.
