(* ===== verification/ContractHost.v ===== *)
(** * Contracts on the engine

    What a [CallContract] transaction does to the state, for any bytecode and any
    runtime: [call_spec].  A contract program of [Contract] enters through
    [runs_as], which says that the bytecode behaves as that program; then a call is
    [invoke] on the stored entries ([call_contract_outcome]).  How a compiler
    places the buffers of a contract in its memory is not part of the sources;
    [compile] is one placement, used to build a runtime for examples, and
    [compile_runs] shows that bytecode made this way does behave as the program. *)

From stdpp Require Import pretty.
From S2P Require Import Prelude Primitives RustStr Assets StateDB Ledger Vm Contract.
From S2P Require Import ExecStaking ExecAssets Executor ExecFrame.

(** The two scratch areas the contracts name; here the places of the buffers. *)
Definition SCRATCH : Z := 1024.
Definition SCRATCH2 : Z := 2048.

Definition mem_slice (mem : bytes) (start len : nat) : bytes := btake len (bdrop start mem).

(** [read_args]: the length at offset 0, the bytes at offset 8. *)
Definition read_args (mem : bytes) : bytes :=
  mem_slice mem 8 (Z.to_nat (wrap 32 (from_le_bytes (btake 8 mem)))).

(** An example placement: key or data at [SCRATCH], value or output buffer at
    [SCRATCH2]. *)
Definition place (o : Op) (mem : bytes) : bytes :=
  match o with
  | OpRead key max => Host.overwrite (Z.to_nat SCRATCH) key (Host.overwrite (Z.to_nat SCRATCH2) (zeros max) mem)
  | OpWrite key value => Host.overwrite (Z.to_nat SCRATCH) key (Host.overwrite (Z.to_nat SCRATCH2) value mem)
  | OpCallerAddress => Host.overwrite (Z.to_nat SCRATCH2) (zeros 20) mem
  | OpEmit data => Host.overwrite (Z.to_nat SCRATCH) data mem
  | OpCaller | OpGas _ | OpNumber | OpTimestamp => mem
  end.

Definition host_of (o : Op) : HostCall :=
  match o with
  | OpRead key max => HcStorageRead SCRATCH (blen key) SCRATCH2 (Z.of_nat max)
  | OpWrite key value => HcStorageWrite SCRATCH (blen key) SCRATCH2 (blen value)
  | OpCallerAddress => HcCallerAddress SCRATCH2
  | OpEmit data => HcEmitLog SCRATCH (blen data)
  | OpCaller => HcCaller
  | OpGas amount => HcConsumeGas amount
  | OpNumber => HcBlockNumber
  | OpTimestamp => HcBlockTimestamp
  end.

(** The size of the buffer a call fills. *)
Definition buffer_size (o : Op) : nat :=
  match o with OpRead _ max => max | OpCallerAddress => 20 | _ => 0 end.

Fixpoint compile (p : Prog bytes) (mem : bytes) : Guest :=
  match p with
  | Ret data => GStore (Host.overwrite 0 data mem) (GReturn (Some (blen data)))
  | Exit code => GReturn (Some code)
  | Call o k =>
      GStore (place o mem) (GHost (host_of o) (λ v m,
        let mem := default "" m in
        compile (k (v, mem_slice mem (Z.to_nat SCRATCH2) (buffer_size o))) mem))
  end.

(** The buffers of the program fit their places. *)
Definition op_fits (o : Op) : Prop :=
  match o with
  | OpRead key max => blen key <= 1024 ∧ Z.of_nat max <= 1024
  | OpWrite key value => blen key <= 1024 ∧ blen value <= 1024
  | OpEmit data => blen data <= 1024
  | _ => True
  end.

Fixpoint fits {A} (Q : A → Prop) (p : Prog A) : Prop :=
  match p with
  | Ret a => Q a
  | Exit _ => True
  | Call o k => op_fits o ∧ ∀ v b, String.length b = buffer_size o → fits Q (k (v, b))
  end.

(** The returned data fits as well. *)
Definition fits_memory (p : Prog bytes) : Prop := fits (λ data, blen data <= 1024) p.

(** ** Memory *)

Lemma overwrite_length n data mem :
  (n + String.length data <= String.length mem)%nat →
  String.length (Host.overwrite n data mem) = String.length mem.
Proof. intros Hl. unfold Host.overwrite. rewrite !blen_app, btake_length, bdrop_length. lia. Qed.

Lemma bdrop_btake_app n s t : (n <= String.length s)%nat → bdrop n (btake n s +:+ t) = t.
Proof.
  intros Hn. replace n with (String.length (btake n s)) at 1 by (rewrite btake_length; lia).
  apply bdrop_app.
Qed.

Lemma mem_slice_same n data mem :
  (n + String.length data <= String.length mem)%nat →
  mem_slice (Host.overwrite n data mem) n (String.length data) = data.
Proof.
  intros Hl. unfold mem_slice, Host.overwrite. rewrite bdrop_btake_app by lia. apply btake_app_length.
Qed.

Lemma btake_btake_app n m s t : (n <= m)%nat → (m <= String.length s)%nat → btake n (btake m s +:+ t) = btake n s.
Proof.
  revert m s. induction n as [|n IH]; intros [|m] [|b s] Hn Hm; cbn in *; try lia; [by destruct t|done..|].
  f_equal. apply IH; lia.
Qed.

Lemma bdrop_btake_app_lt n m s t :
  (n <= m)%nat → (m <= String.length s)%nat → bdrop n (btake m s +:+ t) = btake (m - n) (bdrop n s) +:+ t.
Proof.
  revert m s. induction n as [|n IH]; intros [|m] [|b s] Hn Hm; cbn in *; try lia; [done..|].
  apply IH; lia.
Qed.

Lemma bdrop_bdrop n m s : bdrop n (bdrop m s) = bdrop (m + n) s.
Proof. revert s. induction m as [|m IH]; intros [|b s]; [done..|by destruct n|apply IH]. Qed.

Lemma bdrop_app_ge n s t : (String.length s <= n)%nat → bdrop n (s +:+ t) = bdrop (n - String.length s) t.
Proof. revert n. induction s as [|b s IH]; intros [|n] Hn; cbn in *; try lia; [done..|]. apply IH; lia. Qed.

(** A slice before or behind the overwritten part is untouched. *)
Lemma mem_slice_before n data mem start len :
  (start + len <= n)%nat → (n <= String.length mem)%nat →
  mem_slice (Host.overwrite n data mem) start len = mem_slice mem start len.
Proof.
  intros Hs Hn. unfold mem_slice, Host.overwrite. rewrite bdrop_btake_app_lt by lia.
  apply btake_btake_app; [lia|]. rewrite bdrop_length. lia.
Qed.

Lemma mem_slice_behind n data mem start len :
  (n + String.length data <= start)%nat → (n + String.length data <= String.length mem)%nat →
  mem_slice (Host.overwrite n data mem) start len = mem_slice mem start len.
Proof.
  intros Hs Hn. unfold mem_slice, Host.overwrite.
  rewrite bdrop_app_ge, bdrop_app_ge, bdrop_bdrop by (rewrite ?btake_length; lia).
  do 2 f_equal. rewrite btake_length. lia.
Qed.

(** Overwriting the front of a buffer. *)
Lemma mem_slice_over n data mem len :
  (String.length data <= len)%nat → (n + len <= String.length mem)%nat →
  mem_slice (Host.overwrite n data mem) n len
  = data +:+ mem_slice mem (n + String.length data) (len - String.length data).
Proof.
  intros Hd Hl. unfold mem_slice, Host.overwrite. rewrite bdrop_btake_app by lia.
  clear Hl. revert len Hd. generalize (bdrop (n + String.length data) mem) as t. intros t.
  induction data as [|b data IH]; intros [|len] Hd; cbn in *; try lia; [done|by destruct t|].
  refine (f_equal (String b) (IH len _)). lia.
Qed.

Lemma read_wasm_memory_slice c mem start len :
  cx_wasm_memory c = Some mem → 0 <= start → 0 <= len <= 4096 → start + len <= blen mem →
  Host.read_wasm_memory c start len = Some (mem_slice mem (Z.to_nat start) (Z.to_nat len)).
Proof.
  intros Hm Hs Hb Hl. unfold Host.read_wasm_memory, Host.MAX_HOST_IO_BYTES. rewrite Hm. cbn.
  destruct (Z.ltb_spec (2 ^ 20) len); [lia|].
  by destruct (Z.ltb_spec (blen mem) (start + len)); [lia|].
Qed.

Lemma write_wasm_memory_over c mem start data :
  cx_wasm_memory c = Some mem → 0 <= start → blen data <= 4096 → start + blen data <= blen mem →
  Host.write_wasm_memory start data c = Some (Ctx.set_memory (Host.overwrite (Z.to_nat start) data mem) c).
Proof.
  intros Hm Hs Hb Hl. unfold Host.write_wasm_memory, Host.MAX_HOST_IO_BYTES. rewrite Hm. cbn.
  destruct (Z.ltb_spec (2 ^ 20) (blen data)); [lia|].
  by destruct (Z.ltb_spec (blen mem) (start + blen data)); [lia|].
Qed.

(** ** One call *)

Lemma perform_params o c : cx_params (Op.perform o c).2 = cx_params c.
Proof.
  unfold Op.perform, Host.consume_gas. destruct (Gas.consume _ _) as [[] m]; by destruct o.
Qed.

Lemma place_length o mem :
  op_fits o → 4096 <= blen mem → String.length (place o mem) = String.length mem.
Proof.
  intros Ho Hm. destruct o; cbn [place op_fits] in *; unfold SCRATCH, SCRATCH2, blen in *; try done.
  - rewrite !overwrite_length; rewrite ?zeros_length; lia || (rewrite overwrite_length; rewrite ?zeros_length; lia).
  - rewrite !overwrite_length; lia || (rewrite overwrite_length; lia).
  - rewrite overwrite_length; rewrite ?zeros_length; lia.
  - rewrite overwrite_length; lia.
Qed.

(** Both buffers are found where they were placed. *)
Lemma placed_first key v mem :
  blen key <= 1024 → blen v <= 1024 → 4096 <= blen mem →
  mem_slice (Host.overwrite (Z.to_nat SCRATCH) key (Host.overwrite (Z.to_nat SCRATCH2) v mem))
    (Z.to_nat SCRATCH) (String.length key) = key.
Proof.
  unfold SCRATCH, SCRATCH2, blen. intros Hk Hv Hm. apply mem_slice_same. rewrite overwrite_length; lia.
Qed.

Lemma placed_second key v mem :
  blen key <= 1024 → blen v <= 1024 → 4096 <= blen mem →
  mem_slice (Host.overwrite (Z.to_nat SCRATCH) key (Host.overwrite (Z.to_nat SCRATCH2) v mem))
    (Z.to_nat SCRATCH2) (String.length v) = v.
Proof.
  unfold SCRATCH, SCRATCH2, blen. intros Hk Hv Hm.
  rewrite mem_slice_behind by (rewrite ?overwrite_length; lia). apply mem_slice_same. lia.
Qed.

(** [place] leaves the rest of a zeroed buffer zero. *)
Lemma mem_slice_split mem start n m :
  mem_slice mem start (n + m) = mem_slice mem start n +:+ mem_slice mem (start + n) m.
Proof.
  unfold mem_slice. rewrite <- bdrop_bdrop. generalize (bdrop start mem) as t. clear.
  induction n as [|n IH]; intros [|b t]; [by destruct m|done|by destruct m|].
  exact (f_equal (String b) (IH t)).
Qed.

Lemma zeros_tail mem start max n :
  (n <= max)%nat → (start + max <= String.length mem)%nat → mem_slice mem start max = zeros max →
  mem_slice mem (start + n) (max - n) = zeros (max - n).
Proof.
  intros Hn Hl. replace max with (n + (max - n))%nat at 1 2 by lia. rewrite mem_slice_split, zeros_app.
  intros Hz. apply (f_equal (bdrop n)) in Hz.
  rewrite !bdrop_app_n in Hz; [done|..]; [apply zeros_length|].
  unfold mem_slice. rewrite btake_length, bdrop_length. lia.
Qed.

Lemma charge_set_memory g mem c :
  Host.consume_gas g (Ctx.set_memory mem c)
  = ((Host.consume_gas g c).1, Ctx.set_memory mem (Host.consume_gas g c).2).
Proof. unfold Host.consume_gas. cbn. by destruct (Gas.consume g (cx_gas c)). Qed.

Definition performs (o : Op) (mem : bytes) (c : ExecutionContext) : Prop :=
  ∃ mem', host_call (host_of o) (Ctx.set_memory (place o mem) c)
          = ((Op.perform o c).1.1, Ctx.set_memory mem' (Op.perform o c).2)
        ∧ mem_slice mem' (Z.to_nat SCRATCH2) (buffer_size o) = (Op.perform o c).1.2
        ∧ String.length mem' = String.length mem.

Lemma charge_storage g c : cx_storage (Host.consume_gas g c).2 = cx_storage c.
Proof. unfold Host.consume_gas. by destruct (Gas.consume g (cx_gas c)). Qed.

(** Filling the zeroed buffer with a stored value. *)
Lemma fill_buffer m max v :
  Z.of_nat max <= 1024 → 4096 <= blen m → (String.length v <= max)%nat →
  mem_slice m (Z.to_nat SCRATCH2) max = zeros max →
  mem_slice (Host.overwrite (Z.to_nat SCRATCH2) v m) (Z.to_nat SCRATCH2) max
  = v +:+ zeros (max - String.length v)
  ∧ String.length (Host.overwrite (Z.to_nat SCRATCH2) v m) = String.length m.
Proof.
  unfold SCRATCH2, blen. intros Hx Hm Hv Hz. split; [|apply overwrite_length; lia].
  rewrite mem_slice_over by lia. f_equal. apply zeros_tail; done || lia.
Qed.

Lemma read_performs key max c mem :
  op_fits (OpRead key max) → 4096 <= blen mem → performs (OpRead key max) mem c.
Proof.
  intros Ho Hm. pose proof (place_length _ _ Ho Hm) as Hp. destruct Ho as [Hk Hx]. unfold performs.
  assert (Hz : mem_slice (place (OpRead key max) mem) (Z.to_nat SCRATCH2) max = zeros max).
  { rewrite <- (zeros_length max) at 2. apply placed_second; unfold blen; rewrite ?zeros_length; done. }
  assert (Hkey : mem_slice (place (OpRead key max) mem) (Z.to_nat SCRATCH) (String.length key) = key).
  { apply placed_first; unfold blen; rewrite ?zeros_length; done. }
  cbn [host_call host_of buffer_size]. revert Hp Hz Hkey. generalize (place (OpRead key max) mem) as m.
  intros m Hp Hz Hkey. unfold Host.host_storage_read, Op.perform. rewrite charge_set_memory.
  cbn [Op.cost]. pose proof (charge_storage Gas.STORAGE_READ c) as Hst.
  destruct (Host.consume_gas _ c) as [ok c1]. cbn [fst snd] in *.
  destruct ok; cbn [negb]; [|by exists m].
  rewrite !wrap_small by (unfold in_width, SCRATCH, SCRATCH2, blen in *; lia).
  rewrite (read_wasm_memory_slice _ m) by (done || (unfold SCRATCH, blen in *; lia)).
  unfold blen at 1. rewrite Nat2Z.id, Hkey. unfold Ctx.storage_read. cbn [cx_storage Ctx.set_memory].
  change (cx_storage (Ctx.set_memory m c1)) with (cx_storage c1). rewrite Hst.
  cbn [Op.answer Op.effect]. destruct (cx_storage c !! key) as [v|]; [|by exists m].
  destruct (Z.ltb_spec (Z.of_nat max) (blen v)); [by exists m|].
  rewrite (write_wasm_memory_over _ m) by (done || (unfold SCRATCH2, blen in *; lia)).
  destruct (fill_buffer m max v) as [Hb Hl]; [done|unfold blen in *; lia..|done|].
  eexists. split; [done|]. by rewrite Hl.
Qed.

Lemma write_performs key value c mem :
  op_fits (OpWrite key value) → 4096 <= blen mem → performs (OpWrite key value) mem c.
Proof.
  intros Ho Hm. pose proof (place_length _ _ Ho Hm) as Hp. destruct Ho as [Hk Hx]. unfold performs.
  pose proof (placed_first key value mem Hk Hx Hm) as Hkey.
  pose proof (placed_second key value mem Hk Hx Hm) as Hval.
  change (Host.overwrite _ key _) with (place (OpWrite key value) mem) in Hkey, Hval.
  cbn [host_call host_of buffer_size]. revert Hp Hkey Hval. generalize (place (OpWrite key value) mem) as m.
  intros m Hp Hkey Hval. unfold Host.host_storage_write, Op.perform. cbn [Op.cost].
  rewrite !wrap_small by (unfold in_width, SCRATCH, SCRATCH2, blen in *; lia).
  rewrite !(read_wasm_memory_slice _ m) by (done || (unfold SCRATCH, SCRATCH2, blen in *; lia)).
  unfold blen. rewrite !Nat2Z.id, Hkey, Hval, charge_set_memory.
  change (cx_storage (Ctx.set_memory m c)) with (cx_storage c).
  exists m. case_bool_decide; cbn [negb]; (destruct (Host.consume_gas _ c) as [[] c1]; split_and!; done).
Qed.

(** The remaining calls: the caller's address is written to a buffer, a log is
    read from one. *)
Lemma caller_performs c mem : account_call c → 4096 <= blen mem → performs OpCallerAddress mem c.
Proof.
  intros Hc Hm. unfold performs. cbn [host_call host_of buffer_size place].
  assert (Hz : mem_slice (Host.overwrite (Z.to_nat SCRATCH2) (zeros 20) mem) (Z.to_nat SCRATCH2) 20 = zeros 20).
  { rewrite <- (zeros_length 20) at 2. apply mem_slice_same. unfold blen, SCRATCH2 in *. rewrite zeros_length. lia. }
  assert (Hp : String.length (Host.overwrite (Z.to_nat SCRATCH2) (zeros 20) mem) = String.length mem).
  { apply overwrite_length. unfold blen, SCRATCH2 in *. rewrite zeros_length. lia. }
  revert Hz Hp. generalize (Host.overwrite (Z.to_nat SCRATCH2) (zeros 20) mem) as m. intros m Hz Hp.
  unfold Host.host_caller_address, Op.perform. rewrite charge_set_memory. cbn [Op.cost].
  assert (cx_params (Host.consume_gas Gas.HOST_CALL_BASE c).2 = cx_params c) as Hps
    by (unfold Host.consume_gas; by destruct (Gas.consume _ _)).
  destruct (Host.consume_gas _ c) as [[] c1]; cbn [fst snd negb] in *; [|by exists m].
  rewrite wrap_small by (unfold in_width, SCRATCH2; lia). unfold account_call in Hc.
  change (cx_params (Ctx.set_memory m c1)) with (cx_params c1). rewrite Hps.
  rewrite (write_wasm_memory_over _ m) by (done || (unfold SCRATCH2, blen in *; lia)).
  destruct (fill_buffer m 20 (address_bytes (ep_caller (cx_params c)))) as [Hb Hl];
    [done|unfold blen in *; lia..|done|].
  rewrite Hc, bapp_nil in Hb. eexists. split; [done|]. by rewrite Hl.
Qed.

Lemma emit_performs data c mem : op_fits (OpEmit data) → 4096 <= blen mem → performs (OpEmit data) mem c.
Proof.
  intros Ho Hm. pose proof (place_length _ _ Ho Hm) as Hp. cbn in Ho. unfold performs.
  assert (Hdata : mem_slice (place (OpEmit data) mem) (Z.to_nat SCRATCH) (String.length data) = data).
  { apply mem_slice_same. unfold SCRATCH, blen in *. lia. }
  cbn [host_call host_of buffer_size]. revert Hp Hdata. generalize (place (OpEmit data) mem) as m.
  intros m Hp Hdata. unfold Host.host_emit_log, Op.perform. rewrite charge_set_memory. cbn [Op.cost].
  assert (∀ g, cx_params (Host.consume_gas g c).2 = cx_params c) as Hps
    by (intros g; unfold Host.consume_gas; by destruct (Gas.consume _ _)).
  specialize (Hps (wrap 64 (Gas.LOG_BASE + Gas.LOG_PER_BYTE * wrap 64 (blen data)))).
  exists m. destruct (Host.consume_gas _ c) as [[] c1]; cbn [fst snd negb] in *; [|done].
  rewrite !wrap_small by (unfold in_width, SCRATCH, blen in *; lia).
  rewrite (read_wasm_memory_slice _ m) by (done || (unfold SCRATCH, blen in *; lia)).
  unfold blen. by rewrite Nat2Z.id, Hdata.
Qed.

(** The host call of the engine, with its buffers in memory, is [Op.perform]. *)
Lemma host_call_performs o c mem :
  op_fits o → 4096 <= blen mem → account_call c → performs o mem c.
Proof.
  intros Ho Hm Hc. destruct o.
  1: by apply read_performs.
  1: by apply write_performs.
  1: by apply caller_performs.
  2: by apply emit_performs.
  all: exists mem; unfold Op.perform; cbn [host_call host_of place Op.cost];
    unfold Host.host_caller, Host.host_consume_gas, Host.host_block_number, Host.host_block_timestamp;
    rewrite charge_set_memory; unfold Host.consume_gas; by destruct (Gas.consume _ _) as [[] m].
Qed.

(** ** A whole run *)

Lemma btake_overwrite_front data mem : btake (String.length data) (Host.overwrite 0 data mem) = data.
Proof. exact (btake_app_length data _). Qed.

Lemma buffer_fits o : op_fits o → Z.of_nat (buffer_size o) <= 1024.
Proof. destruct o; cbn; lia. Qed.

Lemma compile_runs p mem c :
  fits_memory p → 4096 <= blen mem → account_call c →
  ∃ mem', run_guest (compile p mem) (Ctx.set_memory mem c)
          = (Some (status (run p c).1), Ctx.set_memory mem' (run p c).2)
        ∧ String.length mem' = String.length mem
        ∧ ∀ data, (run p c).1 = Ok data → btake (String.length data) mem' = data.
Proof.
  revert mem c. induction p as [data|code|o k IH]; intros mem c Hf Hm Hc.
  - cbn in Hf. exists (Host.overwrite 0 data mem). split; [done|]. unfold blen in *.
    split; [apply overwrite_length; lia|]. intros d [= <-]. apply btake_overwrite_front.
  - by exists mem.
  - destruct Hf as [Ho Hk]. cbn [compile run_guest cx_wasm_memory Ctx.set_memory].
    change (match cx_wasm_memory (Ctx.set_memory mem c) with Some _ => _ | None => _ end)
      with (Ctx.set_memory (place o mem) c).
    destruct (host_call_performs o c mem Ho Hm Hc) as (m1 & Hcall & Hbuf & Hlen). rewrite Hcall.
    change (cx_wasm_memory (Ctx.set_memory m1 (Op.perform o c).2)) with (Some m1). cbn [default].
    cbn [run]. pose proof (perform_params o c) as Hps. change (id m1) with m1. rewrite Hbuf.
    destruct (Op.perform o c) as [[v b] c1]. cbn [fst snd] in *.
    destruct (IH (v, b) m1 c1) as (m2 & ? & ? & ?).
    + apply Hk. rewrite <- Hbuf. pose proof (buffer_fits o Ho). unfold mem_slice, SCRATCH2, blen in *.
      rewrite btake_length, bdrop_length. lia.
    + unfold blen in *. lia.
    + unfold account_call. by rewrite Hps.
    + exists m2. split; [done|]. split; [congruence|done].
Qed.

(** ** The engine *)

(** The bytecode behaves as the program [entry args]: same status, same gas, same
    effects on the context, whatever it leaves in its memory. *)
Definition runs_as `{!WasmRuntime} (code method : bytes) (entry : bytes → Prog bytes) (args : bytes) : Prop :=
  ∀ c, account_call c → ∃ mem out, VmEngine.execute code method args c
    = (Ok (MkVmResult (default 0 (status (run (entry args) c).1)) (gm_used (cx_gas (run (entry args) c).2)) out),
       Ctx.set_memory mem (run (entry args) c).2).

(** The bytecode exports a memory and the entry points of a contract in the
    example placement. *)
Definition example_layout `{!WasmRuntime} (code : bytes) (contract : bytes → option (bytes → Prog bytes)) : Prop :=
  module_new code = true ∧ ∃ pages mem f,
    instance_new code = Some (MkWasmInstance (Some (pages, None, mem)) f)
    ∧ pages <= Gas.MAX_WASM_MEMORY_PAGES ∧ 4096 <= blen mem ∧ btake 8 mem = zeros 8
    ∧ ∀ method, f method = (λ entry m, compile (entry (read_args (default "" m))) (default "" m))
                             <$> contract method.

Lemma write_args_reads args mem :
  4096 <= blen mem → btake 8 mem = zeros 8 → blen args <= 4088 →
  ∃ mem', VmEngine.write_args args mem = Ok mem' ∧ read_args mem' = args
        ∧ String.length mem' = String.length mem.
Proof.
  intros Hm Hz Ha. unfold VmEngine.write_args. case_bool_decide as He.
  { subst args. exists mem. split; [done|]. split; [|done]. unfold read_args. by rewrite Hz. }
  unfold blen in *. destruct (Z.ltb_spec (Z.of_nat (String.length mem)) 8); [lia|].
  pose proof (overwrite_length 0 (to_le_bytes 8 (Z.of_nat (String.length args))) mem) as Hl.
  rewrite to_le_bytes_length in Hl. specialize (Hl ltac:(lia)). cbn [guard_err mbind res_bind].
  rewrite Hl. destruct (Z.ltb_spec (Z.of_nat (String.length mem)) (8 + Z.of_nat (String.length args))); [lia|].
  eexists. split; [done|]. split; [|rewrite overwrite_length; lia].
  unfold read_args. change (btake 8 ?m) with (mem_slice m 0 8).
  rewrite (mem_slice_before 8 args _ 0 8) by (rewrite ?Hl; lia).
  replace (mem_slice _ 0 8) with (to_le_bytes 8 (Z.of_nat (String.length args))).
  - rewrite from_to_le_bytes by lia. rewrite wrap_small by (unfold in_width; lia).
    rewrite Nat2Z.id. apply mem_slice_same. lia.
  - symmetry. rewrite <- (to_le_bytes_length 8 (Z.of_nat (String.length args))) at 2.
    apply btake_overwrite_front.
Qed.

Lemma read_return_data data c mem :
  btake (String.length data) mem = data →
  VmEngine.read_return (blen data) (Ctx.set_memory mem c) = data.
Proof.
  intros Hd. unfold VmEngine.read_return. change (cx_wasm_memory (Ctx.set_memory mem c)) with (Some mem).
  assert (String.length data <= String.length mem)%nat as Hl by (rewrite <- Hd, btake_length; lia).
  unfold blen. destruct (Z.leb_spec (Z.of_nat (String.length data)) (Z.of_nat (String.length mem))); [|lia].
  destruct (Z.ltb_spec 0 (Z.of_nat (String.length data))); cbn [andb]; [by rewrite Nat2Z.id|].
  by destruct data; [|cbn in *; lia].
Qed.

Lemma execute_deployed `{!WasmRuntime} code contract method entry args c :
  example_layout code contract → contract method = Some entry → fits_memory (entry args) → blen args <= 4088 →
  account_call c →
  ∃ mem out, VmEngine.execute code method args c
    = (Ok (MkVmResult (default 0 (status (run (entry args) c).1)) (gm_used (cx_gas (run (entry args) c).2)) out),
       Ctx.set_memory mem (run (entry args) c).2)
  ∧ ∀ data, (run (entry args) c).1 = Ok data → out = data.
Proof.
  intros (Hv & pages & mem & f & Hi & Hp & Hm & Hz & Hf) Hc Hfit Ha Hacc.
  destruct (write_args_reads args mem Hm Hz Ha) as (m1 & Hw & Hr & Hl).
  destruct (compile_runs (entry args) m1 c) as (m2 & Hg & Hl2 & Hd); [done|unfold blen in *; lia|done|].
  unfold VmEngine.execute. rewrite Hv, Hi. unfold VmEngine.check_memory.
  cbn [negb ok_or wi_memory wi_function]. specialize (Hf method). rewrite Hc in Hf.
  unfold lift, modify, gets, mbind, M_bind, mret, M_ret, fail_if. cbn [fst snd wi_memory wi_function].
  destruct (Z.ltb_spec Gas.MAX_WASM_MEMORY_PAGES pages); [lia|]. cbn [guard_err res_bind].
  rewrite Hw, Hf. cbn [ok_or fmap option_fmap option_map].
  change (Ctx.set_memory m1 (Ctx.set_memory mem c)) with (Ctx.set_memory m1 c).
  change (cx_wasm_memory (Ctx.set_memory m1 c)) with (Some m1). change (default "" (Some m1)) with m1.
  rewrite Hr, Hg. cbn [ok_or]. exists m2. eexists. split; [done|]. intros data Hdata.
  rewrite Hdata. cbn [status]. change (default 0 (Some (blen data))) with (blen data).
  apply read_return_data. auto.
Qed.

Lemma example_runs_as `{!WasmRuntime} code contract method entry args :
  example_layout code contract → contract method = Some entry → fits_memory (entry args) → blen args <= 4088 →
  runs_as code method entry args.
Proof.
  intros Hl He Hf Ha c Hc. destruct (execute_deployed code contract method entry args c) as (mem & out & Hx & _);
    [done..|]. by exists mem, out.
Qed.

(** ** The executor *)

Lemma M_bind_run {S E A B} (f : A → M S E B) (m : M S E A) s a s1 :
  m s = (Ok a, s1) → (m ≫= f) s = f a s1.
Proof. intros Hm. unfold mbind, M_bind. by rewrite Hm. Qed.

Lemma M_bind_fails {S E A B} (f : A → M S E B) (m : M S E A) s e s1 :
  m s = (Err e, s1) → (m ≫= f) s = (Err e, s1).
Proof. intros Hm. unfold mbind, M_bind. by rewrite Hm. Qed.

Section with_env.
Context `{!TxEnv}.

(** What is stored under an address. *)
Definition contract_storage (s : StateDB) (a : Address) : gmap bytes bytes :=
  list_to_map ((λ kv, (kv.1.2, kv.2)) <$>
    filter (λ kv, kv.1.1 = a) (map_to_list (db_contract_storage s))).

(** [MAX_EAGER_ENTRIES] of [load_contract_storage]. *)
Definition few_entries (s : StateDB) (a : Address) : Prop :=
  Z.of_nat (length (filter (λ kv, kv.1.1 = a) (map_to_list (db_contract_storage s)))) <= 10000.

Definition call_params (sender contract : Address) (value : Amount)
    (block_number block_timestamp gas_limit : Z) : ExecutionParams :=
  {| ep_contract_address := contract; ep_caller := sender; ep_origin := sender; ep_value := value;
     ep_block_number := block_number; ep_block_timestamp := block_timestamp;
     ep_chain_id := ChainId_RELAY; ep_gas_limit := gas_limit |}.

Lemma storage_keys_nodup (m : gmap (Address * bytes) bytes) (a : Address) (l : list ((Address * bytes) * bytes)) :
  l ≡ₚ filter (λ kv, kv.1.1 = a) (map_to_list m) → NoDup ((λ kv, (kv.1.2, kv.2)) <$> l).*1.
Proof.
  intros ->. rewrite <- list_fmap_compose. apply NoDup_fmap_2_strong.
  - intros [[a1 k1] v1] [[a2 k2] v2] H1 H2 Hk. cbn in Hk. subst k2.
    apply list_elem_of_filter in H1 as [H1 H1'], H2 as [H2 H2']. cbn in *. subst a1 a2.
    apply elem_of_map_to_list in H1', H2'. congruence.
  - apply NoDup_filter, NoDup_map_to_list.
Qed.

Lemma storage_lookup (m : gmap (Address * bytes) bytes) a l k :
  l ≡ₚ filter (λ kv, kv.1.1 = a) (map_to_list m) →
  (list_to_map ((λ kv, (kv.1.2, kv.2)) <$> l) : gmap bytes bytes) !! k = m !! (a, k).
Proof.
  intros Hl. apply option_eq. intros v. rewrite <- elem_of_list_to_map by by eapply storage_keys_nodup.
  rewrite list_elem_of_fmap, <- elem_of_map_to_list. setoid_rewrite Hl.
  setoid_rewrite list_elem_of_filter. split.
  - intros ([[a' k'] v'] & [= -> ->] & Ha & Hin). cbn in Ha. by subst a'.
  - intros Hin. by exists ((a, k), v).
Qed.

Lemma contract_storage_lookup s a k : contract_storage s a !! k = db_contract_storage s !! (a, k).
Proof. by apply storage_lookup. Qed.

Lemma load_contract_storage_all s a :
  few_entries s a → State.load_contract_storage s a = contract_storage s a.
Proof.
  unfold few_entries. intros Hf. apply map_eq. intros k. rewrite contract_storage_lookup.
  unfold State.load_contract_storage. apply storage_lookup.
  assert (filter (λ kv, kv.1.1 = a) (hash_iter (db_contract_storage s))
          ≡ₚ filter (λ kv, kv.1.1 = a) (map_to_list (db_contract_storage s))) as Hp
    by by rewrite hash_iter_perm.
  rewrite take_ge; [done|]. rewrite Hp. lia.
Qed.

(** Beyond the cap, which entries a contract sees depends on the order in which
    the process iterates over its hash map. *)
Lemma capped_load_last (m : gmap (Address * bytes) bytes) a l x :
  l ++ [x] ≡ₚ filter (λ kv, kv.1.1 = a) (map_to_list m) →
  (list_to_map ((λ kv, (kv.1.2, kv.2)) <$> take (Z.to_nat 10000) (l ++ [x])) : gmap bytes bytes)
    !! x.1.2 = if bool_decide (10000 <= Z.of_nat (length l)) then None else Some x.2.
Proof.
  intros Hl. pose proof (storage_keys_nodup m a _ Hl) as Hnd. case_bool_decide as Hn.
  - rewrite take_app_le by lia. apply not_elem_of_list_to_map_1.
    rewrite <- list_fmap_compose. rewrite fmap_app, fmap_app, NoDup_app in Hnd.
    destruct Hnd as (_ & Hx & _). intros Hin. apply (Hx x.1.2); [|by apply list_elem_of_here].
    rewrite <- list_fmap_compose. apply list_elem_of_fmap in Hin as (y & Hy & Hin).
    rewrite Hy. apply list_elem_of_fmap. exists y. split; [done|]. by eapply subseteq_take.
  - rewrite take_ge by (rewrite length_app; cbn; lia). apply elem_of_list_to_map; [done|].
    apply list_elem_of_fmap. exists x. split; [done|]. apply elem_of_app. right. by apply list_elem_of_here.
Qed.

Lemma capped_load_first (m : gmap (Address * bytes) bytes) a l x :
  x :: l ≡ₚ filter (λ kv, kv.1.1 = a) (map_to_list m) →
  (list_to_map ((λ kv, (kv.1.2, kv.2)) <$> take (Z.to_nat 10000) (x :: l)) : gmap bytes bytes)
    !! x.1.2 = Some x.2.
Proof.
  intros _. replace (Z.to_nat 10000) with (S (Z.to_nat 9999)) by lia.
  cbn [take fmap list_fmap list_to_map]. apply lookup_insert_eq.
Qed.

Lemma run_balance_changes {A} (p : Prog A) c :
  cx_balance_changes (run p c).2 = cx_balance_changes c.
Proof.
  revert c. induction p as [a|code|o k IH]; intros c; [done..|]. cbn [run].
  assert (cx_balance_changes (Op.perform o c).2 = cx_balance_changes c) as Hb
    by (unfold Op.perform, Host.consume_gas; destruct (Gas.consume _ _) as [[] m]; by destruct o).
  destruct (Op.perform o c) as [r c1]. by rewrite IH.
Qed.

(** Writing entries back under one address. *)
Lemma store_entries a l s a' k :
  NoDup l.*1 →
  db_contract_storage (foldl (λ s kv, State.put_contract_storage a kv.1 kv.2 s) s l) !! (a', k)
  = if decide (a' = a) then match (list_to_map l : gmap bytes bytes) !! k with
                            | Some v => Some v
                            | None => db_contract_storage s !! (a', k)
                            end
    else db_contract_storage s !! (a', k).
Proof.
  revert s. induction l as [|[k1 v1] l IH]; intros s Hnd; cbn; [by case_decide|].
  apply NoDup_cons in Hnd as [Hk Hnd]. rewrite IH by done.
  assert (∀ k', db_contract_storage (State.put_contract_storage a k1 v1 s) !! (a', k')
    = <[(a, k1) := v1]> (db_contract_storage s) !! (a', k')) as Hput
    by (intros k'; unfold State.put_contract_storage; cbn; by rewrite persist_unfold).
  rewrite Hput. case_decide as Ha; [subst a'|].
  - destruct (decide (k = k1)) as [->|Hne].
    + rewrite not_elem_of_list_to_map_1 by done. by rewrite !lookup_insert_eq.
    + rewrite (lookup_insert_ne (list_to_map l)) by congruence. by rewrite lookup_insert_ne by congruence.
  - by rewrite lookup_insert_ne by congruence.
Qed.

(** After the write-back the entries of the context are stored, over those that
    were; only entries of that contract change. *)
Lemma store_over s a (m : gmap bytes bytes) :
  let s' := foldl (λ s kv, State.put_contract_storage a kv.1 kv.2 s) s (hash_iter m) in
  contract_storage s' a = m ∪ contract_storage s a
  ∧ ∀ a', a' ≠ a → contract_storage s' a' = contract_storage s a'.
Proof.
  assert (NoDup (hash_iter m).*1) as Hnd
    by (rewrite hash_iter_perm; apply NoDup_fst_map_to_list).
  assert ((list_to_map (hash_iter m) : gmap bytes bytes) = m) as Hm.
  { rewrite <- (list_to_map_to_list m) at 2. apply list_to_map_proper; [done|apply hash_iter_perm]. }
  cbv zeta. split.
  - apply map_eq. intros k. rewrite contract_storage_lookup, store_entries, Hm by done.
    rewrite decide_True by done. rewrite lookup_union, contract_storage_lookup.
    by destruct (m !! k), (db_contract_storage s !! (a, k)).
  - intros a' Ha. apply map_eq. intros k. by rewrite !contract_storage_lookup, store_entries, decide_False.
Qed.

(** When the context has not lost a key, the stored entries are its own. *)
Lemma store_context s a (m : gmap bytes bytes) :
  dom (contract_storage s a) ⊆ dom m →
  let s' := foldl (λ s kv, State.put_contract_storage a kv.1 kv.2 s) s (hash_iter m) in
  contract_storage s' a = m
  ∧ ∀ a', a' ≠ a → contract_storage s' a' = contract_storage s a'.
Proof.
  intros Hd s'. destruct (store_over s a m) as [Hs Ho]. fold s' in Hs, Ho. split; [|done].
  rewrite Hs. apply map_eq. intros k. rewrite lookup_union.
  destruct (m !! k) as [v|] eqn:Hk; [by destruct (contract_storage s a !! k)|].
  apply not_elem_of_dom in Hk. assert (contract_storage s a !! k = None) as ->; [|done].
  apply not_elem_of_dom. set_solver.
Qed.

Lemma run_dom {A} (p : Prog A) c : dom (cx_storage c) ⊆ dom (cx_storage (run p c).2).
Proof.
  revert c. induction p as [a|code|o k IH]; intros c; [done..|]. cbn [run].
  assert (dom (cx_storage c) ⊆ dom (cx_storage (Op.perform o c).2)) as Hb.
  { unfold Op.perform, Host.consume_gas. destruct (Gas.consume _ _) as [[] m]; destruct o; cbn; set_solver. }
  destruct (Op.perform o c) as [r c1]. etransitivity; [exact Hb|apply IH].
Qed.

Lemma run_status {A} (p : Prog A) c : (run p c).1 ≠ Panic.
Proof.
  revert c. induction p as [a|code|o k IH]; intros c; [done..|]. cbn [run].
  destruct (Op.perform o c) as [r c1]. apply IH.
Qed.

(** *** Any bytecode *)

(** The value goes first. *)
Definition pay (sender contract : Address) (value : Amount) : M StateDB StateError unit :=
  if Amount.is_zero value then mret tt else State.transfer sender contract value.

(** The code that a call runs, if the account has any. *)
Definition code_at (s : StateDB) (contract : Address) : option bytes :=
  ac_code_hash (State.get_account s contract) ≫= State.get_code s.

(** What a call does to a state and answers, one rule per branch.  The contract
    runs in a context of its own: a call that is paid for and returns zero stores
    the entries of that context over those of the contract and appends the
    contract's logs to the receipt, and changes nothing else. *)
Inductive call_spec (sender contract : Address) (method args : bytes) (value : Amount)
    (ps : ExecutionParams) (s : StateDB) : res ExecutionError (list Log) → StateDB → Prop :=
  | call_no_code :
      code_at s contract = None →
      call_spec sender contract method args value ps s (Err ContractNotSupported) s
  | call_unpaid code e s1 :
      code_at s contract = Some code → pay sender contract value s = (Err e, s1) →
      call_spec sender contract method args value ps s (Err (ExState e)) s1
  | call_trapped code s1 e ctx :
      code_at s contract = Some code → pay sender contract value s = (Ok tt, s1) →
      VmEngine.execute code method args (context ps (State.load_contract_storage s1 contract)) = (Err e, ctx) →
      call_spec sender contract method args value ps s
        (Err (ExState (Serialization (vm_error_msg e)))) s1
  | call_reverted code s1 result ctx :
      code_at s contract = Some code → pay sender contract value s = (Ok tt, s1) →
      VmEngine.execute code method args (context ps (State.load_contract_storage s1 contract)) = (Ok result, ctx) →
      vr_status result ≠ 0 →
      call_spec sender contract method args value ps s
        (Err (ExState (Serialization ("contract reverted with status " +:+ pretty (vr_status result))))) s1
  | call_committed code s1 result ctx s2 :
      code_at s contract = Some code → pay sender contract value s = (Ok tt, s1) →
      VmEngine.execute code method args (context ps (State.load_contract_storage s1 contract)) = (Ok result, ctx) →
      vr_status result = 0 →
      contract_storage s2 contract = cx_storage ctx ∪ contract_storage s1 contract →
      (few_entries s1 contract →
         State.load_contract_storage s1 contract = contract_storage s1 contract
         ∧ contract_storage s2 contract = cx_storage ctx) →
      (∀ a, a ≠ contract → contract_storage s2 a = contract_storage s1 a) →
      untouched s1 s2 →
      Forall (λ l, log_address l = contract ∧ log_topics l = []) (cx_logs ctx) →
      call_spec sender contract method args value ps s
        (Ok (cx_logs ctx ++ [AssetTx.log contract "ContractCall" [] (to_vec (sender, contract, method))])) s2.

Lemma execute_no_panic code method args c : (VmEngine.execute code method args c).1 ≠ Panic.
Proof.
  unfold VmEngine.execute, lift, modify, gets, mbind, M_bind, mret, M_ret, fail_if.
  destruct (module_new code); cbn [negb]; [|done]. destruct (instance_new code) as [i|]; cbn [ok_or]; [|done].
  unfold VmEngine.check_memory. destruct (wi_memory i) as [[[lo hi] mem]|].
  - destruct (_ <? lo); cbn [guard_err res_bind]; [done|].
    destruct hi as [m|]; [destruct (_ <? m); cbn [guard_err]; [done|]|].
    all: unfold VmEngine.write_args; case_bool_decide; [|destruct (_ <? 8); cbn; [done|]; destruct (_ <? _); cbn; [done|]].
    all: destruct (wi_function i method); cbn [ok_or]; [|done].
    all: destruct (run_guest _ _) as [[r|] c1]; done.
  - destruct (wi_function i method); cbn [ok_or]; [|done].
    by destruct (run_guest _ _) as [[r|] c1].
Qed.

Lemma pay_no_panic sender contract value s : (pay sender contract value s).1 ≠ Panic.
Proof.
  unfold pay, State.transfer. destruct (Amount.is_zero value); [done|]. mrun. rewrite sub_balance_spec.
  destruct (_ <=? _); [|done]. rewrite add_balance_spec. by destruct (_ <? _).
Qed.

(** What a call of such a contract does to the state [s1] left by the value
    transfer. *)
Definition call_outcome (entry : bytes → Prog bytes) (sender contract : Address) (method args : bytes)
    (ps : ExecutionParams) (s1 : StateDB) (out : res ExecutionError (list Log) * StateDB) : Prop :=
  let r := run (entry args) (context ps (contract_storage s1 contract)) in
  if bool_decide (status r.1 = Some 0) then
    out.1 = Ok (cx_logs r.2 ++ [AssetTx.log contract "ContractCall" [] (to_vec (sender, contract, method))])
    ∧ contract_storage out.2 contract
      = invoke entry (MkInvocation ps args) (contract_storage s1 contract)
    ∧ (∀ a, a ≠ contract → contract_storage out.2 a = contract_storage s1 a)
    ∧ untouched s1 out.2
  else out = (Err (ExState (Serialization
                ("contract reverted with status " +:+ pretty (default 0 (status r.1))))), s1).

Lemma call_contract_outcome s s1 sender contract method args value block_number block_timestamp
    gas_limit code_hash code entry :
  ac_code_hash (State.get_account s contract) = Some code_hash →
  State.get_code s code_hash = Some code →
  (if Amount.is_zero value then (Ok tt, s) else State.transfer sender contract value s) = (Ok tt, s1) →
  runs_as code method entry args → String.length (address_bytes sender) = 20%nat → few_entries s1 contract →
  call_outcome entry sender contract method args
    (call_params sender contract value block_number block_timestamp gas_limit) s1
    (Tx.execute_call_contract sender contract method args value block_number block_timestamp gas_limit s).
Proof.
  intros Hh Hcode Hpay Hruns Hsender Hfew.
  set (ps := call_params _ _ _ _ _ _). set (c := context ps (contract_storage s1 contract)).
  destruct (Hruns c Hsender) as (mem & out & Hex).
  unfold Tx.execute_call_contract.
  erewrite M_bind_run; [|done]. erewrite M_bind_run; [|unfold lift; by rewrite Hh].
  erewrite M_bind_run; [|done]. erewrite M_bind_run; [|unfold lift; by rewrite Hcode].
  rewrite (M_bind_run _ _ s tt s1).
  2: { revert Hpay. destruct (Amount.is_zero value); [by intros [= <-]|]. unfold map_err. by intros ->. }
  erewrite M_bind_run; [|done]. rewrite load_contract_storage_all by done.
  change ((Ctx.new _) <| cx_storage := _ |>) with c. rewrite Hex.
  erewrite M_bind_run; [|done]. cbv beta iota. unfold call_outcome. fold c.
  pose proof (run_status (entry args) c) as Hnp. pose proof (run_dom (entry args) c) as Hdom.
  pose proof (run_balance_changes (entry args) c) as Hbal.
  destruct (run (entry args) c) as [r c1] eqn:Hrun. cbn [fst snd] in *.
  destruct (status r) as [z|] eqn:Hs; [|by destruct r]. change (default 0 (Some z)) with z.
  cbn [vr_status]. case_bool_decide as Hz.
  - injection Hz as ->. cbn [Z.eqb negb]. rewrite (M_bind_run _ _ s1 tt s1) by done.
    erewrite M_bind_run by done. unfold Ctx.take_balance_changes, Ctx.take_logs.
    change (cx_balance_changes (Ctx.set_memory mem c1)) with (cx_balance_changes c1). rewrite Hbal.
    cbn [for_each foldr]. erewrite M_bind_run by done.
    destruct (store_context s1 contract (cx_storage c1) Hdom) as [Hst Hot].
    unfold invoke. cbn [iv_args iv_params]. fold c. rewrite Hrun, Hs, bool_decide_true by done.
    split_and!; [done|exact Hst|exact Hot|apply untouched_storage_writes].
  - unfold mbind, M_bind, fail_if. destruct (Z.eqb_spec z 0) as [->|_]; done.
Qed.
(** *** Every branch *)

Lemma code_at_Some s contract code :
  code_at s contract = Some code →
  ∃ h, ac_code_hash (State.get_account s contract) = Some h ∧ State.get_code s h = Some code.
Proof. unfold code_at. destruct (ac_code_hash _) as [h|]; cbn; [|done]. by exists h. Qed.

(** The write-back of a call that returned zero. *)
Lemma commit_call s1 contract code method args ps r ctx :
  ep_contract_address ps = contract →
  VmEngine.execute code method args (context ps (State.load_contract_storage s1 contract)) = (r, ctx) →
  let s2 := foldl (λ s kv, State.put_contract_storage contract kv.1 kv.2 s) s1 (hash_iter (cx_storage ctx)) in
  cx_balance_changes ctx = []
  ∧ contract_storage s2 contract = cx_storage ctx ∪ contract_storage s1 contract
  ∧ (few_entries s1 contract → State.load_contract_storage s1 contract = contract_storage s1 contract
                             ∧ contract_storage s2 contract = cx_storage ctx)
  ∧ (∀ a, a ≠ contract → contract_storage s2 a = contract_storage s1 a)
  ∧ untouched s1 s2
  ∧ Forall (λ l, log_address l = contract ∧ log_topics l = []) (cx_logs ctx).
Proof.
  intros Hps Hex s2.
  pose proof (execute_confined code method args (context ps (State.load_contract_storage s1 contract))) as Hc.
  rewrite Hex in Hc. cbn [snd] in Hc. destruct Hc as [_ _ Hbal _ Hdom (new & Hlogs & Hnew)].
  destruct (store_over s1 contract (cx_storage ctx)) as [Hst Hot]. fold s2 in Hst, Hot.
  split_and!; [done|done| |done|apply untouched_storage_writes|].
  - intros Hf. pose proof (load_contract_storage_all s1 contract Hf) as Hl. split; [done|].
    rewrite Hl in Hdom. by apply store_context.
  - rewrite Hlogs. cbn. by rewrite <- Hps.
Qed.

Lemma call_contract_cases sender contract method args value block_number block_timestamp gas_limit s :
  let out := Tx.execute_call_contract sender contract method args value block_number block_timestamp
               gas_limit s in
  call_spec sender contract method args value
    (call_params sender contract value block_number block_timestamp gas_limit) s out.1 out.2.
Proof.
  set (ps := call_params _ _ _ _ _ _). cbv zeta. unfold Tx.execute_call_contract.
  destruct (code_at s contract) as [code|] eqn:Hcode.
  2: { pose proof (call_no_code sender contract method args value ps s Hcode) as Hn.
       unfold code_at in Hcode. mrun. destruct (ac_code_hash _) as [h|]; cbn [ok_or mbind option_bind] in *; [|done].
       by rewrite Hcode. }
  destruct (code_at_Some _ _ _ Hcode) as (h & Hh & Hc).
  erewrite M_bind_run; [|done]. erewrite M_bind_run; [|unfold lift; by rewrite Hh].
  erewrite M_bind_run; [|done]. erewrite M_bind_run; [|unfold lift; by rewrite Hc].
  assert (Hpay : (if Amount.is_zero value then mret tt else map_err ExState (State.transfer sender contract value))
    = map_err ExState (pay sender contract value)) by (unfold pay; by destruct (Amount.is_zero value)).
  rewrite Hpay. clear Hpay. pose proof (pay_no_panic sender contract value s) as Hnp.
  destruct (pay sender contract value s) as [[[]|e|] s1] eqn:Hp; [| |done].
  2: { erewrite M_bind_fails; [|unfold map_err; by rewrite Hp]. by eapply call_unpaid. }
  erewrite M_bind_run; [|unfold map_err; by rewrite Hp]. erewrite M_bind_run; [|done].
  change ((Ctx.new _) <| cx_storage := _ |>) with (context ps (State.load_contract_storage s1 contract)).
  pose proof (execute_no_panic code method args (context ps (State.load_contract_storage s1 contract))) as Hnp'.
  destruct (VmEngine.execute code method args _) as [[result|e|] ctx] eqn:Hex; [| |done].
  2: { erewrite M_bind_fails; [|done]. by eapply call_trapped. }
  erewrite M_bind_run; [|done]. destruct (Z.eqb_spec (vr_status result) 0) as [Hz|Hz].
  2: { erewrite M_bind_fails; [|done]. by eapply call_reverted. }
  rewrite (M_bind_run _ _ s1 tt s1) by done. erewrite M_bind_run by done.
  destruct (commit_call s1 contract code method args ps _ ctx eq_refl Hex) as (Hb & H1 & H2 & H3 & H4 & H5).
  unfold Ctx.take_balance_changes, Ctx.take_logs. rewrite Hb. cbn [for_each].
  erewrite M_bind_run by done. by apply (call_committed _ _ _ _ _ _ _ code s1 result ctx).
Qed.
End with_env.
