(* ===== verification/ContractCalls.v ===== *)
(** * Calls of the example contracts through the executor

    What a call may do, for every bytecode ([call_contract_confined]).  The buffers
    of the equity token fit the example placement, so that there is a runtime on
    which a [CallContract] transaction is [invoke] on its stored entries; and past
    the cap on loaded entries nodes disagree. *)

From stdpp Require Import pretty.
From S2P Require Import Prelude Primitives RustStr Assets StateDB Ledger Vm Contract.
From S2P Require Import EquityToken EquityProps Codecs ExecStaking ExecAssets Executor ExecFrame.
From S2P Require Import ExecCodecs ContractHost.

(** ** What fits *)

Lemma fits_bind {A B} (Q : A → Prop) (R : B → Prop) (p : Prog A) (f : A → Prog B) :
  fits Q p → (∀ a, Q a → fits R (f a)) → fits R (p ≫= f).
Proof.
  intros Hp Hf. induction p as [a|code|o k IH]; [by apply Hf|done|].
  destruct Hp as [Ho Hk]. split; [done|]. intros v b Hb. by apply IH, Hk.
Qed.

Lemma fits_weaken {A} (Q R : A → Prop) (p : Prog A) : (∀ a, Q a → R a) → fits Q p → fits R p.
Proof.
  intros Hw Hp. induction p as [a|code|o k IH]; [by apply Hw|done|].
  destruct Hp as [Ho Hk]. split; [done|]. intros v b Hb. by apply IH, Hk.
Qed.

Abbreviation fits_any := (fits (λ _, True)).

Lemma fits_then {A B} (R : B → Prop) (p : Prog A) (f : A → Prog B) :
  fits_any p → (∀ a, fits R (f a)) → fits R (p ≫= f).
Proof. intros Hp Hf. eapply fits_bind; [exact Hp|]. auto. Qed.

Lemma fits_exit_if b code : fits_any (exit_if b code).
Proof. by destruct b. Qed.

Lemma fits_guard {B} (R : B → Prop) b code (f : unit → Prog B) :
  (b = false → fits R (f tt)) → fits R (exit_if b code ≫= f).
Proof. destruct b; cbn; auto. Qed.

Lemma fits_consume_gas amount : fits_any (consume_gas amount).
Proof. split; [done|]. intros v b _. apply fits_exit_if. Qed.

Lemma fits_read key max :
  blen key <= 1024 → Z.of_nat max <= 1024 →
  fits (λ r, String.length r.2 = max) (storage_read key max).
Proof. by split. Qed.

Lemma fits_write key value : blen key <= 1024 → blen value <= 1024 → fits_any (storage_write key value).
Proof. by split. Qed.

Lemma fits_emit data : blen data <= 1024 → fits_any (emit_event data).
Proof. by split. Qed.

Lemma fits_caller : fits (λ a, String.length a = 20%nat) get_caller.
Proof. by split. Qed.

(** ** The equity token fits *)

Lemma blen_append a b : blen (a +:+ b) = blen a + blen b.
Proof. unfold blen. rewrite blen_app. lia. Qed.

Lemma blen_le n x : blen (to_le_bytes n x) = Z.of_nat n.
Proof. unfold blen. by rewrite to_le_bytes_length. Qed.

Lemma blen_byte x : blen (byte x) = 1.
Proof. done. Qed.

(** Addresses, names and symbols are at most this long. *)
Definition short (a : bytes) : Prop := blen a <= 64.

Lemma short_slice s start len : 0 <= len <= 64 → short (slice s start len).
Proof. intros Hl. unfold short, blen, slice. rewrite btake_length. lia. Qed.

Lemma short_length a n : String.length a = n → Z.of_nat n <= 64 → short a.
Proof. unfold short, blen. by intros ->. Qed.

Create HintDb fits_db.
Create Rewrite HintDb blen_db.
#[export] Hint Rewrite blen_append blen_le blen_byte : blen_db.

(** Lengths of keys and values built from constants, integers and short parts. *)
Ltac solve_blen :=
  unfold Equity.balance_key, Equity.whitelist_key, Equity.allowance_key, Equity.holder_index_key,
    KEY_INITIALIZED, KEY_NAME, KEY_SYMBOL, KEY_TOTAL_SUPPLY, KEY_ISSUER, KEY_COMPLIANCE, KEY_DECIMALS,
    KEY_HOLDER_COUNT;
  autorewrite with blen_db;
  repeat match goal with
  | |- context [blen (slice ?s ?i ?n)] =>
      let H := fresh in pose proof (short_slice s i n ltac:(by split)) as H; revert H;
      generalize (slice s i n); intros ? H
  | H : String.length ?a = ?n |- context [blen ?a] => apply short_length in H; [|done]
  end;
  unfold short in *; repeat change (blen (String ?a ?b)) with (Z.of_nat (String.length (String a b)));
  cbn [String.length] in *; lia.

#[export] Hint Resolve fits_exit_if fits_consume_gas : fits_db.
#[export] Hint Extern 1 (fits _ (storage_write _ _)) => apply fits_write; solve_blen : fits_db.
#[export] Hint Extern 1 (fits _ (emit_event _)) => apply fits_emit; solve_blen : fits_db.
#[export] Hint Extern 1 (short (slice _ _ _)) => apply short_slice; by split : fits_db.
#[export] Hint Extern 3 (fits _ (if ?b then _ else _)) => destruct b : fits_db.
#[export] Hint Extern 1 (fits _ (mret _)) => exact I : fits_db.
#[export] Hint Extern 2 (short _) => eapply short_length; [eassumption|done] : fits_db.

Ltac fits_step :=
  first [ solve [auto with fits_db]
        | eapply fits_bind; [apply fits_caller|let H := fresh in intros ? H; cbv beta in H]
        | eapply fits_bind; [apply fits_read; [solve_blen|done]|let H := fresh in intros ? H; cbv beta in H]
        | apply fits_guard; intros _
        | apply fits_then; [solve [auto with fits_db]|intros ?]
        | match goal with |- fits _ (if ?b then _ else _) => destruct b end ].
Ltac solve_fits := repeat fits_step; try done; try (cbn; solve_blen).

Module EquityFits.

Lemma fits_read_u128 key : blen key <= 1024 → fits_any (Equity.read_u128 key).
Proof. intros Hk. eapply fits_bind; [by apply fits_read|]. done. Qed.

Lemma fits_write_u128 key x : blen key <= 1024 → fits_any (Equity.write_u128 key x).
Proof. intros Hk. apply fits_write; solve_blen. Qed.

#[export] Hint Extern 1 (fits _ (Equity.read_u128 _)) => apply fits_read_u128; solve_blen : fits_db.
#[export] Hint Extern 1 (fits _ (Equity.write_u128 _ _)) => apply fits_write_u128; solve_blen : fits_db.

Lemma fits_require_issuer caller : fits_any (Equity.require_issuer caller).
Proof. unfold Equity.require_issuer. solve_fits. Qed.

Lemma fits_require_whitelisted a code : short a → fits_any (Equity.require_whitelisted a code).
Proof. intros Ha. unfold Equity.require_whitelisted. solve_fits. Qed.

#[export] Hint Resolve fits_require_issuer fits_require_whitelisted : fits_db.

Lemma fits_check_compliance from to : short from → short to → fits_any (Equity.check_compliance from to).
Proof. intros Hf Ht. unfold Equity.check_compliance. solve_fits. Qed.

Lemma fits_track_holder a : short a → fits_any (Equity.track_holder a).
Proof. intros Ha. unfold Equity.track_holder. solve_fits. Qed.

#[export] Hint Resolve fits_check_compliance fits_track_holder : fits_db.

Lemma fits_do_transfer from to amount :
  short from → short to → fits_memory (Equity.do_transfer from to amount).
Proof.
  intros Hf Ht. unfold fits_memory, Equity.do_transfer. solve_fits.
Qed.

#[export] Hint Resolve fits_do_transfer : fits_db.

Lemma fits_mint_supply issuer total : short issuer → fits_any (Equity.mint_supply issuer total).
Proof. intros Hi. unfold Equity.mint_supply. solve_fits. Qed.

(** Names, symbols and issuers that parse are short. *)
Lemma parse_init_short args name symbol total issuer n :
  Equity.parse_init args = Some (name, symbol, total, issuer, n) → short name ∧ short symbol ∧ short issuer.
Proof.
  unfold Equity.parse_init, MAX_NAME_LEN, MAX_SYMBOL_LEN, ADDR_LEN. intros Hp.
  repeat (case_match; [done|]). simplify_eq.
  repeat match goal with H : _ || _ = false |- _ => apply orb_false_iff in H as [? ?] end.
  pose proof (byte_at_bound args 0). pose proof (byte_at_bound args (Z.to_nat (1 + byte_at args 0))).
  split_and!; apply short_slice; lia.
Qed.

Lemma fits_require_uninitialized : fits_any Equity.require_uninitialized.
Proof. unfold Equity.require_uninitialized. solve_fits. Qed.

#[export] Hint Resolve fits_require_uninitialized : fits_db.

Lemma fits_method_init args : fits_memory (Equity.method_init args).
Proof.
  unfold fits_memory, Equity.method_init. solve_fits.
  destruct (Equity.parse_init args) as [[[[[name symbol] total] issuer] n]|] eqn:Hp; [|done].
  apply parse_init_short in Hp as (Hn & Hs & Hi). pose proof (fits_mint_supply issuer total Hi). solve_fits.
Qed.

Lemma fits_pay_holder total_amount total_supply i distributed :
  fits_any (Equity.pay_holder total_amount total_supply i distributed).
Proof.
  unfold Equity.pay_holder. eapply fits_bind; [apply fits_read; [solve_blen|done]|intros r H]. cbv beta in H.
  case_match; [done|].
  apply fits_then; [apply fits_read_u128; unfold Equity.balance_key; rewrite blen_append; unfold blen; rewrite H; cbn; lia|].
  intros b. case_match; [done|]. case_match; [|done]. case_match; [|done].
  apply fits_then; [|done]. apply fits_write_u128. unfold Equity.balance_key. rewrite blen_append. unfold blen. rewrite H. cbn. lia.
Qed.

Lemma fits_pay_holders total_amount total_supply holders distributed :
  fits_any (Equity.pay_holders total_amount total_supply holders distributed).
Proof.
  revert distributed. induction holders as [|i holders IH]; intros distributed; [done|].
  apply fits_then; [apply fits_pay_holder|]. intros d. apply IH.
Qed.

#[export] Hint Resolve fits_method_init fits_pay_holders : fits_db.

Lemma fits_call args : fits_memory (Equity.call args).
Proof.
  unfold fits_memory, Equity.call. apply fits_then; [auto with fits_db|intros _].
  unfold Equity.method_transfer, Equity.method_balance_of, Equity.method_approve, Equity.method_transfer_from,
    Equity.method_total_supply, Equity.method_distribute_revenue, Equity.method_set_compliance,
    Equity.method_add_to_whitelist, Equity.method_remove_from_whitelist, Equity.method_is_whitelisted.
  repeat case_match;
    match goal with |- fits _ (Equity.method_init _) => apply fits_method_init | _ => solve_fits end.
Qed.

End EquityFits.

(** ** Calls of the token *)

(** The exports of the token. *)
Definition equity_exports (method : bytes) : option (bytes → Prog bytes) :=
  if bool_decide (method = "call") then Some Equity.call
  else if bool_decide (method = "get_info") then Some (λ _, Equity.get_info)
  else None.

(** C17: A contract call touches the contract's own storage only, whatever the
    bytecode and whatever the runtime.  Without code nothing happens; a value that
    cannot be paid fails the call; a trap, a missing export or any status but zero
    fails it with that reason and leaves nothing but the value transfer; and a
    call that returns zero, run on the entries loaded for the contract after the
    value transfer, stores the entries of the finished run over the contract's own,
    under the contract's address only, leaves every account as after the value
    transfer, and reports the contract's logs, all under its own address, followed
    by the call's.  At most 10,000 entries are loaded: up to that number exactly the
    stored entries are, and exactly those of the finished run are stored after. *)
Theorem call_contract_confined `{!TxEnv} sender contract method args value block_number block_timestamp
    gas_limit s :
  let out := Tx.execute_call_contract sender contract method args value block_number block_timestamp
               gas_limit s in
  call_spec sender contract method args value
    (call_params sender contract value block_number block_timestamp gas_limit) s out.1 out.2.
Proof. apply call_contract_cases. Qed.

(** ** Example *)

(** One page of zeroed memory. *)
Definition page : bytes := zeros (Z.to_nat 65536).

Definition equity_wasm : WasmRuntime := {|
  module_new := λ _, true;
  instance_new := λ _, Some (MkWasmInstance (Some (1, None, page))
    (λ method, (λ entry m, compile (entry (read_args (default "" m))) (default "" m)) <$> equity_exports method));
|}.

Definition token_env : TxEnv := {|
  te_env := demo_env;
  te_codec := demo_exec_codec;
  te_gov := demo_gov_env;
  te_wasm := equity_wasm;
  te_pool := countable_borsh _;
  te_mining := countable_borsh _;
  te_header := countable_borsh _;
  te_evidence := countable_borsh _;
  te_slash := countable_borsh _;
  te_deploy := countable_borsh _;
  te_payload := countable_borsh _;
|}.

Lemma equity_layout : @example_layout equity_wasm "wasm" equity_exports.
Proof.
  split; [done|]. exists 1, page. eexists. split; [done|]. unfold page. split; [done|].
  split; [unfold blen; rewrite zeros_length; lia|]. split; [|done].
  replace (Z.to_nat 65536) with (8 + Z.to_nat 65528)%nat by lia. rewrite zeros_app.
  apply btake_app_n, zeros_length.
Qed.

(** The token at address 99 with the entries [st]. *)
Definition token_state (st : gmap bytes bytes) : StateDB :=
  StateDB_new
    <| db_accounts := {[ demo_holder 99 := MkAccountState 0 0 (Some H256_ZERO) H256_ZERO None ]} |>
    <| db_contract_code := {[ H256_ZERO := "wasm" ]} |>
    <| db_contract_storage := kmap (pair (demo_holder 99)) st |>.

Lemma token_state_entries st : contract_storage (token_state st) (demo_holder 99) = st.
Proof.
  apply map_eq. intros k. rewrite contract_storage_lookup.
  change (db_contract_storage (token_state st))
    with (kmap (M1:=gmap bytes) (M2:=gmap (Address * bytes)) (pair (demo_holder 99)) st).
  apply (lookup_kmap (pair (demo_holder 99))).
Qed.

(** A transfer of shares by a transaction: the call is [invoke] on the stored
    entries. *)
Lemma equity_call_invokes :
  let out := @Tx.execute_call_contract token_env (demo_holder 2) (demo_holder 99) "call"
               (transfer_args (demo_holder 3) 200) 0 1 1000 100000 (token_state demo_shares) in
  demo_balance (contract_storage out.2 (demo_holder 99)) 2 = 300
  ∧ demo_balance (contract_storage out.2 (demo_holder 99)) 3 = 200.
Proof.
  set (args := transfer_args (demo_holder 3) 200).
  assert (Ha : blen args <= 4088) by (vm_compute; discriminate).
  assert (Hr : @runs_as equity_wasm "wasm" "call" Equity.call args).
  { apply (example_runs_as "wasm" equity_exports); [exact equity_layout|reflexivity|apply EquityFits.fits_call|exact Ha]. }
  pose proof (@call_contract_outcome token_env (token_state demo_shares) (token_state demo_shares) (demo_holder 2)
    (demo_holder 99) "call" args 0 1 1000 100000 H256_ZERO "wasm" Equity.call) as H.
  specialize (H ltac:(reflexivity) ltac:(reflexivity) ltac:(reflexivity) Hr ltac:(reflexivity)
    ltac:(vm_compute; discriminate)). unfold args in *.
  unfold call_outcome in H. rewrite token_state_entries in H.
  set (out := Tx.execute_call_contract _ _ _ _ _ _ _ _ _) in *. clearbody out.
  rewrite bool_decide_true in H by (vm_compute; reflexivity). destruct H as (_ & H & _).
  cbv zeta. rewrite H. split; vm_compute; reflexivity.
Qed.

(** ** The cap on loaded entries *)

(** The environment with another iteration order. *)
Definition with_order (e : Env) (h : HashIter) : Env :=
  {| env_crypto := @env_crypto e; env_hash_iter := h; env_codec := @env_codec e |}.

Lemma filter_rev {A} (P : A → Prop) `{!∀ x, Decision (P x)} (l : list A) : filter P (rev l) = rev (filter P l).
Proof.
  induction l as [|x l IH]; [done|]. cbn [rev]. rewrite filter_app, IH, filter_cons.
  by case_decide as Hx; rewrite filter_cons, ?(decide_True _ _ Hx), ?(decide_False _ _ Hx), ?app_nil_r.
Qed.

(** Past 10,000 entries the nodes disagree on a contract's storage.  A call
    loads the first 10,000 entries in the iteration order of a hash map, which is
    chosen per process: for every contract with more entries there are two orders
    under which the same state shows a stored entry to the contract on one node
    and no entry on the other. *)
Theorem storage_cap_order_dependent (e : Env) s a :
  10000 < Z.of_nat (length (filter (λ kv, kv.1.1 = a) (map_to_list (db_contract_storage s)))) →
  ∃ k v, contract_storage s a !! k = Some v
       ∧ @State.load_contract_storage (with_order e reverse_order_iter) s a !! k = Some v
       ∧ @State.load_contract_storage (with_order e key_order_iter) s a !! k = None.
Proof.
  intros Hn. unfold State.load_contract_storage.
  change (@hash_iter (@env_hash_iter (with_order e reverse_order_iter)) _ _ _ _ ?m) with (rev (map_to_list m)).
  change (@hash_iter (@env_hash_iter (with_order e key_order_iter)) _ _ _ _ ?m) with (map_to_list m).
  rewrite filter_rev. destruct (filter _ (map_to_list _)) as [|x l _] eqn:HL using rev_ind; [cbn in Hn; lia|].
  rewrite length_app in Hn. cbn in Hn. rewrite rev_app_distr. cbn [rev app].
  assert (x :: rev l ≡ₚ filter (λ kv, kv.1.1 = a) (map_to_list (db_contract_storage s))) as Hr.
  { rewrite HL, <- Permutation_cons_append. by rewrite <- Permutation_rev. }
  exists x.1.2, x.2. split_and!.
  - rewrite contract_storage_lookup, <- (storage_lookup _ a _ _ Hr). apply lookup_insert_eq.
  - exact (capped_load_first _ a _ x Hr).
  - rewrite (capped_load_last (db_contract_storage s) a l x) by by rewrite HL.
    rewrite bool_decide_true by lia. done.
Qed.

(** A contract with one entry too many. *)
Definition crowded_state : StateDB :=
  token_state (list_to_map ((λ n, (to_le_bytes 2 n, byte 1)) <$> seqZ 0 10001)).

Lemma token_state_count st :
  length (filter (λ kv, kv.1.1 = demo_holder 99) (map_to_list (db_contract_storage (token_state st)))) = size st.
Proof.
  change (db_contract_storage (token_state st))
    with (kmap (M1:=gmap bytes) (M2:=gmap (Address * bytes)) (pair (demo_holder 99)) st).
  rewrite (map_to_list_kmap (pair (demo_holder 99))). 
  assert (∀ l : list (bytes * bytes), filter (λ kv, kv.1.1 = demo_holder 99)
    (prod_map (pair (demo_holder 99)) id <$> l) = prod_map (pair (demo_holder 99)) id <$> l) as Hall.
  { induction l as [|x l IH]; [done|]. rewrite fmap_cons, filter_cons_True by done. by rewrite IH. }
  by rewrite Hall, length_fmap, length_map_to_list.
Qed.

Lemma crowded_entries :
  Z.of_nat (length (filter (λ kv, kv.1.1 = demo_holder 99)
    (map_to_list (db_contract_storage crowded_state)))) = 10001.
Proof.
  unfold crowded_state. rewrite token_state_count, map_size_list_to_map.
  - rewrite length_fmap, length_seqZ. lia.
  - rewrite <- list_fmap_compose. apply NoDup_fmap_2_strong; [|apply NoDup_seqZ].
    intros x y Hx%elem_of_seqZ Hy%elem_of_seqZ Hxy. change (to_le_bytes 2 x = to_le_bytes 2 y) in Hxy.
    apply (f_equal from_le_bytes) in Hxy. rewrite !from_to_le_bytes in Hxy; lia.
Qed.

Lemma storage_cap_order_dependent_witness :
  ∃ k, @State.load_contract_storage (with_order demo_env reverse_order_iter) crowded_state (demo_holder 99) !! k
     ≠ @State.load_contract_storage (with_order demo_env key_order_iter) crowded_state (demo_holder 99) !! k.
Proof.
  destruct (storage_cap_order_dependent demo_env crowded_state (demo_holder 99)) as (k & v & _ & H1 & H2).
  - rewrite crowded_entries. reflexivity.
  - exists k. rewrite H1, H2. discriminate.
Defined.
