(* ===== verification/Chain.v ===== *)
(** * The chain ([crates/vtt-chain/src/lib.rs])

    Block storage, the canonical index and the world state: starting from
    genesis or from a store, importing blocks and choosing the head. The chain
    and its state hold the same store; the model keeps it in the state, and
    [ch_persistent] tells whether the chain has a handle on it. The wall clock is
    an argument of [import_block]. *)

From stdpp Require Import pretty.
From S2P Require Import Prelude Primitives Storage Assets Oracle StateDB Codecs Snapshot Restart.
From S2P Require Import Consensus ExecStaking Executor.

Inductive ChainError :=
  | BlockAlreadyKnown (hash : H256)
  | UnknownParent (hash : H256)
  | ChConsensus (e : ConsensusError)
  | InvalidTransactionsRoot (expected got : H256)
  | InvalidStateRoot (expected got : H256)
  | GenesisAlreadySet
  | NoGenesis
  | RevertsPastFinalized (block_number finalized : Z)
  | ChInvalidTimestamp (block parent : Z)
  | TimestampTooFarInFuture (block now : Z)
  | WeakSubjectivityViolation (checkpoint : Z) (expected got : H256).

Record ImportResult := MkImportResult {
  ir_block_hash : H256;
  ir_block_number : Z;
  ir_receipts : list TransactionReceipt;
  ir_is_new_head : bool;
}.

Record Chain := MkChain {
  ch_headers : gmap H256 BlockHeader;
  ch_bodies : gmap H256 Block;
  ch_canonical : gmap Z H256;
  ch_head_hash : option H256;
  ch_state : StateDB;
  ch_consensus : ConsensusEngine;
  ch_gas_config : GasConfig;
  ch_validator_set : ValidatorSet;
  ch_persistent : bool;
  ch_finalized_block : Z;
  ch_weak_subjectivity : option (Z * H256);
}.

Definition Chain_eta (c : Chain) : Chain :=
  MkChain (ch_headers c) (ch_bodies c) (ch_canonical c) (ch_head_hash c) (ch_state c)
    (ch_consensus c) (ch_gas_config c) (ch_validator_set c) (ch_persistent c)
    (ch_finalized_block c) (ch_weak_subjectivity c).

#[global] Instance upd_ch_headers : Updater ch_headers.
Proof. derive_updater Chain_eta. Defined.
#[global] Instance upd_ch_bodies : Updater ch_bodies.
Proof. derive_updater Chain_eta. Defined.
#[global] Instance upd_ch_canonical : Updater ch_canonical.
Proof. derive_updater Chain_eta. Defined.
#[global] Instance upd_ch_head_hash : Updater ch_head_hash.
Proof. derive_updater Chain_eta. Defined.
#[global] Instance upd_ch_state : Updater ch_state.
Proof. derive_updater Chain_eta. Defined.
#[global] Instance upd_ch_validator_set : Updater ch_validator_set.
Proof. derive_updater Chain_eta. Defined.
#[global] Instance upd_ch_finalized_block : Updater ch_finalized_block.
Proof. derive_updater Chain_eta. Defined.
#[global] Instance upd_ch_weak_subjectivity : Updater ch_weak_subjectivity.
Proof. derive_updater Chain_eta. Defined.

(** The encodings the chain needs beyond those of the executor. *)
Class ChainEnv : Type := {
  ce_tx :: TxEnv;
  ce_block :: Borsh Block;
  ce_receipt :: Borsh TransactionReceipt;
  ce_legacy_unbonding :: Borsh (list (Address * list (Amount * Z)));
}.

Definition MAX_FUTURE_DRIFT_MS : Z := 30000.

Module Chain.
Section with_env.
Context `{!ChainEnv}.

(** ** State and store *)

Definition on_state {E A} (m : M StateDB E A) : M Chain E A := λ c,
  let '(r, s) := m (ch_state c) in (r, c <| ch_state := s |>).

(** A call that returns no [Result]. *)
Definition infallible {E A} (m : M Chain Empty_set A) : M Chain E A :=
  map_err (λ e : Empty_set, match e with end) m.

(** [if let Some(ref storage) = self.storage { let _ = storage.put(..) }]. *)
Definition put (col : Column) (k v : bytes) (c : Chain) : Chain :=
  if ch_persistent c then c <| ch_state := persist col k v (ch_state c) |> else c.

Definition read (c : Chain) (col : Column) (k : bytes) : option bytes :=
  if ch_persistent c then disk_get (ch_state c) col k else None.

Definition read_u64 (c : Chain) (k : bytes) : option Z :=
  b ← read c ChainMeta k;
  if blen b =? 8 then Some (from_le_bytes b) else None.

Definition block_hash (header : BlockHeader) : H256 := blake3_hash (signable_bytes header).

(** The index entry of the transaction at position [idx] of block [number]. *)
Definition tx_location (number : Z) (idx : nat) : bytes :=
  to_le_bytes 8 number +:+ to_le_bytes 4 (wrap 32 (Z.of_nat idx)).

Definition index_transactions (number : Z) (txs : list SignedTransaction) (c : Chain) : Chain :=
  foldl (λ c itx, put Transactions (h256_bytes (Tx.tx_hash itx.2)) (tx_location number itx.1) c)
    c (imap pair txs).

(** ** Getters *)

Definition head (c : Chain) : option BlockHeader := ch_head_hash c ≫= λ h, ch_headers c !! h.

Definition height (c : Chain) : option Z := bh_number <$> head c.

Definition block_count (c : Chain) : Z := Z.of_nat (size (ch_headers c)).

Definition get_header (c : Chain) (hash : H256) : option BlockHeader := ch_headers c !! hash.

Definition get_block (c : Chain) (hash : H256) : option Block := ch_bodies c !! hash.

Definition get_canonical_hash (c : Chain) (number : Z) : option H256 := ch_canonical c !! number.

Definition get_block_by_number (c : Chain) (number : Z) : option Block :=
  hash ← ch_canonical c !! number; ch_bodies c !! hash.

Definition get_tx_location (c : Chain) (tx_hash : H256) : option (Z * Z) :=
  v ← read c Transactions (h256_bytes tx_hash);
  if blen v =? 12 then Some (from_le_bytes (btake 8 v), from_le_bytes (bdrop 8 v)) else None.

Definition get_receipt (c : Chain) (tx_hash : H256) : option TransactionReceipt :=
  read c Receipts (h256_bytes tx_hash) ≫= from_slice.

Definition get_balance_of (c : Chain) (a : Address) : Amount := State.get_balance (ch_state c) a.

(** ** Starting *)

Definition new (consensus : ConsensusEngine) (gas_config : GasConfig) : Chain :=
  MkChain ∅ ∅ ∅ None StateDB_new consensus gas_config (VSet.empty 0) false 0 None.

Definition stored_header (c : Chain) (hash : H256) : option BlockHeader :=
  read c BlockHeaders (h256_bytes hash) ≫= from_slice.

(** What the loop does with a stored header before it moves to the parent. *)
Definition load_block (current : H256) (header : BlockHeader) (c : Chain) : Chain :=
  let c := c <| ch_canonical := <[bh_number header := current]> (ch_canonical c) |> in
  let c := match read c BlockBodies (h256_bytes current) ≫= from_slice with
           | Some body => c <| ch_bodies := <[current := body]> (ch_bodies c) |>
           | None => c
           end in
  c <| ch_headers := <[current := header]> (ch_headers c) |>.

(** The [while] loop of [resume_from_storage]; [None] when it has not ended
    after [fuel] headers. *)
Fixpoint load_back (fuel : nat) (current : H256) (c : Chain) : option Chain :=
  match stored_header c current with
  | None => Some c
  | Some header =>
      match fuel with
      | O => None
      | S fuel =>
          let c := load_block current header c in
          if bh_number header =? 0 then Some c else load_back fuel (bh_parent_hash header) c
      end
  end.

(** One header more than the store has: a longer walk has met one twice. *)
Definition load_fuel (c : Chain) : nat :=
  match db_storage (ch_state c) with
  | Some st => S (size (default ∅ (st !! BlockHeaders)))
  | None => 1
  end.

Definition index_block (c : Chain) (n : Z) : Chain :=
  match ch_canonical c !! n ≫= λ hash, ch_bodies c !! hash with
  | Some body => index_transactions n (bl_transactions body) c
  | None => c
  end.

Definition backfill_index (head_number : Z) (c : Chain) : Chain :=
  let indexed_upto := default 0 (read_u64 c "tx_index:head") in
  if indexed_upto <? head_number then
    let c := foldl index_block c (seqZ (indexed_upto + 1) (head_number - indexed_upto)) in
    put ChainMeta "tx_index:head" (to_le_bytes 8 head_number) c
  else c.

Definition elect {E} (number : Z) : M Chain E unit :=
  consensus ← gets ch_consensus;
  epoch ← lift (Engine.epoch_for_block consensus number);
  modify (λ c, c <| ch_validator_set := Engine.elect_validators consensus (ch_state c) epoch |>).

(** The recomputed state root is compared with the one of the head; a first
    difference is remembered, and no difference stops the node. *)
Definition check_resumed_root (head : BlockHeader) (c : Chain) : Chain :=
  let '(computed, s) := Snapshot.compute_state_root (ch_state c) in
  let c := c <| ch_state := s |> in
  if bool_decide (computed = bh_state_root head) then c
  else if bool_decide (read_u64 c "state_root:boundary" = Some (bh_number head)) then c
  else put ChainMeta "state_root:boundary" (to_le_bytes 8 (bh_number head)) c.

(** [Panic] also stands for a walk over the stored headers that does not end. *)
Definition resume_from_storage {E} : M Chain E unit :=
  head_bytes ← gets (λ c, read c ChainMeta "head_hash");
  match head_bytes with
  | None => mret tt
  | Some b =>
      if negb (blen b =? 32) then mret tt
      else
        let head_hash := MkH256 b in
        loaded ← gets (λ c, load_back (load_fuel c) head_hash c);
        match loaded with
        | None => lift Panic
        | Some c =>
            _ ← modify (λ _, c);
            if bool_decide (ch_headers c = ∅) then mret tt
            else
              let head_number := default 0 (bh_number <$> ch_headers c !! head_hash) in
              _ ← modify (backfill_index head_number);
              _ ← modify (λ c, c <| ch_head_hash := Some head_hash |>);
              head ← gets (λ c, ch_headers c !! head_hash);
              match head with
              | None => mret tt
              | Some head => _ ← elect (bh_number head); modify (check_resumed_root head)
              end
        end
  end.

Definition with_storage {E} (consensus : ConsensusEngine) (gas_config : GasConfig) (st : KvStore)
    : res E Chain :=
  state ← Restart.with_storage st;
  let chain := MkChain ∅ ∅ ∅ None state consensus gas_config (VSet.empty 0) true
                 (State.finalized_block state) None in
  match resume_from_storage (E:=ChainError) chain with
  | (Panic, _) => Panic
  | (_, chain) => Ok chain
  end.

(** The branch of [init_genesis] for a chain that was resumed. *)
Definition resume_genesis (hash head : H256) (genesis_state : StateDB) : M Chain ChainError H256 :=
  stored ← gets (λ c, ch_canonical c !! 0);
  if bool_decide (stored = Some hash) then
    rebuild ← gets (λ c, State.stakers_empty (ch_state c));
    _ ← if rebuild : bool then
          _ ← modify (λ c, c <| ch_state := Restart.bootstrap_stakers_from genesis_state (ch_state c) |>);
          head_number ← gets (λ c, default 0 (bh_number <$> ch_headers c !! head));
          elect head_number
        else mret tt;
    mret head
  else throw GenesisAlreadySet.

Definition adopt_state {E} (genesis_state : StateDB) (c : Chain) : res E unit * Chain :=
  match ch_persistent c, db_storage (ch_state c) with
  | true, Some st => on_state (Restart.attach_storage st) (c <| ch_state := genesis_state |>)
  | _, _ => (Ok tt, c <| ch_state := genesis_state |>)
  end.

Definition persist_genesis (hash : H256) (genesis_block : Block) (c : Chain) : Chain :=
  let c := put BlockHeaders (h256_bytes hash) (to_vec (bl_header genesis_block)) c in
  let c := put BlockBodies (h256_bytes hash) (to_vec genesis_block) c in
  let c := put ChainIndex "canonical:0" (h256_bytes hash) c in
  put ChainMeta "head_hash" (h256_bytes hash) c.

Definition install_genesis (hash : H256) (genesis_block : Block) (c : Chain) : Chain :=
  c <| ch_validator_set := Engine.elect_validators (ch_consensus c) (ch_state c) 0 |>
    <| ch_headers := <[hash := bl_header genesis_block]> (ch_headers c) |>
    <| ch_bodies := <[hash := genesis_block]> (ch_bodies c) |>
    <| ch_canonical := <[0 := hash]> (ch_canonical c) |>
    <| ch_head_hash := Some hash |>.

Definition init_genesis (genesis_block : Block) (genesis_state : StateDB)
    : M Chain ChainError H256 :=
  let hash := block_hash (bl_header genesis_block) in
  head ← gets ch_head_hash;
  match head with
  | Some head => resume_genesis hash head genesis_state
  | None =>
      _ ← adopt_state genesis_state;
      _ ← modify (persist_genesis hash genesis_block);
      _ ← modify (install_genesis hash genesis_block);
      mret hash
  end.

(** ** Importing *)

(** The checks before anything is changed; the parent's header on success. *)
Definition check_block (now_ms : Z) (block : Block) (c : Chain) : res ChainError BlockHeader :=
  let h := bl_header block in
  let hash := block_hash h in
  _ ← guard_err (bool_decide (is_Some (ch_headers c !! hash))) (BlockAlreadyKnown hash);
  parent ← ok_or (UnknownParent (bh_parent_hash h)) (ch_headers c !! bh_parent_hash h);
  _ ← guard_err ((0 <? ch_finalized_block c) && (bh_number parent <? ch_finalized_block c))
        (RevertsPastFinalized (bh_number h) (ch_finalized_block c));
  _ ← match ch_weak_subjectivity c with
      | Some (cp_number, cp_hash) =>
          if cp_number <=? bh_number h then
            match ch_canonical c !! cp_number with
            | Some stored =>
                guard_err (negb (bool_decide (stored = cp_hash)))
                  (WeakSubjectivityViolation cp_number cp_hash stored)
            | None => Ok tt
            end
          else Ok tt
      | None => Ok tt
      end;
  _ ← guard_err (bh_timestamp h <=? bh_timestamp parent)
        (ChInvalidTimestamp (bh_timestamp h) (bh_timestamp parent));
  _ ← guard_err ((0 <? now_ms) && (saturating_add 64 now_ms MAX_FUTURE_DRIFT_MS <? bh_timestamp h))
        (TimestampTooFarInFuture (bh_timestamp h) now_ms);
  let expected_tx_root := merkle_root (Tx.tx_hash <$> bl_transactions block) in
  _ ← guard_err (negb (bool_decide (bh_transactions_root h = expected_tx_root)))
        (InvalidTransactionsRoot expected_tx_root (bh_transactions_root h));
  Ok parent.

(** The slash of one validator at the end of an epoch. *)
Definition downtime_slash {E} (old_epoch slot_allocation threshold bps : Z) (vm : Address * Z)
    : M StateDB E unit :=
  let '(validator, miss_count) := vm in
  if is_downtime_violation miss_count slot_allocation threshold then
    account ← gets (λ s, State.get_account s validator);
    let total_stake := default 0 (sk_total_stake <$> ac_staking account) in
    if Amount.is_zero total_stake then mret tt
    else
      actual ← State.apply_slash validator (calculate_downtime_slash total_stake bps);
      if Amount.is_zero actual then mret tt
      else modify (State.record_slash validator old_epoch "downtime" actual)
  else mret tt.

(** The end of the epoch of [vs]: its missed slots are taken and punished. *)
Definition close_epoch {E} (params : ConsensusParams) (vs : ValidatorSet) : M StateDB E unit :=
  let old_epoch := vs_epoch vs in
  let slots_per_epoch := epoch_length params in
  let validator_count := VSet.len vs in
  missed ← (λ s, let '(missed, s) := State.take_missed_slots_for_epoch old_epoch s in (Ok missed, s));
  threshold ← gets (λ s, default (downtime_threshold_pct params)
                           (State.get_downtime_threshold_pct_override s));
  bps ← gets (λ s, default (slash_downtime_bps params) (State.get_slash_downtime_bps_override s));
  if (0 <? validator_count) && (0 <? slots_per_epoch) then
    let slot_allocation := wrap 32 (Z.max (slots_per_epoch / validator_count) 1) in
    for_each missed (downtime_slash old_epoch slot_allocation threshold bps)
  else mret tt.

Definition rotate_epoch {E} (block_epoch : Z) : M Chain E unit :=
  vs ← gets ch_validator_set;
  consensus ← gets ch_consensus;
  if vs_epoch vs <? block_epoch then
    _ ← on_state (close_epoch (ce_params consensus) vs);
    modify (λ c, c <| ch_validator_set :=
      Engine.elect_validators consensus (ch_state c) block_epoch |>)
  else mret tt.

Definition detect_double_sign {E} (header : BlockHeader) (hash : H256) (block_epoch : Z)
    : M Chain E unit :=
  prior ← on_state (λ s,
    let '(prior, s) := State.record_block_commitment (bh_validator header) (bh_epoch header)
                         (bh_slot header) hash s in (Ok prior, s));
  match prior with
  | Some prior_hash =>
      if bool_decide (prior_hash = hash) then mret tt
      else
        prior_header ← gets (λ c, ch_headers c !! prior_hash);
        match prior_header with
        | Some prior_header =>
            params ← gets (λ c, ce_params (ch_consensus c));
            bps ← gets (λ c, default (slash_double_sign_bps params)
                              (State.get_slash_double_sign_bps_override (ch_state c)));
            _ ← on_state (Exec.process_slashing_evidence
                   [MkDoubleSignEvidence prior_header header] bps block_epoch);
            mret tt
        | None => mret tt
        end
  | None => mret tt
  end.

(** Every leader between the parent's slot and this one, the producer apart,
    has missed a slot. *)
Definition track_downtime {E} (header parent : BlockHeader) : M Chain E unit :=
  let from := wrap 32 (bh_slot parent + 1) in
  if (bh_epoch header =? bh_epoch parent) && (from <? bh_slot header) then
    validators ← gets (λ c, vs_validators (ch_validator_set c));
    for_each (seqZ from (bh_slot header - from)) (λ missed_slot,
      match validators !! Z.to_nat (missed_slot mod Z.of_nat (length validators)) with
      | Some v =>
          if bool_decide (vi_address v = bh_validator header) then mret tt
          else on_state (modify (State.record_missed_slot (bh_epoch header) (vi_address v)))
      | None => mret tt
      end)
  else mret tt.

(** Execution and settlement of a block another node produced. *)
Definition execute_block {E} (block : Block) (pre_epoch_total_staked : Amount)
    : M Chain E (list TransactionReceipt) :=
  let h := bl_header block in
  gas_config ← gets ch_gas_config;
  params ← gets (λ c, ce_params (ch_consensus c));
  r ← on_state (Tx.execute_block_transactions_at (bl_transactions block) gas_config
        (bh_gas_limit h) (bh_number h) (bh_timestamp h) (bh_chain_id h));
  _ ← on_state (Tx.apply_block_rewards_and_governance (bh_number h) (bh_gas_used h) gas_config
        (bh_validator h) pre_epoch_total_staked params);
  mret r.1.

Definition check_state_root (header : BlockHeader) (snapshot : StateSnapshot) (vs : ValidatorSet)
    : M Chain ChainError unit :=
  computed ← on_state (λ s, let '(root, s) := Snapshot.compute_state_root s in (Ok root, s));
  if bool_decide (bh_state_root header = computed) then mret tt
  else
    _ ← modify (λ c, c <| ch_state := Snapshot.restore snapshot (ch_state c) |>
                       <| ch_validator_set := vs |>);
    throw (InvalidStateRoot computed (bh_state_root header)).

Definition store_block (block : Block) (hash : H256) (receipts : list TransactionReceipt)
    (c : Chain) : Chain :=
  let h := bl_header block in
  let c := put BlockHeaders (h256_bytes hash) (to_vec h) c in
  let c := put BlockBodies (h256_bytes hash) (to_vec block) c in
  let c := foldl (λ c r, put Receipts (h256_bytes (rc_tx_hash r)) (to_vec r) c) c receipts in
  let c := index_transactions (bh_number h) (bl_transactions block) c in
  let c := put ChainMeta "tx_index:head" (to_le_bytes 8 (bh_number h)) c in
  c <| ch_headers := <[hash := h]> (ch_headers c) |>
    <| ch_bodies := <[hash := block]> (ch_bodies c) |>.

Definition is_new_head (header : BlockHeader) (c : Chain) : bool :=
  match head c with
  | Some h =>
      match Z.compare (bh_number header) (bh_number h) with
      | Gt => true
      | Lt => false
      | Eq => match H256_compare (block_hash header) (default H256_ZERO (ch_head_hash c)) with
              | Lt => true
              | _ => false
              end
      end
  | None => true
  end.

Definition set_head (header : BlockHeader) (hash : H256) (c : Chain) : Chain :=
  let c := put ChainIndex ("canonical:" +:+ pretty (Z.to_N (bh_number header))) (h256_bytes hash) c in
  let c := put ChainMeta "head_hash" (h256_bytes hash) c in
  c <| ch_canonical := <[bh_number header := hash]> (ch_canonical c) |>
    <| ch_head_hash := Some hash |>.

(** Steps 1 to 7: the checks, the epoch, and the state after the block. *)
Definition process_block (now_ms : Z) (block : Block)
    (provided_receipts : option (list TransactionReceipt))
    : M Chain ChainError (list TransactionReceipt) :=
  let h := bl_header block in
  c ← gets id;
  parent ← lift (check_block now_ms block c);
  let block_snapshot := Snapshot.snapshot (ch_state c) in
  let validator_set_snapshot := ch_validator_set c in
  pre_epoch_total_staked ← lift (VSet.total_stake (ch_validator_set c));
  block_epoch ← lift (Engine.epoch_for_block (ch_consensus c) (bh_number h));
  _ ← infallible (rotate_epoch block_epoch);
  c ← gets id;
  _ ← lift (res_map_err ChConsensus
        (Engine.verify_header (ch_consensus c) h parent (ch_validator_set c)));
  _ ← infallible (detect_double_sign h (block_hash h) block_epoch);
  _ ← infallible (track_downtime h parent);
  receipts ← match provided_receipts with
             | Some r => mret r
             | None => infallible (execute_block block pre_epoch_total_staked)
             end;
  _ ← check_state_root h block_snapshot validator_set_snapshot;
  mret receipts.

(** Steps 8 and 9: the block is stored and may become the head. *)
Definition commit_block {E} (block : Block) (receipts : list TransactionReceipt)
    : M Chain E ImportResult :=
  let h := bl_header block in
  let hash := block_hash h in
  _ ← modify (store_block block hash receipts);
  new_head ← gets (is_new_head h);
  _ ← modify (λ c, if new_head : bool then set_head h hash c else c);
  mret (MkImportResult hash (bh_number h) receipts new_head).

Definition import_block_impl (now_ms : Z) (block : Block)
    (provided_receipts : option (list TransactionReceipt)) : M Chain ChainError ImportResult :=
  receipts ← process_block now_ms block provided_receipts;
  commit_block block receipts.

Definition import_block (now_ms : Z) (block : Block) : M Chain ChainError ImportResult :=
  import_block_impl now_ms block None.

Definition import_produced_block (now_ms : Z) (block : Block) (receipts : list TransactionReceipt)
    : M Chain ChainError ImportResult :=
  import_block_impl now_ms block (Some receipts).

(** ** Checkpoints *)

Definition set_weak_subjectivity_checkpoint (number : Z) (hash : H256) (c : Chain) : Chain :=
  c <| ch_weak_subjectivity := Some (number, hash) |>.

Definition set_finalized_block (number : Z) (c : Chain) : Chain :=
  if ch_finalized_block c <? number then
    c <| ch_finalized_block := number |>
      <| ch_state := State.set_finalized_block number (ch_state c) |>
  else c.

End with_env.
End Chain.
