(* ===== verification/ChainProps.v ===== *)
(** * Properties of the chain

    What importing a block does to the block index whatever the block is, the
    shape of every reachable index, finality, and what a failed import leaves
    behind. *)

From S2P Require Import Prelude Primitives Storage Assets Oracle StateDB Codecs Snapshot Restart.
From S2P Require Import Consensus ExecStaking Executor Chain.

Section with_env.
Context `{!ChainEnv}.
Implicit Types (c : Chain) (b : Block) (h : BlockHeader).

(** ** Operations that leave the block index alone *)

Record same_index c c' : Prop := {
  si_headers : ch_headers c' = ch_headers c;
  si_bodies : ch_bodies c' = ch_bodies c;
  si_canonical : ch_canonical c' = ch_canonical c;
  si_head : ch_head_hash c' = ch_head_hash c;
  si_consensus : ch_consensus c' = ch_consensus c;
  si_gas : ch_gas_config c' = ch_gas_config c;
  si_persistent : ch_persistent c' = ch_persistent c;
  si_finalized : ch_finalized_block c' = ch_finalized_block c;
  si_checkpoint : ch_weak_subjectivity c' = ch_weak_subjectivity c;
}.

#[global] Instance same_index_preorder : PreOrder same_index.
Proof.
  split; [by intros c; split|].
  intros c1 c2 c3 [] []. split; congruence.
Qed.

Definition index_frame {E A} (m : M Chain E A) : Prop := ∀ c, same_index c (m c).2.

Lemma frame_bind {E A B} (m : M Chain E A) (f : A → M Chain E B) :
  index_frame m → (∀ a, index_frame (f a)) → index_frame (m ≫= f).
Proof.
  intros Hm Hf c. unfold mbind, M_bind. pose proof (Hm c) as Hc.
  destruct (m c) as [[a|e|] c1]; cbn in *; [|done..].
  etrans; [done|]. apply Hf.
Qed.

Lemma frame_ret {E A} (a : A) : index_frame (E:=E) (mret a).
Proof. intros c. cbn. reflexivity. Qed.
Lemma frame_gets {E A} (f : Chain → A) : index_frame (E:=E) (gets f).
Proof. intros c. cbn. reflexivity. Qed.
Lemma frame_lift {E A} (r : res E A) : index_frame (lift r).
Proof. intros c. cbn. reflexivity. Qed.
Lemma frame_throw {E A} (e : E) : index_frame (A:=A) (throw e).
Proof. intros c. cbn. reflexivity. Qed.
Lemma index_modify {E} (f : Chain → Chain) : (∀ c, same_index c (f c)) → index_frame (E:=E) (modify f).
Proof. intros Hf c. cbn. apply Hf. Qed.
Lemma frame_on_state {E A} (m : M StateDB E A) : index_frame (Chain.on_state m).
Proof. intros c. unfold Chain.on_state. destruct (m (ch_state c)). by split. Qed.
Lemma frame_for_each {E A} (l : list A) (f : A → M Chain E unit) :
  (∀ a, index_frame (f a)) → index_frame (for_each l f).
Proof.
  intros Hf. induction l as [|a l IH]; [apply frame_ret|]. cbn. by apply frame_bind.
Qed.

Lemma frame_infallible {E A} (m : M Chain Empty_set A) :
  index_frame m → index_frame (E:=E) (Chain.infallible m).
Proof.
  intros Hm c. unfold Chain.infallible, map_err. pose proof (Hm c) as Hc.
  by destruct (m c) as [[]].
Qed.

Lemma infallible_Ok {E A} (m : M Chain Empty_set A) c a c' :
  Chain.infallible (E:=E) m c = (Ok a, c') → m c = (Ok a, c').
Proof. apply map_err_Ok. Qed.

Lemma infallible_Err {E A} (m : M Chain Empty_set A) c e c' :
  Chain.infallible (E:=E) m c ≠ (Err e, c').
Proof. unfold Chain.infallible, map_err. by destruct (m c) as [[|[]|] ?]. Qed.

Ltac solve_index_frame :=
  repeat first
    [ apply frame_ret | apply frame_gets | apply frame_lift | apply frame_throw
    | apply frame_on_state
    | apply index_modify; intros; by split
    | apply frame_for_each; intros ?
    | apply frame_bind; [|intros ?]
    | match goal with
      | |- index_frame (if ?b then _ else _) => destruct b
      | |- index_frame (match ?x with _ => _ end) => destruct x
      end ].

Lemma frame_rotate_epoch {E} n : index_frame (E:=E) (Chain.rotate_epoch n).
Proof. unfold Chain.rotate_epoch. solve_index_frame. Qed.
Lemma frame_detect_double_sign {E} h hash n : index_frame (E:=E) (Chain.detect_double_sign h hash n).
Proof. unfold Chain.detect_double_sign. solve_index_frame. Qed.
Lemma frame_track_downtime {E} h p : index_frame (E:=E) (Chain.track_downtime h p).
Proof. unfold Chain.track_downtime. solve_index_frame. Qed.
Lemma frame_execute_block {E} b staked : index_frame (E:=E) (Chain.execute_block b staked).
Proof. unfold Chain.execute_block. solve_index_frame. Qed.
Lemma frame_receipts b (pr : option (list TransactionReceipt)) staked :
  index_frame (E:=ChainError)
    match pr with Some r => mret r | None => Chain.infallible (Chain.execute_block b staked) end.
Proof. destruct pr; [apply frame_ret|apply frame_infallible, frame_execute_block]. Qed.
Lemma frame_check_state_root h sn vs : index_frame (Chain.check_state_root h sn vs).
Proof. unfold Chain.check_state_root. solve_index_frame. Qed.

(** Writing to the store changes the state only. *)
Lemma put_index col k v c : same_index c (Chain.put col k v c).
Proof. unfold Chain.put. by destruct (ch_persistent c); split. Qed.

Lemma foldl_index {A} (f : Chain → A → Chain) l c :
  (∀ c a, same_index c (f c a)) → same_index c (foldl f c l).
Proof.
  intros Hf. revert c. induction l as [|a l IH]; intros c; cbn; [reflexivity|].
  etrans; [apply Hf|]. apply IH.
Qed.

Lemma index_transactions_index n txs c : same_index c (Chain.index_transactions n txs c).
Proof. apply foldl_index. intros. apply put_index. Qed.

(** ** What a successful import does to the index *)

Definition extended b c c' : Prop :=
  let h := bl_header b in
  let hash := Chain.block_hash h in
  let c1 := c <| ch_headers := <[hash := h]> (ch_headers c) |>
              <| ch_bodies := <[hash := b]> (ch_bodies c) |> in
  same_index
    (if Chain.is_new_head h c1 then
       c1 <| ch_canonical := <[bh_number h := hash]> (ch_canonical c) |>
          <| ch_head_hash := Some hash |>
     else c1) c'.

Lemma store_block_index b hash receipts c :
  same_index (c <| ch_headers := <[hash := bl_header b]> (ch_headers c) |>
                <| ch_bodies := <[hash := b]> (ch_bodies c) |>)
    (Chain.store_block b hash receipts c).
Proof.
  unfold Chain.store_block. cbv zeta.
  match goal with |- context [Chain.put ChainMeta "tx_index:head" ?v ?c2] =>
    assert (Hc : same_index c (Chain.put ChainMeta "tx_index:head" v c2)) end.
  { etrans; [|apply put_index]. etrans; [|apply index_transactions_index].
    etrans; [|apply foldl_index; intros; apply put_index].
    etrans; [|apply put_index]. apply put_index. }
  revert Hc. generalize (Chain.put ChainMeta "tx_index:head"). intros f.
  match goal with |- context [f ?v ?c2] => generalize (f v c2) end.
  intros c' []. split; cbn; congruence.
Qed.

Lemma set_head_index h hash c :
  same_index (c <| ch_canonical := <[bh_number h := hash]> (ch_canonical c) |>
                <| ch_head_hash := Some hash |>) (Chain.set_head h hash c).
Proof.
  unfold Chain.set_head. cbv zeta.
  match goal with |- context [Chain.put ChainMeta ?k ?v ?c2] =>
    assert (Hc : same_index c (Chain.put ChainMeta k v c2)) end.
  { etrans; [|apply put_index]. apply put_index. }
  revert Hc. match goal with |- context [Chain.put ChainMeta ?k ?v ?c2] =>
    generalize (Chain.put ChainMeta k v c2) end.
  intros c' []. split; cbn; congruence.
Qed.

Lemma is_new_head_index h c c' : same_index c c' → Chain.is_new_head h c' = Chain.is_new_head h c.
Proof. intros Hc. unfold Chain.is_new_head, Chain.head. by rewrite (si_headers _ _ Hc), (si_head _ _ Hc). Qed.

Lemma same_index_stored h hash b c c' :
  same_index c c' →
  same_index (c <| ch_headers := <[hash := h]> (ch_headers c) |>
                <| ch_bodies := <[hash := b]> (ch_bodies c) |>)
    (c' <| ch_headers := <[hash := h]> (ch_headers c') |>
        <| ch_bodies := <[hash := b]> (ch_bodies c') |>).
Proof. intros []. split; cbn; congruence. Qed.

(** An import that fails leaves the index alone. *)
Definition fails_clean {E A} (m : M Chain E A) : Prop := ∀ c,
  match (m c).1 with Ok _ => True | _ => same_index c (m c).2 end.

Lemma frame_process_block now b pr : index_frame (Chain.process_block now b pr).
Proof.
  unfold Chain.process_block. cbv zeta.
  repeat first
    [ apply frame_ret | apply frame_gets | apply frame_lift | apply frame_receipts
    | apply frame_check_state_root
    | apply frame_infallible;
      first [apply frame_rotate_epoch | apply frame_detect_double_sign | apply frame_track_downtime]
    | apply frame_bind; [|intros ?] ].
Qed.

Lemma import_fails_clean now b pr : fails_clean (Chain.import_block_impl now b pr).
Proof.
  intros c. unfold Chain.import_block_impl, mbind, M_bind.
  pose proof (frame_process_block now b pr c) as Hc.
  by destruct (Chain.process_block now b pr c) as [[]].
Qed.

Lemma index_of {E A} (m : M Chain E A) r c c' : index_frame m → m c = (r, c') → same_index c c'.
Proof. intros Hm Hr. pose proof (Hm c) as Hc. by rewrite Hr in Hc. Qed.

Lemma commit_index b receipts c c1 :
  same_index c c1 →
  let h := bl_header b in
  let hash := Chain.block_hash h in
  let c2 := Chain.store_block b hash receipts c1 in
  extended b c (if Chain.is_new_head h c2 then Chain.set_head h hash c2 else c2).
Proof.
  intros Hc h hash c2.
  assert (Hs : same_index (c <| ch_headers := <[hash := h]> (ch_headers c) |>
                             <| ch_bodies := <[hash := b]> (ch_bodies c) |>) c2).
  { etrans; [by apply same_index_stored|]. apply store_block_index. }
  unfold extended. fold h hash. rewrite (is_new_head_index _ _ _ Hs).
  revert Hs. generalize c2. clear. intros c2 Hs.
  destruct (Chain.is_new_head _ _); [|done].
  etrans; [|apply set_head_index]. destruct Hs. split; cbn in *; congruence.
Qed.

(** What a block satisfied that passed the steps before it is stored. *)
Lemma process_Ok now b pr c receipts c' :
  Chain.process_block now b pr c = (Ok receipts, c') →
  ∃ parent vs, Chain.check_block now b c = Ok parent
    ∧ Engine.verify_header (ch_consensus c) (bl_header b) parent vs = Ok tt.
Proof.
  unfold Chain.process_block. cbv zeta. intros Hr. repeat inv_ok_step.
  match goal with H : Chain.infallible (Chain.rotate_epoch _) _ = _ |- _ =>
    apply infallible_Ok, (index_of _ _ _ _ (frame_rotate_epoch _)) in H as Hi end.
  match goal with H : Engine.verify_header (ch_consensus (id ?c1)) _ _ _ = Ok ?u |- _ =>
    change (id c1) with c1 in H; rewrite (si_consensus _ _ Hi) in H; destruct u end.
  eauto.
Qed.

(** The block index after a successful import, and what the block satisfied. *)
Lemma import_Ok now b pr c r c' :
  Chain.import_block_impl now b pr c = (Ok r, c') →
  extended b c c'
  ∧ ∃ parent vs, Chain.check_block now b c = Ok parent
      ∧ Engine.verify_header (ch_consensus c) (bl_header b) parent vs = Ok tt.
Proof.
  unfold Chain.import_block_impl. intros Hr. inv_ok_step. split; [|by eapply process_Ok].
  match goal with H : Chain.process_block _ _ _ _ = _ |- _ =>
    apply (index_of _ _ _ _ (frame_process_block _ _ _)) in H end.
  unfold Chain.commit_block in Hr. cbv zeta in Hr. repeat inv_ok_step. by apply commit_index.
Qed.

(** ** The shape of the index *)

Record well_formed c : Prop := {
  wf_hash hash h : ch_headers c !! hash = Some h → hash = Chain.block_hash h;
  wf_number hash h : ch_headers c !! hash = Some h →
    0 <= bh_number h < Z.of_nat (size (ch_headers c));
  wf_parent hash h : ch_headers c !! hash = Some h →
    bh_number h = 0
    ∨ ∃ p, ch_headers c !! bh_parent_hash h = Some p
        ∧ bh_number h = bh_number p + 1 ∧ bh_timestamp p < bh_timestamp h;
  wf_slot hash h : ch_headers c !! hash = Some h →
    let L := epoch_length (ce_params (ch_consensus c)) in
    bh_epoch h = bh_number h / L ∧ bh_slot h = wrap 32 (bh_number h mod L);
  wf_body hash b : ch_bodies c !! hash = Some b →
    ch_headers c !! hash = Some (bl_header b)
    ∧ bh_transactions_root (bl_header b) = merkle_root (Tx.tx_hash <$> bl_transactions b);
  wf_head : ∃ hd, Chain.head c = Some hd ∧ ch_canonical c !! bh_number hd = ch_head_hash c
    ∧ (∀ hash h, ch_headers c !! hash = Some h → bh_number h <= bh_number hd)
    ∧ (∀ n, 0 <= n <= bh_number hd → is_Some (ch_canonical c !! n));
  wf_canonical n hash : ch_canonical c !! n = Some hash →
    ∃ h, ch_headers c !! hash = Some h ∧ bh_number h = n;
  wf_genesis hash h : ch_headers c !! hash = Some h → bh_number h = 0 →
    ch_canonical c !! 0 = Some hash;
}.

Lemma well_formed_index c c' : same_index c c' → well_formed c → well_formed c'.
Proof.
  intros Hi [H1 H2 H3 H4 H5 H6 H7 H8].
  split; unfold Chain.head in *;
    rewrite ?(si_headers _ _ Hi), ?(si_bodies _ _ Hi), ?(si_canonical _ _ Hi), ?(si_head _ _ Hi),
      ?(si_consensus _ _ Hi); assumption.
Qed.

(** What [check_block] and [verify_header] establish of a block and its parent. *)
Record fits_on c b (p : BlockHeader) : Prop := {
  fo_fresh : ch_headers c !! Chain.block_hash (bl_header b) = None;
  fo_parent : ch_headers c !! bh_parent_hash (bl_header b) = Some p;
  fo_final : 0 < ch_finalized_block c → ch_finalized_block c <= bh_number p;
  fo_time : bh_timestamp p < bh_timestamp (bl_header b);
  fo_txs : bh_transactions_root (bl_header b) = merkle_root (Tx.tx_hash <$> bl_transactions b);
  fo_rule : ∃ vs, header_rule (ch_consensus c) (bl_header b) p vs;
}.

Lemma checked_fits now b c p vs :
  Chain.check_block now b c = Ok p →
  Engine.verify_header (ch_consensus c) (bl_header b) p vs = Ok tt →
  fits_on c b p.
Proof.
  unfold Chain.check_block. cbv zeta. intros Hc Hv%verify_header_Ok. inv_ok.
  repeat match goal with
  | H : negb _ = false |- _ => apply negb_false_iff in H
  | H : bool_decide _ = true |- _ => apply bool_decide_eq_true in H
  | H : bool_decide _ = false |- _ => apply bool_decide_eq_false in H
  | H : (_ <=? _) = false |- _ => apply Z.leb_gt in H
  | H : andb _ _ = false |- _ => apply andb_false_iff in H
  end.
  split; [|done|lia|done|done|by exists vs].
  by apply eq_None_not_Some.
Qed.

Lemma next_number c b p :
  well_formed c → Z.of_nat (size (ch_headers c)) < 2 ^ 64 → fits_on c b p →
  bh_number (bl_header b) = bh_number p + 1.
Proof.
  intros Hwf Hsize [_ Hp _ _ _ (vs & _ & Hn & _)]. rewrite Hn. apply wrap_small.
  destruct (wf_number _ Hwf _ _ Hp). unfold in_width; lia.
Qed.

Section extend.
Context (c : Chain) (b : Block) (p : BlockHeader).
Hypothesis (Hwf : well_formed c) (Hsize : Z.of_nat (size (ch_headers c)) < 2 ^ 64).
Hypothesis (Hfit : fits_on c b p).

Abbreviation h := (bl_header b).
Abbreviation hash := (Chain.block_hash (bl_header b)).
Abbreviation headers' := (<[hash := h]> (ch_headers c)).

Lemma extend_size : size headers' = S (size (ch_headers c)).
Proof using Hfit. apply map_size_insert_None, (fo_fresh _ _ _ Hfit). Qed.

Lemma extend_old k hd : ch_headers c !! k = Some hd → headers' !! k = Some hd.
Proof using Hfit.
  intros Hk. rewrite lookup_insert_ne; [done|]. intros <-. by rewrite (fo_fresh _ _ _ Hfit) in Hk.
Qed.

(** The facts about headers and bodies, with or without a new head. *)
Lemma extend_headers k hd :
  headers' !! k = Some hd →
  k = Chain.block_hash hd
  ∧ 0 <= bh_number hd < Z.of_nat (size headers')
  ∧ (bh_number hd = 0 ∨ ∃ p, headers' !! bh_parent_hash hd = Some p
       ∧ bh_number hd = bh_number p + 1 ∧ bh_timestamp p < bh_timestamp hd)
  ∧ bh_epoch hd = bh_number hd / epoch_length (ce_params (ch_consensus c))
  ∧ bh_slot hd = wrap 32 (bh_number hd mod epoch_length (ce_params (ch_consensus c))).
Proof using All.
  rewrite extend_size, lookup_insert_Some. intros [[<- <-]|[_ Hk]].
  - pose proof (next_number c b p Hwf Hsize Hfit) as Hn. destruct Hfit as [_ Hp _ Ht _ (vs & Hr)].
    destruct (wf_number _ Hwf _ _ Hp), Hr as (_ & _ & _ & _ & He & Hs & _).
    split_and!; [done|lia|lia| |done|done]. right. exists p. by rewrite (extend_old _ _ Hp).
  - destruct (wf_number _ Hwf _ _ Hk), (wf_slot _ Hwf _ _ Hk).
    split_and!; [by apply (wf_hash _ Hwf)|lia|lia| |done|done].
    destruct (wf_parent _ Hwf _ _ Hk) as [?|(q & Hq & ?)]; [by left|right].
    exists q. by rewrite (extend_old _ _ Hq).
Qed.

Lemma extend_bodies k b' :
  <[hash := b]> (ch_bodies c) !! k = Some b' →
  headers' !! k = Some (bl_header b')
  ∧ bh_transactions_root (bl_header b') = merkle_root (Tx.tx_hash <$> bl_transactions b').
Proof using All.
  rewrite lookup_insert_Some. intros [[<- <-]|[_ Hk]].
  - rewrite lookup_insert_eq. by destruct Hfit.
  - destruct (wf_body _ Hwf _ _ Hk) as [Hk' ?]. by rewrite (extend_old _ _ Hk').
Qed.

Lemma extend_canonical n k :
  ch_canonical c !! n = Some k → ∃ hd, headers' !! k = Some hd ∧ bh_number hd = n.
Proof using All.
  intros Hk. destruct (wf_canonical _ Hwf _ _ Hk) as (hd & Hd & ?). exists hd.
  by rewrite (extend_old _ _ Hd).
Qed.

Lemma extend_genesis k hd :
  headers' !! k = Some hd → bh_number hd = 0 → ch_canonical c !! 0 = Some k ∧ bh_number h ≠ 0.
Proof using All.
  pose proof (next_number c b p Hwf Hsize Hfit) as Hn.
  destruct (wf_number _ Hwf _ _ (fo_parent _ _ _ Hfit)) as [Hp _].
  rewrite lookup_insert_Some. intros [[<- <-]|[_ Hk]] H0; [lia|].
  split; [by apply (wf_genesis _ Hwf _ _ Hk)|lia].
Qed.

Abbreviation stored := (c <| ch_headers := headers' |> <| ch_bodies := <[hash := b]> (ch_bodies c) |>).

Lemma stored_head : Chain.head stored = Chain.head c.
Proof using All.
  destruct (wf_head _ Hwf) as (hd & Hd & _). unfold Chain.head in *. cbn.
  destruct (ch_head_hash c) as [k|]; [|done]. cbn in *. by rewrite Hd, (extend_old _ _ Hd).
Qed.

Lemma is_new_head_number hd :
  Chain.head c = Some hd →
  if Chain.is_new_head h stored then bh_number hd <= bh_number h else bh_number h <= bh_number hd.
Proof using All.
  intros Hd. unfold Chain.is_new_head. rewrite stored_head, Hd.
  destruct (Z.compare_spec (bh_number h) (bh_number hd)); [|lia..].
  destruct (H256_compare _ _); lia.
Qed.

Lemma extended_well_formed c' : extended b c c' → well_formed c'.
Proof using All.
  unfold extended. cbv zeta. intros Hi. eapply well_formed_index; [exact Hi|]. clear Hi c'.
  pose proof (next_number c b p Hwf Hsize Hfit) as Hn.
  destruct (wf_head _ Hwf) as (hd & Hd & Hcan & Hmax & Hall).
  pose proof (is_new_head_number hd Hd) as Hnew.
  pose proof (Hmax _ _ (fo_parent _ _ _ Hfit)) as Hp.
  destruct (Chain.is_new_head h stored).
  - split; cbn -[lookup insert]; [intros k q Hk; apply (extend_headers _ _ Hk)..| | | |].
    + intros k q Hk. apply (extend_bodies _ _ Hk).
    + exists h. unfold Chain.head. cbn -[lookup insert].
      rewrite !lookup_insert_eq. split_and!; [done|done| |].
      * intros k q Hk. apply lookup_insert_Some in Hk as [[_ <-]|[_ Hk]]; [lia|].
        pose proof (Hmax _ _ Hk). lia.
      * intros n Hb. destruct (decide (n = bh_number h)) as [->|]; [by rewrite lookup_insert_eq|].
        rewrite lookup_insert_ne by done. apply Hall. lia.
    + intros n k Hk. apply lookup_insert_Some in Hk as [[<- <-]|[_ Hk]].
      * exists h. by rewrite lookup_insert_eq.
      * by apply extend_canonical.
    + intros k q Hk Hq. destruct (extend_genesis _ _ Hk Hq). by rewrite lookup_insert_ne by lia.
  - split; cbn -[lookup insert]; [intros k q Hk; apply (extend_headers _ _ Hk)..| | | |].
    + intros k q Hk. apply (extend_bodies _ _ Hk).
    + exists hd. split_and!; [rewrite <- Hd; exact stored_head|done| |done].
      intros k q Hk. apply lookup_insert_Some in Hk as [[_ <-]|[_ Hk]]; [lia|eauto].
    + intros n k Hk. by apply extend_canonical.
    + intros k q Hk Hq. by destruct (extend_genesis _ _ Hk Hq).
Qed.

(** An import changes the canonical index above the finalized height only. *)
Lemma extended_canonical c' n :
  extended b c c' → 0 <= n <= ch_finalized_block c → ch_canonical c' !! n = ch_canonical c !! n.
Proof using All.
  unfold extended. cbv zeta. intros Hi Hb. rewrite (si_canonical _ _ Hi).
  pose proof (next_number c b p Hwf Hsize Hfit) as Hn.
  destruct (wf_number _ Hwf _ _ (fo_parent _ _ _ Hfit)) as [Hp _].
  pose proof (fo_final _ _ _ Hfit) as Hf.
  destruct (Chain.is_new_head h stored); [|done]. cbn -[lookup insert].
  apply lookup_insert_ne. lia.
Qed.

Lemma extended_height c' hd hd' :
  extended b c c' → Chain.head c = Some hd → Chain.head c' = Some hd' → bh_number hd <= bh_number hd'.
Proof using All.
  unfold extended. cbv zeta. intros Hi Hd. pose proof (is_new_head_number hd Hd) as Hnew.
  unfold Chain.head. rewrite (si_head _ _ Hi), (si_headers _ _ Hi). revert Hnew.
  destruct (Chain.is_new_head h stored); cbn -[lookup insert]; intros Hnew.
  - rewrite lookup_insert_eq. by intros [= <-].
  - intros Hd'. pose proof stored_head as Hs. rewrite Hd in Hs. unfold Chain.head in Hs.
    cbn -[lookup insert] in Hs. assert (hd' = hd) as -> by congruence. lia.
Qed.
End extend.

(** ** Histories *)

(** What a node does to its chain between two restarts; [MutateState] is
    whatever is done through [state_mut]. *)
Inductive ChainOp :=
  | ImportBlock (now_ms : Z) (b : Block)
  | ImportProduced (now_ms : Z) (b : Block) (receipts : list TransactionReceipt)
  | FinalizeTo (number : Z)
  | SetCheckpoint (number : Z) (hash : H256)
  | MutateState (f : StateDB → StateDB).

Definition run_op (c : Chain) (op : ChainOp) : Chain :=
  match op with
  | ImportBlock now b => (Chain.import_block now b c).2
  | ImportProduced now b receipts => (Chain.import_produced_block now b receipts c).2
  | FinalizeTo n => Chain.set_finalized_block n c
  | SetCheckpoint n hash => Chain.set_weak_subjectivity_checkpoint n hash c
  | MutateState f => c <| ch_state := f (ch_state c) |>
  end.

Definition run_ops (ops : list ChainOp) (c : Chain) : Chain := foldl run_op c ops.

(** How a chain may have moved. *)
Record advanced c c' : Prop := {
  ad_wf : well_formed c';
  ad_finalized : ch_finalized_block c <= ch_finalized_block c';
  ad_canonical n : 0 <= n <= ch_finalized_block c → ch_canonical c' !! n = ch_canonical c !! n;
  ad_height hd hd' : Chain.head c = Some hd → Chain.head c' = Some hd' →
    bh_number hd <= bh_number hd';
}.

Lemma index_advanced c c' : well_formed c → same_index c c' → advanced c c'.
Proof.
  intros Hwf Hi. split.
  - by eapply well_formed_index.
  - rewrite (si_finalized _ _ Hi). lia.
  - by rewrite (si_canonical _ _ Hi).
  - unfold Chain.head. rewrite (si_headers _ _ Hi), (si_head _ _ Hi). intros hd hd' ??.
    simplify_eq. lia.
Qed.

Lemma import_advances now b pr c :
  well_formed c → Z.of_nat (size (ch_headers c)) < 2 ^ 64 →
  let c' := (Chain.import_block_impl now b pr c).2 in
  advanced c c' ∧ (size (ch_headers c') <= S (size (ch_headers c)))%nat.
Proof.
  intros Hwf Hsize. cbv zeta. pose proof (import_fails_clean now b pr c) as Hfail.
  destruct (Chain.import_block_impl now b pr c) as [[r|e|] c'] eqn:Hr; cbn in *; last first.
  1-2: split; [by apply index_advanced|by rewrite (si_headers _ _ Hfail); lia].
  apply import_Ok in Hr as (Hext & p & vs & Hc & Hv).
  pose proof (checked_fits _ _ _ _ _ Hc Hv) as Hfit. split; [split|].
  - by eapply extended_well_formed.
  - unfold extended in Hext. rewrite (si_finalized _ _ Hext).
    destruct (Chain.is_new_head _ _); cbn; lia.
  - intros n Hn. by eapply extended_canonical.
  - intros hd hd'. by eapply extended_height.
  - unfold extended in Hext. rewrite (si_headers _ _ Hext).
    destruct (Chain.is_new_head _ _); cbn -[size insert]; by rewrite (extend_size c b p Hfit).
Qed.

Lemma run_op_advances c op :
  well_formed c → Z.of_nat (size (ch_headers c)) < 2 ^ 64 →
  advanced c (run_op c op) ∧ (size (ch_headers (run_op c op)) <= S (size (ch_headers c)))%nat.
Proof.
  intros Hwf Hsize. destruct op as [now b|now b receipts|n|n hash|f]; cbn [run_op].
  1-2: by apply import_advances.
  - unfold Chain.set_finalized_block. destruct (Z.ltb_spec (ch_finalized_block c) n).
    all: split; [|cbn; lia]; split; [by destruct Hwf|cbn; lia|done|].
    all: intros hd hd' Hd Hd'; unfold Chain.head in *; cbn in *; simplify_eq; lia.
  - split; [|cbn; lia]; split; [by destruct Hwf|cbn; lia|done|].
    intros hd hd' Hd Hd'; unfold Chain.head in *; cbn in *; simplify_eq; lia.
  - split; [|cbn; lia]. by apply index_advanced.
Qed.

Lemma run_ops_advance ops c :
  well_formed c → Z.of_nat (size (ch_headers c) + length ops) < 2 ^ 64 →
  advanced c (run_ops ops c).
Proof.
  revert c. induction ops as [|op ops IH]; intros c Hwf Hsize;
    unfold run_ops; cbn [foldl length] in *.
  { split; [done|lia|done|]. intros hd hd' ??. simplify_eq. lia. }
  destruct (run_op_advances c op) as [Had Hs]; [done|lia|].
  destruct (IH (run_op c op)) as [Hwf' Hf Hcan Hh]; [apply Had|lia|].
  change (foldl run_op (run_op c op) ops) with (run_ops ops (run_op c op)).
  split; [done|pose proof (ad_finalized _ _ Had); lia| |].
  - intros n Hn. rewrite Hcan by (pose proof (ad_finalized _ _ Had); lia).
    by apply (ad_canonical _ _ Had).
  - intros hd hd' Hd Hd'. destruct (wf_head _ (ad_wf _ _ Had)) as (hm & Hm & _).
    pose proof (ad_height _ _ Had _ _ Hd Hm). pose proof (Hh _ _ Hm Hd'). lia.
Qed.

(** [n] steps from a block towards its ancestors. *)
Fixpoint ancestor c (n : nat) (hash : H256) : option H256 :=
  match n with
  | O => Some hash
  | S n => h ← ch_headers c !! hash; ancestor c n (bh_parent_hash h)
  end.

Lemma descends_from_genesis c n hash h :
  well_formed c → ch_headers c !! hash = Some h → bh_number h = Z.of_nat n →
  ancestor c n hash = ch_canonical c !! 0.
Proof.
  intros Hwf. revert hash h. induction n as [|n IH]; intros hash h Hh Hn; cbn [ancestor].
  { symmetry. by apply (wf_genesis _ Hwf _ _ Hh). }
  rewrite Hh. cbn. destruct (wf_parent _ Hwf _ _ Hh) as [?|(p & Hp & Hnp & _)]; [lia|].
  apply (IH _ p); [done|lia].
Qed.

(** ** Genesis *)

Lemma frame_adopt_state {E} gs : index_frame (E:=E) (Chain.adopt_state gs).
Proof.
  intros c. unfold Chain.adopt_state. destruct (ch_persistent c), (db_storage (ch_state c)).
  1: etrans; [|apply frame_on_state]; by split. all: by split.
Qed.

Definition empty_index c : Prop :=
  ch_headers c = ∅ ∧ ch_bodies c = ∅ ∧ ch_canonical c = ∅ ∧ ch_head_hash c = None.

Definition genesis_block b : Prop :=
  bh_number (bl_header b) = 0 ∧ bh_epoch (bl_header b) = 0 ∧ bh_slot (bl_header b) = 0
  ∧ bh_transactions_root (bl_header b) = merkle_root (Tx.tx_hash <$> bl_transactions b).

Lemma installed_well_formed b c :
  ch_headers c = ∅ → ch_bodies c = ∅ → ch_canonical c = ∅ → genesis_block b →
  well_formed (Chain.install_genesis (Chain.block_hash (bl_header b)) b c).
Proof.
  intros Hh Hb Hc (Hn & He & Hs & Ht). unfold Chain.install_genesis.
  split; cbn -[size insert lookup wrap]; rewrite ?Hh, ?Hb, ?Hc; intros *;
    rewrite ?insert_empty, ?lookup_singleton_Some.
  - by intros [<- <-].
  - intros [_ <-]. rewrite map_size_singleton. lia.
  - intros [_ <-]. by left.
  - intros [_ <-]. rewrite Hn, He, Hs, Zdiv_0_l, Zmod_0_l. by vm_compute.
  - by intros [<- <-].
  - exists (bl_header b). unfold Chain.head. cbn -[insert lookup]. rewrite ?Hh, ?Hn.
    rewrite ?insert_empty, !lookup_singleton_eq. split_and!; [done..| |].
    + intros k q [_ <-]%lookup_singleton_Some. lia.
    + intros n ?. assert (n = 0) as -> by lia. by rewrite lookup_singleton_eq.
  - intros [<- <-]. exists (bl_header b). by rewrite lookup_singleton_eq.
  - by intros [<- <-] _.
Qed.

Lemma init_genesis_well_formed b gs c hash c' :
  empty_index c → genesis_block b →
  Chain.init_genesis b gs c = (Ok hash, c') →
  well_formed c' ∧ hash = Chain.block_hash (bl_header b) ∧ ch_canonical c' !! 0 = Some hash
  ∧ size (ch_headers c') = 1%nat ∧ ch_finalized_block c' = ch_finalized_block c.
Proof.
  intros (Hh & Hb & Hc & Hhd) Hg. unfold Chain.init_genesis. cbv zeta.
  intros Hr. inv_ok_step. inv_ok_step. rewrite Hhd in Hr. repeat inv_ok_step.
  match goal with H : Chain.adopt_state _ _ = (_, ?c1) |- _ =>
    apply (index_of _ _ _ _ (frame_adopt_state gs)) in H;
    assert (Hi : same_index c (Chain.persist_genesis hash b c1)) end.
  { etrans; [eassumption|]. unfold Chain.persist_genesis.
    by repeat (etrans; [|apply put_index]). }
  revert Hi. subst hash. generalize (Chain.persist_genesis (Chain.block_hash (bl_header b)) b).
  intros f. match goal with |- context [f ?c1] => generalize (f c1) end. intros c2 Hi.
  split_and!; [by apply (installed_well_formed b c2); [rewrite (si_headers _ _ Hi)|..];
     rewrite ?(si_bodies _ _ Hi), ?(si_canonical _ _ Hi)| done | | |]; cbn -[size insert lookup].
  - by rewrite lookup_insert_eq.
  - by rewrite (si_headers _ _ Hi), Hh, map_size_insert_None.
  - apply (si_finalized _ _ Hi).
Qed.

(** ** The theorems *)

(** C1: The block index is sound in every chain a node can reach.  From genesis on,
    after any sequence of imports (of received or produced blocks, accepted or
    not), finalizations, checkpoints and changes to the state, every known block
    is stored under its hash, has a known parent one lower and strictly older, and
    descends from genesis in as many steps as its number says; the head is a known
    block of maximal height, every height up to it has a canonical block of that
    height, bodies match their headers, and the genesis block is never replaced. *)
Theorem chain_well_formed b gs c0 hash c ops :
  empty_index c0 → genesis_block b → 0 <= ch_finalized_block c0 →
  Chain.init_genesis b gs c0 = (Ok hash, c) →
  Z.of_nat (length ops) < 2 ^ 64 - 1 →
  let c' := run_ops ops c in
  well_formed c' ∧ Chain.get_canonical_hash c' 0 = Some hash
  ∧ ∀ k h, Chain.get_header c' k = Some h → ancestor c' (Z.to_nat (bh_number h)) k = Some hash.
Proof.
  intros He Hb Hf Hi Hlen c'.
  destruct (init_genesis_well_formed _ _ _ _ _ He Hb Hi) as (Hwf & _ & H0 & Hs & Hfin).
  destruct (run_ops_advance ops c) as [Hwf' _ Hcan _]; [done|lia|]. fold c' in Hwf', Hcan.
  assert (Hg : Chain.get_canonical_hash c' 0 = Some hash).
  { unfold Chain.get_canonical_hash. rewrite Hcan by lia. done. }
  split_and!; [done..|]. intros k h Hk. rewrite <- Hg.
  apply (descends_from_genesis c' _ k h Hwf' Hk).
  destruct (wf_number _ Hwf' _ _ Hk). lia.
Qed.

(** C2: Finality is irreversible.  Whatever blocks arrive and whatever is done to
    the state, the canonical blocks at or below the finalized height stay the
    same, and the finalized height and the height of the head never decrease. *)
Theorem finalized_prefix_immutable c ops n :
  well_formed c → Z.of_nat (size (ch_headers c) + length ops) < 2 ^ 64 →
  0 <= n <= ch_finalized_block c →
  let c' := run_ops ops c in
  Chain.get_canonical_hash c' n = Chain.get_canonical_hash c n
  ∧ ch_finalized_block c <= ch_finalized_block c'
  ∧ ∃ k k', Chain.height c = Some k ∧ Chain.height c' = Some k' ∧ k <= k'.
Proof.
  intros Hwf Hsize Hn c'. destruct (run_ops_advance ops c Hwf Hsize) as [Hwf' Hf Hcan Hh].
  destruct (wf_head _ Hwf) as (hd & Hd & _), (wf_head _ Hwf') as (hd' & Hd' & _).
  split_and!; [by apply Hcan|done|]. exists (bh_number hd), (bh_number hd').
  unfold Chain.height. fold c' in Hd'. rewrite Hd, Hd'. split_and!; [done..|].
  by apply Hh.
Qed.

Lemma halted_step c op :
  well_formed c → (∀ k h, ch_headers c !! k = Some h → bh_number h < ch_finalized_block c) →
  well_formed (run_op c op) ∧ ch_headers (run_op c op) = ch_headers c
  ∧ ch_canonical (run_op c op) = ch_canonical c ∧ ch_head_hash (run_op c op) = ch_head_hash c
  ∧ ch_finalized_block c <= ch_finalized_block (run_op c op).
Proof.
  intros Hwf Hlow.
  assert (Himp : ∀ now b pr, let c' := (Chain.import_block_impl now b pr c).2 in same_index c c').
  { intros now b pr. cbv zeta. pose proof (import_fails_clean now b pr c) as Hfail.
    destruct (Chain.import_block_impl now b pr c) as [[r|e|] c'] eqn:Hr; [|done..].
    apply import_Ok in Hr as (_ & p & vs & Hc & Hv).
    destruct (checked_fits _ _ _ _ _ Hc Hv) as [_ Hp Hf _ _ _].
    specialize (Hlow _ _ Hp). destruct (wf_number _ Hwf _ _ Hp). lia. }
  destruct op as [now b|now b receipts|n|n hash|f]; cbn [run_op];
    unfold Chain.import_block, Chain.import_produced_block.
  1: specialize (Himp now b None). 2: specialize (Himp now b (Some receipts)).
  1-2: cbv zeta in Himp; split_and!; [by eapply well_formed_index|apply Himp..|].
  1-2: rewrite (si_finalized _ _ Himp); lia.
  - unfold Chain.set_finalized_block. destruct (Z.ltb_spec (ch_finalized_block c) n).
    all: split_and!; [by destruct Hwf|done..|cbn; lia].
  - split_and!; [by destruct Hwf|done..|cbn; lia].
  - split_and!; [by destruct Hwf|done..|cbn; lia].
Qed.

(** Finalizing a height the node has not reached stops it for good: from then
    on no block is ever imported, not even the block that was finalized, because
    its parent is below the finalized height. *)
Theorem finalized_above_head_halts c n ops :
  well_formed c → Chain.height c = Some n → n < ch_finalized_block c →
  let c' := run_ops ops c in
  ch_headers c' = ch_headers c ∧ ch_canonical c' = ch_canonical c ∧ Chain.height c' = Some n.
Proof.
  intros Hwf Hn Hf. cbv zeta. destruct (wf_head _ Hwf) as (hd & Hd & _ & Hmax & _).
  unfold Chain.height in Hn. rewrite Hd in Hn. injection Hn as <-.
  assert (Hlow : ∀ k h, ch_headers c !! k = Some h → bh_number h < ch_finalized_block c).
  { intros k h Hk. pose proof (Hmax _ _ Hk). lia. }
  clear Hmax Hf. revert c Hwf Hd Hlow. induction ops as [|op ops IH]; intros c Hwf Hd Hlow.
  { unfold Chain.height. cbn [run_ops foldl]. by rewrite Hd. }
  destruct (halted_step c op Hwf Hlow) as (Hwf' & Hh & Hc & Hhd & Hfin).
  change (run_ops (op :: ops) c) with (run_ops ops (run_op c op)).
  destruct (IH (run_op c op)) as (-> & -> & ->); [done| | |by rewrite Hh, Hc].
  - unfold Chain.head. by rewrite Hh, Hhd.
  - intros k h. rewrite Hh. intros Hk. specialize (Hlow _ _ Hk). lia.
Qed.

(** Consecutive blocks of one epoch are in consecutive slots. *)
Lemma next_slot n L :
  0 <= n → 0 < L <= 2 ^ 32 → (n + 1) / L = n / L →
  wrap 32 ((n + 1) mod L) = wrap 32 (wrap 32 (n mod L) + 1).
Proof.
  intros Hn HL Hd. pose proof (Z.div_mod n L ltac:(lia)). pose proof (Z.div_mod (n + 1) L ltac:(lia)).
  pose proof (Z.mod_pos_bound n L ltac:(lia)). pose proof (Z.mod_pos_bound (n + 1) L ltac:(lia)).
  rewrite (wrap_small 32 (n mod L)) by (unfold in_width; lia).
  f_equal. nia.
Qed.

(** No missed slot is ever recorded.  A block that passes verification on a
    well-formed chain is in the slot after its parent's or opens a new epoch, so
    the loop over the skipped slots is never entered, for any parent and any
    validator set: downtime is not tracked and the downtime slash never happens. *)
Theorem downtime_never_tracked c h p vs :
  well_formed c → Z.of_nat (size (ch_headers c)) < 2 ^ 64 →
  0 < epoch_length (ce_params (ch_consensus c)) <= 2 ^ 32 →
  ch_headers c !! bh_parent_hash h = Some p →
  Engine.verify_header (ch_consensus c) h p vs = Ok tt →
  ∀ c', Chain.track_downtime (E:=ChainError) h p c' = (Ok tt, c').
Proof.
  intros Hwf Hsize HL Hp (_ & Hn & _ & _ & He & Hs & _)%verify_header_Ok c'.
  destruct (wf_number _ Hwf _ _ Hp) as [Hp0 Hp1], (wf_slot _ Hwf _ _ Hp) as [Hpe Hps].
  rewrite wrap_small in Hn by (unfold in_width; lia).
  unfold Chain.track_downtime. cbv zeta. rewrite He, Hs, Hpe, Hps, Hn.
  destruct (Z.eqb_spec ((bh_number p + 1) / epoch_length (ce_params (ch_consensus c)))
    (bh_number p / epoch_length (ce_params (ch_consensus c)))) as [Heq|]; [|done].
  by rewrite (next_slot _ _ Hp0 HL Heq), Z.ltb_irrefl.
Qed.

Lemma bind_Err {S E A B} (m : M S E A) (f : A → M S E B) s e s' :
  (m ≫= f) s = (Err e, s') →
  m s = (Err e, s') ∨ ∃ a s1, m s = (Ok a, s1) ∧ f a s1 = (Err e, s').
Proof.
  unfold mbind, M_bind. destruct (m s) as [[a|e1|] s1]; [eauto|intros [= <- <-]; by left|done].
Qed.

Lemma check_state_root_Err h sn vs c e c' :
  Chain.check_state_root h sn vs c = (Err e, c') →
  (∃ s, ch_state c' = Snapshot.restore sn s) ∧ ch_validator_set c' = vs
  ∧ ∃ root, e = InvalidStateRoot root (bh_state_root h).
Proof.
  unfold Chain.check_state_root, Chain.on_state. mrun.
  destruct (Snapshot.compute_state_root (ch_state c)) as [root s].
  destruct (bool_decide _); [done|]. intros [= <- <-]. cbn. eauto.
Qed.

(** Within an epoch there is nothing to rotate. *)
Lemma rotate_epoch_within {E} epoch c u c' :
  Chain.rotate_epoch (E:=E) epoch c = (Ok u, c') → epoch <= vs_epoch (ch_validator_set c) → c' = c.
Proof.
  unfold Chain.rotate_epoch, mbind, M_bind, gets. cbn. intros Hr He.
  destruct (Z.ltb_spec (vs_epoch (ch_validator_set c)) epoch); [lia|]. by injection Hr.
Qed.

(** C21: What a rejected block leaves behind, exactly.  Every rejection leaves the
    block index as it was.  A block whose own checks fail leaves the whole chain
    as it was.  A block that the consensus rules refuse leaves the chain with
    the epoch of the block opened, which is the old chain unless the block is in a
    later epoch: nothing else of the block has happened.  When the recomputed state
    root differs from the block's, every table of the snapshot is back, every
    cached account has its old value, and the old validator set is in force.
    There is no other rejection. *)
Theorem rejected_block_rolled_back now b pr c e c' :
  Chain.import_block_impl now b pr c = (Err e, c') →
  same_index c c'
  ∧ (c' = c
     ∨ (∃ parent epoch err,
          Chain.check_block now b c = Ok parent
          ∧ Engine.epoch_for_block (E:=Empty_set) (ch_consensus c) (bh_number (bl_header b)) = Ok epoch
          ∧ Chain.rotate_epoch (E:=Empty_set) epoch c = (Ok tt, c')
          ∧ (epoch <= vs_epoch (ch_validator_set c) → c' = c)
          ∧ Engine.verify_header (ch_consensus c') (bl_header b) parent (ch_validator_set c') = Err err
          ∧ e = ChConsensus err)
     ∨ (∃ root, e = InvalidStateRoot root (bh_state_root (bl_header b)))
       ∧ Snapshot.snapshot (ch_state c') = Snapshot.snapshot (ch_state c)
       ∧ ch_validator_set c' = ch_validator_set c
       ∧ ∀ a, is_Some (db_accounts (ch_state c) !! a) →
           State.get_account (ch_state c') a = State.get_account (ch_state c) a).
Proof.
  intros Hr. split. { pose proof (import_fails_clean now b pr c) as H1. by rewrite Hr in H1. }
  apply bind_Err in Hr as [Hr|(? & ? & _ & Hr)]; [|done].
  revert Hr. unfold Chain.process_block. cbv zeta. intros Hr.
  apply bind_Err in Hr as [?|(? & ? & [= <- <-] & Hr)]; [done|]. change (id c) with c in Hr.
  apply bind_Err in Hr as [[= _ <-]|(parent & ? & [= Hcheck <-] & Hr)]; [by left|].
  apply bind_Err in Hr as [[= _ <-]|(? & ? & [= _ <-] & Hr)]; [by left|].
  apply bind_Err in Hr as [[= _ <-]|(epoch & ? & [= Hepoch <-] & Hr)]; [by left|].
  apply bind_Err in Hr as [Hr|([] & c1 & Hrot & Hr)]; [by apply infallible_Err in Hr|].
  apply bind_Err in Hr as [?|(? & ? & [= <- <-] & Hr)]; [done|]. change (id c1) with c1 in Hr.
  apply infallible_Ok in Hrot.
  apply bind_Err in Hr as [[= Hr <-]|(? & ? & _ & Hr)].
  { right; left. destruct (Engine.verify_header _ _ _ _) as [|err|] eqn:Hv; cbn in Hr; simplify_eq.
    exists parent, epoch, err. split_and!; try done; [|by eapply rotate_epoch_within].
    revert Hepoch. unfold Engine.epoch_for_block. by repeat case_match; intros [= <-]. }
  apply bind_Err in Hr as [Hr|(? & ? & _ & Hr)]; [by apply infallible_Err in Hr|].
  apply bind_Err in Hr as [Hr|(? & ? & _ & Hr)]; [by apply infallible_Err in Hr|].
  apply bind_Err in Hr as [Hr|(? & ? & _ & Hr)].
  { destruct pr; [done|by apply infallible_Err in Hr]. }
  apply bind_Err in Hr as [Hr|(? & ? & _ & Hr)]; [|done].
  apply check_state_root_Err in Hr as ((s1 & Hs) & Hvs & Hroot).
  right; right. rewrite Hs. split_and!; [done|apply restore_snapshot|done|].
  intros a. apply restore_cached.
Qed.

(** ** Signatures *)

Definition keyless (vs : ValidatorSet) : Prop := Forall (λ v, vi_public_key v = None) (vs_validators vs).

Lemma elect_keyless e s epoch : keyless (Engine.elect_validators e s epoch).
Proof.
  unfold keyless, Engine.elect_validators. cbn. apply Forall_take. rewrite merge_sort_Permutation.
  apply Forall_forall. intros v (kv & _ & Hv)%list_elem_of_omap.
  by apply candidate_Some in Hv as (_ & st & _ & _ & ->).
Qed.

Definition resign (sig : Signature) b : Block :=
  MkBlock ((bl_header b) <| bh_signature := sig |>) (bl_transactions b).

Lemma verify_resigned sig b e p vs :
  keyless vs →
  Engine.verify_header e (bl_header b) p vs = Ok tt →
  Engine.verify_header e (bl_header (resign sig b)) p vs = Ok tt.
Proof.
  rewrite !verify_header_Ok. intros Hk (HL & Hn & Hp & Ht & He & Hs & v & Hv & Ha & _).
  split_and!; [done..|]. exists v. split_and!; [done..|]. intros pk Hpk.
  apply slot_leader_elem in Hv. unfold keyless in Hk. rewrite Forall_forall in Hk.
  by rewrite (Hk _ Hv) in Hpk.
Qed.

Lemma rotate_keyless {E} n c u c' :
  keyless (ch_validator_set c) → Chain.rotate_epoch (E:=E) n c = (Ok u, c') →
  keyless (ch_validator_set c').
Proof.
  intros Hk. unfold Chain.rotate_epoch. intros Hr. inv_ok_step. inv_ok_step. inv_ok_step. inv_ok_step.
  destruct (_ <? n); [|by inv_ok]. inv_ok_step. inv_ok_step. cbn. apply elect_keyless.
Qed.

Lemma process_resigned now sig b c receipts c' :
  keyless (ch_validator_set c) →
  Chain.process_block now b None c = (Ok receipts, c') →
  Chain.process_block now (resign sig b) None c = (Ok receipts, c').
Proof.
  intros Hk. unfold Chain.process_block. cbv zeta. intros Hr. repeat inv_ok_step.
  match goal with H : Chain.infallible (Chain.rotate_epoch _) _ = _ |- _ =>
    pose proof (rotate_keyless _ _ _ _ Hk (infallible_Ok _ _ _ _ H)) as Hk' end.
  apply M_bind_Ok. eexists _, _. split; [done|].
  apply M_bind_Ok. eexists _, _. split; [apply lift_Ok; by split|].
  apply M_bind_Ok. eexists _, _. split; [apply lift_Ok; by split|].
  apply M_bind_Ok. eexists _, _. split; [apply lift_Ok; by split|].
  apply M_bind_Ok. eexists _, _. split; [eassumption|].
  apply M_bind_Ok. eexists _, _. split; [done|].
  match goal with H : Engine.verify_header _ _ _ _ = Ok ?u |- _ => destruct u;
    apply M_bind_Ok; eexists _, _; split;
    [apply lift_Ok; split; [apply res_map_err_Ok, (verify_resigned sig _ _ _ _ Hk' H)|done]|] end.
  apply M_bind_Ok. eexists _, _. split; [eassumption|].
  apply M_bind_Ok. eexists _, _. split; [eassumption|].
  apply M_bind_Ok. eexists _, _. split; [eassumption|].
  apply M_bind_Ok. eexists _, _. split; [eassumption|].
  apply M_ret_Ok. by split.
Qed.

Lemma is_new_head_height h c c' :
  Chain.height c' = Chain.height c → ch_head_hash c' = ch_head_hash c →
  Chain.is_new_head h c' = Chain.is_new_head h c.
Proof.
  unfold Chain.height, Chain.is_new_head. intros Hh ->.
  destruct (Chain.head c'), (Chain.head c); cbn in Hh; [by injection Hh as ->|done..].
Qed.

Lemma is_new_head_resigned sig b receipts c :
  let hash := Chain.block_hash (bl_header b) in
  Chain.is_new_head (bl_header (resign sig b)) (Chain.store_block (resign sig b) hash receipts c)
  = Chain.is_new_head (bl_header b) (Chain.store_block b hash receipts c).
Proof.
  intros hash. change (Chain.is_new_head (bl_header (resign sig b))) with (Chain.is_new_head (bl_header b)).
  rewrite !(is_new_head_index _ _ _ (store_block_index _ _ _ _)).
  apply is_new_head_height; [|done]. unfold Chain.height, Chain.head. cbn -[lookup insert].
  destruct (ch_head_hash c) as [k|]; [|done]. cbn -[lookup insert].
  destruct (decide (k = hash)) as [->|]; [by rewrite !lookup_insert_eq|by rewrite !lookup_insert_ne].
Qed.

(** Block signatures are never checked.  The election leaves every validator
    without a public key, so the signature check is skipped: in a chain whose
    validator set came from an election, a block that is accepted is accepted with
    any other signature, with the same receipts and the same effect on the
    canonical chain.  Anyone can produce blocks in the name of the slot leader. *)
Theorem signatures_never_checked now b sig c e s epoch r c' :
  ch_validator_set c = Engine.elect_validators e s epoch →
  Chain.import_block now b c = (Ok r, c') →
  ∃ c'', Chain.import_block now (resign sig b) c = (Ok r, c'')
    ∧ ch_canonical c'' = ch_canonical c' ∧ ch_head_hash c'' = ch_head_hash c'.
Proof.
  intros Hvs. assert (Hk : keyless (ch_validator_set c)) by (rewrite Hvs; apply elect_keyless).
  unfold Chain.import_block, Chain.import_block_impl. intros Hr. inv_ok_step.
  match goal with H : Chain.process_block _ _ _ _ = _ |- _ =>
    apply (process_resigned _ sig) in H; [|done]; rename H into Hp end.
  unfold Chain.commit_block in Hr. cbv zeta in Hr. repeat inv_ok_step.
  eexists. split.
  { apply M_bind_Ok. eexists _, _. split; [exact Hp|]. unfold Chain.commit_block. cbv zeta. mrun.
    change (Chain.block_hash (bl_header (resign sig b))) with (Chain.block_hash (bl_header b)).
    rewrite is_new_head_resigned. rewrite Hr. reflexivity. }
  destruct (Chain.is_new_head _ _).
  - by rewrite !(si_canonical _ _ (set_head_index _ _ _)), !(si_head _ _ (set_head_index _ _ _)),
      !(si_canonical _ _ (store_block_index _ _ _ _)).
  - by rewrite !(si_canonical _ _ (store_block_index _ _ _ _)), !(si_head _ _ (store_block_index _ _ _ _)).
Qed.
End with_env.
