(* ===== verification/ChainResume.v ===== *)
(** * Resuming a chain from its store

    The walk of [resume_from_storage] over the stored headers ends, and rebuilds
    the branch of the head. *)

From S2P Require Import Prelude Primitives Storage Assets Oracle StateDB Codecs Snapshot Restart.
From S2P Require Import Consensus ExecStaking Executor Chain ChainProps.

Section with_env.
Context `{!ChainEnv}.
Implicit Types (c : Chain) (h : BlockHeader) (l : list (H256 * BlockHeader)).

(** The headers the walk visits from [k], given what the store answers. *)
Inductive branch (sh : H256 → option BlockHeader) : H256 → list (H256 * BlockHeader) → Prop :=
  | branch_end k : sh k = None → branch sh k []
  | branch_genesis k h : sh k = Some h → bh_number h = 0 → branch sh k [(k, h)]
  | branch_step k h l : sh k = Some h → bh_number h ≠ 0 → branch sh (bh_parent_hash h) l →
      branch sh k ((k, h) :: l).

Definition load_all l c : Chain := foldl (λ c kh, Chain.load_block kh.1 kh.2 c) c l.

Lemma load_block_fields k h c :
  let c' := Chain.load_block k h c in
  ch_headers c' = <[k := h]> (ch_headers c)
  ∧ ch_canonical c' = <[bh_number h := k]> (ch_canonical c)
  ∧ ch_state c' = ch_state c ∧ ch_persistent c' = ch_persistent c.
Proof. unfold Chain.load_block. cbv zeta. by destruct (_ ≫= from_slice). Qed.

Lemma stored_header_load k h c k' :
  Chain.stored_header (Chain.load_block k h c) k' = Chain.stored_header c k'.
Proof.
  destruct (load_block_fields k h c) as (_ & _ & Hs & Hp).
  unfold Chain.stored_header, Chain.read. by rewrite Hs, Hp.
Qed.

Lemma load_back_branch sh k l : branch sh k l → ∀ fuel c,
  (∀ k, Chain.stored_header c k = sh k) → (length l <= fuel)%nat →
  Chain.load_back fuel k c = Some (load_all l c).
Proof.
  induction 1 as [k Hk|k h Hk Hn|k h l Hk Hn _ IH]; intros fuel c Hsh Hf.
  - destruct fuel; cbn [Chain.load_back]; by rewrite Hsh, Hk.
  - destruct fuel as [|fuel]; [cbn in Hf; lia|]. cbn [Chain.load_back]. rewrite Hsh, Hk, Hn. done.
  - destruct fuel as [|fuel]; [cbn in Hf; lia|]. cbn [Chain.load_back]. rewrite Hsh, Hk.
    destruct (Z.eqb_spec (bh_number h) 0); [done|]. cbn in Hf. rewrite IH; [done| |lia].
    intros k'. by rewrite stored_header_load.
Qed.

(** Every visited header is stored, under different keys when the numbers
    decrease. *)
Lemma branch_stored sh k l : branch sh k l → Forall (λ kh, sh kh.1 = Some kh.2) l.
Proof. induction 1; repeat constructor; done. Qed.

Lemma stored_keys_bound c l :
  Forall (λ kh, Chain.stored_header c kh.1 = Some kh.2) l → NoDup (fst <$> l) →
  (length l <= Chain.load_fuel c)%nat.
Proof.
  intros Hl Hnd. unfold Chain.load_fuel. destruct (db_storage (ch_state c)) as [st|] eqn:Hst.
  - set (col := default ∅ (st !! BlockHeaders)).
    assert (Hsub : list_to_set (h256_bytes ∘ fst <$> l) ⊆@{gset bytes} dom col).
    { intros x. rewrite elem_of_list_to_set, list_elem_of_fmap. intros (kh & -> & Hkh).
      rewrite Forall_forall in Hl. specialize (Hl _ Hkh). revert Hl.
      unfold Chain.stored_header, Chain.read, disk_get, Kv.get, col. rewrite Hst.
      destruct (ch_persistent c); [|done]. cbn. destruct (st !! BlockHeaders) as [m|]; [|done]. cbn.
      intros Hm. apply elem_of_dom. destruct (m !! _); [done|]. discriminate Hm. }
    apply subseteq_size in Hsub. rewrite size_list_to_set, size_dom, length_fmap in Hsub; [lia|].
    rewrite list_fmap_compose. apply NoDup_fmap_2; [|done]. by intros [] [] [= ->].
  - destruct l as [|kh l]; [cbn; lia|]. apply Forall_cons in Hl as [Hl _]. revert Hl.
    unfold Chain.stored_header, Chain.read, disk_get. rewrite Hst. by destruct (ch_persistent c).
Qed.

(** ** The branch of a block of a well-formed chain *)

Lemma well_formed_branch c sh n k h :
  well_formed c → (∀ k h, ch_headers c !! k = Some h → sh k = Some h) →
  ch_headers c !! k = Some h → bh_number h = Z.of_nat n →
  ∃ l, branch sh k l ∧ length l = S n
    ∧ ∀ i kh, l !! i = Some kh → ancestor c i k = Some kh.1 ∧ ch_headers c !! kh.1 = Some kh.2
        ∧ bh_number kh.2 = Z.of_nat (n - i).
Proof.
  intros Hwf Hsh. revert k h. induction n as [|n IH]; intros k h Hk Hn.
  - exists [(k, h)]. split; [by apply branch_genesis; [apply Hsh|]|]. split; [done|].
    intros [|i] kh; [|done]. intros [= <-]. cbn. auto.
  - destruct (wf_parent _ Hwf _ _ Hk) as [?|(p & Hp & Hnp & _)]; [lia|].
    destruct (IH _ _ Hp) as (l & Hl & Hlen & Hlook); [lia|].
    exists ((k, h) :: l). split; [apply branch_step; [by apply Hsh|lia|done]|].
    split; [cbn; lia|]. intros [|i] kh.
    + intros [= <-]. cbn. split_and!; [done..|]. by rewrite Hn.
    + cbn. intros Hi. rewrite Hk. cbn. by apply Hlook.
Qed.

Lemma load_all_headers l c k h :
  NoDup (fst <$> l) → ch_headers c = ∅ →
  (ch_headers (load_all l c) !! k = Some h ↔ (k, h) ∈ l).
Proof.
  unfold load_all. intros Hnd Hc.
  enough (Hgen : ∀ c, ch_headers (foldl (λ c kh, Chain.load_block kh.1 kh.2 c) c l) !! k = Some h
    ↔ (k, h) ∈ l ∨ (k ∉ (fst <$> l) ∧ ch_headers c !! k = Some h)).
  { rewrite Hgen, Hc, lookup_empty. naive_solver. }
  clear Hc c. induction l as [|[k' h'] l IH]; intros c; cbn [foldl fmap list_fmap].
  { rewrite elem_of_nil. set_solver. }
  apply NoDup_cons in Hnd as [Hk' Hnd]. rewrite IH by done.
  cbn [fst snd]. destruct (load_block_fields k' h' c) as (-> & _). rewrite !elem_of_cons.
  rewrite lookup_insert_Some. destruct (decide (k = k')) as [->|Hne].
  - split; [|naive_solver]. intros [Hin|[Hn [[_ <-]|[? _]]]]; [|naive_solver..].
    exfalso. apply Hk'. apply (list_elem_of_fmap_2 fst) in Hin. done.
  - naive_solver.
Qed.

Lemma load_all_canonical l c n k :
  NoDup ((λ kh, bh_number kh.2) <$> l) → ch_canonical c = ∅ →
  (ch_canonical (load_all l c) !! n = Some k ↔ ∃ h, (k, h) ∈ l ∧ bh_number h = n).
Proof.
  unfold load_all. intros Hnd Hc.
  enough (Hgen : ∀ c, ch_canonical (foldl (λ c kh, Chain.load_block kh.1 kh.2 c) c l) !! n = Some k
    ↔ (∃ h, (k, h) ∈ l ∧ bh_number h = n)
      ∨ (n ∉ ((λ kh, bh_number kh.2) <$> l) ∧ ch_canonical c !! n = Some k)).
  { rewrite Hgen, Hc, lookup_empty. naive_solver. }
  clear Hc c. induction l as [|[k' h'] l IH]; intros c; cbn [foldl fmap list_fmap].
  { setoid_rewrite elem_of_nil. naive_solver. }
  apply NoDup_cons in Hnd as [Hk' Hnd]. rewrite IH by done.
  cbn [fst snd]. destruct (load_block_fields k' h' c) as (_ & -> & _).
  setoid_rewrite elem_of_cons. rewrite lookup_insert_Some.
  destruct (decide (n = bh_number h')) as [->|Hne].
  - split; [|naive_solver]. intros [(h & Hin & Hh)|[Hn [[_ <-]|[? _]]]]; [|naive_solver..].
    exfalso. apply Hk'. apply list_elem_of_fmap. by exists (k, h).
  - naive_solver.
Qed.

Lemma descending_NoDup n l :
  length l = S n → (∀ i kh, l !! i = Some kh → bh_number kh.2 = Z.of_nat (n - i)) →
  NoDup ((λ kh, bh_number kh.2) <$> l).
Proof.
  intros Hlen Hl. apply NoDup_alt. intros i j x Hi Hj.
  apply list_lookup_fmap_Some in Hi as (a & -> & Hi), Hj as (b & Hab & Hj).
  pose proof (lookup_lt_Some _ _ _ Hi). pose proof (lookup_lt_Some _ _ _ Hj).
  rewrite (Hl _ _ Hi), (Hl _ _ Hj) in Hab. lia.
Qed.

Lemma numbers_keys_NoDup c l :
  NoDup ((λ kh, bh_number kh.2) <$> l) →
  (∀ i kh, l !! i = Some kh → ch_headers c !! kh.1 = Some kh.2) → NoDup (fst <$> l).
Proof.
  intros Hnums Hl. apply NoDup_alt. intros i j x Hi Hj.
  apply list_lookup_fmap_Some in Hi as (a & -> & Hi), Hj as (b & Hab & Hj).
  pose proof (Hl _ _ Hi) as Ha. pose proof (Hl _ _ Hj) as Hb.
  eapply NoDup_lookup; [exact Hnums|apply list_lookup_fmap_Some; eauto|].
  apply list_lookup_fmap_Some. exists b. split; [congruence|done].
Qed.

(** C22: Starting from a store always ends, with the chain of the stored head.  When
    the store holds the blocks of a well-formed chain, the walk from the head hash
    over the stored headers ends within its fuel, one more than the store has
    headers; the rebuilt canonical index holds exactly the ancestors of the head,
    each at its height, and the loaded blocks are exactly those. *)
Theorem resume_rebuilds_branch c head n c0 :
  well_formed c → ch_head_hash c = Some head → Chain.height c = Some n →
  empty_index c0 →
  (∀ k h, ch_headers c !! k = Some h → Chain.stored_header c0 k = Some h) →
  ∃ c', Chain.load_back (Chain.load_fuel c0) head c0 = Some c'
    ∧ (∀ i k, ch_canonical c' !! i = Some k ↔
         0 <= i <= n ∧ ancestor c (Z.to_nat (n - i)) head = Some k)
    ∧ (∀ k h, ch_headers c' !! k = Some h ↔
         ch_headers c !! k = Some h
         ∧ ∃ i, (i <= Z.to_nat n)%nat ∧ ancestor c i head = Some k).
Proof.
  intros Hwf Hhd Hn (Hh0 & _ & Hc0 & _) Hst.
  unfold Chain.height, Chain.head in Hn. rewrite Hhd in Hn. cbn in Hn.
  destruct (ch_headers c !! head) as [hd|] eqn:Hd; [|done]. injection Hn as Hn.
  destruct (wf_number _ Hwf _ _ Hd) as [Hpos _].
  destruct (well_formed_branch c (Chain.stored_header c0) (Z.to_nat n) head hd)
    as (l & Hl & Hlen & Hlook); [done..|lia|].
  assert (Hnums : NoDup ((λ kh, bh_number kh.2) <$> l)).
  { apply (descending_NoDup (Z.to_nat n)); [done|]. intros i kh Hi. apply (Hlook _ _ Hi). }
  assert (Hkeys : NoDup (fst <$> l)).
  { apply (numbers_keys_NoDup c); [done|]. intros i kh Hi. apply (Hlook _ _ Hi). }
  exists (load_all l c0). split.
  { apply (load_back_branch _ _ _ Hl); [done|].
    by apply (stored_keys_bound c0 l (branch_stored _ _ _ Hl)). }
  split.
  - intros i k. rewrite (load_all_canonical l c0 i k Hnums Hc0). split.
    + intros (h & [j Hj]%list_elem_of_lookup & <-). pose proof (lookup_lt_Some _ _ _ Hj).
      destruct (Hlook _ _ Hj) as (Ha & _ & Hb). cbn in Ha, Hb. rewrite Hb.
      split; [lia|]. rewrite <- Ha. f_equal. lia.
    + intros [Hi Ha]. destruct (lookup_lt_is_Some_2 l (Z.to_nat (n - i))) as [kh Hkh]; [lia|].
      destruct (Hlook _ _ Hkh) as (Ha' & _ & Hb). assert (k = kh.1) as -> by congruence.
      exists kh.2. rewrite <- surjective_pairing. split; [by eapply list_elem_of_lookup_2|lia].
  - intros k h. rewrite (load_all_headers l c0 k h Hkeys Hh0). split.
    + intros [j Hj]%list_elem_of_lookup. pose proof (lookup_lt_Some _ _ _ Hj).
      destruct (Hlook _ _ Hj) as (Ha & Hb & _). split; [done|]. exists j. split; [lia|done].
    + intros [Hk (i & Hi & Ha)]. destruct (lookup_lt_is_Some_2 l i) as [kh Hkh]; [lia|].
      destruct (Hlook _ _ Hkh) as (Ha' & Hb & _). assert (k = kh.1) as -> by congruence.
      assert (h = kh.2) as -> by congruence. rewrite <- surjective_pairing.
      by eapply list_elem_of_lookup_2.
Qed.
End with_env.
