(* ===== verification/Genesis.v ===== *)
(** * Genesis ([crates/vtt-genesis/src/lib.rs], [ChainConfig] of
      [crates/vtt-primitives/src/chain.rs])

    Validation of a genesis configuration and construction of the first block
    and the first state. Key pairs come from the signature library: the address
    of a seed is an argument of the built-in configurations, and so is the
    clock. *)

From S2P Require Import Prelude Primitives RustStr Storage Assets Oracle StateDB Dex Codecs Snapshot.
From S2P Require Import Consensus Executor.

Record ChainConfig := MkChainConfig {
  cf_chain_id : ChainId;
  cf_name : string;
  cf_consensus : ConsensusParams;
  cf_gas : GasConfig;
}.

Definition relay_default : ChainConfig :=
  MkChainConfig ChainId_RELAY "VTT Relay Chain" ConsensusParams_default GasConfig_default.

Record GenesisAllocation := MkGenesisAllocation {
  ga_address : Address;
  ga_balance : Amount;
}.

Record GenesisValidator := MkGenesisValidator {
  gv_address : Address;
  gv_self_stake : Amount;
  gv_commission_bps : Z;
}.

Record GenesisConfig := MkGenesisConfig {
  gc_chain : ChainConfig;
  gc_timestamp : Z;
  gc_allocations : list GenesisAllocation;
  gc_validators : list GenesisValidator;
}.

Record GenesisResult := MkGenesisResult {
  gr_block : Block;
  gr_state : StateDB;
  gr_state_root : H256;
}.

(** The parameters that the built-in networks change. *)
Definition with_network (active epoch : Z) (treasury : Address) (p : ConsensusParams)
    : ConsensusParams :=
  MkConsensusParams epoch (block_time_ms p) active (min_self_stake p) (unbonding_period_secs p)
    (slash_double_sign_bps p) (slash_downtime_bps p) (downtime_threshold_pct p) treasury.

(** [seed_address b] is [Keypair::from_seed(&[b; 32]).address()]. *)
Definition testnet_default (seed_address : Z → Address) (now_ms : Z) : GenesisConfig :=
  let val1 := seed_address 0xA1 in
  let val2 := seed_address 0xA2 in
  let val3 := seed_address 0xA3 in
  let faucet1 := seed_address 0x01 in
  let faucet2 := seed_address 0x02 in
  MkGenesisConfig
    (MkChainConfig ChainId_RELAY "VTT Testnet" (with_network 3 1200 val1 ConsensusParams_default)
       GasConfig_default)
    now_ms
    [MkGenesisAllocation val1 (Amount.from_vtt 600000); MkGenesisAllocation val2 (Amount.from_vtt 600000);
     MkGenesisAllocation val3 (Amount.from_vtt 600000); MkGenesisAllocation faucet1 (Amount.from_vtt 1000000);
     MkGenesisAllocation faucet2 (Amount.from_vtt 1000000)]
    [MkGenesisValidator val1 (Amount.from_vtt 500000) 500; MkGenesisValidator val2 (Amount.from_vtt 500000) 500;
     MkGenesisValidator val3 (Amount.from_vtt 500000) 500].

Definition dev_default (seed_address : Z → Address) (now_ms : Z) : GenesisConfig :=
  let validator_addr := seed_address 0x10 in
  MkGenesisConfig
    (MkChainConfig ChainId_RELAY "VTT Dev Network"
       (with_network 1 100 validator_addr ConsensusParams_default) GasConfig_default)
    now_ms
    [MkGenesisAllocation (seed_address 0x01) (Amount.from_vtt 1000000);
     MkGenesisAllocation (seed_address 0x02) (Amount.from_vtt 1000000);
     MkGenesisAllocation (seed_address 0x03) (Amount.from_vtt 1000000);
     MkGenesisAllocation validator_addr (Amount.from_vtt 500000)]
    [MkGenesisValidator validator_addr (Amount.from_vtt 100000) 500].

Module Genesis.

(** The loops with a [HashSet]: the first repeated address, and for
    allocations the first empty balance, in the order of the list. *)
Fixpoint check_validators (seen : gset Address) (l : list GenesisValidator) : res string unit :=
  match l with
  | [] => Ok tt
  | v :: l =>
      if decide (gv_address v ∈ seen) then
        Err ("duplicate validator address in genesis: " +:+ address_to_string (gv_address v))
      else check_validators ({[gv_address v]} ∪ seen) l
  end.

Fixpoint check_allocations (seen : gset Address) (l : list GenesisAllocation) : res string unit :=
  match l with
  | [] => Ok tt
  | a :: l =>
      if decide (ga_address a ∈ seen) then
        Err ("duplicate allocation address in genesis: " +:+ address_to_string (ga_address a))
      else if ga_balance a =? 0 then
        Err ("allocation for " +:+ address_to_string (ga_address a) +:+ " has zero balance")
      else check_allocations ({[ga_address a]} ∪ seen) l
  end.

(** Sums of [u128] wrap in a release build. *)
Definition sum_u128 {A} (f : A → Z) (l : list A) : Z := foldl (λ acc a, wrap 128 (acc + f a)) 0 l.

Fixpoint check_min_stake (min_stake : Amount) (l : list GenesisValidator) : res string unit :=
  match l with
  | [] => Ok tt
  | v :: l =>
      if gv_self_stake v <? min_stake then
        Err ("Validator " +:+ address_to_string (gv_address v) +:+ " stake "
             +:+ amount_to_string (gv_self_stake v) +:+ " below minimum " +:+ amount_to_string min_stake)
      else check_min_stake min_stake l
  end.

Definition validate_genesis (config : GenesisConfig) : res string unit :=
  let params := cf_consensus (gc_chain config) in
  _ ← guard_err (bool_decide (gc_validators config = [])) "Genesis must have at least 1 validator";
  _ ← guard_err (epoch_length params =? 0) "epoch_length cannot be 0";
  let total_allocated := sum_u128 ga_balance (gc_allocations config) in
  let total_staked := sum_u128 gv_self_stake (gc_validators config) in
  _ ← guard_err ((total_allocated =? 0) && (total_staked =? 0)) "Genesis has no tokens allocated";
  _ ← check_min_stake (min_self_stake params) (gc_validators config);
  _ ← check_validators ∅ (gc_validators config);
  _ ← check_allocations ∅ (gc_allocations config);
  _ ← guard_err (active_validators params =? 0) "active_validators must be > 0";
  _ ← guard_err (block_time_ms params =? 0) "block_time_ms must be > 0";
  _ ← guard_err (10000 <? slash_double_sign_bps params)
        "slash_double_sign_bps must be <= 10000 basis points";
  _ ← guard_err (10000 <? slash_downtime_bps params)
        "slash_downtime_bps must be <= 10000 basis points";
  guard_err (100 <? downtime_threshold_pct params) "downtime_threshold_pct must be <= 100".

Section with_env.
Context `{!TxEnv}.

Definition allocate (alloc : GenesisAllocation) (s : StateDB) : StateDB :=
  State.put_account (ga_address alloc) (Account.with_balance (ga_balance alloc)) s.

(** [.expect("validator balance must cover self-stake")]. *)
Definition add_validator {E} (v : GenesisValidator) : M StateDB E unit :=
  account ← gets (λ s, State.get_account s (gv_address v));
  balance ← lift (expect (checked_sub (ac_balance account) (gv_self_stake v)));
  let staking := {| sk_total_stake := gv_self_stake v; sk_self_stake := gv_self_stake v;
                    sk_commission_bps := gv_commission_bps v; sk_active := true;
                    sk_delegations := []; sk_unbonding := [] |} in
  modify (State.put_account (gv_address v)
            (account <| ac_balance := balance |> <| ac_staking := Some staking |>)).

(** [.expect(..)] on the result of a call. *)
Definition expecting {E E' A} (m : M StateDB E A) : M StateDB E' A := λ s,
  match m s with
  | (Ok a, s') => (Ok a, s')
  | (_, s') => (Panic, s')
  end.

(** Registration of an asset and the credit of its supply to [owner]. *)
Definition mint_genesis_asset (asset : AssetRecord) (owner : Address) : M StateDB StateError unit :=
  _ ← State.register_asset asset;
  ownership ← gets (λ s, State.get_ownership s (as_id asset) owner);
  ownership ← lift (Own.credit (as_total_supply asset) ownership);
  State.put_ownership ownership.

Definition genesis_asset (id : H256) (name symbol class : string) (chain_id : ChainId)
    (issuer : Address) (supply : Amount) (decimals : Z) : AssetRecord :=
  MkAssetRecord id name symbol (ACCustom class) chain_id issuer supply decimals Active None None []
    "" "" "" PeerToPeer None 0 false 0.

Definition setup_dex_genesis {E} (treasury : Address) (chain_id : ChainId) : M StateDB E unit :=
  let vusdt_id := blake3_hash "asset:vUSDT" in
  _ ← expecting (mint_genesis_asset
        (genesis_asset vusdt_id "VTT USD" "vUSDT" "Stablecoin" chain_id treasury (10 ^ 14) 6) treasury);
  pool ← expecting (Dex.create_pool treasury H256_ZERO vusdt_id (Amount.from_vtt 100000)
           10800000000 0);
  _ ← expecting (Dex.save_pool pool);
  let vttrev_id := blake3_hash "asset:VTT-REV" in
  expecting (mint_genesis_asset
    (genesis_asset vttrev_id "VTT Revenue Share" "VTT-REV" "RevenueShare" chain_id treasury 10000 0)
    treasury).

(** The account the genesis assets and the pool belong to. *)
Definition genesis_treasury (config : GenesisConfig) : Address :=
  match gc_validators config with
  | v :: _ => gv_address v
  | [] => match gc_allocations config with
          | a :: _ => ga_address a
          | [] => Address_ZERO
          end
  end.

Definition genesis_header (config : GenesisConfig) (state_root : H256) : BlockHeader := {|
  bh_version := 1;
  bh_chain_id := cf_chain_id (gc_chain config);
  bh_number := 0;
  bh_parent_hash := H256_ZERO;
  bh_transactions_root := merkle_root [];
  bh_state_root := state_root;
  bh_receipts_root := merkle_root [];
  bh_validator := match gc_validators config with
                  | v :: _ => gv_address v
                  | [] => Address_ZERO
                  end;
  bh_epoch := 0;
  bh_slot := 0;
  bh_timestamp := gc_timestamp config;
  bh_gas_limit := 10000000;
  bh_gas_used := 0;
  bh_cross_chain_root := None;
  bh_signature := Signature_ZERO;
|}.

(** The accounts: allocations, then validators. *)
Definition fund_accounts {E} (config : GenesisConfig) : M StateDB E unit :=
  _ ← modify (λ s, foldl (λ s a, allocate a s) s (gc_allocations config));
  for_each (gc_validators config) add_validator.

Definition build_state {E} (config : GenesisConfig) : M StateDB E unit :=
  let params := cf_consensus (gc_chain config) in
  _ ← fund_accounts config;
  _ ← modify (State.set_treasury_address (treasury_address params));
  _ ← modify (State.set_epoch_length (epoch_length params));
  setup_dex_genesis (genesis_treasury config) (cf_chain_id (gc_chain config)).

Definition build_genesis {E} (config : GenesisConfig) : res E GenesisResult :=
  match validate_genesis config with
  | Ok _ =>
      match build_state config StateDB_new with
      | (Ok _, s) =>
          let '(state_root, s) := Snapshot.compute_state_root s in
          Ok (MkGenesisResult (MkBlock (genesis_header config state_root) []) s state_root)
      | (Err e, _) => Err e
      | (Panic, _) => Panic
      end
  | _ => Panic
  end.

Definition genesis_hash (block : Block) : H256 := blake3_hash (signable_bytes (bl_header block)).

End with_env.
End Genesis.
