(* ===== verification/GenesisProps.v ===== *)
(** * Properties of genesis

    The accounts of the first state, and which configurations can be built. *)

From S2P Require Import Prelude Primitives RustStr Storage Assets Oracle StateDB Dex Codecs Ledger.
From S2P Require Import Snapshot Consensus Executor ExecCodecs Genesis.

(** What a configuration gives to and takes from an address. *)
Definition allocation (config : GenesisConfig) (a : Address) : option GenesisAllocation :=
  find (λ x, bool_decide (ga_address x = a)) (gc_allocations config).

Definition validator (config : GenesisConfig) (a : Address) : option GenesisValidator :=
  find (λ v, bool_decide (gv_address v = a)) (gc_validators config).

Definition allocated (config : GenesisConfig) (a : Address) : Z :=
  default 0 (ga_balance <$> allocation config a).

(** Every validator's allocation covers its stake. *)
Definition covered (config : GenesisConfig) : Prop :=
  Forall (λ v, gv_self_stake v <= allocated config (gv_address v)) (gc_validators config).

Definition staked (v : GenesisValidator) (acc : AccountState) : AccountState :=
  acc <| ac_balance := ac_balance acc - gv_self_stake v |>
      <| ac_staking := Some (MkStakingState (gv_self_stake v) (gv_self_stake v)
           (gv_commission_bps v) true [] []) |>.

Lemma check_validators_Ok l : ∀ seen, Genesis.check_validators seen l = Ok tt →
  NoDup (gv_address <$> l) ∧ Forall (λ v, gv_address v ∉ seen) l.
Proof.
  induction l as [|v l IH]; intros seen; cbn; [repeat constructor|].
  destruct (decide _) as [|Hv]; [done|]. intros [Hnd Hl]%IH.
  rewrite NoDup_cons, Forall_cons, list_elem_of_fmap. split.
  - split; [|done]. intros (w & Hw & Hin). rewrite Forall_forall in Hl. specialize (Hl _ Hin).
    set_solver.
  - split; [done|]. eapply Forall_impl; [exact Hl|]. set_solver.
Qed.

Lemma check_allocations_Ok l : ∀ seen, Genesis.check_allocations seen l = Ok tt →
  NoDup (ga_address <$> l) ∧ Forall (λ x, ga_address x ∉ seen) l.
Proof.
  induction l as [|v l IH]; intros seen; cbn; [repeat constructor|].
  destruct (decide _) as [|Hv]; [done|]. destruct (_ =? 0); [done|]. intros [Hnd Hl]%IH.
  rewrite NoDup_cons, Forall_cons, list_elem_of_fmap. split.
  - split; [|done]. intros (w & Hw & Hin). rewrite Forall_forall in Hl. specialize (Hl _ Hin).
    set_solver.
  - split; [done|]. eapply Forall_impl; [exact Hl|]. set_solver.
Qed.

Lemma validate_unique config :
  Genesis.validate_genesis config = Ok tt →
  NoDup (gv_address <$> gc_validators config) ∧ NoDup (ga_address <$> gc_allocations config).
Proof.
  unfold Genesis.validate_genesis. cbv zeta. intros Hv.
  repeat (apply res_bind_Ok in Hv as ([] & ? & Hv)).
  split; [by eapply check_validators_Ok|by eapply check_allocations_Ok].
Qed.

Section with_env.
Context `{!TxEnv}.

Lemma allocate_all l : ∀ s a, NoDup (ga_address <$> l) →
  State.get_account (foldl (λ s x, Genesis.allocate x s) s l) a =
  match find (λ x, bool_decide (ga_address x = a)) l with
  | Some x => Account.with_balance (ga_balance x)
  | None => State.get_account s a
  end.
Proof.
  induction l as [|x l IH]; intros s a; cbn [foldl find fmap list_fmap]; [done|].
  rewrite NoDup_cons. intros [Hx Hnd]. rewrite IH by done. unfold Genesis.allocate.
  rewrite get_account_put. case_bool_decide as Ha.
  - subst a. destruct (find _ l) as [y|] eqn:Hy.
    + apply find_some in Hy as [Hin Hy%bool_decide_eq_true]. exfalso. apply Hx.
      rewrite <- Hy. by apply list_elem_of_fmap_2, list_elem_of_In.
    + by rewrite decide_True.
  - destruct (find _ l); [done|]. by rewrite decide_False.
Qed.

Lemma add_validator_run {E} v s :
  let acc := State.get_account s (gv_address v) in
  Genesis.add_validator (E:=E) v s =
  if gv_self_stake v <=? ac_balance acc
  then (Ok tt, State.put_account (gv_address v) (staked v acc) s) else (Panic, s).
Proof.
  intros acc. unfold Genesis.add_validator. mrun. unfold checked_sub. fold acc.
  by destruct (gv_self_stake v <=? ac_balance acc).
Qed.

Lemma add_validators {E} l : ∀ s, NoDup (gv_address <$> l) →
  let r := for_each l (Genesis.add_validator (E:=E)) s in
  if bool_decide (Forall (λ v, gv_self_stake v <= ac_balance (State.get_account s (gv_address v))) l)
  then r.1 = Ok tt ∧ ∀ a, State.get_account r.2 a =
    match find (λ v, bool_decide (gv_address v = a)) l with
    | Some v => staked v (State.get_account s a)
    | None => State.get_account s a
    end
  else r.1 = Panic.
Proof.
  induction l as [|v l IH]; intros s; cbn [for_each fmap list_fmap]; cbv zeta.
  { intros _. rewrite bool_decide_eq_true_2 by constructor. done. }
  rewrite NoDup_cons. intros [Hv Hnd]. unfold mbind, M_bind. rewrite add_validator_run. cbv zeta.
  assert (Hother : ∀ w acc, w ∈ l →
    State.get_account (State.put_account (gv_address v) acc s) (gv_address w)
    = State.get_account s (gv_address w)).
  { intros w acc Hw. rewrite get_account_put, decide_False; [done|]. intros Heq. apply Hv.
    rewrite Heq. by apply list_elem_of_fmap_2. }
  destruct (Z.leb_spec (gv_self_stake v) (ac_balance (State.get_account s (gv_address v)))).
  2: { rewrite bool_decide_eq_false_2; [done|]. rewrite Forall_cons. lia. }
  set (s1 := State.put_account _ _ s). specialize (IH s1 Hnd). cbv zeta in IH.
  rewrite (bool_decide_ext _ (Forall (λ w, gv_self_stake w
    <= ac_balance (State.get_account s1 (gv_address w))) l)).
  2: { rewrite Forall_cons, !Forall_forall. unfold s1.
       split; [intros [_ Hl] w Hw|intros Hl; split; [lia|intros w Hw]]; specialize (Hl w Hw).
       - by rewrite Hother. - by rewrite Hother in Hl. }
  destruct (bool_decide _); [|done]. destruct IH as [-> Hacc]. split; [done|]. intros a.
  rewrite Hacc. cbn [find]. unfold s1. rewrite get_account_put. case_bool_decide as Ha.
  - subst a. rewrite decide_True by done. destruct (find _ l) as [y|] eqn:Hy; [|done].
    apply find_some in Hy as [Hin Hy%bool_decide_eq_true]. exfalso. apply Hv.
    rewrite <- Hy. by apply list_elem_of_fmap_2, list_elem_of_In.
  - by rewrite decide_False.
Qed.

Lemma get_account_new a : State.get_account StateDB_new a = AccountState_default.
Proof. done. Qed.

Lemma fund_accounts_run {E} config :
  Genesis.validate_genesis config = Ok tt →
  let r := Genesis.fund_accounts (E:=E) config StateDB_new in
  let base a := match allocation config a with
                | Some x => Account.with_balance (ga_balance x)
                | None => AccountState_default
                end in
  if bool_decide (covered config) then r.1 = Ok tt ∧ ∀ a, State.get_account r.2 a =
    match validator config a with Some v => staked v (base a) | None => base a end
  else r.1 = Panic.
Proof.
  intros [Hv Ha]%validate_unique. cbv zeta. unfold Genesis.fund_accounts. mrun.
  set (s := foldl _ StateDB_new _).
  assert (Hs : ∀ a, State.get_account s a = match allocation config a with
                | Some x => Account.with_balance (ga_balance x)
                | None => AccountState_default
                end) by (intros a; by apply allocate_all).
  pose proof (add_validators (E:=E) (gc_validators config) s Hv) as Hrun. cbv zeta in Hrun.
  rewrite (bool_decide_ext _ (covered config)) in Hrun.
  2: { unfold covered, allocated. setoid_rewrite Hs.
       split; intros Hl; (eapply Forall_impl; [exact Hl|]); intros v; cbn;
         by destruct (allocation config (gv_address v)). }
  destruct (bool_decide (covered config)); [|done]. destruct Hrun as [Hok Hacc]. split; [done|].
  intros a. by rewrite Hacc, Hs.
Qed.

(** The accounts of the first state are those of the configuration.  When the
    configuration is valid and every validator's allocation covers its stake, the
    accounts are built without a panic, and each address has exactly its allocation
    minus its stake, staked under its own name with its commission; otherwise
    [build_genesis] panics although [validate_genesis] accepts the configuration. *)
Theorem genesis_accounts_exact config :
  Genesis.validate_genesis config = Ok tt →
  let r := Genesis.fund_accounts (E:=unit) config StateDB_new in
  (covered config → r.1 = Ok tt ∧ ∀ a,
     let acc := State.get_account r.2 a in
     ac_nonce acc = 0
     ∧ match validator config a with
       | Some v => ac_balance acc = allocated config a - gv_self_stake v
           ∧ ac_staking acc = Some (MkStakingState (gv_self_stake v) (gv_self_stake v)
               (gv_commission_bps v) true [] [])
       | None => ac_balance acc = allocated config a ∧ ac_staking acc = None
       end)
  ∧ (¬ covered config → Genesis.build_genesis (E:=unit) config = Panic).
Proof.
  intros Hv. pose proof (fund_accounts_run (E:=unit) config Hv) as Hrun. cbv zeta in *. split.
  - intros Hc. rewrite bool_decide_eq_true_2 in Hrun by done. destruct Hrun as [Hok Hacc].
    split; [done|]. intros a. rewrite Hacc. unfold allocated.
    by destruct (validator config a), (allocation config a).
  - intros Hc. rewrite bool_decide_eq_false_2 in Hrun by done.
    unfold Genesis.build_genesis, Genesis.build_state. rewrite Hv. cbv zeta. unfold mbind at 1, M_bind.
    destruct (Genesis.fund_accounts config StateDB_new) as [[]]; cbn in Hrun; done.
Qed.
End with_env.

#[local] Existing Instance demo_tx_env.

Lemma genesis_accounts_exact_witness :
  let config := testnet_default demo_address 1 in
  let s := (Genesis.fund_accounts (E:=unit) config StateDB_new).2 in
  State.get_balance s (demo_address 0xA2) = Amount.from_vtt 100000.
Proof.
  intros config s.
  assert (Hc : covered config) by (repeat constructor; vm_compute; discriminate).
  assert (Hv : Genesis.validate_genesis config = Ok tt) by (vm_compute; reflexivity).
  destruct (genesis_accounts_exact config Hv) as [H _].
  destruct (H Hc) as [_ Hacc]. destruct (Hacc (demo_address 0xA2)) as [_ Hb].
  unfold State.get_balance. fold s in Hb.
  assert (Hva : validator config (demo_address 0xA2)
    = Some (MkGenesisValidator (demo_address 0xA2) (Amount.from_vtt 500000) 500)) by (vm_compute; reflexivity).
  rewrite Hva in Hb. destruct Hb as [Hb _]. rewrite Hb. vm_compute. reflexivity.
Defined.

(** Both built-in networks can be built. *)
Example built_in_networks_build :
  is_Some (match Genesis.build_genesis (E:=unit) (testnet_default demo_address 1) with
           | Ok r => Some (gr_state_root r) | _ => None end)
  ∧ is_Some (match Genesis.build_genesis (E:=unit) (dev_default demo_address 1) with
             | Ok r => Some (gr_state_root r) | _ => None end).
Proof. split; vm_compute; eauto. Qed.

(** Covering the stakes is not enough: the first validator must also fund the
    genesis pool, which validation does not check either. *)
Example valid_configurations_panic :
  let small := MkGenesisConfig relay_default 1
    [MkGenesisAllocation (demo_address 1) (Amount.from_vtt 100000)]
    [MkGenesisValidator (demo_address 1) (Amount.from_vtt 100000) 500] in
  Genesis.validate_genesis small = Ok tt ∧ Genesis.build_genesis (E:=unit) small = Panic.
Proof. split; vm_compute; reflexivity. Qed.
