(* ===== verification/Producer.v ===== *)
(** * Block production ([bin/vtt-validator/src/main.rs], [try_produce_block])

    The slot leader executes transactions of its pool on the state of its chain,
    settles the block, and imports it. The key pair is its address and its
    signing function; the two readings of the clock (for the block's timestamp
    and by the import) are arguments. The locks and the metrics are not
    modelled. *)

From S2P Require Import Prelude Primitives Storage Assets Oracle StateDB Codecs Snapshot.
From S2P Require Import Consensus ExecStaking TxCodec TxPool Executor ExecCodecs Chain ChainProps.

Definition BLOCK_GAS_LIMIT : Z := 10000000.
Definition MAX_BLOCK_TXS : Z := 100.

Module Producer.
Section with_env.
Context `{!ChainEnv}.

(** The nonces of the senders in the pool. *)
Definition pool_nonces (pool : TxPool) (s : StateDB) : gmap Address Z :=
  foldl (λ m sender, <[sender := State.get_nonce s sender]> m) ∅ (Pool.senders pool).

(** Execution and settlement of the block on the chain's own state. *)
Definition execute_own {E} (txs : list SignedTransaction) (gas_config : GasConfig)
    (number now_ms : Z) (chain_id : ChainId) (validator_addr : Address)
    : M Chain E (list TransactionReceipt * Z * H256) :=
  validator_set ← gets ch_validator_set;
  params ← gets (λ c, ce_params (ch_consensus c));
  r ← Chain.on_state (Tx.execute_block_transactions_at txs gas_config BLOCK_GAS_LIMIT number now_ms
        chain_id);
  total_staked ← lift (VSet.total_stake validator_set);
  _ ← Chain.on_state (Tx.apply_block_rewards_and_governance number r.2 gas_config validator_addr
        total_staked params);
  root ← Chain.on_state (λ s, let '(root, s) := Snapshot.compute_state_root s in (Ok root, s));
  mret (r.1, r.2, root).

Definition make_header {E} (c : Chain) (head : BlockHeader) (txs : list SignedTransaction)
    (receipts : list TransactionReceipt) (gas_used number now_ms : Z) (state_root : H256)
    (validator_addr : Address) : res E BlockHeader :=
  epoch ← Engine.epoch_for_block (ch_consensus c) number;
  slot ← Engine.slot_for_block (ch_consensus c) number;
  Ok {| bh_version := 1;
        bh_chain_id := bh_chain_id head;
        bh_number := number;
        bh_parent_hash := blake3_hash (signable_bytes head);
        bh_transactions_root := merkle_root (Tx.tx_hash <$> txs);
        bh_state_root := state_root;
        bh_receipts_root := merkle_root ((λ r, blake3_hash (to_vec r)) <$> receipts);
        bh_validator := validator_addr;
        bh_epoch := epoch;
        bh_slot := slot;
        bh_timestamp := now_ms;
        bh_gas_limit := BLOCK_GAS_LIMIT;
        bh_gas_used := gas_used;
        bh_cross_chain_root := None;
        bh_signature := Signature_ZERO |}.

(** Mined transactions leave the pool by the committed nonce. *)
Definition prune_pool (nonces : gmap Address Z) (s : StateDB) (pool : TxPool) : TxPool :=
  foldl (λ pool kv,
    let committed_nonce := State.get_nonce s kv.1 in
    if kv.2 <? committed_nonce then Pool.remove_committed kv.1 (committed_nonce - 1) pool else pool)
    pool (hash_iter nonces).

(** An error of the import is logged and dropped. *)
Definition import_own {E} (now_import : Z) (block : Block) (receipts : list TransactionReceipt)
    : M Chain E (option Block) := λ c,
  match Chain.import_produced_block now_import block receipts c with
  | (Ok _, c) => (Ok (Some block), c)
  | (Err _, c) => (Ok None, c)
  | (Panic, c) => (Panic, c)
  end.

(** The block of the slot leader, signed, and its import into the own chain. *)
Definition produce {E} (validator_addr : Address) (sign : bytes → Signature) (gas_config : GasConfig)
    (now_ms now_import : Z) (head : BlockHeader) (txs : list SignedTransaction) (number : Z)
    : M Chain E (option Block) :=
  r ← execute_own txs gas_config number now_ms (bh_chain_id head) validator_addr;
  let '(receipts, gas_used, state_root) := r in
  c ← gets id;
  header ← lift (make_header c head txs receipts gas_used number now_ms state_root validator_addr);
  let header := header <| bh_signature := sign (signable_bytes header) |> in
  let block := MkBlock header txs in
  import_own now_import block receipts.

(** The block that is broadcast, if it is this validator's turn and the block
    could be imported. *)
Definition try_produce_block {E} (validator_addr : Address) (sign : bytes → Signature)
    (gas_config : GasConfig) (now_ms now_import : Z) : M (Chain * TxPool) E (option Block) :=
  λ '(c, pool),
    match Chain.head c with
    | None => (Ok None, (c, pool))
    | Some head =>
        let next_number := wrap 64 (bh_number head + 1) in
        match Engine.block_producer (ch_consensus c) (ch_validator_set c) next_number with
        | Panic => (Panic, (c, pool))
        | Err _ => (Ok None, (c, pool))
        | Ok v =>
            if negb (bool_decide (vi_address v = validator_addr)) then (Ok None, (c, pool))
            else
              let nonces := pool_nonces pool (ch_state c) in
              let txs := Pool.select_transactions pool MAX_BLOCK_TXS nonces in
              match produce validator_addr sign gas_config now_ms now_import head txs next_number c with
              | (Ok (Some block), c) => (Ok (Some block), (c, prune_pool nonces (ch_state c) pool))
              | (r, c) => (r, (c, pool))
              end
        end
    end.

End with_env.
End Producer.

(** ** Epoch boundaries *)

Section boundary.
Context `{!ChainEnv}.

(** The set a block of epoch [epoch] is verified against. *)
Lemma rotate_epoch_set {E} n c u c' :
  Chain.rotate_epoch (E:=E) n c = (Ok u, c') →
  let e := ch_consensus c in
  let vs := ch_validator_set c in
  vs_epoch vs < n →
  ch_validator_set c' =
    Engine.elect_validators e (Chain.close_epoch (E:=E) (ce_params e) vs (ch_state c)).2 n
  ∧ ch_consensus c' = e.
Proof.
  unfold Chain.rotate_epoch. cbv zeta. intros Hr Hlt. do 4 inv_ok_step.
  rewrite (proj2 (Z.ltb_lt _ _) Hlt) in Hr. repeat inv_ok_step.
  match goal with H : Chain.on_state ?m c = _ |- _ =>
    unfold Chain.on_state in H; destruct (m (ch_state c)) as [r s] eqn:Hm; injection H as -> <- end.
  split; reflexivity.
Qed.

(** Executing the own block changes the state of the chain and nothing else. *)
Definition state_only {E A} (m : M Chain E A) : Prop := ∀ c, (m c).2 = c <| ch_state := ch_state (m c).2 |>.

Lemma state_only_bind {E A B} (m : M Chain E A) (f : A → M Chain E B) :
  state_only m → (∀ a, state_only (f a)) → state_only (m ≫= f).
Proof.
  intros Hm Hf c. unfold mbind, M_bind. specialize (Hm c).
  destruct (m c) as [[a|e|] c1]; cbn in *; [|done..].
  rewrite (Hf a c1). rewrite Hm at 1. by destruct c.
Qed.

Lemma state_only_on_state {E A} (m : M StateDB E A) : state_only (Chain.on_state m).
Proof. intros c. unfold Chain.on_state. by destruct (m (ch_state c)). Qed.

Lemma state_only_pure {E A} (m : M Chain E A) : (∀ c, (m c).2 = c) → state_only m.
Proof. intros Hm c. rewrite Hm. by destruct c. Qed.

Lemma execute_own_state {E} txs gas n now cid v :
  state_only (Producer.execute_own (E:=E) txs gas n now cid v).
Proof.
  unfold Producer.execute_own.
  repeat first [ apply state_only_on_state | apply state_only_pure; done
               | apply state_only_bind; [|intros ?] ].
Qed.

Lemma process_verified now b pr c receipts c' :
  Chain.process_block now b pr c = (Ok receipts, c') →
  ∃ parent epoch c1, Engine.epoch_for_block (E:=ChainError) (ch_consensus c) (bh_number (bl_header b)) = Ok epoch
    ∧ Chain.rotate_epoch (E:=Empty_set) epoch c = (Ok tt, c1)
    ∧ Engine.verify_header (ch_consensus c1) (bl_header b) parent (ch_validator_set c1) = Ok tt.
Proof.
  unfold Chain.process_block. cbv zeta. intros Hr. repeat inv_ok_step.
  match goal with H : Chain.infallible (Chain.rotate_epoch _) _ = (Ok ?u, _) |- _ =>
    apply infallible_Ok in H; destruct u end.
  match goal with H : Engine.verify_header _ _ _ _ = Ok ?u |- _ => destruct u end.
  eauto 10.
Qed.

Lemma produce_verified {E} addr sign gas now now' head txs n c b c' :
  Producer.produce (E:=E) addr sign gas now now' head txs n c = (Ok (Some b), c') →
  let c1 := c <| ch_state := ch_state (Producer.execute_own (E:=E) txs gas n now
                                         (bh_chain_id head) addr c).2 |> in
  bh_number (bl_header b) = n ∧ bh_validator (bl_header b) = addr
  ∧ ∃ parent epoch c2, Engine.epoch_for_block (E:=ChainError) (ch_consensus c) n = Ok epoch
    ∧ Chain.rotate_epoch (E:=Empty_set) epoch c1 = (Ok tt, c2)
    ∧ Engine.verify_header (ch_consensus c2) (bl_header b) parent (ch_validator_set c2) = Ok tt.
Proof.
  intros Hp c1. unfold Producer.produce in Hp. inv_ok_step.
  match goal with H : Producer.execute_own _ _ _ _ _ _ c = (Ok ?x, ?c2) |- _ =>
    destruct x as [[receipts gas_used] root]; rename H into Hx;
    assert (c2 = c1) as -> by (pose proof (execute_own_state (E:=E) txs gas n now (bh_chain_id head) addr c) as Hs;
      unfold c1; rewrite Hx in *; exact Hs) end.
  inv_ok_step. inv_ok_step. inv_ok_step. inv_ok_step.
  match goal with H : Producer.make_header _ _ _ _ _ _ _ _ _ = Ok _ |- _ =>
    unfold Producer.make_header in H; inv_ok end.
  unfold Producer.import_own in Hp.
  destruct (Chain.import_produced_block _ _ _ c1) as [[r| |] c2] eqn:Hi; simplify_eq.
  split_and!; [done..|]. unfold Chain.import_produced_block, Chain.import_block_impl in Hi.
  inv_ok_step.
  match goal with H : Chain.process_block _ _ _ _ = _ |- _ => apply process_verified in H end.
  done.
Qed.

(** C39: At an epoch boundary the chain goes on only if the election keeps the
    leader.  A node finds out whose turn it is from the validator set of the old
    epoch, but its block is verified against the set elected for the new one: the
    block that opens an epoch can only be produced if the leader of its slot is
    the same validator in both sets. If it is not, no key produces an acceptable
    block, and no later block can rotate the set. *)
Theorem boundary_leader_survives validator_addr sign gas now now' c pool b c' pool' head epoch :
  Producer.try_produce_block (E:=ChainError) validator_addr sign gas now now' (c, pool)
    = (Ok (Some b), (c', pool')) →
  Chain.head c = Some head →
  let e := ch_consensus c in
  let vs := ch_validator_set c in
  let n := wrap 64 (bh_number head + 1) in
  Engine.epoch_for_block (E:=ChainError) e n = Ok epoch → vs_epoch vs < epoch →
  let txs := Pool.select_transactions pool MAX_BLOCK_TXS (Producer.pool_nonces pool (ch_state c)) in
  let executed := ch_state (Producer.execute_own (E:=ChainError) txs gas n now
                              (bh_chain_id head) validator_addr c).2 in
  let vs' := Engine.elect_validators e (Chain.close_epoch (E:=Empty_set) (ce_params e) vs executed).2 epoch in
  ∃ v w, Engine.block_producer e vs n = Ok v ∧ Engine.block_producer e vs' n = Ok w
    ∧ vi_address v = validator_addr ∧ vi_address w = validator_addr.
Proof.
  intros Ht Hd e vs n He Hlt txs executed vs'.
  unfold Producer.try_produce_block in Ht. rewrite Hd in Ht. cbv zeta in Ht. fold n e vs in Ht.
  destruct (Engine.block_producer e vs n) as [v| |] eqn:Hv; [|done..].
  case_bool_decide as Ha; [|done]. cbn [negb] in Ht. fold txs in Ht.
  destruct (Producer.produce _ _ _ _ _ _ _ _ c) as [[[b1|]| |] c1] eqn:Hp; simplify_eq.
  apply produce_verified in Hp as (Hn & Hval & parent & epoch' & c2 & He' & Hrot & Hver).
  fold e in He'. rewrite He in He'. injection He' as <-.
  destruct (rotate_epoch_set _ _ _ _ Hrot Hlt) as [Hvs' Hce].
  rewrite Hce, Hvs' in Hver. apply verify_header_Ok in Hver.
  destruct Hver as (HL & _ & _ & _ & _ & Hslot & w & Hw & Haw & _).
  exists v, w. split_and!; [done| |done|congruence].
  apply block_producer_Ok. rewrite Hslot, Hn in Hw. by split.
Qed.
End boundary.
