(* ===== verification/ChainDemo.v ===== *)
(** * A concrete chain

    The built-in networks on a small environment: genesis, production and import
    of blocks, and the instances of the chain's theorems there. *)

From S2P Require Import Prelude Primitives Storage Assets Oracle StateDB Codecs Snapshot Restart.
From S2P Require Import Consensus ExecStaking TxCodec TxPool Executor ExecCodecs Chain ChainProps.
From S2P Require Import ChainResume Genesis GenesisProps Producer.

#[global] Instance PublicKey_countable : Countable PublicKey.
Proof. refine (inj_countable' public_key_bytes MkPublicKey _). by intros []. Defined.

#[global] Instance SignedTransaction_eq_dec : EqDecision SignedTransaction.
Proof. solve_decision. Defined.
#[global] Instance SignedTransaction_countable : Countable SignedTransaction.
Proof.
  refine (inj_countable' (λ t, (tx_payload t, tx_signature t, tx_public_key t))
    (λ '(p, s, k), MkSignedTransaction p s k) _).
  by intros [].
Defined.

#[global] Instance BlockRecord_eq_dec : EqDecision Block.
Proof. solve_decision. Defined.
#[global] Instance BlockRecord_countable : Countable Block.
Proof.
  refine (inj_countable' (λ b, (bl_header b, bl_transactions b)) (λ '(h, txs), MkBlock h txs) _).
  by intros [].
Defined.

#[global] Instance Log_eq_dec : EqDecision Log.
Proof. solve_decision. Defined.
#[global] Instance Log_countable : Countable Log.
Proof.
  refine (inj_countable' (λ l, (log_address l, log_topics l, log_data l))
    (λ '(a, t, d), {| log_address := a; log_topics := t; log_data := d |}) _).
  by intros [].
Defined.

#[global] Instance TransactionReceipt_eq_dec : EqDecision TransactionReceipt.
Proof. solve_decision. Defined.
#[global] Instance TransactionReceipt_countable : Countable TransactionReceipt.
Proof.
  refine (inj_countable' (λ r, (rc_tx_hash r, rc_success r, rc_gas_used r, rc_logs r))
    (λ '(h, s, g, l), MkTransactionReceipt h s g l) _).
  by intros [].
Defined.

(** The demonstration environment with a hash that tells blocks apart. *)
Definition demo_rolling_env : Env :=
  {| env_crypto := rolling_crypto; env_hash_iter := key_order_iter; env_codec := demo_codec |}.

Definition demo_chain_env : ChainEnv := {|
  ce_tx := demo_tx_env_of demo_rolling_env;
  ce_block := countable_borsh _;
  ce_receipt := countable_borsh _;
  ce_legacy_unbonding := countable_borsh _;
|}.

#[local] Existing Instance demo_chain_env.

(** A network of one validator with epochs of the given length. *)
Definition demo_engine (epoch : Z) : ConsensusEngine :=
  MkConsensusEngine (with_network 1 epoch Address_ZERO ConsensusParams_default).

Definition demo_validator : Address := demo_address 1.

(** A first state and a first block in which only this validator exists. *)
Definition demo_genesis : Block * StateDB :=
  let stake := Amount.from_vtt 100000 in
  let s := State.put_account demo_validator
    ((Account.with_balance 1000) <| ac_staking := Some (MkStakingState stake stake 500 true [] []) |>)
    StateDB_new in
  let '(root, s) := Snapshot.compute_state_root s in
  let config := MkGenesisConfig relay_default 1000 [] [MkGenesisValidator demo_validator stake 500] in
  (MkBlock (Genesis.genesis_header config root) [], s).

Definition demo_init (epoch : Z) : res ChainError H256 * Chain :=
  Chain.init_genesis demo_genesis.1 demo_genesis.2 (Chain.new (demo_engine epoch) GasConfig_default).

Definition demo_chain : Chain := Eval vm_compute in (demo_init 100).2.

Definition demo_sign (b : bytes) : Signature := MkSignature b.

(** The first block after genesis. *)
Definition demo_production (c : Chain) : res ChainError (option Block) * (Chain * TxPool) :=
  Producer.try_produce_block demo_validator demo_sign GasConfig_default 2000 2000
    (c, Pool.new TxPoolConfig_default).

Definition produced (r : res ChainError (option Block) * (Chain * TxPool)) : Block :=
  match r.1 with
  | Ok (Some b) => b
  | _ => demo_genesis.1
  end.

Definition demo_block : Block := Eval vm_compute in produced (demo_production demo_chain).

(** A produced block is accepted by a node with the same chain. *)
Example demo_block_imported :
  match Chain.import_block 2000 demo_block demo_chain with
  | (Ok r, c') => ir_is_new_head r = true ∧ Chain.height c' = Some 1
  | _ => False
  end.
Proof. vm_compute. split; reflexivity. Qed.

Definition demo_hash0 : H256 := Chain.block_hash (bl_header demo_genesis.1).

Lemma demo_init_run : demo_init 100 = (Ok demo_hash0, demo_chain).
Proof. apply injective_projections; vm_compute; reflexivity. Qed.

Lemma demo_empty : empty_index (Chain.new (demo_engine 100) GasConfig_default).
Proof. done. Qed.

Lemma demo_genesis_block : genesis_block demo_genesis.1.
Proof. unfold genesis_block. split_and!; vm_compute; reflexivity. Qed.

Lemma demo_chain_wf : well_formed demo_chain.
Proof. apply (init_genesis_well_formed _ _ _ _ _ demo_empty demo_genesis_block demo_init_run). Qed.

(** Import of the block, twice, and finalization. *)
Definition demo_ops : list ChainOp :=
  [ImportBlock 2000 demo_block; ImportBlock 2000 demo_block; FinalizeTo 1].

Lemma chain_well_formed_witness :
  let c' := run_ops demo_ops demo_chain in
  well_formed c' ∧ Chain.get_canonical_hash c' 0 = Some demo_hash0.
Proof.
  destruct (chain_well_formed _ _ _ _ _ demo_ops demo_empty demo_genesis_block
    ltac:(vm_compute; discriminate) demo_init_run ltac:(vm_compute; reflexivity)) as (Hwf & H0 & _).
  split; assumption.
Defined.

Lemma finalized_prefix_immutable_witness :
  Chain.get_canonical_hash (run_ops demo_ops demo_chain) 0 = Some demo_hash0.
Proof.
  assert (Hg : Chain.get_canonical_hash demo_chain 0 = Some demo_hash0) by (vm_compute; reflexivity).
  rewrite <- Hg.
  apply (finalized_prefix_immutable demo_chain demo_ops 0 demo_chain_wf
    ltac:(vm_compute; reflexivity) ltac:(split; vm_compute; discriminate)).
Defined.

(** The node hears that block 1 is final before it has imported it. *)
Lemma finalized_above_head_halts_witness :
  let c := Chain.set_finalized_block 1 demo_chain in
  Chain.height (run_ops [ImportBlock 2000 demo_block] c) = Some 0.
Proof.
  intros c. assert (Hwf : well_formed c).
  { exact (ad_wf _ _ (proj1 (run_op_advances demo_chain (FinalizeTo 1) demo_chain_wf
      ltac:(vm_compute; reflexivity)))). }
  apply (finalized_above_head_halts c 0 [ImportBlock 2000 demo_block] Hwf
    ltac:(vm_compute; reflexivity) ltac:(vm_compute; reflexivity)).
Defined.

Definition demo_parent : BlockHeader := bl_header demo_genesis.1.

Lemma downtime_never_tracked_witness :
  Chain.track_downtime (E:=ChainError) (bl_header demo_block) demo_parent demo_chain
  = (Ok tt, demo_chain).
Proof.
  apply (downtime_never_tracked demo_chain (bl_header demo_block) demo_parent
    (ch_validator_set demo_chain) demo_chain_wf ltac:(vm_compute; reflexivity)
    ltac:(split; vm_compute; (reflexivity || discriminate)) ltac:(vm_compute; reflexivity)
    ltac:(vm_compute; reflexivity)).
Defined.

(** The block with another state root. *)
Definition demo_forged : Block :=
  let h := bl_header demo_block in
  MkBlock (MkBlockHeader (bh_version h) (bh_chain_id h) (bh_number h) (bh_parent_hash h)
    (bh_transactions_root h) H256_ZERO (bh_receipts_root h) (bh_validator h) (bh_epoch h) (bh_slot h)
    (bh_timestamp h) (bh_gas_limit h) (bh_gas_used h) (bh_cross_chain_root h) (bh_signature h)) [].

Lemma rejected_block_rolled_back_witness :
  let c' := (Chain.import_block 2000 demo_forged demo_chain).2 in
  ch_headers c' = ch_headers demo_chain.
Proof.
  assert (Hr : match (Chain.import_block_impl 2000 demo_forged None demo_chain).1 with
               | Err _ => True | _ => False end) by (vm_compute; exact I).
  unfold Chain.import_block.
  destruct (Chain.import_block_impl 2000 demo_forged None demo_chain) as [[r|e|] c'] eqn:Hrun;
    [destruct Hr| |destruct Hr].
  exact (si_headers _ _ (proj1 (rejected_block_rolled_back _ _ _ _ _ _ Hrun))).
Defined.

Lemma signatures_never_checked_witness :
  match Chain.import_block 2000 (resign Signature_ZERO demo_block) demo_chain with
  | (Ok _, _) => True
  | _ => False
  end.
Proof.
  assert (Hvs : ch_validator_set demo_chain = Engine.elect_validators (demo_engine 100)
    demo_genesis.2 0) by (vm_compute; reflexivity).
  assert (Hr : match (Chain.import_block 2000 demo_block demo_chain).1 with
               | Ok _ => True | _ => False end) by (vm_compute; exact I).
  destruct (Chain.import_block 2000 demo_block demo_chain) as [[r|e|] c'] eqn:Hrun;
    [|destruct Hr..].
  destruct (signatures_never_checked _ _ Signature_ZERO _ _ _ _ _ _ Hvs Hrun) as (c'' & Hrun' & _).
  rewrite Hrun'. exact I.
Defined.

(** A node that has imported the block, and a node that starts with the two
    headers in its store. *)
Definition demo_ahead : Chain := Eval vm_compute in run_ops [ImportBlock 2000 demo_block] demo_chain.

Definition demo_restarted : Chain :=
  let put h := Kv.put BlockHeaders (h256_bytes (Chain.block_hash h)) (to_vec h) in
  let st := put (bl_header demo_block) (put (bl_header demo_genesis.1) Kv.new) in
  MkChain ∅ ∅ ∅ None (StateDB_new <| db_storage := Some st |>) (demo_engine 100)
    GasConfig_default (VSet.empty 0) true 0 None.

Lemma demo_ahead_wf : well_formed demo_ahead.
Proof.
  assert (Hr : demo_ahead = run_ops [ImportBlock 2000 demo_block] demo_chain) by (vm_compute; reflexivity).
  rewrite Hr. apply (run_ops_advance _ _ demo_chain_wf). vm_compute. reflexivity.
Qed.

Lemma resume_rebuilds_branch_witness :
  ∃ c', Chain.load_back (Chain.load_fuel demo_restarted) (Chain.block_hash (bl_header demo_block))
          demo_restarted = Some c'
    ∧ Chain.get_canonical_hash c' 0 = Some demo_hash0.
Proof.
  assert (Hst : map_Forall (λ k h, Chain.stored_header demo_restarted k = Some h) (ch_headers demo_ahead))
    by (apply (bool_decide_eq_true_1 _); vm_compute; reflexivity).
  assert (Hh : ch_head_hash demo_ahead = Some (Chain.block_hash (bl_header demo_block)))
    by (vm_compute; reflexivity).
  assert (Hn : Chain.height demo_ahead = Some 1) by (vm_compute; reflexivity).
  assert (He : empty_index demo_restarted) by (unfold empty_index; split_and!; reflexivity).
  destruct (resume_rebuilds_branch demo_ahead (Chain.block_hash (bl_header demo_block)) 1 demo_restarted
    demo_ahead_wf Hh Hn He Hst) as (c' & Hc & Hcan & _).
  exists c'. split; [exact Hc|]. apply Hcan. split; [lia|]. vm_compute. reflexivity.
Defined.

(** Epochs of one block: every block is at a boundary. *)
Definition demo_short : Chain := Eval vm_compute in (demo_init 1).2.

Lemma boundary_leader_survives_witness :
  ∃ v, Engine.block_producer (ch_consensus demo_short) (ch_validator_set demo_short) 1 = Ok v
    ∧ vi_address v = demo_validator.
Proof.
  assert (Hr : match (demo_production demo_short).1 with Ok (Some _) => True | _ => False end)
    by (vm_compute; exact I).
  unfold demo_production in Hr.
  destruct (Producer.try_produce_block demo_validator demo_sign GasConfig_default 2000 2000
    (demo_short, Pool.new TxPoolConfig_default)) as [[[b|]|e|] [c' pool']] eqn:Hrun; [|destruct Hr..].
  destruct (boundary_leader_survives _ _ _ _ _ _ _ _ _ _ (bl_header demo_genesis.1) 1 Hrun
    ltac:(vm_compute; reflexivity) ltac:(vm_compute; reflexivity) ltac:(vm_compute; reflexivity))
    as (v & w & Hv & _ & Ha & _).
  exists v. split; [exact Hv|exact Ha].
Defined.

(** A second validator has overtaken the first one before the epoch ends. *)
Definition demo_overtaken : Chain :=
  let stake := Amount.from_vtt 200000 in
  demo_short <| ch_state := State.put_account (demo_address 2)
    ((Account.with_balance 0) <| ac_staking := Some (MkStakingState stake stake 500 true [] []) |>)
    (ch_state demo_short) |>.

(** The block that opens the epoch can then be produced by neither of them, and
    the attempt of the old leader leaves its rewards in its state. *)
Example epoch_change_stalls :
  let attempt (a : Address) := Producer.try_produce_block (E:=ChainError) a demo_sign GasConfig_default
    2000 2000 (demo_overtaken, Pool.new TxPoolConfig_default) in
  (attempt demo_validator).1 = Ok None ∧ (attempt (demo_address 2)).1 = Ok None
  ∧ State.get_balance (ch_state demo_overtaken) demo_validator = 1000
  ∧ (1000 <? State.get_balance (ch_state (attempt demo_validator).2.1) demo_validator) = true.
Proof. split_and!; vm_compute; reflexivity. Qed.
