(* ===== verification/BridgeEvm.v ===== *)
(** * The bridge contracts ([bridge-evm/src])

    The wrapped token and the bridge as Solidity contracts: a function is a
    computation over the world that may revert, with [msg.sender] and
    [block.timestamp] as arguments; arithmetic is checked ([Panic] on overflow)
    and a transaction that reverts changes nothing.  Keccak, the deployed
    addresses and the USDT contract are parameters. *)

From S2P Require Import Prelude Primitives RustStr.

(** ** State *)

Record Wvtt := MkWvtt {
  wv_totalSupply : Z;
  wv_balanceOf : gmap Address Z;
  wv_allowance : gmap (Address * Address) Z;
  wv_bridge : Address;
  wv_owner : Address;
}.

Definition Wvtt_eta (w : Wvtt) : Wvtt :=
  MkWvtt (wv_totalSupply w) (wv_balanceOf w) (wv_allowance w) (wv_bridge w) (wv_owner w).

#[global] Instance upd_wv_totalSupply : Updater wv_totalSupply.
Proof. derive_updater Wvtt_eta. Defined.
#[global] Instance upd_wv_balanceOf : Updater wv_balanceOf.
Proof. derive_updater Wvtt_eta. Defined.
#[global] Instance upd_wv_allowance : Updater wv_allowance.
Proof. derive_updater Wvtt_eta. Defined.
#[global] Instance upd_wv_bridge : Updater wv_bridge.
Proof. derive_updater Wvtt_eta. Defined.
#[global] Instance upd_wv_owner : Updater wv_owner.
Proof. derive_updater Wvtt_eta. Defined.

Record TimelockAction := MkTimelockAction { tl_executeAfter : Z; tl_executed : bool }.

Record VTTBridge := MkVTTBridge {
  br_relayer : Address;
  br_owner : Address;
  br_protocolFeeBps : Z;
  br_collectedFeesWVTT : Z;
  br_collectedFeesUSDT : Z;
  br_paused : bool;
  br_processedWithdrawals : gset H256;
  br_depositNonce : Z;
  br_timelockActions : gmap H256 TimelockAction;
}.

Definition VTTBridge_eta (b : VTTBridge) : VTTBridge :=
  MkVTTBridge (br_relayer b) (br_owner b) (br_protocolFeeBps b) (br_collectedFeesWVTT b)
    (br_collectedFeesUSDT b) (br_paused b) (br_processedWithdrawals b) (br_depositNonce b)
    (br_timelockActions b).

#[global] Instance upd_br_relayer : Updater br_relayer.
Proof. derive_updater VTTBridge_eta. Defined.
#[global] Instance upd_br_owner : Updater br_owner.
Proof. derive_updater VTTBridge_eta. Defined.
#[global] Instance upd_br_protocolFeeBps : Updater br_protocolFeeBps.
Proof. derive_updater VTTBridge_eta. Defined.
#[global] Instance upd_br_collectedFeesWVTT : Updater br_collectedFeesWVTT.
Proof. derive_updater VTTBridge_eta. Defined.
#[global] Instance upd_br_collectedFeesUSDT : Updater br_collectedFeesUSDT.
Proof. derive_updater VTTBridge_eta. Defined.
#[global] Instance upd_br_paused : Updater br_paused.
Proof. derive_updater VTTBridge_eta. Defined.
#[global] Instance upd_br_processedWithdrawals : Updater br_processedWithdrawals.
Proof. derive_updater VTTBridge_eta. Defined.
#[global] Instance upd_br_depositNonce : Updater br_depositNonce.
Proof. derive_updater VTTBridge_eta. Defined.
#[global] Instance upd_br_timelockActions : Updater br_timelockActions.
Proof. derive_updater VTTBridge_eta. Defined.

Inductive EvmEvent :=
  | Transfer (from to : Address) (amount : Z)
  | Approval (owner spender : Address) (amount : Z)
  | BridgeUpdated (oldBridge newBridge : Address)
  | OwnershipTransferred (previousOwner newOwner : Address)
  | Deposit (nonce : Z) (sender token : Address) (amount fee : Z) (vttDestination : H256)
  | Release (vttTxHash : H256) (recipient token : Address) (amount : Z)
  | RelayerUpdated (newRelayer : Address)
  | FeeUpdated (oldFee newFee : Z)
  | FeesWithdrawn (to : Address) (wvttAmount usdtAmount : Z)
  | Paused (by_ : Address)
  | Unpaused (by_ : Address)
  | TimelockQueued (actionHash : H256) (executeAfter : Z)
  | TimelockExecuted (actionHash : H256).

(** Keccak, the addresses of the three contracts, and the USDT contract, whose
    calls may revert ([None]). *)
Class Evm : Type := {
  keccak256 : bytes → H256;
  bridge_address : Address;
  wvtt_address : Address;
  usdt_address : Address;
  UsdtState : Type;
  usdt_balanceOf : Address → UsdtState → Z;
  usdt_transfer : Address → Address → Z → UsdtState → option (bool * UsdtState);
  usdt_transferFrom : Address → Address → Address → Z → UsdtState → option (bool * UsdtState);
}.

Definition TIMELOCK_DELAY : Z := 2 * 24 * 60 * 60.

Section with_evm.
Context `{!Evm}.

(** The logs carry the timestamp of their block. *)
Record World := MkWorld {
  w_wvtt : Wvtt;
  w_bridge : VTTBridge;
  w_usdt : UsdtState;
  w_logs : list (Z * EvmEvent);
}.

Definition World_eta (w : World) : World := MkWorld (w_wvtt w) (w_bridge w) (w_usdt w) (w_logs w).

#[global] Instance upd_w_wvtt : Updater w_wvtt.
Proof. derive_updater World_eta. Defined.
#[global] Instance upd_w_bridge : Updater w_bridge.
Proof. derive_updater World_eta. Defined.
#[global] Instance upd_w_usdt : Updater w_usdt.
Proof. derive_updater World_eta. Defined.
#[global] Instance upd_w_logs : Updater w_logs.
Proof. derive_updater World_eta. Defined.

Abbreviation Sol := (M World string).

Definition require (b : bool) (msg : string) : Sol unit := fail_if (negb b) msg.

(** Checked arithmetic of [uint256]. *)
Definition add256 (a b : Z) : Sol Z := lift (expect (checked_add 256 a b)).
Definition sub256 (a b : Z) : Sol Z := lift (expect (checked_sub a b)).
Definition mul256 (a b : Z) : Sol Z := lift (expect (checked_mul 256 a b)).

Definition emit (now : Z) (e : EvmEvent) : Sol unit := modify (λ w, w <| w_logs := w_logs w ++ [(now, e)] |>).

(** A mapping reads as zero where nothing was written. *)
Definition entry {K} `{Countable K} (m : gmap K Z) (k : K) : Z := default 0 (m !! k).

(** ** The wrapped token ([WVTT.sol]) *)

Definition set_wvtt (f : Wvtt → Wvtt) : Sol unit := modify (λ w, w <| w_wvtt := f (w_wvtt w) |>).
Definition wvtt_ {A} (f : Wvtt → A) : Sol A := gets (λ w, f (w_wvtt w)).
Definition set_balance (a : Address) (v : Z) : Sol unit :=
  set_wvtt (λ t, t <| wv_balanceOf := <[a := v]> (wv_balanceOf t) |>).

Definition wvtt_onlyBridge (sender : Address) : Sol unit :=
  bridge ← wvtt_ wv_bridge;
  require (bool_decide (sender = bridge)) "WVTT: caller is not the bridge".

Definition wvtt_onlyOwner (sender : Address) : Sol unit :=
  owner ← wvtt_ wv_owner;
  require (bool_decide (sender = owner)) "WVTT: caller is not the owner".

Definition wvtt_constructor (sender bridge : Address) : Wvtt := MkWvtt 0 ∅ ∅ bridge sender.

Definition setBridge (sender : Address) (now : Z) (bridge : Address) : Sol unit :=
  _ ← wvtt_onlyOwner sender;
  old ← wvtt_ wv_bridge;
  _ ← emit now (BridgeUpdated old bridge);
  set_wvtt (λ t, t <| wv_bridge := bridge |>).

Definition wvtt_transferOwnership (sender : Address) (now : Z) (newOwner : Address) : Sol unit :=
  _ ← wvtt_onlyOwner sender;
  _ ← require (bool_decide (newOwner ≠ Address_ZERO)) "WVTT: zero address";
  old ← wvtt_ wv_owner;
  _ ← emit now (OwnershipTransferred old newOwner);
  set_wvtt (λ t, t <| wv_owner := newOwner |>).

Definition mint (sender : Address) (now : Z) (to : Address) (amount : Z) : Sol unit :=
  _ ← wvtt_onlyBridge sender;
  supply ← wvtt_ wv_totalSupply;
  supply' ← add256 supply amount;
  _ ← set_wvtt (λ t, t <| wv_totalSupply := supply' |>);
  balance ← wvtt_ (λ t, entry (wv_balanceOf t) to);
  balance' ← add256 balance amount;
  _ ← set_balance to balance';
  emit now (Transfer Address_ZERO to amount).

Definition burn (sender : Address) (now : Z) (from : Address) (amount : Z) : Sol unit :=
  _ ← wvtt_onlyBridge sender;
  balance ← wvtt_ (λ t, entry (wv_balanceOf t) from);
  _ ← require (amount <=? balance) "WVTT: insufficient balance";
  balance' ← sub256 balance amount;
  _ ← set_balance from balance';
  supply ← wvtt_ wv_totalSupply;
  supply' ← sub256 supply amount;
  _ ← set_wvtt (λ t, t <| wv_totalSupply := supply' |>);
  emit now (Transfer from Address_ZERO amount).

(** [balanceOf[from] -= amount; balanceOf[to] += amount]. *)
Definition move (from to : Address) (amount : Z) : Sol unit :=
  balance ← wvtt_ (λ t, entry (wv_balanceOf t) from);
  balance' ← sub256 balance amount;
  _ ← set_balance from balance';
  balance ← wvtt_ (λ t, entry (wv_balanceOf t) to);
  balance' ← add256 balance amount;
  set_balance to balance'.

Definition wvtt_transfer (sender : Address) (now : Z) (to : Address) (amount : Z) : Sol bool :=
  balance ← wvtt_ (λ t, entry (wv_balanceOf t) sender);
  _ ← require (amount <=? balance) "WVTT: insufficient balance";
  _ ← move sender to amount;
  _ ← emit now (Transfer sender to amount);
  mret true.

Definition wvtt_approve (sender : Address) (now : Z) (spender : Address) (amount : Z) : Sol bool :=
  _ ← set_wvtt (λ t, t <| wv_allowance := <[(sender, spender) := amount]> (wv_allowance t) |>);
  _ ← emit now (Approval sender spender amount);
  mret true.

Definition wvtt_transferFrom (sender : Address) (now : Z) (from to : Address) (amount : Z) : Sol bool :=
  balance ← wvtt_ (λ t, entry (wv_balanceOf t) from);
  _ ← require (amount <=? balance) "WVTT: insufficient balance";
  allowed ← wvtt_ (λ t, entry (wv_allowance t) (from, sender));
  _ ← require (amount <=? allowed) "WVTT: insufficient allowance";
  allowed' ← sub256 allowed amount;
  _ ← set_wvtt (λ t, t <| wv_allowance := <[(from, sender) := allowed']> (wv_allowance t) |>);
  _ ← move from to amount;
  _ ← emit now (Transfer from to amount);
  mret true.

(** ** The bridge ([VTTBridge.sol]) *)

Definition set_bridge (f : VTTBridge → VTTBridge) : Sol unit := modify (λ w, w <| w_bridge := f (w_bridge w) |>).
Definition bridge_ {A} (f : VTTBridge → A) : Sol A := gets (λ w, f (w_bridge w)).

Definition bridge_constructor (sender relayer : Address) (feeBps : Z) : VTTBridge :=
  MkVTTBridge relayer sender feeBps 0 0 false ∅ 0 ∅.

Definition onlyRelayer (sender : Address) : Sol unit :=
  relayer ← bridge_ br_relayer;
  require (bool_decide (sender = relayer)) "Bridge: not relayer".

Definition onlyOwner (sender : Address) : Sol unit :=
  owner ← bridge_ br_owner;
  require (bool_decide (sender = owner)) "Bridge: not owner".

Definition whenNotPaused : Sol unit :=
  paused ← bridge_ br_paused;
  require (negb paused) "Bridge: paused".

Definition pause (sender : Address) (now : Z) : Sol unit :=
  _ ← onlyOwner sender;
  _ ← set_bridge (λ b, b <| br_paused := true |>);
  emit now (Paused sender).

Definition unpause (sender : Address) (now : Z) : Sol unit :=
  _ ← onlyOwner sender;
  _ ← set_bridge (λ b, b <| br_paused := false |>);
  emit now (Unpaused sender).

(** The fee and what is left of the amount. *)
Definition deposit_fee (amount : Z) : Sol (Z * Z) :=
  bps ← bridge_ br_protocolFeeBps;
  product ← mul256 amount bps;
  let fee := product / 10000 in
  net ← sub256 amount fee;
  mret (fee, net).

Definition next_nonce : Sol Z :=
  nonce ← bridge_ br_depositNonce;
  nonce' ← add256 nonce 1;
  _ ← set_bridge (λ b, b <| br_depositNonce := nonce' |>);
  mret nonce'.

Definition depositWVTT (sender : Address) (now : Z) (amount : Z) (vttDestination : H256) : Sol unit :=
  _ ← whenNotPaused;
  _ ← require (0 <? amount) "Bridge: zero amount";
  '(fee, net) ← deposit_fee amount;
  _ ← burn bridge_address now sender amount;
  _ ← (if 0 <? fee then
         fees ← bridge_ br_collectedFeesWVTT;
         fees' ← add256 fees fee;
         set_bridge (λ b, b <| br_collectedFeesWVTT := fees' |>)
       else mret tt);
  nonce ← next_nonce;
  emit now (Deposit nonce sender Address_ZERO net fee vttDestination).

(** A call of the USDT contract that must return true. *)
Definition usdt_call (f : UsdtState → option (bool * UsdtState)) : Sol unit :=
  r ← gets (λ w, f (w_usdt w));
  '(ok, u) ← lift (expect r);
  _ ← modify (λ w, w <| w_usdt := u |>);
  require ok "Bridge: USDT transfer failed".

Definition depositUSDT (sender : Address) (now : Z) (amount : Z) (vttDestination : H256) : Sol unit :=
  _ ← whenNotPaused;
  _ ← require (0 <? amount) "Bridge: zero amount";
  '(fee, net) ← deposit_fee amount;
  _ ← usdt_call (usdt_transferFrom bridge_address sender bridge_address amount);
  _ ← (if 0 <? fee then
         fees ← bridge_ br_collectedFeesUSDT;
         fees' ← add256 fees fee;
         set_bridge (λ b, b <| br_collectedFeesUSDT := fees' |>)
       else mret tt);
  nonce ← next_nonce;
  emit now (Deposit nonce sender usdt_address net fee vttDestination).

Definition releaseWVTT (sender : Address) (now : Z) (vttTxHash : H256) (recipient : Address)
    (amount : Z) : Sol unit :=
  _ ← onlyRelayer sender;
  _ ← whenNotPaused;
  processed ← bridge_ br_processedWithdrawals;
  _ ← require (bool_decide (vttTxHash ∉ processed)) "Bridge: already processed";
  _ ← set_bridge (λ b, b <| br_processedWithdrawals := {[vttTxHash]} ∪ processed |>);
  _ ← mint bridge_address now recipient amount;
  emit now (Release vttTxHash recipient wvtt_address amount).

Definition releaseUSDT (sender : Address) (now : Z) (vttTxHash : H256) (recipient : Address)
    (amount : Z) : Sol unit :=
  _ ← onlyRelayer sender;
  _ ← whenNotPaused;
  processed ← bridge_ br_processedWithdrawals;
  _ ← require (bool_decide (vttTxHash ∉ processed)) "Bridge: already processed";
  reserve ← gets (λ w, usdt_balanceOf bridge_address (w_usdt w));
  _ ← require (amount <=? reserve) "Bridge: insufficient USDT reserve";
  _ ← set_bridge (λ b, b <| br_processedWithdrawals := {[vttTxHash]} ∪ processed |>);
  _ ← usdt_call (usdt_transfer bridge_address recipient amount);
  emit now (Release vttTxHash recipient usdt_address amount).

(** ABI encoding: words of 32 bytes, numbers big-endian and addresses padded on
    the left, a string as its length and its bytes padded on the right. *)
Definition abi_uint (x : Z) : bytes := to_be_bytes 32 x.
Definition abi_address (a : Address) : bytes := zeros 12 +:+ address_bytes a.

(** [keccak256(abi.encode("setRelayer", _relayer))]. *)
Definition setRelayer_hash (relayer : Address) : H256 :=
  keccak256 (abi_uint 64 +:+ abi_address relayer +:+ abi_uint 10 +:+ "setRelayer" +:+ zeros 22).

Definition queueSetRelayer (sender : Address) (now : Z) (relayer : Address) : Sol unit :=
  _ ← onlyOwner sender;
  let hash := setRelayer_hash relayer in
  executeAfter ← add256 now TIMELOCK_DELAY;
  _ ← set_bridge (λ b, b <| br_timelockActions :=
        <[hash := MkTimelockAction executeAfter false]> (br_timelockActions b) |>);
  emit now (TimelockQueued hash executeAfter).

Definition executeSetRelayer (sender : Address) (now : Z) (relayer : Address) : Sol unit :=
  _ ← onlyOwner sender;
  let hash := setRelayer_hash relayer in
  action ← bridge_ (λ b, default (MkTimelockAction 0 false) (br_timelockActions b !! hash));
  _ ← require (0 <? tl_executeAfter action) "Bridge: not queued";
  _ ← require (tl_executeAfter action <=? now) "Bridge: timelock active";
  _ ← require (negb (tl_executed action)) "Bridge: already executed";
  _ ← set_bridge (λ b, b <| br_timelockActions :=
        <[hash := MkTimelockAction (tl_executeAfter action) true]> (br_timelockActions b) |>);
  _ ← set_bridge (λ b, b <| br_relayer := relayer |>);
  _ ← emit now (RelayerUpdated relayer);
  emit now (TimelockExecuted hash).

Definition setFee (sender : Address) (now : Z) (feeBps : Z) : Sol unit :=
  _ ← onlyOwner sender;
  _ ← require (feeBps <=? 500) "Bridge: fee too high";
  old ← bridge_ br_protocolFeeBps;
  _ ← emit now (FeeUpdated old feeBps);
  set_bridge (λ b, b <| br_protocolFeeBps := feeBps |>).

Definition withdrawFees (sender : Address) (now : Z) (to : Address) : Sol unit :=
  _ ← onlyOwner sender;
  _ ← require (bool_decide (to ≠ Address_ZERO)) "Bridge: zero address";
  wvttFees ← bridge_ br_collectedFeesWVTT;
  usdtFees ← bridge_ br_collectedFeesUSDT;
  _ ← (if 0 <? wvttFees then
         _ ← set_bridge (λ b, b <| br_collectedFeesWVTT := 0 |>);
         mint bridge_address now to wvttFees
       else mret tt);
  _ ← (if 0 <? usdtFees then
         _ ← set_bridge (λ b, b <| br_collectedFeesUSDT := 0 |>);
         usdt_call (usdt_transfer bridge_address to usdtFees)
       else mret tt);
  emit now (FeesWithdrawn to wvttFees usdtFees).

Definition transferOwnership (sender newOwner : Address) : Sol unit :=
  _ ← onlyOwner sender;
  _ ← require (bool_decide (newOwner ≠ Address_ZERO)) "Bridge: zero address";
  set_bridge (λ b, b <| br_owner := newOwner |>).

(** ** Transactions *)

(** The external functions of both contracts that can change their state. *)
Inductive EvmCall :=
  | CallSetBridge (bridge : Address)
  | CallWvttTransferOwnership (newOwner : Address)
  | CallMint (to : Address) (amount : Z)
  | CallBurn (from : Address) (amount : Z)
  | CallTransfer (to : Address) (amount : Z)
  | CallApprove (spender : Address) (amount : Z)
  | CallTransferFrom (from to : Address) (amount : Z)
  | CallPause
  | CallUnpause
  | CallDepositWVTT (amount : Z) (vttDestination : H256)
  | CallDepositUSDT (amount : Z) (vttDestination : H256)
  | CallReleaseWVTT (vttTxHash : H256) (recipient : Address) (amount : Z)
  | CallReleaseUSDT (vttTxHash : H256) (recipient : Address) (amount : Z)
  | CallQueueSetRelayer (relayer : Address)
  | CallExecuteSetRelayer (relayer : Address)
  | CallSetFee (feeBps : Z)
  | CallWithdrawFees (to : Address)
  | CallTransferOwnership (newOwner : Address).

Definition dispatch (sender : Address) (now : Z) (c : EvmCall) : Sol unit :=
  match c with
  | CallSetBridge bridge => setBridge sender now bridge
  | CallWvttTransferOwnership newOwner => wvtt_transferOwnership sender now newOwner
  | CallMint to amount => mint sender now to amount
  | CallBurn from amount => burn sender now from amount
  | CallTransfer to amount => _ ← wvtt_transfer sender now to amount; mret tt
  | CallApprove spender amount => _ ← wvtt_approve sender now spender amount; mret tt
  | CallTransferFrom from to amount => _ ← wvtt_transferFrom sender now from to amount; mret tt
  | CallPause => pause sender now
  | CallUnpause => unpause sender now
  | CallDepositWVTT amount dest => depositWVTT sender now amount dest
  | CallDepositUSDT amount dest => depositUSDT sender now amount dest
  | CallReleaseWVTT hash recipient amount => releaseWVTT sender now hash recipient amount
  | CallReleaseUSDT hash recipient amount => releaseUSDT sender now hash recipient amount
  | CallQueueSetRelayer relayer => queueSetRelayer sender now relayer
  | CallExecuteSetRelayer relayer => executeSetRelayer sender now relayer
  | CallSetFee feeBps => setFee sender now feeBps
  | CallWithdrawFees to => withdrawFees sender now to
  | CallTransferOwnership newOwner => transferOwnership sender newOwner
  end.

(** A transaction that reverts changes nothing. *)
Definition transact (sender : Address) (now : Z) (c : EvmCall) (w : World) : World :=
  match dispatch sender now c w with
  | (Ok _, w') => w'
  | _ => w
  end.

(** [script/Deploy.s.sol]: the token with no bridge, the bridge, then
    [setBridge]. *)
Definition deploy (deployer relayer : Address) (feeBps now : Z) (usdt : UsdtState) : World :=
  transact deployer now (CallSetBridge bridge_address)
    (MkWorld (wvtt_constructor deployer Address_ZERO) (bridge_constructor deployer relayer feeBps) usdt []).

End with_evm.
