(* ===== verification/BridgeProps.v ===== *)
(** * What the bridge contracts guarantee *)

From S2P Require Import Prelude Primitives RustStr BridgeEvm.

Section with_evm.
Context `{!Evm}.

(** ** Steps *)

Lemma require_Ok b msg (w w' : World) u : require b msg w = (Ok u, w') ↔ b = true ∧ w' = w.
Proof. unfold require, fail_if. destruct b, u; cbn; naive_solver. Qed.

Lemma add256_Ok a b (w w' : World) x :
  add256 a b w = (Ok x, w') ↔ x = a + b ∧ a + b < 2 ^ 256 ∧ w' = w.
Proof.
  unfold add256. rewrite lift_Ok, expect_Ok, checked_add_Some. naive_solver.
Qed.

Lemma sub256_Ok a b (w w' : World) x : sub256 a b w = (Ok x, w') ↔ x = a - b ∧ b <= a ∧ w' = w.
Proof. unfold sub256. rewrite lift_Ok, expect_Ok, checked_sub_Some. naive_solver. Qed.

Lemma mul256_Ok a b (w w' : World) x :
  mul256 a b w = (Ok x, w') ↔ x = a * b ∧ a * b < 2 ^ 256 ∧ w' = w.
Proof. unfold mul256. rewrite lift_Ok, expect_Ok, checked_mul_Some. naive_solver. Qed.

Ltac inv_sol :=
  repeat first
    [ progress inv_ok
    | match goal with
      | H : require _ _ _ = (Ok _, _) |- _ => apply require_Ok in H as [? ->]
      | H : add256 _ _ _ = (Ok _, _) |- _ => apply add256_Ok in H as (-> & ? & ->)
      | H : sub256 _ _ _ = (Ok _, _) |- _ => apply sub256_Ok in H as (-> & ? & ->)
      | H : mul256 _ _ _ = (Ok _, _) |- _ => apply mul256_Ok in H as (-> & ? & ->)
      | H : bool_decide _ = true |- _ => apply bool_decide_eq_true in H
      | H : (_ <=? _) = true |- _ => apply Z.leb_le in H
      | H : (_ <? _) = true |- _ => apply Z.ltb_lt in H
      end ].

(** ** The token alone *)

(** Balances are not negative and add up to the supply. *)
Record token_ok (t : Wvtt) : Prop := {
  tk_nonneg : ∀ a v, wv_balanceOf t !! a = Some v → 0 <= v;
  tk_supply : map_sumZ (λ _ v, v) (wv_balanceOf t) = wv_totalSupply t;
}.

Lemma entry_nonneg t a : token_ok t → 0 <= entry (wv_balanceOf t) a.
Proof. intros Ht. unfold entry. destruct (_ !! a) as [v|] eqn:Ha; cbn; [by eapply tk_nonneg|lia]. Qed.

Lemma sum_insert (m : gmap Address Z) a v :
  map_sumZ (λ _ v, v) (<[a := v]> m) = map_sumZ (λ _ v, v) m + v - entry m a.
Proof. rewrite map_sumZ_insert. unfold entry. by destruct (m !! a). Qed.

Lemma token_ok_insert t a v supply :
  token_ok t → 0 <= v → supply = wv_totalSupply t + v - entry (wv_balanceOf t) a →
  token_ok (t <| wv_balanceOf := <[a := v]> (wv_balanceOf t) |> <| wv_totalSupply := supply |>).
Proof.
  intros [Hn Hs] Hv ->. split; cbn.
  - intros a' v' [[<- <-]|[? ?]]%lookup_insert_Some; [done|by eapply Hn].
  - rewrite sum_insert. by rewrite Hs.
Qed.

Definition minted (to : Address) (amount : Z) (t : Wvtt) : Wvtt :=
  t <| wv_totalSupply := wv_totalSupply t + amount |>
    <| wv_balanceOf := <[to := entry (wv_balanceOf t) to + amount]> (wv_balanceOf t) |>.

Definition burned (from : Address) (amount : Z) (t : Wvtt) : Wvtt :=
  t <| wv_balanceOf := <[from := entry (wv_balanceOf t) from - amount]> (wv_balanceOf t) |>
    <| wv_totalSupply := wv_totalSupply t - amount |>.

Definition moved (from to : Address) (amount : Z) (t : Wvtt) : Wvtt :=
  let m := <[from := entry (wv_balanceOf t) from - amount]> (wv_balanceOf t) in
  t <| wv_balanceOf := <[to := entry m to + amount]> m |>.

Definition logged (now : Z) (e : EvmEvent) (w : World) : World := w <| w_logs := w_logs w ++ [(now, e)] |>.

Lemma mint_Ok sender now to amount w w' u :
  mint sender now to amount w = (Ok u, w') →
  sender = wv_bridge (w_wvtt w)
  ∧ w' = logged now (Transfer Address_ZERO to amount) (w <| w_wvtt := minted to amount (w_wvtt w) |>).
Proof.
  unfold mint, wvtt_onlyBridge, set_balance, set_wvtt, wvtt_, emit. intros Hrun. inv_sol. done.
Qed.

Lemma burn_Ok sender now from amount w w' u :
  burn sender now from amount w = (Ok u, w') →
  sender = wv_bridge (w_wvtt w) ∧ amount <= entry (wv_balanceOf (w_wvtt w)) from
  ∧ w' = logged now (Transfer from Address_ZERO amount) (w <| w_wvtt := burned from amount (w_wvtt w) |>).
Proof.
  unfold burn, wvtt_onlyBridge, set_balance, set_wvtt, wvtt_, emit. intros Hrun. inv_sol. done.
Qed.

Lemma move_Ok from to amount w w' u :
  move from to amount w = (Ok u, w') →
  amount <= entry (wv_balanceOf (w_wvtt w)) from ∧ w' = w <| w_wvtt := moved from to amount (w_wvtt w) |>.
Proof. unfold move, set_balance, set_wvtt, wvtt_. intros Hrun. inv_sol. done. Qed.

Lemma minted_ok to amount t : 0 <= amount → token_ok t → token_ok (minted to amount t).
Proof.
  intros Ha Ht. pose proof (entry_nonneg t to Ht).
  exact (token_ok_insert t to (entry (wv_balanceOf t) to + amount) (wv_totalSupply t + amount) Ht ltac:(lia) ltac:(lia)).
Qed.

Lemma burned_ok from amount t :
  amount <= entry (wv_balanceOf t) from → token_ok t → token_ok (burned from amount t).
Proof. intros Ha Ht. apply token_ok_insert; [done|lia..]. Qed.

Lemma moved_ok from to amount t :
  0 <= amount <= entry (wv_balanceOf t) from → token_ok t → token_ok (moved from to amount t).
Proof.
  intros Ha Ht. set (t1 := burned from amount t).
  assert (token_ok t1) as H1 by (apply burned_ok; [lia|done]).
  pose proof (entry_nonneg t1 to H1) as He.
  exact (token_ok_insert t1 to (entry (wv_balanceOf t1) to + amount) (wv_totalSupply t) H1 ltac:(lia) ltac:(cbn; lia)).
Qed.

(** ** The books of the bridge *)

(** What the logs record: units sent to the VTT chain, units released to an
    address, the withdrawals served and the deposits numbered. *)
Definition deposited (l : list (Z * EvmEvent)) : Z :=
  list_sumZ (λ e, match e.2 with
                  | Deposit _ _ token amount _ _ => if decide (token = Address_ZERO) then amount else 0
                  | _ => 0
                  end) l.

Definition released (l : list (Z * EvmEvent)) : Z :=
  list_sumZ (λ e, match e.2 with
                  | Release _ _ token amount => if decide (token = wvtt_address) then amount else 0
                  | _ => 0
                  end) l.

Definition release_hashes (l : list (Z * EvmEvent)) : list H256 :=
  omap (λ e, match e.2 with Release h _ _ _ => Some h | _ => None end) l.

Definition deposit_nonces (l : list (Z * EvmEvent)) : list Z :=
  omap (λ e, match e.2 with Deposit n _ _ _ _ _ => Some n | _ => None end) l.

(** The token was never pointed at another bridge: so the logs say. *)
Definition never_repointed (l : list (Z * EvmEvent)) : Prop :=
  ∀ t old new, (t, BridgeUpdated old new) ∈ l → new = bridge_address.

(** The books, when [outside] units were minted, less those burned, by direct calls
    of the token. *)
Record accounts (outside : Z) (w : World) : Prop := {
  ac_bridge : never_repointed (w_logs w) → wv_bridge (w_wvtt w) = bridge_address ∧ outside = 0;
  ac_token : token_ok (w_wvtt w);
  ac_fees : 0 <= br_collectedFeesWVTT (w_bridge w);
  ac_bps : 0 <= br_protocolFeeBps (w_bridge w);
  ac_backed : wv_totalSupply (w_wvtt w) + br_collectedFeesWVTT (w_bridge w) + deposited (w_logs w)
              = released (w_logs w) + outside;
  ac_once : NoDup (release_hashes (w_logs w));
  ac_processed : ∀ h, h ∈ release_hashes (w_logs w) → h ∈ br_processedWithdrawals (w_bridge w);
  ac_nonces : 0 <= br_depositNonce (w_bridge w)
              ∧ deposit_nonces (w_logs w) = seqZ 1 (br_depositNonce (w_bridge w));
}.

(** One step that appends [news] to the logs. *)
Lemma accounts_step outside w w' news :
  accounts outside w → w_logs w' = w_logs w ++ news →
  wv_bridge (w_wvtt w') = wv_bridge (w_wvtt w) → token_ok (w_wvtt w') →
  0 <= br_collectedFeesWVTT (w_bridge w') → 0 <= br_protocolFeeBps (w_bridge w') →
  wv_totalSupply (w_wvtt w') + br_collectedFeesWVTT (w_bridge w') + deposited news
  = wv_totalSupply (w_wvtt w) + br_collectedFeesWVTT (w_bridge w) + released news →
  br_processedWithdrawals (w_bridge w') = list_to_set (release_hashes news) ∪ br_processedWithdrawals (w_bridge w) →
  NoDup (release_hashes news) → (∀ h, h ∈ release_hashes news → h ∉ br_processedWithdrawals (w_bridge w)) →
  br_depositNonce (w_bridge w) <= br_depositNonce (w_bridge w') →
  deposit_nonces news = seqZ (1 + br_depositNonce (w_bridge w))
    (br_depositNonce (w_bridge w') - br_depositNonce (w_bridge w)) →
  accounts outside w'.
Proof.
  intros [Hb Ht Hf Hbps Hbk Ho Hp [Hn0 Hn]] Hl Hb' Ht' Hf' Hbps' Hbk' Hp' Hnd Hnew Hle Hn'.
  split; rewrite ?Hl; [|done|done|done|..].
  - intros Hr. rewrite Hb'. apply Hb. intros t old new Hin. apply (Hr t old), elem_of_app. by left.
  - unfold deposited, released in *. rewrite !list_sumZ_app. lia.
  - unfold release_hashes in *. rewrite omap_app. apply NoDup_app. split_and!; [done| |done].
    intros h Hh Hh'. by apply (Hnew h), Hp.
  - intros h. unfold release_hashes in *. rewrite omap_app, elem_of_app, Hp'. set_solver.
  - split; [lia|]. unfold deposit_nonces in *. rewrite omap_app, Hn, Hn', <- seqZ_app by lia. f_equal. lia.
Qed.

(** A transaction the network accepts: it is not sent from the bridge's address,
    which belongs to a contract, and its numbers are unsigned. *)
Definition admissible (sender : Address) (c : EvmCall) : Prop :=
  sender ≠ bridge_address ∧
  match c with
  | CallMint _ amount | CallBurn _ amount | CallTransfer _ amount | CallTransferFrom _ _ amount
  | CallDepositWVTT amount _ | CallDepositUSDT amount _
  | CallReleaseWVTT _ _ amount | CallReleaseUSDT _ _ amount | CallSetFee amount => 0 <= amount
  | _ => True
  end.

(** What a direct call of the token mints, or with a minus sign burns. *)
Definition minted_outside (sender : Address) (now : Z) (c : EvmCall) (w : World) : Z :=
  match (dispatch sender now c w).1 with
  | Ok _ => match c with CallMint _ amount => amount | CallBurn _ amount => - amount | _ => 0 end
  | _ => 0
  end.

Definition distinct_tokens : Prop := usdt_address ≠ Address_ZERO ∧ usdt_address ≠ wvtt_address.

Ltac unfold_sol :=
  unfold setBridge, wvtt_transferOwnership, wvtt_transfer, wvtt_approve, wvtt_transferFrom, pause, unpause,
    depositWVTT, depositUSDT, releaseWVTT, releaseUSDT, queueSetRelayer, executeSetRelayer, setFee,
    withdrawFees, transferOwnership, wvtt_onlyOwner, onlyOwner, onlyRelayer, whenNotPaused, deposit_fee,
    next_nonce, usdt_call, set_bridge, bridge_, set_wvtt, wvtt_, emit in *.

(** A step that neither mints nor burns, nor logs a deposit or a release. *)
Lemma accounts_quiet outside w w' news :
  accounts outside w → w_logs w' = w_logs w ++ news →
  deposited news = 0 → released news = 0 → release_hashes news = [] → deposit_nonces news = [] →
  wv_bridge (w_wvtt w') = wv_bridge (w_wvtt w) → token_ok (w_wvtt w') →
  wv_totalSupply (w_wvtt w') = wv_totalSupply (w_wvtt w) →
  br_collectedFeesWVTT (w_bridge w') = br_collectedFeesWVTT (w_bridge w) →
  0 <= br_protocolFeeBps (w_bridge w') →
  br_processedWithdrawals (w_bridge w') = br_processedWithdrawals (w_bridge w) →
  br_depositNonce (w_bridge w') = br_depositNonce (w_bridge w) → accounts outside w'.
Proof.
  intros Ha Hl Hd Hr Hh Hn Hb Ht Hs Hf Hbps Hp Hnn. pose proof (ac_fees _ _ Ha).
  apply (accounts_step outside w w' news); rewrite ?Hd, ?Hr, ?Hh, ?Hn, ?Hs, ?Hf, ?Hp, ?Hnn, ?Z.sub_diag; try done.
  - set_solver.
  - constructor.
  - set_solver.
Qed.

Ltac quiet w :=
  eapply (accounts_quiet _ w); [done|first [symmetry; apply app_nil_r | cbn; rewrite <- ?app_assoc; reflexivity]|done|done|done|done|done| |done..].

Lemma admin_accounts outside sender now c w w' u :
  match c with
  | CallWvttTransferOwnership _ | CallApprove _ _ | CallPause | CallUnpause | CallQueueSetRelayer _
  | CallExecuteSetRelayer _ | CallTransferOwnership _ => True
  | _ => False
  end →
  accounts outside w → dispatch sender now c w = (Ok u, w') → accounts outside w'.
Proof.
  intros Hc Ha Hrun. pose proof (ac_bps _ _ Ha). pose proof (ac_token _ _ Ha) as [Hn Hs].
  destruct c; try done; cbn [dispatch] in Hrun; unfold_sol; inv_sol; quiet w; done.
Qed.

Lemma transfer_accounts outside sender now c w w' u :
  match c with CallTransfer _ amount | CallTransferFrom _ _ amount => 0 <= amount | _ => False end →
  accounts outside w → dispatch sender now c w = (Ok u, w') → accounts outside w'.
Proof.
  intros Hc Ha Hrun. pose proof (ac_bps _ _ Ha). pose proof (ac_token _ _ Ha) as Ht.
  destruct c; try done; cbn [dispatch] in Hrun; unfold_sol; inv_sol;
    match goal with Hm : move _ _ _ _ = _ |- _ => apply move_Ok in Hm as [Hle ->] end; cbn in Hle.
  - quiet w. apply moved_ok; [done|exact Ht].
  - quiet w. apply (moved_ok _ _ _ (_ <| wv_allowance := _ |>)); [done|]. by destruct Ht.
Qed.

(** Whoever the token takes for its bridge mints and burns: the books note it. *)
Lemma mint_accounts outside sender now to amount w w' u :
  0 <= amount → sender ≠ bridge_address → accounts outside w →
  mint sender now to amount w = (Ok u, w') → accounts (outside + amount) w'.
Proof.
  intros Hamt Hs Ha Hrun. apply mint_Ok in Hrun as [Heq ->].
  assert (Hl : w_logs w ⊆ w_logs w ++ [(now, Transfer Address_ZERO to amount)]) by set_solver.
  destruct Ha as [Hb Ht Hf Hbps Hbk Ho Hp Hn].
  split; cbn; unfold deposited, released, release_hashes, deposit_nonces in *;
    rewrite ?list_sumZ_app, ?omap_app, ?app_nil_r; cbn; try done.
  - intros Hr. destruct Hb as [Hb _]; [intros t old new Hin; by eapply Hr, Hl|congruence].
  - by apply minted_ok.
  - lia.
Qed.

Lemma burn_accounts outside sender now from amount w w' u :
  sender ≠ bridge_address → accounts outside w →
  burn sender now from amount w = (Ok u, w') → accounts (outside - amount) w'.
Proof.
  intros Hs Ha Hrun. apply burn_Ok in Hrun as (Heq & Hle & ->).
  assert (Hl : w_logs w ⊆ w_logs w ++ [(now, Transfer from Address_ZERO amount)]) by set_solver.
  destruct Ha as [Hb Ht Hf Hbps Hbk Ho Hp Hn].
  split; cbn; unfold deposited, released, release_hashes, deposit_nonces in *;
    rewrite ?list_sumZ_app, ?omap_app, ?app_nil_r; cbn; try done.
  - intros Hr. destruct Hb as [Hb _]; [intros t old new Hin; by eapply Hr, Hl|congruence].
  - by apply burned_ok.
  - lia.
Qed.

(** The owner of the token may point it at any bridge, at any time. *)
Lemma setBridge_accounts outside sender now bridge w w' u :
  accounts outside w → setBridge sender now bridge w = (Ok u, w') → accounts outside w'.
Proof.
  intros [Hb [Hnn Hsum] Hf Hbps Hbk Ho Hp Hn] Hrun. unfold_sol. inv_sol.
  split; cbn; unfold deposited, released, release_hashes, deposit_nonces in *;
    rewrite ?list_sumZ_app, ?omap_app, ?app_nil_r; cbn; try done; [|lia].
  intros Hr. split.
  - eapply Hr, elem_of_app. right. by apply list_elem_of_singleton.
  - apply Hb. intros t old new Hin. eapply Hr, elem_of_app. by left.
Qed.

Lemma setFee_accounts outside sender now feeBps w w' u :
  0 <= feeBps → accounts outside w → setFee sender now feeBps w = (Ok u, w') → accounts outside w'.
Proof.
  intros Hf Ha Hrun. pose proof (ac_token _ _ Ha) as [Hn Hs]. unfold_sol. inv_sol. quiet w. done.
Qed.

Ltac stepped w :=
  eapply (accounts_step _ w); [done|cbn; rewrite <- ?app_assoc; reflexivity|done|..].

Ltac sums := cbn -[Z.add Z.sub Z.mul Z.div seqZ]; repeat case_decide; try congruence; try lia.

(** One deposit more. *)
Lemma one_nonce n : [n + 1] = seqZ (1 + n) (n + 1 - n).
Proof. replace (n + 1 - n) with 1 by lia. by rewrite Z.add_comm. Qed.

Lemma depositWVTT_accounts outside sender now amount dest w w' u :
  0 <= amount → accounts outside w → depositWVTT sender now amount dest w = (Ok u, w') → accounts outside w'.
Proof.
  intros Hamt Ha Hrun. pose proof (ac_bps _ _ Ha) as Hbps. pose proof (ac_fees _ _ Ha) as Hfees.
  unfold depositWVTT in Hrun. unfold_sol. inv_sol.
  all: match goal with Hm : burn _ _ _ _ _ = _ |- _ => apply burn_Ok in Hm as (_ & Hle & ->) end; cbn in *.
  all: assert (0 <= amount * br_protocolFeeBps (w_bridge w) / 10000) as Hfee by (apply Z.div_pos; lia).
  all: revert Hfee; generalize dependent (amount * br_protocolFeeBps (w_bridge w) / 10000); intros fee **.
  all: stepped w; [apply burned_ok; [done|apply Ha]|cbn; lia|done|sums|set_solver|constructor|set_solver|cbn; lia
                  |apply one_nonce].
Qed.

Lemma depositUSDT_accounts outside sender now amount dest w w' u :
  usdt_address ≠ Address_ZERO → 0 <= amount → accounts outside w →
  depositUSDT sender now amount dest w = (Ok u, w') → accounts outside w'.
Proof.
  intros Hz Hamt Ha Hrun. pose proof (ac_bps _ _ Ha) as Hbps. pose proof (ac_fees _ _ Ha) as Hfees.
  unfold_sol. inv_sol.
  all: stepped w; [apply Ha|done|done|sums|set_solver|constructor|set_solver|cbn; lia|apply one_nonce].
Qed.

Lemma releaseWVTT_accounts outside sender now hash recipient amount w w' u :
  0 <= amount → accounts outside w → releaseWVTT sender now hash recipient amount w = (Ok u, w') → accounts outside w'.
Proof.
  intros Hamt Ha Hrun. pose proof (ac_bps _ _ Ha) as Hbps. pose proof (ac_fees _ _ Ha) as Hfees.
  unfold_sol. inv_sol.
  match goal with Hm : mint _ _ _ _ _ = _ |- _ => apply mint_Ok in Hm as (_ & ->) end.
  stepped w; [apply minted_ok; [done|apply Ha]|done|done|sums|cbn; set_solver|apply NoDup_singleton|set_solver
             |cbn; lia|cbn; by rewrite Z.sub_diag].
Qed.

Lemma releaseUSDT_accounts outside sender now hash recipient amount w w' u :
  usdt_address ≠ wvtt_address → accounts outside w →
  releaseUSDT sender now hash recipient amount w = (Ok u, w') → accounts outside w'.
Proof.
  intros Hz Ha Hrun. pose proof (ac_bps _ _ Ha) as Hbps. pose proof (ac_fees _ _ Ha) as Hfees.
  unfold_sol. inv_sol.
  stepped w; [apply Ha|done|done|sums|cbn; set_solver|apply NoDup_singleton|set_solver
             |cbn; lia|cbn; by rewrite Z.sub_diag].
Qed.

Lemma withdrawFees_accounts outside sender now to w w' u :
  accounts outside w → withdrawFees sender now to w = (Ok u, w') → accounts outside w'.
Proof.
  intros Ha Hrun. pose proof (ac_bps _ _ Ha) as Hbps. pose proof (ac_fees _ _ Ha) as Hfees.
  unfold_sol. inv_sol.
  all: repeat match goal with Hm : mint _ _ _ _ _ = _ |- _ => apply mint_Ok in Hm as (_ & ->) end.
  all: stepped w; [first [apply minted_ok; [done|apply Ha]|apply Ha]|done|done|sums|set_solver|constructor|set_solver
                  |cbn; lia|cbn; by rewrite Z.sub_diag].
Qed.

Lemma transact_accounts outside sender now c w :
  distinct_tokens → admissible sender c → accounts outside w →
  accounts (outside + minted_outside sender now c w) (transact sender now c w).
Proof.
  intros [Hu0 Huw] [Hs Hc] Ha. unfold transact, minted_outside.
  destruct (dispatch sender now c w) as [[u| |] w'] eqn:Hrun; cbn [fst].
  2,3: by rewrite Z.add_0_r.
  pose proof (admin_accounts outside sender now c w w' u) as Hadmin.
  pose proof (transfer_accounts outside sender now c w w' u) as Htransfer.
  destruct c; cbn iota; rewrite ?Z.add_0_r; try exact (Hadmin I Ha Hrun); try exact (Htransfer Hc Ha Hrun);
    clear Hadmin Htransfer; cbn [dispatch] in Hrun.
  - by eapply setBridge_accounts.
  - by eapply mint_accounts.
  - rewrite Z.add_opp_r. by eapply burn_accounts.
  - by eapply depositWVTT_accounts.
  - by eapply depositUSDT_accounts.
  - by eapply releaseWVTT_accounts.
  - by eapply releaseUSDT_accounts.
  - by eapply setFee_accounts.
  - by eapply withdrawFees_accounts.
Qed.

(** Every world that follows a deployment: transactions of anybody, in any order,
    while the USDT contract changes as it likes.  [outside] counts what direct
    calls of the token minted and burned. *)
Inductive history : Z → World → Prop :=
  | history_deploy deployer relayer feeBps now usdt :
      0 <= feeBps → history 0 (deploy deployer relayer feeBps now usdt)
  | history_call outside sender now c w :
      history outside w → admissible sender c →
      history (outside + minted_outside sender now c w) (transact sender now c w)
  | history_usdt outside u w : history outside w → history outside (w <| w_usdt := u |>).

Lemma deploy_accounts deployer relayer feeBps now usdt :
  0 <= feeBps → accounts 0 (deploy deployer relayer feeBps now usdt).
Proof.
  intros Hf. unfold deploy, transact. cbn [dispatch]. unfold setBridge, wvtt_onlyOwner, wvtt_, require, fail_if.
  mrun. cbn. rewrite bool_decide_true by done. cbn.
  split; try done; [constructor|by intros h Hh%elem_of_nil].
Qed.

Lemma history_accounts outside w : distinct_tokens → history outside w → accounts outside w.
Proof.
  intros Hd. induction 1 as [|outside sender now c w Hw IH Hc|outside u w Hw IH].
  - by apply deploy_accounts.
  - by apply transact_accounts.
  - by destruct IH.
Qed.

(** C10: Every wrapped unit is accounted for, and no withdrawal is served twice.
    After a deployment and any transactions by anybody, the balances of wVTT add
    up to its supply; supply plus uncollected fees is exactly what was released to
    Ethereum, minus what was sent back to the VTT chain, plus [outside], what
    others than the bridge minted less what they burned; each VTT transaction has
    been released at most once; and deposits are numbered without gaps.  As long
    as the owner of the token has not pointed it at another bridge, which the
    logs would show, [outside] is zero: every unit is backed.  The USDT contract is
    another contract than the token. *)
Theorem bridge_backed outside w :
  distinct_tokens → history outside w →
  map_sumZ (λ _ v, v) (wv_balanceOf (w_wvtt w)) = wv_totalSupply (w_wvtt w)
  ∧ wv_totalSupply (w_wvtt w) + br_collectedFeesWVTT (w_bridge w)
    = released (w_logs w) - deposited (w_logs w) + outside
  ∧ (never_repointed (w_logs w) → outside = 0)
  ∧ NoDup (release_hashes (w_logs w))
  ∧ deposit_nonces (w_logs w) = seqZ 1 (br_depositNonce (w_bridge w)).
Proof.
  intros Hd Hw. destruct (history_accounts outside w Hd Hw) as [Hb [Ht Hs] Hf Hbps Hbk Ho Hp [Hn0 Hn]].
  split_and!; [done|lia|intros Hr; by apply Hb|done|done].
Qed.

(** What a deposit takes and logs. *)
Lemma deposit_logged user now amount dest w w' u :
  depositWVTT user now amount dest w = (Ok u, w') →
  ∃ n net fee, net + fee = amount
    ∧ wv_balanceOf (w_wvtt w') = <[user := entry (wv_balanceOf (w_wvtt w)) user - amount]> (wv_balanceOf (w_wvtt w))
    ∧ amount <= entry (wv_balanceOf (w_wvtt w)) user
    ∧ fee = amount * br_protocolFeeBps (w_bridge w) / 10000
    ∧ w_logs w' = w_logs w ++ [(now, Transfer user Address_ZERO amount);
                               (now, Deposit n user Address_ZERO net fee dest)].
Proof.
  intros Hrun. unfold depositWVTT in Hrun. unfold_sol. inv_sol.
  all: match goal with Hm : burn _ _ _ _ _ = _ |- _ => apply burn_Ok in Hm as (_ & Hle & ->) end; cbn in *.
  all: do 3 eexists; rewrite <- app_assoc; split_and!; [|done|done|reflexivity|reflexivity]; lia.
Qed.

(** ** The time lock *)

(** What a successful call does to the queue of relayer changes. *)
Definition queue_step (sender : Address) (now : Z) (c : EvmCall) (w w' : World) : Prop :=
  (∃ news, w_logs w' = w_logs w ++ news) ∧
  match c with
  | CallQueueSetRelayer r =>
      let h := setRelayer_hash r in let t := now + TIMELOCK_DELAY in
      br_timelockActions (w_bridge w') = <[h := MkTimelockAction t false]> (br_timelockActions (w_bridge w))
      ∧ br_relayer (w_bridge w') = br_relayer (w_bridge w)
      ∧ (now, TimelockQueued h t) ∈ w_logs w'
  | CallExecuteSetRelayer r =>
      let h := setRelayer_hash r in
      ∃ t, br_timelockActions (w_bridge w) !! h = Some (MkTimelockAction t false) ∧ t <= now
         ∧ br_timelockActions (w_bridge w') = <[h := MkTimelockAction t true]> (br_timelockActions (w_bridge w))
         ∧ br_relayer (w_bridge w') = r ∧ sender = br_owner (w_bridge w)
  | _ => br_timelockActions (w_bridge w') = br_timelockActions (w_bridge w)
         ∧ br_relayer (w_bridge w') = br_relayer (w_bridge w)
  end.

Ltac same_queue :=
  split; [first [eexists; symmetry; apply app_nil_r | eexists; cbn; rewrite <- ?app_assoc; reflexivity]|done].

Lemma dispatch_queue sender now c w w' u : dispatch sender now c w = (Ok u, w') → queue_step sender now c w w'.
Proof.
  intros Hrun. destruct c; cbn [dispatch] in Hrun; unfold queue_step.
  3: apply mint_Ok in Hrun as (_ & ->).
  4: apply burn_Ok in Hrun as (_ & _ & ->).
  all: unfold_sol; inv_sol.
  all: repeat match goal with
    | Hm : mint _ _ _ _ _ = _ |- _ => apply mint_Ok in Hm as (_ & ->)
    | Hm : burn _ _ _ _ _ = _ |- _ => apply burn_Ok in Hm as (_ & _ & ->)
    | Hm : move _ _ _ _ = _ |- _ => apply move_Ok in Hm as (_ & ->) end.
  all: try same_queue.
  - split; [eexists; reflexivity|]. split_and!; [done|done|]. apply elem_of_app. right. by apply list_elem_of_here.
  - destruct (br_timelockActions (w_bridge w) !! setRelayer_hash relayer) as [[t done_]|] eqn:Ha; cbn in *; [|lia].
    split; [eexists; rewrite <- app_assoc; reflexivity|]. exists t. by destruct done_.
Qed.

(** Every queued change carries the time at which it was queued. *)
Definition delayed (w : World) : Prop :=
  ∀ h a, br_timelockActions (w_bridge w) !! h = Some a →
    ∃ q, (q, TimelockQueued h (tl_executeAfter a)) ∈ w_logs w ∧ tl_executeAfter a = q + TIMELOCK_DELAY.

Lemma queue_step_delayed sender now c w w' : queue_step sender now c w w' → delayed w → delayed w'.
Proof.
  intros [[news Hl] Hc] Hd h a Ha. rewrite Hl.
  assert (br_timelockActions (w_bridge w) !! h = Some a →
    ∃ q, (q, TimelockQueued h (tl_executeAfter a)) ∈ w_logs w ++ news ∧ tl_executeAfter a = q + TIMELOCK_DELAY) as Hold.
  { intros Hin. destruct (Hd h a Hin) as (q & Hq & ?). exists q. split; [apply elem_of_app; by left|done]. }
  destruct c; try (destruct Hc as [Ht _]; rewrite Ht in Ha; by apply Hold).
  - destruct Hc as (Ht & _ & Hin). rewrite Ht in Ha. rewrite Hl in Hin.
    apply lookup_insert_Some in Ha as [[<- <-]|[_ Ha]]; [by exists now|by apply Hold].
  - destruct Hc as (t & Hq & _ & Ht & _). rewrite Ht in Ha.
    apply lookup_insert_Some in Ha as [[<- <-]|[_ Ha]]; [|by apply Hold].
    destruct (Hd _ _ Hq) as (q & Hin & ?). exists q. split; [apply elem_of_app; by left|done].
Qed.

Lemma transact_delayed sender now c w : delayed w → delayed (transact sender now c w).
Proof.
  intros Hd. unfold transact. destruct (dispatch sender now c w) as [[u| |] w'] eqn:Hrun; [|done..].
  by eapply queue_step_delayed; [eapply dispatch_queue|].
Qed.

Lemma history_delayed outside w : history outside w → delayed w.
Proof.
  induction 1 as [|outside sender now c w Hw IH Hc|outside u w Hw IH]; [|by apply transact_delayed|exact IH].
  unfold deploy. apply transact_delayed. by intros h a Ha.
Qed.

(** The relayer is replaced only by its owner and only two days after the
    replacement was announced.  If a transaction at time [now] changes the
    relayer, it is [executeSetRelayer] for the new relayer by the owner, and the
    logs hold its announcement, made at least [TIMELOCK_DELAY] before. *)
Theorem relayer_change_announced outside sender now c w :
  history outside w →
  br_relayer (w_bridge (transact sender now c w)) ≠ br_relayer (w_bridge w) →
  ∃ r q, c = CallExecuteSetRelayer r ∧ br_relayer (w_bridge (transact sender now c w)) = r
       ∧ sender = br_owner (w_bridge w)
       ∧ (q, TimelockQueued (setRelayer_hash r) (q + TIMELOCK_DELAY)) ∈ w_logs w ∧ q + TIMELOCK_DELAY <= now.
Proof.
  intros Hw. apply history_delayed in Hw. unfold transact.
  destruct (dispatch sender now c w) as [[u| |] w'] eqn:Hrun; [|done..].
  apply dispatch_queue in Hrun as [_ Hq]. intros Hne.
  destruct c; try (by destruct Hq); [by destruct Hq as (_ & ? & _)|].
  destruct Hq as (t & Ht & Hnow & _ & Hr & Hs). destruct (Hw _ _ Ht) as (q & Hin & He). cbn in *.
  exists relayer, q. rewrite <- He. done.
Qed.
End with_evm.

(** ** Examples *)

(** A plain token for USDT. *)
Definition plain_transfer (from to : Address) (amount : Z) (m : gmap Address Z) : option (bool * gmap Address Z) :=
  if amount <=? entry m from then
    let m := <[from := entry m from - amount]> m in
    Some (true, <[to := entry m to + amount]> m)
  else None.

Definition evm_address (n : Z) : Address := MkAddress (to_be_bytes 20 n).

#[local] Instance demo_evm : Evm := {|
  keccak256 := λ s, MkH256 (btake 32 (bdrop 32 s));
  bridge_address := evm_address 1;
  wvtt_address := evm_address 2;
  usdt_address := evm_address 3;
  UsdtState := gmap Address Z;
  usdt_balanceOf := λ a m, entry m a;
  usdt_transfer := plain_transfer;
  usdt_transferFrom := λ _ from to, plain_transfer from to;
|}.

(** Owner 10, relayer 11, user 12 with 5000 USDT, a fee of one percent. *)
Definition demo_world : World := deploy (evm_address 10) (evm_address 11) 100 0 {[ evm_address 12 := 5000 ]}.

Definition play (l : list (Address * Z * EvmCall)) (w : World) : World :=
  foldl (λ w x, transact x.1.1 x.1.2 x.2 w) w l.

(** What direct calls mint along the way. *)
Fixpoint played_outside (l : list (Address * Z * EvmCall)) (w : World) : Z :=
  match l with
  | [] => 0
  | x :: l => minted_outside x.1.1 x.1.2 x.2 w + played_outside l (transact x.1.1 x.1.2 x.2 w)
  end.

Lemma play_history outside l w :
  history outside w → Forall (λ x, admissible x.1.1 x.2) l → history (outside + played_outside l w) (play l w).
Proof.
  revert outside w. induction l as [|x l IH]; intros outside w Hw Hl; cbn [played_outside].
  { by rewrite Z.add_0_r. }
  apply Forall_cons in Hl as [Hx Hl]. rewrite Z.add_assoc. apply IH; [|done]. by apply history_call.
Qed.

Lemma demo_world_history : history 0 demo_world.
Proof. by apply history_deploy. Qed.

(** The user gets 1000 wVTT from the VTT chain and sends 400 back. *)
Definition demo_trip : list (Address * Z * EvmCall) :=
  [(evm_address 11, 1, CallReleaseWVTT (MkH256 "a") (evm_address 12) 1000);
   (evm_address 11, 2, CallReleaseWVTT (MkH256 "a") (evm_address 12) 1000);
   (evm_address 12, 3, CallDepositWVTT 400 (MkH256 "d"))].

Lemma demo_trip_admissible : Forall (λ x, admissible x.1.1 x.2) demo_trip.
Proof. repeat constructor; done. Qed.

Lemma bridge_backed_witness :
  wv_totalSupply (w_wvtt (play demo_trip demo_world)) = 600
  ∧ wv_totalSupply (w_wvtt (play demo_trip demo_world)) + br_collectedFeesWVTT (w_bridge (play demo_trip demo_world))
    = released (w_logs (play demo_trip demo_world)) - deposited (w_logs (play demo_trip demo_world)).
Proof.
  split; [vm_compute; reflexivity|].
  destruct (bridge_backed (0 + played_outside demo_trip demo_world) (play demo_trip demo_world)) as (_ & Hb & _).
  - split; vm_compute; discriminate.
  - apply play_history; [exact demo_world_history|exact demo_trip_admissible].
  - rewrite Hb. replace (0 + played_outside demo_trip demo_world) with 0 by (vm_compute; reflexivity). lia.
Defined.

(** The owner of the token points it at an account of its own and mints at once:
    the time lock of the relayer does not cover it. *)
Example repointed_bridge_mints :
  let calls := [(evm_address 10, 1, CallSetBridge (evm_address 10));
                (evm_address 10, 1, CallMint (evm_address 10) 1000000)] in
  wv_totalSupply (w_wvtt (play calls demo_world)) = 1000000
  ∧ released (w_logs (play calls demo_world)) = 0 ∧ played_outside calls demo_world = 1000000.
Proof. vm_compute. done. Qed.

Lemma relayer_change_announced_witness :
  let w := play [(evm_address 10, 100, CallQueueSetRelayer (evm_address 13))] demo_world in
  br_relayer (w_bridge (transact (evm_address 10) 172900 (CallExecuteSetRelayer (evm_address 13)) w))
    = evm_address 13
  ∧ ∃ q, (q, TimelockQueued (setRelayer_hash (evm_address 13)) (q + TIMELOCK_DELAY)) ∈ w_logs w
       ∧ q + TIMELOCK_DELAY <= 172900.
Proof.
  intros w. destruct (relayer_change_announced (0 + played_outside
      [(evm_address 10, 100, CallQueueSetRelayer (evm_address 13))] demo_world)
      (evm_address 10) 172900 (CallExecuteSetRelayer (evm_address 13)) w)
    as (r & q & Hc & Hr & _ & Hq & Hnow).
  - apply play_history; [exact demo_world_history|]. repeat constructor. vm_compute. discriminate.
  - vm_compute. discriminate.
  - injection Hc as <-. split; [exact Hr|]. exists q. split; [exact Hq|exact Hnow].
Defined.

(** The reserve check of [releaseUSDT] counts the collected fees.  Once a release
    has used them up, [withdrawFees] reverts, and the wVTT fees are locked with
    the USDT fees. *)
Example fees_released_away :
  let w := play [(evm_address 11, 1, CallReleaseWVTT (MkH256 "a") (evm_address 12) 1000);
                 (evm_address 12, 2, CallDepositWVTT 1000 (MkH256 "d"));
                 (evm_address 12, 3, CallDepositUSDT 5000 (MkH256 "d"));
                 (evm_address 11, 4, CallReleaseUSDT (MkH256 "b") (evm_address 14) 5000)] demo_world in
  br_collectedFeesWVTT (w_bridge w) = 10 ∧ br_collectedFeesUSDT (w_bridge w) = 50
  ∧ (dispatch (evm_address 10) 5 (CallWithdrawFees (evm_address 10)) w).1 = Panic.
Proof. vm_compute. done. Qed.

(** The constructor does not check the fee: above 100% every deposit reverts. *)
Example excessive_fee_blocks_deposits :
  let w := play [(evm_address 11, 1, CallReleaseWVTT (MkH256 "a") (evm_address 12) 1000)]
             (deploy (evm_address 10) (evm_address 11) 20000 0 ∅) in
  (dispatch (evm_address 12) 2 (CallDepositWVTT 400 (MkH256 "d")) w).1 = Panic.
Proof. vm_compute. done. Qed.
