(* ===== verification/Relayer.v ===== *)
(** * The bridge relayer ([bin/vtt-relayer/src/main.rs])

    Hexadecimal input, the decoding of [Deposit] logs, the mapping of tokens, the
    transaction that mirrors a deposit, and the polling loop of [watch] as a
    function of what the two nodes answer.  [hex::decode], JSON text and the
    network are parameters. *)

From S2P Require Import Prelude Primitives RustStr.

(** [serde_json::Value], as far as the relayer looks at it. *)
Inductive Json :=
  | JString (s : bytes)
  | JNumber (n : Z)
  | JArray (l : list Json)
  | JObject (fields : list (bytes * Json))
  | JOther.

Module Json.
Definition get (key : bytes) (v : Json) : option Json :=
  match v with
  | JObject fields => snd <$> List.find (λ kv, bool_decide (kv.1 = key)) fields
  | _ => None
  end.
Definition as_str (v : Json) : option bytes := match v with JString s => Some s | _ => None end.
Definition as_u64 (v : Json) : option Z := match v with JNumber n => Some n | _ => None end.
Definition as_array (v : Json) : option (list Json) := match v with JArray l => Some l | _ => None end.
End Json.

(** The [hex] crate: decoding inverts encoding, and accepts nothing but the
    encoding of a byte string, in either case. *)
Class HexDecode : Type := {
  hex_decode : bytes → option bytes;
  hex_decode_encode : ∀ s, hex_decode (Str.hex_encode s) = Some s;
  hex_decode_sound : ∀ s b, hex_decode s = Some b → Str.to_ascii_lowercase s = Str.hex_encode b;
}.

Record DepositEvent := MkDepositEvent {
  de_tx_hash : H256;
  de_token_evm : Address;
  de_amount : Amount;
  de_vtt_recipient : Address;
}.

(** The VTT node behind its RPC: [vtt_getAccount] gives the nonce, and
    [vtt_sendTransaction] answers with a hash in hexadecimal.  Either can fail. *)
Class VttNode : Type := {
  node : Type;
  rpc_nonce : Address → node → option Z;
  rpc_send : bytes → node → option bytes * node;
}.

(** The relayer's key. *)
Record RelayerKey := MkRelayerKey {
  rk_sign : bytes → Signature;
  rk_public_key : PublicKey;
  rk_address : Address;
}.

(** What the loop needs of its command line. *)
Record WatchConfig := MkWatchConfig {
  wc_source_chain : Z;
  wc_chain_id : ChainId;
  wc_gas_price : Z;
  wc_confirmations : Z;
  wc_token_map : gmap bytes bytes;
}.

Module Relayer.
Section with_hex.
Context `{!HexDecode}.

Definition DEPOSIT_TOPIC0 : bytes := "0xa1a227e2d79d31ead6b6a29c4b0158d07ef3e3bf2cbd44c9731bbd9a46858e93".

(** [flag]: the argument after the first occurrence of [name]. *)
Fixpoint flag (args : list bytes) (name : bytes) : option bytes :=
  match args with
  | [] => None
  | a :: rest => if bool_decide (a = name) then head rest else flag rest name
  end.

Definition parse_hex20 (s : bytes) : option Address :=
  let raw := Str.trim_start_matches "0x" s in
  bytes ← hex_decode raw;
  if bool_decide (String.length bytes = 20%nat) then Some (MkAddress bytes) else None.

Definition parse_hex32 (s : bytes) : option H256 :=
  let raw := Str.trim_start_matches "0x" s in
  bytes ← hex_decode raw;
  if bool_decide (String.length bytes = 32%nat) then Some (MkH256 bytes) else None.

(** The variable [RELAYER_SEED] is an argument. *)
Definition load_relayer_seed (args : list bytes) (env_seed : option bytes) : option bytes :=
  hex_str ← match flag args "--relayer-seed" with Some s => Some s | None => env_seed end;
  let raw := Str.trim_start_matches "0x" hex_str in
  bytes ← hex_decode raw;
  if bool_decide (String.length bytes = 32%nat) then Some bytes else None.

(** ** Deposits *)

Definition u256_as_u128 (bytes : bytes) : option Z :=
  if negb (blen bytes =? 32) then None
  else if existsb (λ b, negb (b =? 0)) (Str.to_codes (btake 16 bytes)) then None
  else Some (from_be_bytes (btake 16 (bdrop 16 bytes))).

(** [&data[a..b]]. *)
Definition range (a b : nat) (data : bytes) : bytes := btake (b - a) (bdrop a data).

Definition parse_deposit_log (log : Json) : option DepositEvent :=
  tx_hash_hex ← Json.get "transactionHash" log ≫= Json.as_str;
  tx_hash ← parse_hex32 (Str.trim_start_matches "0x" tx_hash_hex);
  data_hex ← Json.get "data" log ≫= Json.as_str;
  data ← hex_decode (Str.trim_start_matches "0x" data_hex);
  if negb (blen data =? 128) then None
  else
    let token_evm := MkAddress (range 12 32 data) in
    amount ← u256_as_u128 (range 32 64 data);
    let vtt_recipient := MkAddress (range 96 116 data) in
    Some (MkDepositEvent tx_hash token_evm amount vtt_recipient).

(** The keys of [token_map] are lowercase. *)
Definition map_token (token_evm : Address) (token_map : gmap bytes bytes) : option H256 :=
  if bool_decide (token_evm = Address_ZERO) then Some H256_ZERO
  else
    let key := Str.to_ascii_lowercase (address_to_string token_evm) in
    asset_hex ← token_map !! key;
    parse_hex32 (Str.trim_start_matches "0x" asset_hex).

(** The object of [TOKEN_MAP_JSON], later entries winning. *)
Definition load_token_map (entries : option (list (bytes * bytes))) : gmap bytes bytes :=
  match entries with
  | None => ∅
  | Some l => foldl (λ m kv, <[Str.to_ascii_lowercase kv.1 := kv.2]> m) ∅ l
  end.

Definition bridge_deposit_payload (chain_id : ChainId) (gas_price_raw nonce : Z)
    (source_tx_hash : H256) (source_chain : Z) (recipient : Address) (token : H256) (amount : Amount)
    : TransactionPayload :=
  {| tp_chain_id := chain_id; tp_nonce := nonce; tp_gas_price := gas_price_raw; tp_gas_limit := 80000;
     tp_action := BridgeDeposit source_tx_hash source_chain recipient token amount |}.

(** The options of [watch] with their defaults; the URLs, the bridge's address and
    the polling interval only have to be there. *)
Definition watch_config (args : list bytes) (token_entries : option (list (bytes * bytes))) : option WatchConfig :=
  _ ← flag args "--vtt-rpc";
  _ ← flag args "--eth-rpc";
  _ ← flag args "--bridge-addr";
  source_chain ← Str.parse 32 (default "84532" (flag args "--source-chain"));
  vtt_chain_id ← Str.parse 32 (default "0" (flag args "--chain-id"));
  gas_price ← Str.parse 128 (default "1000000000" (flag args "--gas-price"));
  _ ← Str.parse 64 (default "15000" (flag args "--poll-ms"));
  confirmations ← Str.parse 64 (default "3" (flag args "--confirmations"));
  Some (MkWatchConfig source_chain vtt_chain_id gas_price confirmations (load_token_map token_entries)).

Section with_node.
Context `{!VttNode, !Borsh TransactionPayload, !Borsh SignedTransaction}.

Definition submit_bridge_deposit (key : RelayerKey) (payload : TransactionPayload) (n : node)
    : option H256 * node :=
  let signature := rk_sign key (to_vec payload) in
  let signed := {| tx_payload := payload; tx_signature := signature; tx_public_key := rk_public_key key |} in
  let hex_wire := "0x" +:+ Str.hex_encode (to_vec signed) in
  let '(tx_hash_hex, n) := rpc_send hex_wire n in
  (tx_hash_hex ≫= λ h, parse_hex32 (Str.trim_start_matches "0x" h), n).

Definition process_deposit_event (key : RelayerKey) (cfg : WatchConfig) (vtt_token : H256)
    (ev : DepositEvent) (n : node) : option H256 * node :=
  match rpc_nonce (rk_address key) n with
  | None => (None, n)
  | Some nonce =>
      submit_bridge_deposit key
        (bridge_deposit_payload (wc_chain_id cfg) (wc_gas_price cfg) nonce (de_tx_hash ev)
           (wc_source_chain cfg) (de_vtt_recipient ev) vtt_token (de_amount ev)) n
  end.

(** The [submit] command: one deposit given on the command line.  [key_of] is
    [Keypair::from_seed]; the hash printed on success is the result. *)
Definition run_submit (key_of : bytes → RelayerKey) (args : list bytes) (env_seed : option bytes) (n : node)
    : option H256 * node :=
  match (_ ← flag args "--vtt-rpc";
         source_tx_hash ← flag args "--source-tx-hash" ≫= parse_hex32;
         source_chain ← flag args "--source-chain" ≫= Str.parse 32;
         recipient ← flag args "--recipient" ≫= parse_hex20;
         token ← parse_hex32 (default ("0x" +:+ Str.zeros 64) (flag args "--token"));
         amount_raw ← flag args "--amount" ≫= Str.parse 128;
         chain_id ← Str.parse 32 (default "0" (flag args "--chain-id"));
         gas_price ← Str.parse 128 (default "1000000000" (flag args "--gas-price"));
         seed ← load_relayer_seed args env_seed;
         let key := key_of seed in
         nonce ← rpc_nonce (rk_address key) n;
         Some (key, bridge_deposit_payload chain_id gas_price nonce source_tx_hash source_chain recipient
                      token amount_raw)) with
  | Some (key, payload) => submit_bridge_deposit key payload n
  | None => (None, n)
  end.

(** One log: whatever goes wrong is reported and skipped. *)
Definition process_log (key : RelayerKey) (cfg : WatchConfig) (n : node) (log : Json) : node :=
  match parse_deposit_log log with
  | None => n
  | Some ev =>
      match map_token (de_token_evm ev) (wc_token_map cfg) with
      | None => n
      | Some vtt_token => (process_deposit_event key cfg vtt_token ev n).2
      end
  end.

(** The cursor in memory and in its file, and the node. *)
Record Watch := MkWatch { wt_cursor : Z; wt_saved : Z; wt_node : node }.

(** What the Ethereum node and the file system answer in one round. *)
Record Round := MkRound {
  rd_head : option Z;
  rd_logs : Z → Z → option (list Json);
  rd_save : bool;
}.

(** The blocks a round scans. *)
Definition scan_range (cfg : WatchConfig) (cursor head : Z) : option (Z * Z) :=
  let safe_head := saturating_sub head (wc_confirmations cfg) in
  if cursor <? safe_head then
    let from := wrap 64 (cursor + 1) in
    Some (from, Z.min safe_head (wrap 64 (from + 1999)))
  else None.

Definition tick (key : RelayerKey) (cfg : WatchConfig) (r : Round) (s : Watch) : Watch :=
  match rd_head r with
  | None => s
  | Some head =>
      match scan_range cfg (wt_cursor s) head with
      | None => s
      | Some (from, to) =>
          match rd_logs r from to with
          | None => s
          | Some logs =>
              let n := foldl (process_log key cfg) (wt_node s) logs in
              MkWatch to (if rd_save r then to else wt_saved s) n
          end
      end
  end.

(** The start of [run_watch]: a missing or zero cursor begins at the head. *)
Definition start_watch (stored : option Z) (head : option Z) (save : bool) (n : node) : option Watch :=
  let cursor := default 0 stored in
  if cursor =? 0 then
    head ← head;
    Some (MkWatch head (if save then head else cursor) n)
  else Some (MkWatch cursor cursor n).

Definition watch (key : RelayerKey) (cfg : WatchConfig) (rounds : list Round) (s : Watch) : Watch :=
  foldl (λ s r, tick key cfg r s) s rounds.

End with_node.
End with_hex.
End Relayer.
