(* ===== verification/RelayerProps.v ===== *)
(** * The relayer decodes what the bridge logs, and scans every block once *)

From S2P Require Import Prelude Primitives RustStr BridgeEvm Relayer.

(** ** Hexadecimal text *)

Lemma strip_0x_hex s : Str.strip_prefix "0x" (Str.hex_encode s) = None.
Proof.
  destruct s as [|c s]; [done|]. cbn [Str.hex_encode Str.strip_prefix]. case_match; [|done].
  pose proof (Z.mod_pos_bound (Z_of_byte c) 16 ltac:(lia)) as Hm.
  apply hex_digit_ok in Hm. case_match eqn:He; [|done]. apply Ascii.eqb_eq in He. by rewrite <- He in Hm.
Qed.

Lemma trim_hex s : Str.trim_start_matches "0x" (Str.hex_encode s) = Str.hex_encode s.
Proof.
  unfold Str.trim_start_matches. destruct (String.length _) as [|n]; [done|]. cbn [Str.strip_all Str.strip_any].
  by rewrite strip_0x_hex.
Qed.

Lemma trim_0x_hex s : Str.trim_start_matches "0x" ("0x" +:+ Str.hex_encode s) = Str.hex_encode s.
Proof.
  unfold Str.trim_start_matches. change (String.length ("0x" +:+ Str.hex_encode s))
    with (S (S (String.length (Str.hex_encode s)))).
  cbn [Str.strip_all Str.strip_any]. change (Str.strip_prefix "0x" ("0x" +:+ Str.hex_encode s))
    with (Some (Str.hex_encode s)). cbn [Str.strip_any]. by rewrite strip_0x_hex.
Qed.

(** ** Words *)

Lemma to_le_bytes_app n m x : to_le_bytes (n + m) x = to_le_bytes n x +:+ to_le_bytes m (x / 256 ^ Z.of_nat n).
Proof.
  revert x. induction n as [|n IH]; intros x; [by rewrite Z.div_1_r|].
  rewrite Nat2Z.inj_succ, Z.pow_succ_r, <- Z.div_div by lia. exact (f_equal (String _) (IH (x / 256))).
Qed.

Lemma to_be_bytes_app n m x :
  to_be_bytes (m + n) x = to_be_bytes m (x / 256 ^ Z.of_nat n) +:+ to_be_bytes n x.
Proof. unfold to_be_bytes. by rewrite Nat.add_comm, to_le_bytes_app, brev_app. Qed.

Lemma brev_length s : String.length (brev s) = String.length s.
Proof. induction s as [|c s IH]; [done|]. cbn. rewrite blen_app, IH. cbn. lia. Qed.

Lemma to_be_bytes_length n x : String.length (to_be_bytes n x) = n.
Proof. unfold to_be_bytes. by rewrite brev_length, to_le_bytes_length. Qed.

Lemma from_to_be_bytes n x : 0 <= x < 256 ^ Z.of_nat n → from_be_bytes (to_be_bytes n x) = x.
Proof. intros Hx. unfold from_be_bytes, to_be_bytes. rewrite brev_involutive. by apply from_to_le_bytes. Qed.

(** The bytes of zero are zeros, and only those. *)
Lemma no_byte_set s : existsb (λ b, negb (b =? 0)) (Str.to_codes s) = false → from_be_bytes s = 0.
Proof.
  unfold from_be_bytes. induction s as [|c s IH]; [done|]. cbn [Str.to_codes existsb brev].
  intros [Hc Hs]%orb_false_iff. apply negb_false_iff, Z.eqb_eq in Hc.
  assert (∀ a, from_le_bytes (a +:+ String c "") = from_le_bytes a) as Happ.
  { induction a as [|d a IHa]; [change (Z_of_byte c + 256 * 0 = 0); lia|].
    change (Z_of_byte d + 256 * from_le_bytes (a +:+ String c "") = Z_of_byte d + 256 * from_le_bytes a). lia. }
  by rewrite Happ, IH.
Qed.

Lemma u256_as_u128_word x :
  0 <= x < 2 ^ 256 → Relayer.u256_as_u128 (abi_uint x) = if x <? 2 ^ 128 then Some x else None.
Proof.
  intros Hx. unfold Relayer.u256_as_u128, abi_uint, blen. rewrite to_be_bytes_length. cbn [negb Z.of_nat].
  change 32%nat with (16 + 16)%nat. rewrite to_be_bytes_app.
  rewrite btake_app_n, bdrop_app_n by apply to_be_bytes_length. change (256 ^ Z.of_nat 16) with (2 ^ 128).
  change (negb (Z.of_nat (16 + 16) =? 32)) with false. cbn iota.
  rewrite <- (bapp_nil (to_be_bytes 16 x)), btake_app_n by apply to_be_bytes_length.
  destruct (Z.ltb_spec x (2 ^ 128)) as [Hlt|Hge].
  - rewrite Z.div_small by lia. change (existsb _ _) with false. cbn iota. f_equal. apply from_to_be_bytes. lia.
  - assert (0 < x / 2 ^ 128 < 2 ^ 128) as Hq.
    { split; [apply Z.div_str_pos; lia|]. apply Z.div_lt_upper_bound; lia. }
    destruct (existsb _ _) eqn:He; [done|]. apply no_byte_set in He.
    rewrite from_to_be_bytes in He; lia.
Qed.

(** ** Logs *)

(** [abi.encode(token, amount, fee, vttDestination)]: the data of a [Deposit]. *)
Definition deposit_data (token : Address) (amount fee : Z) (dest : H256) : bytes :=
  abi_address token +:+ abi_uint amount +:+ abi_uint fee +:+ h256_bytes dest.

(** The log of a deposit as [eth_getLogs] reports it. *)
Definition deposit_log (tx : H256) (sender token : Address) (nonce amount fee : Z) (dest : H256) : Json :=
  JObject
    [("topics", JArray [JString Relayer.DEPOSIT_TOPIC0; JString ("0x" +:+ Str.hex_encode (abi_uint nonce));
                        JString ("0x" +:+ Str.hex_encode (abi_address sender))]);
     ("data", JString ("0x" +:+ Str.hex_encode (deposit_data token amount fee dest)));
     ("transactionHash", JString (h256_to_string tx))].

Lemma range_app_skip a b n s t :
  String.length s = n → (n <= a)%nat → Relayer.range a b (s +:+ t) = Relayer.range (a - n) (b - n) t.
Proof.
  intros <- Ha. unfold Relayer.range. f_equal; [lia|].
  replace a with (String.length s + (a - String.length s))%nat at 1 by lia. clear Ha.
  generalize (a - String.length s)%nat as k. induction s as [|c s IH]; intros k; [done|]. apply IH.
Qed.

Lemma range_app_take b s t : String.length s = b → Relayer.range 0 b (s +:+ t) = s.
Proof. intros Hs. unfold Relayer.range. rewrite Nat.sub_0_r. by apply btake_app_n. Qed.

Section with_hex.
Context `{!HexDecode}.

Lemma parse_hex32_text h :
  String.length (h256_bytes h) = 32%nat →
  Relayer.parse_hex32 (Str.trim_start_matches "0x" (h256_to_string h)) = Some h.
Proof.
  intros Hl. unfold Relayer.parse_hex32, h256_to_string.
  rewrite trim_0x_hex, trim_hex, hex_decode_encode. cbn. rewrite bool_decide_true by done. by destruct h.
Qed.

Lemma parse_deposit_log_data tx sender token nonce amount fee dest :
  String.length (h256_bytes tx) = 32%nat → String.length (address_bytes token) = 20%nat →
  String.length (h256_bytes dest) = 32%nat → 0 <= amount < 2 ^ 256 →
  Relayer.parse_deposit_log (deposit_log tx sender token nonce amount fee dest)
  = if amount <? 2 ^ 128
    then Some (MkDepositEvent tx token amount (MkAddress (btake 20 (h256_bytes dest))))
    else None.
Proof.
  intros Htx Htok Hdest Hamt. unfold Relayer.parse_deposit_log, deposit_log.
  change (Json.get "transactionHash" _) with (Some (JString (h256_to_string tx))).
  change (Json.get "data" _) with (Some (JString ("0x" +:+ Str.hex_encode (deposit_data token amount fee dest)))).
  cbn [mbind option_bind Json.as_str]. rewrite parse_hex32_text, trim_0x_hex, hex_decode_encode by done.
  assert (String.length (abi_address token) = 32%nat) as Ha
    by (unfold abi_address; rewrite blen_app, zeros_length; lia).
  assert (∀ x, String.length (abi_uint x) = 32%nat) as Hu by (intros x; apply to_be_bytes_length).
  assert (blen (deposit_data token amount fee dest) = 128) as Hl.
  { unfold blen, deposit_data. rewrite !blen_app, Ha, !Hu, Hdest. done. }
  cbn [mbind option_bind]. rewrite Hl. cbn [negb Z.eqb Pos.eqb]. unfold deposit_data.
  rewrite (range_app_skip 32 64 32) by done. rewrite (range_app_take (64 - 32)) by done.
  rewrite u256_as_u128_word by done. destruct (amount <? 2 ^ 128); [|done]. cbn [mbind option_bind].
  do 2 f_equal.
  - unfold abi_address. rewrite bapp_assoc, (range_app_skip 12 32 12) by done.
    rewrite (range_app_take (32 - 12)) by done. by destruct token.
  - rewrite (range_app_skip 96 116 32) by (done || lia). rewrite (range_app_skip _ _ 32) by (apply Hu || lia).
    rewrite (range_app_skip _ _ 32) by (apply Hu || lia). done.
Qed.

(** ** Scanning *)

Section with_node.
Context `{!VttNode, !Borsh TransactionPayload, !Borsh SignedTransaction}.

(** The head seen and the blocks scanned by each round that scanned. *)
Definition scanned (cfg : WatchConfig) (r : Relayer.Round) (s : Relayer.Watch) : option (Z * Z * Z) :=
  head ← Relayer.rd_head r;
  '(from, to) ← Relayer.scan_range cfg (Relayer.wt_cursor s) head;
  _ ← Relayer.rd_logs r from to;
  Some (head, from, to).

Fixpoint scans (key : RelayerKey) (cfg : WatchConfig) (rounds : list Relayer.Round) (s : Relayer.Watch)
    : list (Z * Z * Z) :=
  match rounds with
  | [] => []
  | r :: rounds =>
      match scanned cfg r s with
      | Some x => x :: scans key cfg rounds (Relayer.tick key cfg r s)
      | None => scans key cfg rounds (Relayer.tick key cfg r s)
      end
  end.

Definition blocks_of (x : Z * Z * Z) : list Z := seqZ x.1.2 (x.2 - x.1.2 + 1).

(** Block numbers far from the end of their type. *)
Definition low (n : Z) : Prop := 0 <= n < 2 ^ 64 - 2000.

Lemma scan_range_low cfg cursor head from to :
  low cursor → low head → 0 <= wc_confirmations cfg →
  Relayer.scan_range cfg cursor head = Some (from, to) →
  from = cursor + 1 ∧ from <= to ∧ to + wc_confirmations cfg <= head ∧ low to.
Proof.
  unfold low, Relayer.scan_range. intros Hc Hh Hk. case_match eqn:Hlt; [|done]. apply Z.ltb_lt in Hlt.
  unfold saturating_sub in *.
  rewrite !wrap_small by (unfold in_width; rewrite ?wrap_small by (unfold in_width; lia); lia).
  intros [= <- <-]. lia.
Qed.

Lemma tick_cursor key cfg r s :
  Relayer.wt_cursor (Relayer.tick key cfg r s)
  = from_option (λ x, x.2) (Relayer.wt_cursor s) (scanned cfg r s).
Proof.
  unfold Relayer.tick, scanned. destruct (Relayer.rd_head r) as [head|]; [|done]. cbn.
  destruct (Relayer.scan_range _ _ _) as [[from to]|]; [|done]. cbn. by destruct (Relayer.rd_logs r from to).
Qed.

Lemma scans_contiguous key cfg rounds s :
  0 <= wc_confirmations cfg → low (Relayer.wt_cursor s) →
  Forall (λ r, ∀ head, Relayer.rd_head r = Some head → low head) rounds →
  let s' := Relayer.watch key cfg rounds s in
  Relayer.wt_cursor s <= Relayer.wt_cursor s'
  ∧ concat (blocks_of <$> scans key cfg rounds s)
    = seqZ (Relayer.wt_cursor s + 1) (Relayer.wt_cursor s' - Relayer.wt_cursor s)
  ∧ Forall (λ x, x.2 + wc_confirmations cfg <= x.1.1) (scans key cfg rounds s).
Proof.
  intros Hk. revert s. induction rounds as [|r rounds IH]; intros s Hc Hr.
  { cbn. by rewrite Z.sub_diag. }
  change (Relayer.watch key cfg (r :: rounds) s)
    with (Relayer.watch key cfg rounds (Relayer.tick key cfg r s)). cbn [scans].
  apply Forall_cons in Hr as [Hhead Hr]. pose proof (tick_cursor key cfg r s) as Ht.
  destruct (scanned cfg r s) as [[[head from] to]|] eqn:Hs; cbn in Ht.
  - unfold scanned in Hs. destruct (Relayer.rd_head r) as [h|] eqn:Hh; [|done]. cbn in Hs.
    destruct (Relayer.scan_range cfg _ h) as [[f t]|] eqn:Hrange; [|done]. cbn in Hs.
    destruct (Relayer.rd_logs r f t); [|done]. injection Hs as -> -> ->.
    destruct (scan_range_low _ _ _ _ _ Hc (Hhead _ eq_refl) Hk Hrange) as (-> & Hle & Hsafe & Hlow).
    destruct (IH (Relayer.tick key cfg r s)) as (Hmono & Hcat & Hall); [by rewrite Ht|done|].
    rewrite Ht in Hmono, Hcat. split; [lia|]. split; [|by constructor].
    rewrite fmap_cons. cbn [concat]. rewrite Hcat. unfold blocks_of. cbn [fst snd].
    set (c' := Relayer.wt_cursor (Relayer.watch _ _ _ _)) in *.
    replace (c' - Relayer.wt_cursor s) with ((to - (Relayer.wt_cursor s + 1) + 1) + (c' - to)) by lia.
    rewrite (seqZ_app _ _ (c' - to)) by lia. do 2 f_equal. lia.
  - destruct (IH (Relayer.tick key cfg r s)) as (Hmono & Hcat & Hall); [by rewrite Ht|done|].
    by rewrite Ht in Hmono, Hcat.
Qed.

(** C33: The relayer scans every block exactly once.  From a cursor on, through any
    rounds in which the Ethereum node may fail or lag, the scanned ranges joined
    together are exactly the blocks from the one after the first cursor to the
    last cursor, in order, without gap or repetition; each was buried under the
    required confirmations when it was scanned. *)
Theorem watch_scans_once key cfg rounds s :
  0 <= wc_confirmations cfg → low (Relayer.wt_cursor s) →
  Forall (λ r, ∀ head, Relayer.rd_head r = Some head → low head) rounds →
  let s' := Relayer.watch key cfg rounds s in
  Relayer.wt_cursor s <= Relayer.wt_cursor s'
  ∧ concat (blocks_of <$> scans key cfg rounds s)
    = seqZ (Relayer.wt_cursor s + 1) (Relayer.wt_cursor s' - Relayer.wt_cursor s)
  ∧ Forall (λ x, x.2 + wc_confirmations cfg <= x.1.1) (scans key cfg rounds s).
Proof. apply scans_contiguous. Qed.

(** A deposit that cannot be submitted is not tried again: the cursor moves past
    its block all the same. *)
Lemma unreachable_node_skips_deposits key cfg r s head from to logs :
  rpc_nonce (rk_address key) (Relayer.wt_node s) = None →
  Relayer.rd_head r = Some head → Relayer.scan_range cfg (Relayer.wt_cursor s) head = Some (from, to) →
  Relayer.rd_logs r from to = Some logs →
  Relayer.wt_node (Relayer.tick key cfg r s) = Relayer.wt_node s
  ∧ Relayer.wt_cursor (Relayer.tick key cfg r s) = to.
Proof.
  intros Hn Hh Hr Hl. unfold Relayer.tick. rewrite Hh, Hr, Hl. cbn. split; [|done]. clear Hl.
  induction logs as [|log logs IH]; [done|]. cbn. enough (Relayer.process_log key cfg (Relayer.wt_node s) log
    = Relayer.wt_node s) as -> by done.
  unfold Relayer.process_log, Relayer.process_deposit_event. repeat case_match; try done; congruence.
Qed.
End with_node.
End with_hex.

(** ** Example *)

Definition lower (x : Z) : Z := if Str.is_upper x then x + 32 else x.

Lemma hex_digit_lower d : 0 <= d < 16 → byte_of_Z (lower (Z_of_byte (Str.hex_digit d))) = Str.hex_digit d.
Proof.
  intros Hd. assert (Hin : In d (seqZ 0 16)) by (apply list_elem_of_In, elem_of_seqZ; lia).
  repeat (destruct Hin as [<-|Hin]; [reflexivity|]). destruct Hin.
Qed.

Lemma hex_encode_lowercase s : Str.to_ascii_lowercase (Str.hex_encode s) = Str.hex_encode s.
Proof.
  induction s as [|c s IH]; [done|]. pose proof (Z_of_byte_range c) as Hr.
  pose proof (hex_digit_lower (Z_of_byte c / 16) ltac:(split; [apply Z.div_pos|apply Z.div_lt_upper_bound]; lia)) as H1.
  pose proof (hex_digit_lower (Z_of_byte c mod 16) ltac:(apply Z.mod_pos_bound; lia)) as H2.
  change (String (byte_of_Z (lower (Z_of_byte (Str.hex_digit (Z_of_byte c / 16)))))
    (String (byte_of_Z (lower (Z_of_byte (Str.hex_digit (Z_of_byte c mod 16)))))
      (Str.to_ascii_lowercase (Str.hex_encode s))) = Str.hex_encode (String c s)).
  by rewrite IH, H1, H2.
Qed.

(** Pairs of digits, checked against the encoding of what they give. *)
Definition plain_hex_decode (s : bytes) : option bytes :=
  match Str.hex_bytes (String.length s / 2) 0 s with
  | Ok b => if bool_decide (Str.to_ascii_lowercase s = Str.hex_encode b) then Some b else None
  | _ => None
  end.

#[local] Instance demo_hex : HexDecode.
Proof.
  refine {| hex_decode := plain_hex_decode |}; unfold plain_hex_decode.
  - intros s. rewrite hex_encode_length, Nat.mul_comm, Nat.div_mul, hex_bytes_encode by lia.
    by rewrite bool_decide_true by apply hex_encode_lowercase.
  - intros s b. repeat case_match; intros [= <-]; by case_bool_decide.
Defined.
