(* ===== verification/BridgeFlow.v ===== *)
(** * Deposits from Ethereum on the VTT chain

    What executing a [BridgeDeposit] does, the mark that keeps it from being
    executed twice, and the deposits that are lost.  [DepositFlow] follows a deposit
    from the contract to the chain. *)

From S2P Require Import Prelude Primitives RustStr DexMath Storage Assets Oracle StateDB Dex.
From S2P Require Import Codecs Ledger Snapshot Consensus ExecStaking Governance Vm.
From S2P Require Import ExecAssets ExecAdmin ExecGov Executor ExecCodecs ChainDemo.
From S2P Require Import BridgeEvm BridgeProps Relayer RelayerProps.

(** ** The mark of a processed deposit *)

Section with_env.
Context `{!TxEnv}.

Lemma disk_keeps c k v s c' k' : is_Some (disk_get s c' k') → is_Some (disk_get (persist c k v s) c' k').
Proof.
  intros [x Hx]. destruct (decide ((c, k) = (c', k'))) as [[= <- <-]|Hne].
  - destruct (db_storage s) as [st|] eqn:Hst; [|unfold disk_get in Hx; by rewrite Hst in Hx].
    rewrite disk_get_persist_eq by (by rewrite Hst). by eexists.
  - rewrite disk_get_persist_ne by congruence. by eexists.
Qed.

(** A roll-back overwrites entries of the store and deletes none. *)
Lemma restore_keeps_disk sn s c k : is_Some (disk_get s c k) → is_Some (disk_get (Snapshot.restore sn s) c k).
Proof.
  intros Hs. unfold Snapshot.restore, Snapshot.restore_disk, Snapshot.write_all.
  assert (is_Some (disk_get (Snapshot.restore_memory sn s) c k)) as Hm by exact Hs.
  revert Hm. generalize (Snapshot.restore_writes (Snapshot.restore_memory sn s)) as ws.
  generalize (Snapshot.restore_memory sn s) as s1. intros s1 ws. revert s1.
  induction ws as [|w ws IH]; intros s1 Hm; [done|]. by apply IH, disk_keeps.
Qed.

Lemma processed_survives_restore sn s chain h :
  State.bridge_deposit_processed s chain h = true →
  State.bridge_deposit_processed (Snapshot.restore sn s) chain h = true.
Proof.
  unfold State.bridge_deposit_processed. rewrite !orb_true_iff, !bool_decide_eq_true.
  intros [Hs|Hs]; [left|right]; by apply restore_keeps_disk.
Qed.

(** ** The transaction on the VTT chain *)

(** A deposit that can be processed: the bridge is open, the sender is the
    configured relayer, and the Ethereum transaction is new. *)
Definition depositable (s : StateDB) (relayer : Address) (chain : Z) (h : H256) : Prop :=
  State.is_bridge_paused s = false ∧ State.bridge_relayer s = relayer ∧ relayer ≠ Address_ZERO
  ∧ State.bridge_deposit_processed s chain h = false.

Definition deposit_done (s : StateDB) (chain : Z) (h : H256) (recipient : Address) (amount : Z) : StateDB :=
  State.mark_bridge_deposit_processed chain h
    (State.put_account recipient
       ((State.get_account s recipient) <| ac_balance := State.get_balance s recipient + amount |>) s).

Lemma native_deposit_runs s relayer chain h recipient amount :
  depositable s relayer chain h → 0 < amount →
  State.get_balance s recipient + amount < 2 ^ 128 →
  AdminTx.execute_bridge_deposit relayer h chain recipient H256_ZERO amount s
  = (Ok [AssetTx.log relayer "BridgeDeposit" [h; H256_ZERO] (to_vec (recipient, H256_ZERO, amount))],
     deposit_done s chain h recipient amount).
Proof.
  intros (Hpause & Hrel & Hnz & Hproc) Ha Hb. unfold AdminTx.execute_bridge_deposit. mrun.
  rewrite Hpause, Hrel, !bool_decide_false, Hproc by (try done; tauto).
  unfold Amount.is_zero. destruct (Z.eqb_spec amount 0); [lia|]. rewrite bool_decide_true by done. mrun.
  rewrite add_balance_spec. destruct (Z.ltb_spec (State.get_balance s recipient + amount) (2 ^ 128)); [|lia]. done.
Qed.

Lemma relayer_has_store s relayer : State.bridge_relayer s = relayer → relayer ≠ Address_ZERO → is_Some (db_storage s).
Proof.
  unfold State.bridge_relayer, disk_get. intros <-. destruct (db_storage s) as [st|]; [by eexists|done].
Qed.

Lemma deposit_done_effect s relayer chain h recipient amount :
  State.bridge_relayer s = relayer → relayer ≠ Address_ZERO →
  let s' := deposit_done s chain h recipient amount in
  (∀ a, State.get_balance s' a
        = State.get_balance s a + (if decide (a = recipient) then amount else 0))
  ∧ State.bridge_deposit_processed s' chain h = true.
Proof.
  intros Hr Hnz. pose proof (relayer_has_store s relayer Hr Hnz) as Hst. cbv zeta. split.
  - intros a. unfold deposit_done, State.mark_bridge_deposit_processed, State.get_balance at 1.
    rewrite get_account_persist by done. fold (State.get_balance (State.put_account recipient
      ((State.get_account s recipient) <| ac_balance := State.get_balance s recipient + amount |>) s) a).
    rewrite get_balance_put. destruct (decide (recipient = a)) as [->|Hne].
    + by rewrite decide_True.
    + rewrite decide_False by congruence. lia.
  - unfold State.bridge_deposit_processed, deposit_done, State.mark_bridge_deposit_processed.
    rewrite disk_get_persist_eq; [done|]. by apply (put_account_storage_Some recipient).
Qed.

(** A deposit that is already marked is refused. *)
Lemma processed_deposit_refused s relayer chain h recipient token amount :
  State.bridge_deposit_processed s chain h = true →
  ∃ e, AdminTx.execute_bridge_deposit relayer h chain recipient token amount s = (Err e, s).
Proof.
  intros Hp. unfold AdminTx.execute_bridge_deposit. mrun. rewrite Hp. repeat case_match; simplify_eq; eauto.
Qed.
End with_env.

(** The account that the first twenty bytes of a destination name. *)
Definition destination (dest : H256) : Address := MkAddress (btake 20 (h256_bytes dest)).

(** ** Deposits that are lost *)

Section lost.
Context `{!TxEnv}.

(** A deposit in a block that is rolled back is lost.  Processing a deposit
    writes its mark to the store, and restoring a snapshot does not remove it: the
    credit is undone, yet every later submission of the same deposit is refused. *)
Theorem rolled_back_deposit_lost s relayer chain tx recipient amount s' logs :
  State.bridge_relayer s = relayer → relayer ≠ Address_ZERO →
  AdminTx.execute_bridge_deposit relayer tx chain recipient H256_ZERO amount s = (Ok logs, s') →
  let s2 := Snapshot.restore (Snapshot.snapshot s) s' in
  db_accounts s2 = db_accounts s
  ∧ ∀ token amount', ∃ e, AdminTx.execute_bridge_deposit relayer tx chain recipient token amount' s2 = (Err e, s2).
Proof.
  intros Hr Hnz Hrun. cbv zeta. split; [apply restore_accounts|]. intros token amount'.
  apply processed_deposit_refused, processed_survives_restore.
  unfold AdminTx.execute_bridge_deposit in Hrun. rewrite bool_decide_true in Hrun by done. inv_ok.
  match goal with H : State.add_balance _ _ _ = _ |- _ => rewrite add_balance_spec in H; destruct (_ <? 2 ^ 128) in H; [|done]; injection H as _ <- end.
  by apply (deposit_done_effect s (State.bridge_relayer s) chain tx recipient amount).
Qed.
End lost.

(** A destination padded on the left, as the comment of the event has it, names
    another account: twelve zero bytes and the first eight bytes of the address. *)
Lemma padded_destination_misread a :
  String.length (address_bytes a) = 20%nat →
  destination (MkH256 (abi_address a)) = MkAddress (zeros 12 +:+ btake 8 (address_bytes a)).
Proof. intros Ha. unfold destination, abi_address. cbn [h256_bytes]. done. Qed.

(** Two deposits of one Ethereum transaction have the same hash: once the first
    is credited the second is refused, whoever it is for. *)
Lemma second_deposit_refused `{!TxEnv} s relayer chain tx recipient amount recipient' token' amount' :
  depositable s relayer chain tx → 0 < amount → State.get_balance s recipient + amount < 2 ^ 128 →
  ∃ logs s' e,
    AdminTx.execute_bridge_deposit relayer tx chain recipient H256_ZERO amount s = (Ok logs, s')
    ∧ AdminTx.execute_bridge_deposit relayer tx chain recipient' token' amount' s' = (Err e, s').
Proof.
  intros Hd Ha Hb. pose proof Hd as (_ & Hr & Hnz & _).
  destruct (deposit_done_effect s relayer chain tx recipient amount Hr Hnz) as [_ Hp].
  destruct (processed_deposit_refused _ relayer chain tx recipient' token' amount' Hp) as [e He].
  do 3 eexists. split; [by apply native_deposit_runs|exact He].
Qed.

(** ** Examples *)

#[local] Existing Instance demo_tx_env.
#[local] Existing Instance demo_hex.
#[local] Existing Instance demo_evm.

Definition demo_key_32 (c : Z) : H256 := MkH256 (to_be_bytes 32 c).

(** A VTT state whose relayer is account 7. *)
Definition bridge_state : StateDB :=
  State.set_bridge_relayer (evm_address 7) (StateDB_new <| db_storage := Some Kv.new |>).

Definition demo_config : WatchConfig := MkWatchConfig 84532 0 1000000000 3 ∅.

(** The user, who got 1000 wVTT, sends 400 of them to the VTT account 12. *)
Definition demo_dest : H256 := MkH256 (to_be_bytes 20 12 +:+ zeros 12).

Definition demo_before : World :=
  play [(evm_address 11, 1, CallReleaseWVTT (MkH256 "a") (evm_address 12) 1000)] demo_world.

Lemma demo_depositable : depositable bridge_state (evm_address 7) 84532 (demo_key_32 5).
Proof. unfold depositable. vm_compute. split_and!; done. Qed.

Lemma rolled_back_deposit_lost_witness :
  ∃ s2, db_accounts s2 = db_accounts bridge_state
    ∧ ∃ e, AdminTx.execute_bridge_deposit (evm_address 7) (demo_key_32 5) 84532 (evm_address 12) H256_ZERO 396 s2
           = (Err e, s2).
Proof.
  destruct (rolled_back_deposit_lost bridge_state (evm_address 7) 84532 (demo_key_32 5)
    (evm_address 12) 396
    (deposit_done bridge_state 84532 (demo_key_32 5) (evm_address 12) 396)
    [AssetTx.log (evm_address 7) "BridgeDeposit" [demo_key_32 5; H256_ZERO]
       (to_vec (evm_address 12, H256_ZERO, 396))]) as [Ha Hb];
    [reflexivity|discriminate| |].
  - apply native_deposit_runs; [exact demo_depositable|reflexivity|reflexivity].
  - eexists. split; [exact Ha|]. exact (Hb H256_ZERO 396).
Defined.

(** A node that takes everything, and three rounds of which the second fails. *)
Definition demo_node : VttNode := {| node := unit; rpc_nonce := λ _ _, Some 0; rpc_send := λ _ n, (None, n) |}.
#[local] Existing Instance demo_node.
#[local] Instance demo_payload_codec : Borsh TransactionPayload := countable_borsh _.
#[local] Instance demo_signed_codec : Borsh SignedTransaction := countable_borsh _.

Definition demo_relayer_key : RelayerKey := MkRelayerKey (λ _, Signature_ZERO) (demo_key 1) (evm_address 7).

Definition demo_rounds : list Relayer.Round :=
  [Relayer.MkRound (Some 5000) (λ _ _, Some []) true; Relayer.MkRound None (λ _ _, None) true;
   Relayer.MkRound (Some 5003) (λ _ _, Some []) true].

Definition demo_watch : Relayer.Watch := @Relayer.MkWatch demo_node 100 100 tt.

Lemma watch_scans_once_witness :
  concat (blocks_of <$> scans demo_relayer_key demo_config demo_rounds demo_watch) = seqZ 101 4000
  ∧ Relayer.wt_cursor (Relayer.watch demo_relayer_key demo_config demo_rounds demo_watch) = 4100.
Proof.
  assert (Hc : Relayer.wt_cursor (Relayer.watch demo_relayer_key demo_config demo_rounds demo_watch)
    = 4100) by reflexivity.
  split; [|exact Hc].
  destruct (watch_scans_once demo_relayer_key demo_config demo_rounds demo_watch) as (_ & H & _).
  - discriminate.
  - unfold low. split; [discriminate|reflexivity].
  - unfold demo_rounds, low. rewrite !Forall_cons. split_and!; [| | |by apply Forall_nil].
    + intros head [= <-]. split; [discriminate|reflexivity].
    + intros head H. discriminate H.
    + intros head [= <-]. split; [discriminate|reflexivity].
  - rewrite Hc in H. exact H.
Defined.
