(* ===== verification/RpcTypes.v ===== *)
(** * What the JSON-RPC interface returns ([crates/vtt-rpc/src/types.rs] and the
    conversions of [server.rs])

    The response records and the functions that build them from transactions,
    assets, pools and proposals. *)

From stdpp Require Import pretty.
From S2P Require Import Prelude Primitives RustStr Storage Assets Oracle StateDB Dex Codecs.
From S2P Require Import Consensus Governance Compliance Multichain ExecStaking ExecGov Executor Chain.

(** [u128::to_string] and the like. *)
Definition dec (n : Z) : bytes := pretty (Z.to_N n).

Record BlockInfo := MkBlockInfo {
  bi_hash : H256;
  bi_number : Z;
  bi_parent_hash : H256;
  bi_state_root : H256;
  bi_transactions_root : H256;
  bi_validator : Address;
  bi_epoch : Z;
  bi_slot : Z;
  bi_timestamp : Z;
  bi_gas_limit : Z;
  bi_gas_used : Z;
  bi_tx_count : Z;
}.

Definition BlockInfo_from_header (header : BlockHeader) (hash : H256) (tx_count : Z) : BlockInfo := {|
  bi_hash := hash;
  bi_number := bh_number header;
  bi_parent_hash := bh_parent_hash header;
  bi_state_root := bh_state_root header;
  bi_transactions_root := bh_transactions_root header;
  bi_validator := bh_validator header;
  bi_epoch := bh_epoch header;
  bi_slot := bh_slot header;
  bi_timestamp := bh_timestamp header;
  bi_gas_limit := bh_gas_limit header;
  bi_gas_used := bh_gas_used header;
  bi_tx_count := tx_count;
|}.

Record ChainStatus := MkChainStatus {
  cs_chain_id : ChainId;
  cs_height : Z;
  cs_head_hash : H256;
  cs_validator_count : Z;
  cs_total_stake : Amount;
  cs_total_burned : Amount;
  cs_total_minted : Amount;
}.

Record ConsensusParamsRpc := MkConsensusParamsRpc {
  cpr_epoch_length : Z;
  cpr_block_time_ms : Z;
  cpr_active_validators : Z;
  cpr_min_self_stake : Amount;
  cpr_unbonding_period_secs : Z;
  cpr_slash_double_sign_bps : Z;
  cpr_slash_downtime_bps : Z;
  cpr_downtime_threshold_pct : Z;
}.

Record GasConfigRpc := MkGasConfigRpc {
  gcr_min_gas_price : Amount;
  gcr_base_transfer_cost : Z;
  gcr_cost_per_byte : Z;
}.

Record ValidatorInfoRpc := MkValidatorInfoRpc {
  vir_address : Address;
  vir_total_stake : Amount;
  vir_self_stake : Amount;
  vir_commission_bps : Z;
  vir_is_active : bool;
}.

Record AccountInfo := MkAccountInfo {
  ai_address : Address;
  ai_balance : Amount;
  ai_nonce : Z;
  ai_is_contract : bool;
}.

Record LogInfo := MkLogInfo { li_address : Address; li_topics : list H256; li_data : bytes }.

Record ReceiptInfo := MkReceiptInfo {
  ri_tx_hash : H256;
  ri_success : bool;
  ri_gas_used : Z;
  ri_log_count : Z;
  ri_logs : list LogInfo;
}.

Definition ReceiptInfo_from (r : TransactionReceipt) : ReceiptInfo := {|
  ri_tx_hash := rc_tx_hash r;
  ri_success := rc_success r;
  ri_gas_used := rc_gas_used r;
  ri_log_count := Z.of_nat (length (rc_logs r));
  ri_logs := (λ l, MkLogInfo (log_address l) (log_topics l) ("0x" +:+ Str.hex_encode (log_data l)))
               <$> rc_logs r;
|}.

Record AssetInfo := MkAssetInfo {
  asi_id : H256;
  asi_name : string;
  asi_symbol : string;
  asi_issuer : Address;
  asi_total_supply : Amount;
  asi_status : string;
  asi_decimals : Z;
  asi_jurisdiction : string;
  asi_legal_entity : string;
  asi_transfer_mode : string;
  asi_registrar : option Address;
  asi_requires_kyc : bool;
  asi_redemption_pool : Amount;
  asi_asset_class : string;
}.

Definition asset_to_info (a : AssetRecord) : AssetInfo :=
  let asset_class : string :=
    match as_class a with
    | Equity => "equity"
    | Debt => "debt"
    | RealEstate => "real_estate"
    | Commodity => "commodity"
    | Fund => "fund"
    | IntellectualProperty => "ip"
    | CarbonCredit => "carbon"
    | Invoice => "invoice"
    | ACCustom s => "custom:" +:+ s
    end in
  let transfer_mode : string :=
    match as_transfer_mode a with
    | PeerToPeer => "PeerToPeer"
    | RegistrarMediated => "RegistrarMediated"
    end in
  {| asi_id := as_id a;
     asi_name := as_name a;
     asi_symbol := as_symbol a;
     asi_issuer := as_issuer a;
     asi_total_supply := as_total_supply a;
     asi_status := Asset.status_str a;
     asi_decimals := as_decimals a;
     asi_jurisdiction := as_jurisdiction a;
     asi_legal_entity := as_legal_entity a;
     asi_transfer_mode := transfer_mode;
     asi_registrar := as_registrar a;
     asi_requires_kyc := as_requires_kyc a;
     asi_redemption_pool := as_redemption_pool a;
     asi_asset_class := asset_class |}.

Record SlashRecordInfo := MkSlashRecordInfo {
  sri_validator : Address;
  sri_epoch : Z;
  sri_reason : string;
  sri_amount : Amount;
}.

Record RegisteredChainInfo := MkRegisteredChainInfo {
  rci_chain_id : Z;
  rci_name : bytes;
  rci_description : bytes;
  rci_validator_count : Z;
  rci_compliance_mode : string;
  rci_active : bool;
  rci_registered_at : Z;
  rci_proposer : Address;
  rci_routable : bool;
}.

Definition decode_registered_chain `{!Borsh RegisteredChain} (chain_id : Z) (data : bytes)
    : option RegisteredChainInfo :=
  record ← from_slice (A:=RegisteredChain) data;
  let compliance_mode : string :=
    if cc_requires_identity (rg_compliance record) then "permissioned" else "permissionless" in
  Some {| rci_chain_id := chain_id;
          rci_name := rg_name record;
          rci_description := rg_description record;
          rci_validator_count := rg_validator_count record;
          rci_compliance_mode := compliance_mode;
          rci_active := rg_active record;
          rci_registered_at := rg_registered_at record;
          rci_proposer := rg_proposer record;
          rci_routable := false |}.

Record AssetBalanceInfo := MkAssetBalanceInfo {
  abi_asset_id : H256;
  abi_owner : Address;
  abi_available : Amount;
  abi_locked : Amount;
}.

Record OracleFeedInfo := MkOracleFeedInfo {
  ofi_feed_id : H256;
  ofi_name : string;
  ofi_latest_value : option Amount;
  ofi_updated_at : Z;
  ofi_quorum : Z;
  ofi_sources : Z;
  ofi_decimals : Z;
}.

(** The closure shared by [get_oracle] and [list_oracles]. *)
Definition feed_to_info (f : OracleFeed) : OracleFeedInfo := {|
  ofi_feed_id := of_feed_id f;
  ofi_name := of_name f;
  ofi_latest_value := of_latest_value f;
  ofi_updated_at := of_updated_at f;
  ofi_quorum := of_quorum f;
  ofi_sources := Z.of_nat (length (of_authorized_sources f));
  ofi_decimals := of_decimals f;
|}.

Record TransactionInfo := MkTransactionInfo {
  ti_hash : H256;
  ti_block_number : Z;
  ti_from : Address;
  ti_to : option Address;
  ti_action_type : string;
  ti_amount : Amount;
  ti_nonce : Z;
  ti_gas_price : Amount;
  ti_gas_limit : Z;
  ti_timestamp : Z;
  ti_swap_pool_id : option bytes;
  ti_swap_token_in : option bytes;
  ti_swap_min_out : option Amount;
  ti_swap_amount_out : option Amount;
}.

(** The six components of the [match] of [tx_to_info]. *)
Definition describe (action : TransactionAction)
    : string * option Address * Amount * option bytes * option bytes * option Amount :=
  let plain (ty : string) to amount := (ty, to, amount, None, None, None) in
  match action with
  | Transfer to amount => plain "Transfer" (Some to) amount
  | Stake validator amount => plain "Stake" (Some validator) amount
  | Unstake validator amount => plain "Unstake" (Some validator) amount
  | AssetTransfer _ to amount => plain "AssetTransfer" (Some to) amount
  | DeployContract _ _ => plain "DeployContract" None 0
  | CallContract contract _ _ value => plain "CallContract" (Some contract) value
  | GovernanceVote _ _ => plain "GovernanceVote" None 0
  | CreateAssetClass _ _ _ total_supply _ _ _ _ => plain "CreateAssetClass" None total_supply
  | CrossChainTransfer _ to _ => plain "CrossChainTransfer" (Some to) 0
  | CreatePool _ _ amount_a _ => plain "CreatePool" None amount_a
  | AddLiquidity _ amount_a _ _ => plain "AddLiquidity" None amount_a
  | RemoveLiquidity _ lp_amount _ _ => plain "RemoveLiquidity" None lp_amount
  | Swap pool_id token_in amount_in min_amount_out =>
      ("Swap", None, amount_in, Some (Str.hex_encode (h256_bytes pool_id)),
       Some (Str.hex_encode (h256_bytes token_in)), Some min_amount_out)
  | ClaimRevenue _ => plain "ClaimRevenue" None 0
  | ClaimMiningRewards _ => plain "ClaimMiningRewards" None 0
  | DistributeRevenue _ total_amount => plain "DistributeRevenue" None total_amount
  | ProposeAssetAction _ _ _ => plain "ProposeAssetAction" None 0
  | VoteAssetProposal _ _ => plain "VoteAssetProposal" None 0
  | FinalizeAssetProposal _ => plain "FinalizeAssetProposal" None 0
  | BridgeWithdraw _ amount _ destination_address =>
      plain "BridgeWithdraw" (Some destination_address) amount
  | GovernancePropose _ _ _ _ _ _ => plain "GovernancePropose" None 0
  | FreezeAsset _ => plain "FreezeAsset" None 0
  | UnfreezeAsset _ => plain "UnfreezeAsset" None 0
  | SubmitSlashingEvidence _ => plain "SubmitSlashingEvidence" None 0
  | BridgeDeposit _ _ recipient _ amount => plain "BridgeDeposit" (Some recipient) amount
  | FundRedemptionPool _ amount => plain "FundRedemptionPool" None amount
  | ClaimRedemption _ => plain "ClaimRedemption" None 0
  | SetKycApproval address _ => plain "SetKycApproval" (Some address) 0
  | SetAddressJurisdiction address _ => plain "SetAddressJurisdiction" (Some address) 0
  | CreateOracleFeed _ _ _ _ _ _ _ => plain "CreateOracleFeed" None 0
  | SubmitOracleValue _ value => plain "SubmitOracleValue" None value
  end.

Definition tx_to_info `{!Crypto, !Borsh TransactionPayload} (tx : SignedTransaction)
    (block_number timestamp : Z) (swap_amount_out : option Amount) : TransactionInfo :=
  let '(action_type, to, amount, swap_pool_id, swap_token_in, swap_min_out) :=
    describe (tp_action (tx_payload tx)) in
  {| ti_hash := blake3_hash (to_vec (tx_payload tx));
     ti_block_number := block_number;
     ti_from := address_from_public_key (tx_public_key tx);
     ti_to := to;
     ti_action_type := action_type;
     ti_amount := amount;
     ti_nonce := tp_nonce (tx_payload tx);
     ti_gas_price := tp_gas_price (tx_payload tx);
     ti_gas_limit := tp_gas_limit (tx_payload tx);
     ti_timestamp := timestamp;
     ti_swap_pool_id := swap_pool_id;
     ti_swap_token_in := swap_token_in;
     ti_swap_min_out := swap_min_out;
     ti_swap_amount_out := swap_amount_out |}.

Record PaginatedResult (T : Type) := MkPaginatedResult {
  pg_items : list T;
  pg_total : Z;
  pg_page : Z;
  pg_page_size : Z;
}.
Arguments MkPaginatedResult {T}.
Arguments pg_items {T}.
Arguments pg_total {T}.
Arguments pg_page {T}.
Arguments pg_page_size {T}.

Record DelegationInfo := MkDelegationInfo { di_delegator : Address; di_amount : Amount }.

Record StakingInfo := MkStakingInfo {
  si_address : Address;
  si_self_stake : Amount;
  si_total_stake : Amount;
  si_commission_bps : Z;
  si_active : bool;
  si_delegations : list DelegationInfo;
}.

Record PoolInfo := MkPoolInfo {
  pi_pool_id : bytes;
  pi_token_a : bytes;
  pi_token_b : bytes;
  pi_reserve_a : bytes;
  pi_reserve_b : bytes;
  pi_lp_token_id : bytes;
  pi_lp_total_supply : bytes;
  pi_fee_bps : Z;
  pi_protocol_fee_bps : Z;
  pi_protocol_fees_a : bytes;
  pi_protocol_fees_b : bytes;
}.

Definition pool_state_to_info (pool : PoolState) : PoolInfo :=
  let hex h := Str.hex_encode (h256_bytes h) in
  {| pi_pool_id := hex (pl_pool_id pool);
     pi_token_a := hex (pl_token_a pool);
     pi_token_b := hex (pl_token_b pool);
     pi_reserve_a := dec (pl_reserve_a pool);
     pi_reserve_b := dec (pl_reserve_b pool);
     pi_lp_token_id := hex (pl_lp_token_id pool);
     pi_lp_total_supply := dec (pl_lp_total_supply pool);
     pi_fee_bps := pl_fee_bps pool;
     pi_protocol_fee_bps := pl_protocol_fee_bps pool;
     pi_protocol_fees_a := dec (pl_protocol_fees_a pool);
     pi_protocol_fees_b := dec (pl_protocol_fees_b pool) |}.

Record SwapQuoteRpc := MkSwapQuoteRpc {
  sq_amount_in : bytes;
  sq_amount_out : bytes;
  sq_price_impact_bps : Z;
  sq_fee : bytes;
}.

Record TokenPriceRpc := MkTokenPriceRpc {
  tpr_token_id : H256;
  tpr_price_in_vtt : bytes;
  tpr_pool_id : H256;
}.

Record PoolPriceRpc := MkPoolPriceRpc {
  ppr_pool_id : H256;
  ppr_token_a : H256;
  ppr_token_b : H256;
  ppr_price_a_in_b : bytes;
  ppr_price_b_in_a : bytes;
  ppr_tvl_a : bytes;
  ppr_tvl_b : bytes;
}.

Record AssetProposalInfo := MkAssetProposalInfo {
  api_id : H256;
  api_asset_id : H256;
  api_proposer : Address;
  api_action_type : string;
  api_description : string;
  api_status : string;
  api_votes_yes : Amount;
  api_votes_no : Amount;
  api_votes_abstain : Amount;
  api_voting_end : Z;
  api_created_at : Z;
}.

Definition proposal_to_info (p : AssetProposal) : AssetProposalInfo :=
  let action_type : string :=
    match ap_action p with
    | APDistributeRevenue _ => "DistributeRevenue"
    | APChangeIssuer _ => "ChangeIssuer"
    | APSignal _ => "Signal"
    | APDisposeAsset _ => "DisposeAsset"
    | APFinalizeRedemption _ => "FinalizeRedemption"
    end in
  let status : string :=
    match ap_status p with
    | APActive => "Active"
    | APPassed => "Passed"
    | APRejected => "Rejected"
    | APExecuted => "Executed"
    end in
  {| api_id := ap_id p;
     api_asset_id := ap_asset_id p;
     api_proposer := ap_proposer p;
     api_action_type := action_type;
     api_description := ap_description p;
     api_status := status;
     api_votes_yes := ap_votes_yes p;
     api_votes_no := ap_votes_no p;
     api_votes_abstain := ap_votes_abstain p;
     api_voting_end := ap_voting_end p;
     api_created_at := ap_created_at p |}.

Record ProposalInfo := MkProposalInfo {
  pri_id : H256;
  pri_proposer : Address;
  pri_description : bytes;
  pri_action_type : string;
  pri_status : string;
  pri_votes_yes : Amount;
  pri_votes_no : Amount;
  pri_votes_abstain : Amount;
  pri_created_at : Z;
  pri_voting_end : Z;
  pri_action_detail : option bytes;
}.

Definition gov_proposal_to_info (p : Proposal) : ProposalInfo :=
  let '(action_type, action_detail) :=
    match pr_action p with
    | ParameterChange key value => ("ParameterChange", key +:+ " = " +:+ value)
    | RegisterChain name _ => ("RegisterChain", "chain: " +:+ name)
    | TreasurySpend recipient amount =>
        ("TreasurySpend", amount_to_string amount +:+ " VTT to " +:+ address_to_string recipient)
    | ProtocolUpgrade version description =>
        ("ProtocolUpgrade", "v" +:+ dec version +:+ ": " +:+ description)
    | DexPause true => ("DexPause", "paused: true")
    | DexPause false => ("DexUnpause", "paused: false")
    | BridgePause true => ("BridgePause", "paused: true")
    | BridgePause false => ("BridgeUnpause", "paused: false")
    end%string in
  let status : string :=
    match pr_status p with
    | PsActive => "active"
    | PsPassed => "passed"
    | PsQueued _ => "queued"
    | PsRejected => "rejected"
    | PsExecuted => "executed"
    end in
  {| pri_id := pr_id p;
     pri_proposer := pr_proposer p;
     pri_description := pr_description p;
     pri_action_type := action_type;
     pri_status := status;
     pri_votes_yes := pr_votes_yes p;
     pri_votes_no := pr_votes_no p;
     pri_votes_abstain := pr_votes_abstain p;
     pri_created_at := pr_created_at p;
     pri_voting_end := pr_voting_end p;
     pri_action_detail := Some action_detail |}.

Record BridgeWithdrawalInfo := MkBridgeWithdrawalInfo {
  bwi_tx_hash : H256;
  bwi_block_number : Z;
  bwi_sender : Address;
  bwi_token : H256;
  bwi_amount : Amount;
  bwi_destination_chain : Z;
  bwi_destination_address : Address;
  bwi_timestamp : Z;
}.

Record NodeMetricsInfo := MkNodeMetricsInfo {
  nm_block_height : Z;
  nm_connected_peers : Z;
  nm_txpool_size : Z;
  nm_blocks_imported : Z;
  nm_transactions_executed : Z;
  nm_current_epoch : Z;
  nm_active_validators : Z;
}.
