(* ===== verification/Rpc.v ===== *)
(** * The JSON-RPC server ([crates/vtt-rpc/src/server.rs])

    The rate limiter, the state the handlers share and one definition per method
    of the interface.  The client's address and the readings of the clock (in
    nanoseconds) are arguments; locks are never poisoned. *)

From stdpp Require Import pretty.
From S2P Require Import Prelude Primitives RustStr DexMath Storage Assets Oracle StateDB Dex Codecs.
From S2P Require Import Consensus Governance Compliance Multichain ExecStaking ExecGov Executor Chain.
From S2P Require Import TxPool Relayer RpcTypes.

(** An IP address, as the bytes the limiter compares. *)
Definition IpAddr : Type := bytes.

(** ** The rate limiter *)

Record PerIpRateLimiter := MkPerIpRateLimiter {
  rl_max_calls_per_second : Z;
  rl_clients : gmap IpAddr (Z * Z);
}.

(** [now.duration_since(start).as_secs()]; earlier than [start] counts as zero. *)
Definition elapsed_secs (now start : Z) : Z := saturating_sub now start / 1000000000.

Module Limiter.
Definition new (max_calls_per_second : Z) : PerIpRateLimiter := MkPerIpRateLimiter max_calls_per_second ∅.

Definition check (now : Z) (ip : IpAddr) (l : PerIpRateLimiter) : bool * PerIpRateLimiter :=
  let entry := default (0, now) (rl_clients l !! ip) in
  let set e := MkPerIpRateLimiter (rl_max_calls_per_second l) (<[ip := e]> (rl_clients l)) in
  if 1 <=? elapsed_secs now entry.2 then (true, set (1, now))
  else if rl_max_calls_per_second l <=? entry.1 then (false, set entry)
  else (true, set (wrap 64 (entry.1 + 1), entry.2)).

Definition cleanup (now : Z) (l : PerIpRateLimiter) : PerIpRateLimiter :=
  MkPerIpRateLimiter (rl_max_calls_per_second l)
    (filter (λ kv, elapsed_secs now kv.2.2 < 60) (rl_clients l)).
End Limiter.

(** ** The shared state *)

Record RpcState := MkRpcState {
  rs_chain : Chain;
  rs_txpool : TxPool;
  rs_total_burned_milli : Z;
  rs_total_minted_milli : Z;
  rs_metrics : option NodeMetricsInfo;
  rs_send_tx_limiter : PerIpRateLimiter;
  rs_heavy_read_limiter : PerIpRateLimiter;
}.

Definition RpcState_eta (r : RpcState) : RpcState :=
  MkRpcState (rs_chain r) (rs_txpool r) (rs_total_burned_milli r) (rs_total_minted_milli r)
    (rs_metrics r) (rs_send_tx_limiter r) (rs_heavy_read_limiter r).

#[global] Instance upd_rs_chain : Updater rs_chain.
Proof. derive_updater RpcState_eta. Defined.
#[global] Instance upd_rs_txpool : Updater rs_txpool.
Proof. derive_updater RpcState_eta. Defined.
#[global] Instance upd_rs_send_tx_limiter : Updater rs_send_tx_limiter.
Proof. derive_updater RpcState_eta. Defined.
#[global] Instance upd_rs_heavy_read_limiter : Updater rs_heavy_read_limiter.
Proof. derive_updater RpcState_eta. Defined.

(** [RpcServer::new] and [RpcServer::with_metrics]. *)
Definition RpcServer_new (chain : Chain) (txpool : TxPool) (metrics : option NodeMetricsInfo) : RpcState :=
  MkRpcState chain txpool 0 0 metrics (Limiter.new 10) (Limiter.new 60).

(** The cleanup task of [RpcServer::start]. *)
Definition cleanup_tick (now : Z) (r : RpcState) : RpcState :=
  r <| rs_send_tx_limiter := Limiter.cleanup now (rs_send_tx_limiter r) |>
    <| rs_heavy_read_limiter := Limiter.cleanup now (rs_heavy_read_limiter r) |>.

(** [ErrorObjectOwned] *)
Record RpcError := MkRpcError { re_code : Z; re_message : bytes }.

Definition internal_err (ctx : bytes) : RpcError := MkRpcError (-32603) (ctx +:+ ": internal error").
Definition rate_limited : RpcError := MkRpcError (-32005) "Rate limit exceeded".

Definition MAX_TX_HEX_LEN : Z := 2 * 1024 * 1024.
Definition MAX_BLOCK_SCAN_DEPTH : Z := 20000.

(** [n as i64] of an unsigned 64-bit number. *)
Definition as_i64 (n : Z) : Z := if n <? 2 ^ 63 then n else n - 2 ^ 64.

(** [(lo..=hi).rev()] *)
Definition rev_range (lo hi : Z) : list Z := (λ i, hi - i) <$> seqZ 0 (hi - lo + 1).

(** The blocks a scan visits, newest first. *)
Definition scan_numbers (height : Z) : list Z :=
  rev_range (saturating_sub height MAX_BLOCK_SCAN_DEPTH) height.

Module Rpc.
Section with_env.
Context `{!ChainEnv, !HexDecode, !Borsh SignedTransaction}.

Abbreviation R := (M RpcState RpcError).

Definition read_chain : R Chain := gets rs_chain.
Definition read_state : R StateDB := gets (λ r, ch_state (rs_chain r)).

Definition check_limiter (get : RpcState → PerIpRateLimiter)
    (set : PerIpRateLimiter → RpcState → RpcState) (now : Z) (ip : IpAddr) : R unit := λ r,
  let '(ok, l) := Limiter.check now ip (get r) in
  ((if ok : bool then Ok tt else Err rate_limited), set l r).

Definition check_heavy_read (now : Z) (ip : IpAddr) : R unit :=
  check_limiter rs_heavy_read_limiter (λ l r, r <| rs_heavy_read_limiter := l |>) now ip.

(** ** Accounts, blocks and the chain *)

Definition get_balance (address : Address) : R Amount :=
  chain ← read_chain; mret (Chain.get_balance_of chain address).

Definition get_account (address : Address) : R AccountInfo :=
  s ← read_state;
  let account := State.get_account s address in
  mret (MkAccountInfo address (ac_balance account) (ac_nonce account) (Account.is_contract account)).

(** [block.tx_count()] *)
Definition tx_count (block : Block) : Z := Z.of_nat (length (bl_transactions block)).

Definition get_block (hash : H256) : R (option BlockInfo) :=
  chain ← read_chain;
  mret ((λ block, BlockInfo_from_header (bl_header block) hash (tx_count block))
          <$> Chain.get_block chain hash).

Definition numbered_block_info (block : Block) : BlockInfo :=
  BlockInfo_from_header (bl_header block) (Chain.block_hash (bl_header block)) (tx_count block).

Definition get_block_by_number (number : Z) : R (option BlockInfo) :=
  chain ← read_chain; mret (numbered_block_info <$> Chain.get_block_by_number chain number).

Definition chain_height : R Z := chain ← read_chain; mret (default 0 (Chain.height chain)).

Definition chain_status : R ChainStatus :=
  r ← gets id;
  let chain := rs_chain r in
  let vs := ch_validator_set chain in
  total_stake ← lift (VSet.total_stake vs);
  mret {| cs_chain_id := default ChainId_RELAY (bh_chain_id <$> Chain.head chain);
          cs_height := default 0 (Chain.height chain);
          cs_head_hash := default H256_ZERO (ch_head_hash chain);
          cs_validator_count := Z.of_nat (length (vs_validators vs));
          cs_total_stake := total_stake;
          cs_total_burned := wrap 128 (rs_total_burned_milli r * 10 ^ 15);
          cs_total_minted := wrap 128 (rs_total_minted_milli r * 10 ^ 15) |}.

Definition get_consensus_params : R ConsensusParamsRpc :=
  chain ← read_chain;
  let p := ce_params (ch_consensus chain) in
  mret {| cpr_epoch_length := epoch_length p;
          cpr_block_time_ms := block_time_ms p;
          cpr_active_validators := active_validators p;
          cpr_min_self_stake := min_self_stake p;
          cpr_unbonding_period_secs := unbonding_period_secs p;
          cpr_slash_double_sign_bps := slash_double_sign_bps p;
          cpr_slash_downtime_bps := slash_downtime_bps p;
          cpr_downtime_threshold_pct := downtime_threshold_pct p |}.

Definition get_gas_config : R GasConfigRpc :=
  chain ← read_chain;
  let g := ch_gas_config chain in
  mret (MkGasConfigRpc (min_gas_price g) (base_transfer_cost g) (cost_per_byte g)).

Definition get_validators : R (list ValidatorInfoRpc) :=
  chain ← read_chain;
  mret ((λ v, MkValidatorInfoRpc (vi_address v) (vi_total_stake v) (vi_self_stake v)
                (vi_commission_bps v) true) <$> vs_validators (ch_validator_set chain)).

Definition tx_pool_size : R Z := gets (λ r, Pool.len (rs_txpool r)).

(** ** Assets and oracles *)

Definition get_asset (asset_id : H256) : R (option AssetInfo) :=
  s ← read_state; mret (asset_to_info <$> State.get_asset s asset_id).

Definition balance_info (s : StateDB) (asset_id : H256) (address : Address) : AssetBalanceInfo :=
  let record := State.get_ownership s asset_id address in
  MkAssetBalanceInfo asset_id address (ow_available record) (ow_locked record).

Definition get_asset_balance (asset_id : H256) (address : Address) : R AssetBalanceInfo :=
  s ← read_state; mret (balance_info s asset_id address).

Definition list_assets : R (list AssetInfo) :=
  s ← read_state; mret ((λ kv, asset_to_info kv.2) <$> State.iter_assets s).

Definition get_oracle (feed_id : H256) : R (option OracleFeedInfo) :=
  s ← read_state; mret (feed_to_info <$> State.get_oracle s feed_id).

Definition list_oracles : R (list OracleFeedInfo) :=
  s ← read_state; mret ((λ kv, feed_to_info kv.2) <$> State.iter_oracles s).

(** ** Submitting a transaction *)

(** [hex::decode], then [borsh::from_slice]. *)
Definition decode_transaction (tx_hex : bytes) : res RpcError SignedTransaction :=
  tx_bytes ← ok_or (MkRpcError (-32602) "invalid hex encoding") (hex_decode tx_hex);
  ok_or (MkRpcError (-32602) "Invalid transaction") (from_slice tx_bytes).

(** [pool.add(..)] under the pool's lock. *)
Definition pool_add (tx : SignedTransaction) (sender : Address) (account_nonce now : Z) : R unit := λ r,
  let '(a, pool) := Pool.add tx sender account_nonce now (rs_txpool r) in
  (match a with
   | Ok _ => Ok tt
   | Err _ => Err (MkRpcError (-32603) "Pool operation failed")
   | Panic => Panic
   end, r <| rs_txpool := pool |>).

Definition send_transaction (now now' : Z) (ip : IpAddr) (tx_hex : bytes) : R H256 :=
  _ ← check_limiter rs_send_tx_limiter (λ l r, r <| rs_send_tx_limiter := l |>) now ip;
  _ ← fail_if (MAX_TX_HEX_LEN <? blen tx_hex) (MkRpcError (-32602) "tx_hex too large");
  tx ← lift (decode_transaction tx_hex);
  let tx_hash := blake3_hash (to_vec (tx_payload tx)) in
  let sender := address_from_public_key (tx_public_key tx) in
  s ← read_state;
  let account_nonce := State.get_nonce s sender in
  _ ← pool_add tx sender account_nonce now';
  mret tx_hash.

(** ** Staking *)

Definition get_staking_info (address : Address) : R (option StakingInfo) :=
  s ← read_state;
  mret ((λ k, MkStakingInfo address (sk_self_stake k) (sk_total_stake k) (sk_commission_bps k)
                (sk_active k)
                ((λ d, MkDelegationInfo (dg_delegator d) (dg_amount d)) <$> sk_delegations k))
          <$> ac_staking (State.get_account s address)).

(** ** Pools *)

Definition decode_pool (data : bytes) : res RpcError PoolState :=
  ok_or (internal_err "pool deserialize") (from_slice data).

Definition list_pools : R (list PoolInfo) :=
  s ← read_state;
  lift (mapM (λ kv, pool ← decode_pool kv.2; Ok (pool_state_to_info pool)) (State.iter_pools s)).

Definition get_pool (pool_id : H256) : R (option PoolInfo) :=
  s ← read_state;
  match State.get_pool_raw s pool_id with
  | None => mret None
  | Some data => pool ← lift (decode_pool data); mret (Some (pool_state_to_info pool))
  end.

(** [a.saturating_mul(10^18)]. *)
Definition scaled (a : Z) : Z := saturating_mul 128 a (10 ^ 18).

(** The loop of [get_token_price]. *)
Fixpoint find_price (token_id : H256) (pools : list (H256 * bytes)) : res RpcError (option TokenPriceRpc) :=
  match pools with
  | [] => Ok None
  | (_, data) :: pools =>
      pool ← decode_pool data;
      let ra := pl_reserve_a pool in
      let rb := pl_reserve_b pool in
      if bool_decide (pl_token_a pool = token_id) && is_native (pl_token_b pool) && (0 <? ra) then
        Ok (Some (MkTokenPriceRpc token_id (dec (scaled rb / ra)) (pl_pool_id pool)))
      else if bool_decide (pl_token_b pool = token_id) && is_native (pl_token_a pool) && (0 <? rb) then
        Ok (Some (MkTokenPriceRpc token_id (dec (scaled ra / rb)) (pl_pool_id pool)))
      else find_price token_id pools
  end.

Definition get_token_price (token_id : H256) : R (option TokenPriceRpc) :=
  s ← read_state; lift (find_price token_id (State.iter_pools s)).

Definition pool_price (pool : PoolState) : PoolPriceRpc :=
  let ra := pl_reserve_a pool in
  let rb := pl_reserve_b pool in
  let price_a_in_b := default 0 (checked_div (scaled rb) ra) in
  let price_b_in_a := default 0 (checked_div (scaled ra) rb) in
  {| ppr_pool_id := pl_pool_id pool;
     ppr_token_a := pl_token_a pool;
     ppr_token_b := pl_token_b pool;
     ppr_price_a_in_b := dec price_a_in_b;
     ppr_price_b_in_a := dec price_b_in_a;
     ppr_tvl_a := dec ra;
     ppr_tvl_b := dec rb |}.

Definition get_pool_prices : R (list PoolPriceRpc) :=
  s ← read_state;
  lift (mapM (λ kv, pool ← decode_pool kv.2; Ok (pool_price pool)) (State.iter_pools s)).

(** [((amount_in_net as u64).saturating_mul(10_000) / reserve_in.min(u64::MAX) as u64) as u32] *)
Definition price_impact_bps (amount_in_net reserve_in : Z) : Z :=
  if 0 <? reserve_in then
    wrap 32 (saturating_mul 64 (wrap 64 amount_in_net) 10000 / Z.min reserve_in (2 ^ 64 - 1))
  else 0.

Definition math_err {A} (ctx : bytes) (m : res DexError A) : res RpcError A :=
  res_map_err (λ _, internal_err ctx) m.

Definition get_swap_quote (pool_id : H256) (amount_in : bytes) (a_to_b : bool) : R SwapQuoteRpc :=
  amount_in_u128 ← lift (ok_or (MkRpcError (-32602) "invalid amount_in: expected decimal u128")
                           (Str.parse 128 amount_in));
  s ← read_state;
  data ← lift (ok_or (MkRpcError (-32602) "pool not found") (State.get_pool_raw s pool_id));
  pool ← lift (decode_pool data);
  let '(reserve_in, reserve_out) :=
    if a_to_b then (pl_reserve_a pool, pl_reserve_b pool) else (pl_reserve_b pool, pl_reserve_a pool) in
  fees ← lift (math_err "fee calculation"
           (calculate_fees amount_in_u128 (pl_fee_bps pool) (pl_protocol_fee_bps pool)));
  let '(amount_in_net, _, _) := fees in
  let total_fee := saturating_sub amount_in_u128 amount_in_net in
  amount_out ← lift (math_err "swap quote" (get_amount_out amount_in_net reserve_in reserve_out));
  mret {| sq_amount_in := dec amount_in_u128;
          sq_amount_out := dec amount_out;
          sq_price_impact_bps := price_impact_bps amount_in_net reserve_in;
          sq_fee := dec total_fee |}.

(** ** Transactions *)

(** The amount of the first log of a swap with enough data. *)
Fixpoint swap_log_amount (swap_topic : H256) (logs : list Log) : option Amount :=
  match logs with
  | [] => None
  | log :: logs =>
      if bool_decide (head (log_topics log) = Some swap_topic) && (16 <=? blen (log_data log))
      then Some (from_le_bytes (btake 16 (log_data log)))
      else swap_log_amount swap_topic logs
  end.

Definition lookup_swap_amount_out (chain : Chain) (tx_hash : H256) : option Amount :=
  receipt ← Chain.get_receipt chain tx_hash;
  if negb (rc_success receipt) then None
  else swap_log_amount (blake3_hash "Swap") (rc_logs receipt).

Definition is_swap (tx : SignedTransaction) : bool :=
  match tp_action (tx_payload tx) with Swap _ _ _ _ => true | _ => false end.

(** The entry of one transaction of a block in a listing. *)
Definition listed (chain : Chain) (header : BlockHeader) (tx : SignedTransaction) : TransactionInfo :=
  let swap_out := if is_swap tx then lookup_swap_amount_out chain (Tx.tx_hash tx) else None in
  tx_to_info tx (bh_number header) (bh_timestamp header) swap_out.

(** The loop over the transactions of a block. *)
Fixpoint collect_block (accept : TransactionInfo → bool) (cap : Z) (chain : Chain) (header : BlockHeader)
    (block_txs : list SignedTransaction) (txs : list TransactionInfo) : list TransactionInfo :=
  match block_txs with
  | [] => txs
  | tx :: block_txs =>
      let info := listed chain header tx in
      if accept info then
        let txs := txs ++ [info] in
        if cap <=? Z.of_nat (length txs) then txs
        else collect_block accept cap chain header block_txs txs
      else collect_block accept cap chain header block_txs txs
  end.

(** The loop over the blocks. *)
Fixpoint collect_blocks (accept : TransactionInfo → bool) (cap : Z) (chain : Chain)
    (numbers : list Z) (txs : list TransactionInfo) : list TransactionInfo :=
  match numbers with
  | [] => txs
  | n :: numbers =>
      if cap <=? Z.of_nat (length txs) then txs
      else
        collect_blocks accept cap chain numbers
          match Chain.get_block_by_number chain n with
          | Some block => collect_block accept cap chain (bl_header block) (bl_transactions block) txs
          | None => txs
          end
  end.

Definition collect_txs_until (chain : Chain) (accept : TransactionInfo → bool) (cap : Z)
    : list TransactionInfo :=
  collect_blocks accept cap chain (scan_numbers (default 0 (Chain.height chain))) [].

(** What the two paginated methods share; [usize] has 64 bits. *)
Definition paginate (accept : TransactionInfo → bool) (page limit : Z) (chain : Chain)
    : PaginatedResult TransactionInfo :=
  let limit := Z.min limit 100 in
  let need := saturating_mul 64 (wrap 64 (page + 1)) limit in
  let collected := collect_txs_until chain accept need in
  let total := Z.of_nat (length collected) in
  let start := wrap 64 (page * limit) in
  let items := take (Z.to_nat limit) (drop (Z.to_nat start) collected) in
  MkPaginatedResult items total page limit.

Definition list_transactions (now : Z) (ip : IpAddr) (page limit : Z) : R (PaginatedResult TransactionInfo) :=
  _ ← check_heavy_read now ip;
  chain ← read_chain;
  mret (paginate (λ _, true) page limit chain).

Definition involves (address : Address) (tx : TransactionInfo) : bool :=
  bool_decide (ti_from tx = address) || bool_decide (ti_to tx = Some address).

Definition get_transactions_by_address (now : Z) (ip : IpAddr) (address : Address) (page limit : Z)
    : R (PaginatedResult TransactionInfo) :=
  _ ← check_heavy_read now ip;
  chain ← read_chain;
  mret (paginate (involves address) page limit chain).

Definition found (chain : Chain) (block : Block) (hash : H256) (tx : SignedTransaction) : TransactionInfo :=
  tx_to_info tx (bh_number (bl_header block)) (bh_timestamp (bl_header block))
    (lookup_swap_amount_out chain hash).

(** The answer from the index of transactions. *)
Definition find_indexed (chain : Chain) (hash : H256) : option TransactionInfo :=
  '(n, idx) ← Chain.get_tx_location chain hash;
  block ← Chain.get_block_by_number chain n;
  tx ← bl_transactions block !! Z.to_nat idx;
  Some (found chain block hash tx).

(** The scan for transactions that were never indexed. *)
Fixpoint find_scanned (chain : Chain) (hash : H256) (numbers : list Z) : option TransactionInfo :=
  match numbers with
  | [] => None
  | n :: numbers =>
      match (block ← Chain.get_block_by_number chain n;
             tx ← List.find (λ tx, bool_decide (Tx.tx_hash tx = hash)) (bl_transactions block);
             Some (found chain block (Tx.tx_hash tx) tx)) with
      | Some info => Some info
      | None => find_scanned chain hash numbers
      end
  end.

Definition get_transaction (hash : H256) : R (option TransactionInfo) :=
  chain ← read_chain;
  mret match find_indexed chain hash with
       | Some info => Some info
       | None => find_scanned chain hash (scan_numbers (default 0 (Chain.height chain)))
       end.

Definition get_transaction_receipt (tx_hash : H256) : R (option ReceiptInfo) :=
  chain ← read_chain; mret (ReceiptInfo_from <$> Chain.get_receipt chain tx_hash).

(** ** Proposals, bridge and monitoring *)

Definition get_asset_proposals (asset_id : H256) : R (list AssetProposalInfo) :=
  s ← read_state; mret (proposal_to_info <$> State.iter_asset_proposals_for_asset s asset_id).

Definition get_asset_proposal (proposal_id : H256) : R (option AssetProposalInfo) :=
  s ← read_state; mret (proposal_to_info <$> State.get_asset_proposal s proposal_id).

(** The withdrawal a transaction of a block asks for. *)
Definition withdrawal_of (header : BlockHeader) (tx : SignedTransaction) : option BridgeWithdrawalInfo :=
  match tp_action (tx_payload tx) with
  | BridgeWithdraw token amount destination_chain destination_address =>
      Some (MkBridgeWithdrawalInfo (Tx.tx_hash tx) (bh_number header)
              (address_from_public_key (tx_public_key tx)) token amount destination_chain
              destination_address (bh_timestamp header))
  | _ => None
  end.

Definition get_bridge_withdrawals (now : Z) (ip : IpAddr) : R (list BridgeWithdrawalInfo) :=
  _ ← check_heavy_read now ip;
  chain ← read_chain;
  mret (scan_numbers (default 0 (Chain.height chain)) ≫= λ n,
          match Chain.get_block_by_number chain n with
          | Some block => omap (withdrawal_of (bl_header block)) (bl_transactions block)
          | None => []
          end).

Definition get_node_metrics : R NodeMetricsInfo :=
  r ← gets id;
  match rs_metrics r with
  | Some m => mret m
  | None =>
      mret {| nm_block_height := as_i64 (default 0 (Chain.height (rs_chain r)));
              nm_connected_peers := 0;
              nm_txpool_size := as_i64 (Pool.len (rs_txpool r));
              nm_blocks_imported := 0;
              nm_transactions_executed := 0;
              nm_current_epoch := 0;
              nm_active_validators :=
                as_i64 (Z.of_nat (length (vs_validators (ch_validator_set (rs_chain r))))) |}
  end.

Definition list_proposals : R (list ProposalInfo) :=
  s ← read_state;
  mret (omap (λ kv, gov_proposal_to_info <$> from_slice (A:=Proposal) kv.2)
          (State.iter_governance_proposals s)).

(** [e] is the text of the codec's error. *)
Definition get_proposal (e : bytes) (id : H256) : R (option ProposalInfo) :=
  s ← read_state;
  match State.get_governance_proposal s id with
  | None => mret None
  | Some data =>
      p ← lift (ok_or (MkRpcError (-32603) ("proposal deserialize: " +:+ e)) (from_slice (A:=Proposal) data));
      mret (Some (gov_proposal_to_info p))
  end.

Definition get_block_range (from count : Z) : R (list BlockInfo) :=
  let count := Z.min count 100 in
  chain ← read_chain;
  mret (omap (λ n, numbered_block_info <$> Chain.get_block_by_number chain n)
          (seqZ from (saturating_add 64 from count - from))).

Definition get_asset_balances (address : Address) (asset_ids : list H256) : R (list AssetBalanceInfo) :=
  _ ← fail_if (100 <? Z.of_nat (length asset_ids)) (MkRpcError (-32602) "too many asset_ids (max 100)");
  s ← read_state;
  mret ((λ asset_id, balance_info s asset_id address) <$> asset_ids).

Definition is_kyc_approved (address : Address) : R bool :=
  s ← read_state; mret (State.is_kyc_approved s address).

Definition get_bridge_relayer : R Address := s ← read_state; mret (State.bridge_relayer s).

Definition get_slashing_history (validator : Address) : R (list SlashRecordInfo) :=
  s ← read_state;
  mret ((λ '(epoch, reason, amount), MkSlashRecordInfo validator epoch reason amount)
          <$> State.slashing_history_raw s validator).

Definition list_registered_chains : R (list RegisteredChainInfo) :=
  s ← read_state;
  mret (stable_sort (λ a b, rci_chain_id a <=? rci_chain_id b)
          (omap (λ kv, decode_registered_chain kv.1 kv.2) (State.iter_registered_chains s))).

Definition get_registered_chain (chain_id : Z) : R (option RegisteredChainInfo) :=
  s ← read_state;
  mret (State.get_registered_chain s chain_id ≫= decode_registered_chain chain_id).

End with_env.
End Rpc.
