(* ===== verification/RpcProps.v ===== *)
(** * Properties of the JSON-RPC server

    Listings and their pages, rate limits, lookups through the index of
    transactions, quotes against executed swaps, and submission. *)

From stdpp Require Import pretty.
From S2P Require Import Prelude Primitives RustStr DexMath Storage Assets Oracle StateDB Dex Codecs.
From S2P Require Import Consensus Governance Compliance Multichain ExecStaking ExecGov Executor Chain.
From S2P Require Import DexProps ContractHost TxPool Relayer RpcTypes Rpc.

(** ** Listings *)

Section listings.
Context `{!ChainEnv, !HexDecode, !Borsh SignedTransaction}.
Import Rpc.

(** The entries of one block, in the block's order. *)
Definition block_entries (chain : Chain) (n : Z) : list TransactionInfo :=
  match Chain.get_block_by_number chain n with
  | Some block => listed chain (bl_header block) <$> bl_transactions block
  | None => []
  end.

(** Everything a scan can show, newest block first. *)
Definition history_of (accept : TransactionInfo → bool) (chain : Chain) : list TransactionInfo :=
  filter accept (scan_numbers (default 0 (Chain.height chain)) ≫= block_entries chain).

Lemma collect_block_take accept cap chain header block_txs txs :
  Z.of_nat (length txs) < cap →
  collect_block accept cap chain header block_txs txs
  = take (Z.to_nat cap) (txs ++ filter accept (listed chain header <$> block_txs)).
Proof.
  revert txs. induction block_txs as [|tx block_txs IH]; intros txs Hcap; cbn [collect_block fmap list_fmap].
  - rewrite filter_nil, app_nil_r, take_ge by lia. done.
  - rewrite filter_cons. destruct (accept (listed chain header tx)) eqn:Ha; cbn [Is_true].
    + rewrite decide_True by done.
      rewrite (cons_middle (listed chain header tx) txs (filter _ _)), app_assoc.
      destruct (Z.leb_spec cap (Z.of_nat (length (txs ++ [listed chain header tx])))) as [Hle|Hlt].
      * assert (Hlen : length (txs ++ [listed chain header tx]) = Z.to_nat cap)
          by (rewrite length_app in *; cbn in *; lia).
        by rewrite <-Hlen, take_app_length.
      * by apply IH.
    + rewrite decide_False by (intros []). by apply IH.
Qed.

Lemma collect_blocks_take accept cap chain numbers txs :
  Z.of_nat (length txs) <= cap →
  collect_blocks accept cap chain numbers txs
  = take (Z.to_nat cap) (txs ++ filter accept (numbers ≫= block_entries chain)).
Proof.
  revert txs. induction numbers as [|n numbers IH]; intros txs Hcap; cbn [collect_blocks].
  - cbn. rewrite app_nil_r, take_ge by lia. done.
  - destruct (Z.leb_spec cap (Z.of_nat (length txs))) as [Hle|Hlt].
    { rewrite take_app_le by lia. by rewrite take_ge by lia. }
    cbn [mbind list_bind]. rewrite filter_app, app_assoc. unfold block_entries at 1.
    destruct (Chain.get_block_by_number chain n) as [b|].
    + rewrite collect_block_take by done. rewrite IH by (rewrite length_take; lia).
      set (l := txs ++ _). destruct (decide (length l <= Z.to_nat cap)%nat).
      * by rewrite (take_ge l) by done.
      * rewrite take_app_le by (rewrite length_take; lia).
        rewrite (take_app_le l) by lia. by rewrite take_take, Nat.min_id.
    + rewrite filter_nil, app_nil_r. apply IH. lia.
Qed.

Lemma collect_txs_until_take chain accept cap :
  0 <= cap → collect_txs_until chain accept cap = take (Z.to_nat cap) (history_of accept chain).
Proof. intros. unfold collect_txs_until, history_of. by rewrite collect_blocks_take. Qed.

(** The [page]-th page of [limit] entries. *)
Lemma paginate_items accept page limit chain :
  0 <= page → 0 <= limit <= 100 → (page + 1) * limit < 2 ^ 64 → page + 1 < 2 ^ 64 →
  pg_items (paginate accept page limit chain)
  = take (Z.to_nat limit) (drop (Z.to_nat (page * limit)) (history_of accept chain)).
Proof.
  intros Hp Hl Hn Hp'. unfold paginate. cbn [pg_items]. rewrite (Z.min_l limit) by lia.
  rewrite (wrap_small 64 (page + 1)) by (unfold in_width; lia).
  rewrite (wrap_small 64 (page * limit)) by (unfold in_width; nia).
  unfold saturating_mul, umax. rewrite Z.min_l by lia. rewrite collect_txs_until_take by nia.
  rewrite !take_drop_commute, take_take. do 2 f_equal. nia.
Qed.

Lemma take_pages {A} (l : list A) (size k : nat) :
  concat ((λ i, take size (drop (i * size) l)) <$> seq 0 k) = take (k * size) l.
Proof.
  induction k as [|k IH]; [done|]. rewrite seq_S, fmap_app, concat_app, IH. cbn [fmap list_fmap concat].
  rewrite app_nil_r, take_take_drop. f_equal. lia.
Qed.

(** C35: Pages neither lose nor repeat a transaction.  On a fixed chain, for a page
    size up to the cap of 100, the first [k] pages joined together are the first
    [k * limit] accepted transactions of the canonical blocks in reach of the
    scan, newest block first; pages past the end are empty. *)
Theorem pages_partition accept limit (k : nat) chain :
  0 < limit <= 100 → Z.of_nat k * limit < 2 ^ 64 →
  concat ((λ i, pg_items (paginate accept (Z.of_nat i) limit chain)) <$> seq 0 k)
  = take (k * Z.to_nat limit) (history_of accept chain).
Proof.
  intros Hl Hk. rewrite <-take_pages. f_equal. apply list_fmap_ext. intros i j Hj.
  apply lookup_seq in Hj as [-> Hj]. cbn [plus] in *. rewrite paginate_items by nia.
  do 2 f_equal. nia.
Qed.
End listings.

(** ** Rate limits *)

(** Calls of one client at given times: who is let through. *)
Fixpoint check_all (ip : IpAddr) (times : list Z) (l : PerIpRateLimiter) : list bool * PerIpRateLimiter :=
  match times with
  | [] => ([], l)
  | t :: times =>
      let '(ok, l) := Limiter.check t ip l in
      let '(oks, l) := check_all ip times l in
      (ok :: oks, l)
  end.

Definition granted (oks : list bool) : Z := Z.of_nat (length (filter (λ b, b = true) oks)).

Lemma granted_cons b oks : granted (b :: oks) = (if b : bool then 1 else 0) + granted oks.
Proof.
  unfold granted. rewrite filter_cons.
  destruct b; [rewrite decide_True by done|rewrite decide_False by done]; cbn [length]; lia.
Qed.

Definition SECOND : Z := 1000000000.

Lemma elapsed_within now start : start <= now < start + SECOND → elapsed_secs now start = 0.
Proof. intros. unfold elapsed_secs, saturating_sub, SECOND in *. apply Z.div_small. lia. Qed.

Lemma elapsed_le now start k : 0 <= k → k <= elapsed_secs now start ↔ k * SECOND <= now - start ∨ k = 0.
Proof.
  intros Hk. unfold elapsed_secs, saturating_sub, SECOND in *. split.
  - intros H. destruct (decide (k = 0)); [by right|left]. assert (k * 1000000000 <= Z.max (now - start) 0); [|nia].
    pose proof (Z.mul_div_le (Z.max (now - start) 0) 1000000000). nia.
  - intros [H | ->]; [|apply Z.div_pos; lia]. apply Z.div_le_lower_bound; lia.
Qed.

Section limits.
Variable max : Z.
Hypothesis Hmax : 1 <= max < 2 ^ 64.
Implicit Types (l : PerIpRateLimiter) (t : Z) (e : Z * Z).

Definition entry_of l ip t : Z * Z := default (0, t) (rl_clients l !! ip).

(** What a call does to the entry of its client. *)
Lemma check_step t ip l ok l' :
  rl_max_calls_per_second l = max → 0 <= (entry_of l ip t).1 <= max → Limiter.check t ip l = (ok, l') →
  rl_max_calls_per_second l' = max ∧ ∃ e, rl_clients l' !! ip = Some e ∧
  let '(c, start) := entry_of l ip t in
  (1 <= elapsed_secs t start ∧ ok = true ∧ e = (1, t))
  ∨ (elapsed_secs t start < 1 ∧ ok = true ∧ c < max ∧ e = (c + 1, start))
  ∨ (elapsed_secs t start < 1 ∧ ok = false ∧ c = max ∧ e = (c, start)).
Proof.
  intros Hm Hc. unfold Limiter.check. rewrite Hm. fold (entry_of l ip t).
  destruct (entry_of l ip t) as [c start]; cbn [fst snd] in *.
  destruct (Z.leb_spec 1 (elapsed_secs t start)); [|destruct (Z.leb_spec max c)]; intros [= <- <-];
    (split; [done|]); eexists; cbn [rl_clients]; rewrite lookup_insert_eq; (split; [done|]).
  - by left.
  - right; right. repeat split; try done. lia.
  - right; left. rewrite wrap_small by (unfold in_width; lia). repeat split; done.
Qed.

Lemma entry_of_Some l ip t e : rl_clients l !! ip = Some e → entry_of l ip t = e.
Proof. unfold entry_of. by intros ->. Qed.

(** Within the second of an entry, what is left of it. *)
Lemma granted_in_window ip times l c start :
  rl_max_calls_per_second l = max → rl_clients l !! ip = Some (c, start) → 0 <= c <= max →
  Forall (λ t, start <= t < start + SECOND) times →
  granted (check_all ip times l).1 <= max - c.
Proof.
  revert l c. induction times as [|t times IH]; intros l c Hm He Hc Ht; cbn [check_all].
  { unfold granted; cbn. lia. }
  apply Forall_cons in Ht as [Ht Hts]. destruct (Limiter.check t ip l) as [ok l'] eqn:Hk.
  destruct (check_step t ip l ok l' Hm) as (Hm' & e & He' & Hcase);
    [by rewrite (entry_of_Some _ _ _ _ He)|done|].
  rewrite (entry_of_Some _ _ _ _ He), (elapsed_within t start) in Hcase by done.
  destruct (check_all ip times l') as [oks l''] eqn:Hrest. cbn [fst]. rewrite granted_cons.
  destruct Hcase as [(? & _)|[(_ & -> & ? & ->)|(_ & -> & -> & ->)]]; [lia| |].
  - specialize (IH l' (c + 1) Hm' He' ltac:(lia) Hts). rewrite Hrest in IH. cbn in IH. lia.
  - specialize (IH l' max Hm' He' ltac:(lia) Hts). rewrite Hrest in IH. cbn in IH. lia.
Qed.

Lemma granted_in_second ip times l t0 :
  rl_max_calls_per_second l = max → StronglySorted Z.le times →
  Forall (λ t, t0 <= t < t0 + SECOND) times → (∀ t, 0 <= (entry_of l ip t).1 <= max) →
  granted (check_all ip times l).1 <= 2 * max.
Proof.
  intros Hm Hs Ht He. enough (∀ t, granted (check_all ip times l).1 <= 2 * max - (entry_of l ip t).1) as Hall.
  { specialize (Hall 0). specialize (He 0). lia. }
  revert l Hm He. induction times as [|t times IH]; intros l Hm He t'; cbn [check_all].
  { unfold granted; cbn. specialize (He t'). lia. }
  apply Forall_cons in Ht as [Ht Hts]. apply StronglySorted_inv in Hs as [Hs Hle].
  destruct (Limiter.check t ip l) as [ok l'] eqn:Hk.
  destruct (check_step t ip l ok l' Hm (He t) Hk) as (Hm' & e & He' & Hcase).
  assert (Hsame : (entry_of l ip t').1 = (entry_of l ip t).1)
    by (unfold entry_of; by destruct (rl_clients l !! ip)). rewrite Hsame. specialize (He t).
  destruct (entry_of l ip t) as [c start]; cbn [fst] in *.
  destruct (check_all ip times l') as [oks l''] eqn:Hrest. cbn [fst]. rewrite granted_cons.
  assert (Hok : 0 <= e.1 <= max → granted oks <= 2 * max - e.1).
  { intros Hr. specialize (IH Hs Hts l' Hm'). rewrite Hrest in IH. cbn [fst] in IH.
    rewrite <-(entry_of_Some _ _ 0 _ He'). apply IH. intros. by rewrite (entry_of_Some _ _ _ _ He'). }
  destruct Hcase as [(_ & -> & ->)|[(_ & -> & ? & ->)|(_ & -> & -> & ->)]]; cbn [fst] in *; [|lia|lia].
  pose proof (granted_in_window ip times l' 1 t Hm' He' ltac:(lia)) as Hw. rewrite Hrest in Hw. cbn [fst] in Hw.
  enough (granted oks <= max - 1) by lia. apply Hw. rewrite Forall_forall in *. intros u Hu.
  specialize (Hts u Hu). specialize (Hle u Hu). lia.
Qed.
End limits.

(** What happens to a limiter: calls of any client, and the cleanup task. *)
Inductive LimiterEvent := LCheck (t : Z) (ip : IpAddr) | LCleanup (t : Z).

Definition limiter_run (evs : list LimiterEvent) (l : PerIpRateLimiter) : PerIpRateLimiter :=
  foldl (λ l ev, match ev with
                 | LCheck t ip => (Limiter.check t ip l).2
                 | LCleanup t => Limiter.cleanup t l
                 end) l evs.

Definition limiter_ok (max : Z) (l : PerIpRateLimiter) : Prop :=
  rl_max_calls_per_second l = max ∧ ∀ ip e, rl_clients l !! ip = Some e → 0 <= e.1 <= max.

Lemma limiter_ok_entry max l ip t : 1 <= max → limiter_ok max l → 0 <= (entry_of l ip t).1 <= max.
Proof.
  intros Hmax [_ Hl]. unfold entry_of. destruct (rl_clients l !! ip) as [e|] eqn:He; cbn; [by eapply Hl|lia].
Qed.

Lemma limiter_run_ok max evs l : 1 <= max < 2 ^ 64 → limiter_ok max l → limiter_ok max (limiter_run evs l).
Proof.
  intros Hmax. revert l. induction evs as [|[t ip|t] evs IH]; intros l Hl; [done|apply IH..].
  - destruct (Limiter.check t ip l) as [ok l'] eqn:Hk.
    destruct (check_step max Hmax t ip l ok l' (proj1 Hl) (limiter_ok_entry max l ip t (proj1 Hmax) Hl) Hk)
      as (Hm' & e & He & Hcase).
    pose proof (limiter_ok_entry max l ip t (proj1 Hmax) Hl) as Hin. cbn [snd]. split; [done|]. intros ip' e' He'.
    destruct (decide (ip' = ip)) as [->|Hne].
    + rewrite He in He'. injection He' as <-. destruct (entry_of l ip t) as [c start]; cbn [fst] in *.
      destruct Hcase as [(_ & _ & ->)|[(_ & _ & ? & ->)|(_ & _ & -> & ->)]]; cbn; lia.
    + apply (proj2 Hl ip'). revert Hk He'. unfold Limiter.check.
      repeat case_match; intros [= <- <-]; cbn; by rewrite lookup_insert_ne.
  - split; [apply Hl|]. intros ip e. cbn. rewrite map_lookup_filter_Some. intros [He _]. by eapply Hl.
Qed.

(** Dropping idle entries never changes the answer to a later call. *)
Lemma cleanup_transparent max l now t ip :
  1 <= max → rl_max_calls_per_second l = max → now <= t →
  (Limiter.check t ip (Limiter.cleanup now l)).1 = (Limiter.check t ip l).1
  ∧ rl_clients (Limiter.check t ip (Limiter.cleanup now l)).2 !! ip
    = rl_clients (Limiter.check t ip l).2 !! ip.
Proof.
  intros Hmax Hm Hle. unfold Limiter.check. cbn [rl_clients rl_max_calls_per_second Limiter.cleanup].
  rewrite Hm. destruct (rl_clients l !! ip) as [[c start]|] eqn:He.
  2:{ rewrite (proj2 (map_lookup_filter_None _ _ _)) by (by left). by repeat case_match; cbn; rewrite !lookup_insert_eq. }
  destruct (decide (elapsed_secs now start < 60)) as [Hyoung|Hold].
  { rewrite (map_lookup_filter_Some_2 _ _ _ _ He) by done. by repeat case_match; cbn; rewrite !lookup_insert_eq. }
  rewrite (proj2 (map_lookup_filter_None _ _ _)) by (right; intros x Hx; by simplify_eq).
  cbn [default id fst snd from_option].
  assert (Hidle : 1 <= elapsed_secs t start).
  { apply Z.nlt_ge, elapsed_le in Hold as [?|?]; [|lia..]. apply elapsed_le; [lia|]. left. unfold SECOND in *. lia. }
  apply Z.leb_le in Hidle as ->. rewrite (elapsed_within t t) by (unfold SECOND; lia).
  cbn [Z.leb Z.compare]. destruct (Z.leb_spec max 0); [lia|]. cbn. by rewrite !lookup_insert_eq.
Qed.

(** The rate limit.  Whatever clients called before and whenever idle entries
    were dropped, the calls of one client that fall into one second, in the order
    of time, are let through at most twice the configured number of times; the
    cleanup never changes an answer. *)
Theorem rate_limit_bounds max evs ip times t0 :
  1 <= max < 2 ^ 64 → StronglySorted Z.le times → Forall (λ t, t0 <= t < t0 + SECOND) times →
  let l := limiter_run evs (Limiter.new max) in
  granted (check_all ip times l).1 <= 2 * max
  ∧ ∀ now t, now <= t → (Limiter.check t ip (Limiter.cleanup now l)).1 = (Limiter.check t ip l).1.
Proof.
  intros Hmax Hs Ht l. assert (Hl : limiter_ok max l) by (apply limiter_run_ok; [done|]; split; [done|]; by intros).
  split.
  - apply (granted_in_second max Hmax ip times l t0); [apply Hl|done..|].
    intros t. apply limiter_ok_entry; [lia|done].
  - intros now t Hle. apply (cleanup_transparent max); [lia|apply Hl|done].
Qed.

(** The bound is met: ten calls at the end of a window and ten after it. *)
Lemma rate_limit_bounds_witness :
  let times := replicate 1 0 ++ replicate 9 999999999 ++ replicate 10 1000000000 in
  granted (check_all "a" times (Limiter.new 10)).1 = 20
  ∧ granted (check_all "a" (drop 1 times) (limiter_run [LCheck 0 "a"] (Limiter.new 10))).1 <= 2 * 10.
Proof.
  split; [vm_compute; reflexivity|].
  apply (rate_limit_bounds 10 [LCheck 0 "a"] "a" _ 999999999).
  - lia.
  - repeat constructor; discriminate.
  - repeat constructor; unfold SECOND; lia.
Defined.

(** ** Quotes *)

(** A number printed in decimal is read back. *)
Lemma push_digit_next w q d :
  0 <= q → 0 <= d < 10 → q * 10 + d < 2 ^ w → Str.push_digit w 10 (Some q) (d + 48) = Some (q * 10 + d).
Proof.
  intros Hq Hd Hw. unfold Str.push_digit, Str.to_digit. cbn [mbind option_bind].
  rewrite (proj2 (Z.leb_le 48 (d + 48))), (proj2 (Z.leb_le (d + 48) 57)) by lia. cbn [andb].
  replace (d + 48 - 48) with d by lia. rewrite (proj2 (Z.ltb_lt d 10)) by lia. cbn [mbind option_bind].
  rewrite (proj2 (checked_mul_Some w q 10 (q * 10))) by (unfold in_width; lia). cbn [mbind option_bind].
  apply checked_add_Some. unfold in_width. lia.
Qed.

Lemma pretty_digit (x : N) : (x < 10)%N → Z_of_byte (pretty_N_char x) = Z.of_N x + 48.
Proof.
  intros Hx. assert (Hin : In x ((λ i, Z.to_N i) <$> seqZ 0 10)).
  { apply list_elem_of_In, list_elem_of_fmap. exists (Z.of_N x). rewrite elem_of_seqZ. lia. }
  repeat (destruct Hin as [<-|Hin]; [reflexivity|]). destruct Hin.
Qed.

Lemma push_digits w x s :
  Z.of_N x < 2 ^ w →
  foldl (Str.push_digit w 10) (Some 0) (Str.to_codes (pretty_N_go x s))
  = foldl (Str.push_digit w 10) (Some (Z.of_N x)) (Str.to_codes s).
Proof.
  revert s. induction (N.lt_wf_0 x) as [x _ IH]; intros s Hx.
  destruct (decide (x = 0%N)) as [->|Hne]; [by rewrite pretty_N_go_0|].
  rewrite pretty_N_go_step by lia. pose proof (N.div_mod x 10 ltac:(lia)) as Hdiv.
  pose proof (N.mod_lt x 10 ltac:(lia)). pose proof (N.div_lt x 10).
  rewrite IH by lia. cbn [Str.to_codes foldl].
  rewrite pretty_digit by done. generalize dependent (x / 10)%N.
  generalize dependent (x mod 10)%N. intros m Hm q Hdiv _. rewrite push_digit_next by lia. do 2 f_equal. lia.
Qed.

Lemma parse_dec w n : 0 <= n < 2 ^ w → Str.parse w (dec n) = Some n.
Proof.
  intros Hn. destruct (decide (n = 0)) as [->|H0].
  { exact (push_digit_next w 0 0 ltac:(lia) ltac:(lia) ltac:(lia)). }
  pose proof (push_digits w (Z.to_N n) "" ltac:(lia)) as Hp. cbn [Str.to_codes foldl] in Hp.
  rewrite Z2N.id in Hp by lia. unfold Str.parse, dec, Str.from_str_radix, pretty, pretty_N.
  rewrite decide_False by lia. destruct (Str.to_codes _) as [|x l] eqn:Hc; [cbn in Hp; congruence|].
  destruct l as [|y l]; [done|]. destruct (Z.eqb_spec x 43) as [->|]; [|done].
  exfalso. cbn [foldl] in Hp. change (Str.push_digit w 10 (Some 0) 43) with (@None Z) in Hp.
  clear Hc. revert Hp. change (Str.push_digit w 10 None y) with (@None Z). induction l as [|? ? IH]; [done|exact IH].
Qed.

Section quotes.
Context `{!ChainEnv, !HexDecode, !Borsh SignedTransaction}.
Import Rpc.

(** C34: Quotes are honest.  Whenever a swap succeeds on the node's state, asking the
    node beforehand for the same pool, amount and direction gave exactly the
    amount the swap returns as paid, and the quoted fee is what the swap charges on top of
    what enters the formula. *)
Theorem quote_matches_swap r sender pool_id token_in amount_in min_out out s' :
  in_width 128 amount_in →
  Dex.execute_swap sender pool_id token_in amount_in min_out (ch_state (rs_chain r)) = (Ok out, s') →
  ∃ pool (a_to_b : bool) q net lp proto,
    Dex.load_pool (ch_state (rs_chain r)) pool_id = Ok pool
    ∧ token_in = (if a_to_b then pl_token_a pool else pl_token_b pool)
    ∧ calculate_fees amount_in (pl_fee_bps pool) (pl_protocol_fee_bps pool) = Ok (net, lp, proto)
    ∧ get_swap_quote pool_id (dec amount_in) a_to_b r = (Ok q, r)
    ∧ sq_amount_in q = dec amount_in ∧ sq_amount_out q = dec out ∧ sq_fee q = dec (saturating_sub amount_in net).
Proof.
  intros Hw Hrun. destruct (execute_swap_Ok _ _ _ _ _ _ _ _ Hrun)
    as (p & rin & rout & d & net & lp & proto & s1 & s2 & Hload & Hdir & Hfees & Hout & _).
  destruct (swap_direction_Ok _ _ _ _ _ Hdir) as (Htok & -> & ->).
  exists p, d. eexists. exists net, lp, proto. repeat (split; [done|]).
  unfold Dex.load_pool in Hload. apply res_bind_Ok in Hload as (data & Hraw & Hpool).
  apply ok_or_Ok in Hraw, Hpool. unfold get_swap_quote, decode_pool, math_err. rewrite (parse_dec 128) by done.
  erewrite M_bind_run; [|done]. erewrite M_bind_run; [|done]. rewrite Hraw.
  erewrite M_bind_run; [|done]. rewrite Hpool. erewrite M_bind_run; [|done].
  replace (if d then (pl_reserve_a p, pl_reserve_b p) else (pl_reserve_b p, pl_reserve_a p))
    with (reserve_of p d, reserve_of p (negb d)) by (by destruct d).
  rewrite Hfees. erewrite M_bind_run; [|done]. cbv beta iota. rewrite Hout. erewrite M_bind_run; [|done]. done.
Qed.
End quotes.
