(* ===== verification/RpcClient.v ===== *)
(** * The client address of an RPC request

    [ClientIpLayer] of vtt-rpc/src/server.rs: the address the per-client rate
    limits are keyed by, read from the [X-Forwarded-For] and [Forwarded]
    headers of the request, with the standard library's address parser. *)

From stdpp Require Import pretty.
From S2P Require Import Prelude Primitives RustStr RpcTypes Rpc RpcProps.

(** ** Parsing an address

    The parser of [core::net]: each reader takes the characters that are left
    and gives what it read with the rest. *)

Module IpParser.

Definition Reader (A : Type) : Type := list Z → option (A * list Z).

Fixpoint digits (radix : Z) (l : list Z) : list Z * list Z :=
  match l with
  | [] => ([], [])
  | x :: l' =>
      match Str.to_digit radix x with
      | Some d => let '(ds, rest) := digits radix l' in (d :: ds, rest)
      | None => ([], l)
      end
  end.

Definition value (radix : Z) (ds : list Z) : Z := foldl (λ a d, a * radix + d) 0 ds.

(** The checked arithmetic fails exactly when the value does not fit. *)
Definition read_number (w radix max_digits : Z) (allow_zero_prefix : bool) : Reader Z := λ l,
  let '(ds, rest) := digits radix l in
  let count := Z.of_nat (length ds) in
  if (count =? 0) || (max_digits <? count) || (2 ^ w <=? value radix ds) then None
  else if negb allow_zero_prefix && (1 <? count) && (default 1 (head ds) =? 0) then None
  else Some (value radix ds, rest).

Definition read_given_char (c : Z) : Reader unit := λ l,
  match l with x :: l' => if x =? c then Some (tt, l') else None | [] => None end.

Definition read_separator {A} (sep : Z) (first : bool) (inner : Reader A) : Reader A := λ l,
  if first then inner l else '(_, l) ← read_given_char sep l; inner l.

Definition octet : Reader Z := read_number 8 10 3 false.

Definition read_ipv4_addr : Reader (list Z) := λ l,
  '(a, l) ← octet l;
  '(b, l) ← read_separator 46 false octet l;
  '(c, l) ← read_separator 46 false octet l;
  '(d, l) ← read_separator 46 false octet l;
  Some ([a; b; c; d], l).

Definition group_pair (v4 : list Z) : list Z :=
  match v4 with [a; b; c; d] => [a * 256 + b; c * 256 + d] | _ => [] end.

(** [read_groups] into [todo] slots: the groups read and whether they end with
    an embedded IPv4 address. *)
Fixpoint read_groups (todo : nat) (first : bool) (l : list Z) : list Z * bool * list Z :=
  match todo with
  | O => ([], false, l)
  | S todo =>
      match (if bool_decide (todo = O) then None else read_separator 58 first read_ipv4_addr l) with
      | Some (v4, l) => (group_pair v4, true, l)
      | None =>
          match read_separator 58 first (read_number 16 16 4 true) l with
          | Some (g, l) =>
              let '(gs, v4, l) := read_groups todo false l in (g :: gs, v4, l)
          | None => ([], false, l)
          end
      end
  end.

Definition read_ipv6_addr : Reader (list Z) := λ l,
  let '(head, head_ipv4, l) := read_groups 8 true l in
  if bool_decide (length head = 8%nat) then Some (head, l)
  else if head_ipv4 then None
  else
    '(_, l) ← read_given_char 58 l;
    '(_, l) ← read_given_char 58 l;
    let '(tail, _, l) := read_groups (7 - length head) true l in
    Some (head ++ replicate (8 - length head - length tail) 0 ++ tail, l).

(** The bytes of an address: four for IPv4, sixteen for IPv6. *)
Definition v4_bytes (octets : list Z) : IpAddr := Str.of_codes octets.
Definition v6_bytes (groups : list Z) : IpAddr :=
  Str.of_codes (groups ≫= λ g, [g `div` 256; g `mod` 256]).

Definition read_ip_addr : Reader IpAddr := λ l,
  match read_ipv4_addr l with
  | Some (octets, l) => Some (v4_bytes octets, l)
  | None => '(groups, l) ← read_ipv6_addr l; Some (v6_bytes groups, l)
  end.

(** [str::parse::<IpAddr>]: the whole text is the address. *)
Definition parse (s : bytes) : option IpAddr :=
  match read_ip_addr (Str.to_codes s) with Some (ip, []) => Some ip | _ => None end.
End IpParser.

(** ** The layer *)

Module Client.

(** The first value of each header, by its lower-case name. *)
#[global] Abbreviation Headers := (gmap bytes bytes).

(** [HeaderValue::to_str]: visible ASCII and tabs. *)
Definition to_str (v : bytes) : option bytes :=
  if Str.all (λ x, (32 <=? x) && (x <? 127) || (x =? 9)) v then Some v else None.

Definition localhost : IpAddr := IpParser.v4_bytes [127; 0; 0; 1].

Definition current_client_ip (scoped : option IpAddr) : IpAddr := default localhost scoped.

Definition quote : bytes := Str.of_codes [34].

(** [trim_matches] with the characters whose encodings are [ps]. *)
Definition trim_matches (ps : list bytes) (s : bytes) : bytes :=
  let s := Str.strip_all ps (String.length s) s in
  brev (Str.strip_all (brev <$> ps) (String.length s) (brev s)).

Fixpoint rsplit_once (c : Ascii.ascii) (s : bytes) : option (bytes * bytes) :=
  match s with
  | EmptyString => None
  | String d s =>
      match rsplit_once c s with
      | Some (before, after) => Some (String d before, after)
      | None => if Ascii.eqb c d then Some ("", s) else None
      end
  end.

(** One [;]-separated part of the [Forwarded] header. *)
Definition forwarded_part (part : bytes) : option IpAddr :=
  rest ← Str.strip_prefix "for=" (Str.trim part);
  let trimmed := trim_matches (quote :: Str.white_space) rest in
  let bare := Str.trim_end_matches "]" (Str.trim_start_matches "[" trimmed) in
  let no_port := default bare (fst <$> rsplit_once (byte_of_Z 58) bare) in
  IpParser.parse no_port.

Fixpoint first_some {A B} (f : A → option B) (l : list A) : option B :=
  match l with [] => None | x :: l => match f x with Some y => Some y | None => first_some f l end end.

Definition x_forwarded_for (h : Headers) : option IpAddr :=
  v ← h !! "x-forwarded-for";
  s ← to_str v;
  first ← head (Str.split Str.comma s);
  IpParser.parse (Str.trim first).

Definition forwarded (h : Headers) : option IpAddr :=
  v ← h !! "forwarded";
  s ← to_str v;
  first_some forwarded_part (Str.split (byte_of_Z 59) s).

Definition extract_client_ip (h : Headers) : IpAddr :=
  match x_forwarded_for h with
  | Some ip => ip
  | None => default localhost (forwarded h)
  end.
End Client.

(** ** Written addresses are read back *)

(** A dotted address as [Display] writes it. *)
Definition octets_ok (q : list Z) : Prop := length q = 4%nat ∧ Forall (λ x, 0 <= x < 256) q.

Definition ipv4_text (q : list Z) : bytes := String.concat "." (pretty <$> q).

Definition is_digit (x : Z) : bool := (48 <=? x) && (x <=? 57).

Definition octet_check (x : Z) : bool :=
  let s := pretty x in
  bool_decide (IpParser.octet (Str.to_codes s) = Some (x, [])) && Str.all is_digit s
  && match first_byte s, first_byte (brev s) with
     | Some c, Some d => solid c && solid d
     | _, _ => false
     end.

Lemma octet_checks : forallb octet_check (seqZ 0 256) = true.
Proof. vm_compute. reflexivity. Qed.

Lemma octet_text x :
  0 <= x < 256 →
  IpParser.octet (Str.to_codes (pretty x)) = Some (x, []) ∧ Str.all is_digit (pretty x) = true
  ∧ ∃ c d, first_byte (pretty x) = Some c ∧ first_byte (brev (pretty x)) = Some d
           ∧ solid c = true ∧ solid d = true.
Proof.
  intros Hx. pose proof octet_checks as Hall. rewrite forallb_forall in Hall.
  specialize (Hall x). rewrite <-list_elem_of_In, elem_of_seqZ in Hall. specialize (Hall ltac:(lia)).
  unfold octet_check in Hall. apply andb_prop in Hall as [[Ho Hd]%andb_prop Hs].
  apply bool_decide_eq_true in Ho. repeat split; try done.
  repeat case_match; try done. apply andb_prop in Hs as [? ?]. eauto 10.
Qed.

(** A number ends where the digits do. *)
Definition stops (rest : list Z) : Prop :=
  match rest with x :: _ => Str.to_digit 10 x = None | [] => True end.

Lemma digits_app p ds rest :
  IpParser.digits 10 p = (ds, []) → stops rest → IpParser.digits 10 (p ++ rest) = (ds, rest).
Proof.
  intros Hp Hr. revert ds Hp. induction p as [|x p IH]; intros ds; cbn.
  { intros [= <-]. destruct rest as [|y rest]; cbn in *; [done|by rewrite Hr]. }
  destruct (Str.to_digit 10 x); [|done]. destruct (IpParser.digits 10 p) as [ds' r'].
  intros [= <- ->]. by rewrite (IH ds').
Qed.

Lemma octet_app p x rest :
  IpParser.octet p = Some (x, []) → stops rest → IpParser.octet (p ++ rest) = Some (x, rest).
Proof.
  unfold IpParser.octet, IpParser.read_number. destruct (IpParser.digits 10 p) as [ds r] eqn:Hp.
  intros Ho Hr. assert (r = []) as -> by (revert Ho; repeat case_match; by intros [= _ ->]).
  rewrite (digits_app p ds rest Hp Hr). revert Ho. by repeat case_match; intros [= <-].
Qed.

Lemma ipv4_text_app a b c d :
  ipv4_text [a; b; c; d]
  = pretty a +:+ ("." +:+ (pretty b +:+ ("." +:+ (pretty c +:+ ("." +:+ pretty d))))).
Proof. reflexivity. Qed.

(** The address parser reads back every IPv4 address that is written. *)
Lemma parse_ipv4_text q : octets_ok q → IpParser.parse (ipv4_text q) = Some (IpParser.v4_bytes q).
Proof.
  intros [Hl Hq]. destruct q as [|a [|b [|c [|d [|? ?]]]]]; try done.
  rewrite !Forall_cons in Hq. destruct Hq as (Ha & Hb & Hc & Hd & _).
  destruct (octet_text a Ha) as [Oa _], (octet_text b Hb) as [Ob _],
    (octet_text c Hc) as [Oc _], (octet_text d Hd) as [Od _].
  unfold IpParser.parse, IpParser.read_ip_addr, IpParser.read_ipv4_addr.
  rewrite ipv4_text_app, !to_codes_app. change (Str.to_codes ".") with [46]. cbn [app].
  rewrite (octet_app _ a _ Oa) by done. cbn -[IpParser.octet Str.to_codes].
  rewrite (octet_app _ b _ Ob) by done. cbn -[IpParser.octet Str.to_codes].
  rewrite (octet_app _ c _ Oc) by done. cbn -[IpParser.octet Str.to_codes]. by rewrite Od.
Qed.

(** ** What a client can claim *)

Lemma split_absent c s :
  Forall (λ x, x ≠ Z_of_byte c) (Str.to_codes s) → Str.split c s = [s].
Proof.
  induction s as [|d s IH]; [done|]. cbn. intros [Hd Hs]%Forall_cons. rewrite IH by done.
  by destruct (Ascii.eqb_spec c d) as [->|].
Qed.

Lemma first_byte_app s t c : first_byte s = Some c → first_byte (s +:+ t) = Some c.
Proof. by destruct s. Qed.

(** The characters of a written address. *)
Lemma ipv4_text_chars q :
  octets_ok q → Forall (λ x, is_digit x = true ∨ x = 46) (Str.to_codes (ipv4_text q)).
Proof.
  intros [Hl Hq]. destruct q as [|a [|b [|c [|d [|? ?]]]]]; try done.
  rewrite ipv4_text_app, !to_codes_app, !Forall_app.
  assert (∀ x, 0 <= x < 256 → Forall (λ y, is_digit y = true ∨ y = 46) (Str.to_codes (pretty x))) as Ho.
  { intros x Hx. destruct (octet_text x Hx) as (_ & Hd & _). unfold Str.all in Hd.
    rewrite forallb_forall in Hd. apply Forall_forall. intros y Hy. left. by apply Hd, list_elem_of_In. }
  rewrite !Forall_cons in Hq. change (Str.to_codes ".") with [46].
  repeat split; try (apply Ho; tauto); (constructor; [by right|done]).
Qed.

(** An address in [X-Forwarded-For] is the client's address, whoever sent it. *)
Lemma extract_claimed q (h : Client.Headers) :
  octets_ok q →
  Client.extract_client_ip (<["x-forwarded-for" := ipv4_text q]> h) = IpParser.v4_bytes q.
Proof.
  intros Hq. pose proof (ipv4_text_chars q Hq) as Hc. unfold Client.extract_client_ip, Client.x_forwarded_for.
  rewrite lookup_insert_eq. cbn [mbind option_bind]. unfold Client.to_str.
  assert (Str.all (λ x, (32 <=? x) && (x <? 127) || (x =? 9)) (ipv4_text q) = true) as ->.
  { unfold Str.all. apply forallb_forall. intros x Hx%list_elem_of_In. rewrite Forall_forall in Hc.
    destruct (Hc x Hx) as [Hd| ->]; [|done]. unfold is_digit in Hd. lia. }
  cbn [mbind option_bind]. rewrite split_absent.
  2:{ eapply Forall_impl; [exact Hc|]. intros x [Hd| ->] [=]; subst; done. }
  cbn [head mbind option_bind].
  assert (Str.trim (ipv4_text q) = ipv4_text q) as ->; [|by rewrite parse_ipv4_text].
  destruct Hq as [Hl Hq]. destruct q as [|a [|b [|c [|d [|? ?]]]]]; try done.
  rewrite !Forall_cons in Hq. destruct Hq as (Ha & _ & _ & Hd & _).
  destruct (octet_text a Ha) as (_ & _ & ca & _ & Hca & _ & Sa & _).
  destruct (octet_text d Hd) as (_ & _ & _ & cd & _ & Hcd & _ & Sd).
  apply (trim_solid ca cd); [done..| |]; rewrite ipv4_text_app; [by apply first_byte_app|].
  rewrite !brev_app, !bapp_assoc. by apply first_byte_app.
Qed.

(** Requests with their headers and the times they arrive at, as one limiter
    answers them. *)
Fixpoint check_requests (reqs : list (Z * Client.Headers)) (l : PerIpRateLimiter) :
    list bool * PerIpRateLimiter :=
  match reqs with
  | [] => ([], l)
  | (t, h) :: reqs =>
      let '(ok, l) := Limiter.check t (Client.extract_client_ip h) l in
      let '(oks, l) := check_requests reqs l in
      (ok :: oks, l)
  end.

Lemma v4_bytes_inj q q' :
  octets_ok q → octets_ok q' → IpParser.v4_bytes q = IpParser.v4_bytes q' → q = q'.
Proof.
  assert (∀ l, Forall (λ x, 0 <= x < 256) l → Str.to_codes (Str.of_codes l) = l) as Hback.
  { induction 1 as [|x l Hx _ IH]; [done|].
    change (Z_of_byte (byte_of_Z x) :: Str.to_codes (Str.of_codes l) = x :: l).
    by rewrite Z_of_byte_of_Z, IH, Z.mod_small. }
  intros [_ Hq] [_ Hq'] Heq. rewrite <-(Hback q Hq), <-(Hback q' Hq'). by f_equal.
Qed.

Lemma check_fresh max t ip l :
  1 <= max → rl_max_calls_per_second l = max → rl_clients l !! ip = None →
  (Limiter.check t ip l).1 = true
  ∧ rl_max_calls_per_second (Limiter.check t ip l).2 = max
  ∧ ∀ ip', ip' ≠ ip → rl_clients (Limiter.check t ip l).2 !! ip' = rl_clients l !! ip'.
Proof.
  intros Hmax Hm Hn. unfold Limiter.check. rewrite Hm, Hn. cbn [default from_option fst snd].
  rewrite (elapsed_within t t) by (unfold SECOND; lia). cbn [Z.leb Z.compare].
  destruct (Z.leb_spec max 0); [lia|]. cbn. split_and!; [done..|].
  intros ip' Hne. by rewrite lookup_insert_ne.
Qed.

Lemma claimed_all_granted max reqs l :
  1 <= max → rl_max_calls_per_second l = max → NoDup reqs.*2 → Forall octets_ok reqs.*2 →
  (∀ q, q ∈ reqs.*2 → rl_clients l !! IpParser.v4_bytes q = None) →
  (check_requests ((λ r, (r.1, {["x-forwarded-for" := ipv4_text r.2]})) <$> reqs) l).1
  = replicate (length reqs) true.
Proof.
  intros Hmax. revert l. induction reqs as [|[t q] reqs IH]; intros l Hm Hnd Hok Hl; [done|].
  cbn [fmap list_fmap check_requests fst snd length replicate] in *. apply NoDup_cons in Hnd as [Hnew Hnd].
  apply Forall_cons in Hok as [Hq Hok].
  assert (Client.extract_client_ip {["x-forwarded-for" := ipv4_text q]} = IpParser.v4_bytes q) as ->
    by (by apply (extract_claimed q ∅)).
  destruct (check_fresh max t (IpParser.v4_bytes q) l Hmax Hm (Hl q ltac:(set_solver))) as (Hb & Hm' & Hf).
  destruct (Limiter.check t (IpParser.v4_bytes q) l) as [ok l']; cbn [fst snd] in *. subst ok.
  specialize (IH l' Hm' Hnd Hok). destruct (check_requests _ l') as [oks l''] eqn:Hr.
  cbn [fst] in *. f_equal. apply IH. intros q' Hq'. rewrite Hf; [by apply Hl; set_solver|].
  intros Heq. apply v4_bytes_inj in Heq as ->; [done| |done]. by eapply Forall_forall.
Qed.

Lemma check_requests_shared ip reqs l :
  Forall (λ r, Client.extract_client_ip r.2 = ip) reqs →
  check_requests reqs l = check_all ip reqs.*1 l.
Proof.
  intros Hall. revert l. induction Hall as [|[t h] reqs Hh _ IH]; intros l; [done|].
  cbn -[Limiter.check Client.extract_client_ip] in *. rewrite Hh.
  destruct (Limiter.check t ip l) as [ok l']. by rewrite IH.
Qed.

(** C40: The limit is not per client.  Requests that each name another address in
    [X-Forwarded-For] are all let through, however many arrive at once; and
    requests that carry neither header share one allowance, whoever sends
    them: at most [max] of those that arrive within a second of the first are
    let through. *)
Theorem limit_follows_headers max claimed direct t0 :
  1 <= max < 2 ^ 64 →
  NoDup claimed.*2 → Forall octets_ok claimed.*2 →
  Forall (λ r, r.2 !! "x-forwarded-for" = None ∧ r.2 !! "forwarded" = None
             ∧ t0 <= r.1 < t0 + SECOND) direct →
  (check_requests ((λ r, (r.1, {["x-forwarded-for" := ipv4_text r.2]})) <$> claimed)
     (Limiter.new max)).1 = replicate (length claimed) true
  ∧ ∀ h, h !! "x-forwarded-for" = None → h !! "forwarded" = None →
    granted (check_requests ((t0, h) :: direct) (Limiter.new max)).1 <= max.
Proof.
  intros Hmax Hnd Hok Hdirect. split; [apply (claimed_all_granted max); [lia|done..]|].
  assert (∀ h, h !! "x-forwarded-for" = None → h !! "forwarded" = None →
    Client.extract_client_ip h = Client.localhost) as Hlocal.
  { intros h H1 H2. unfold Client.extract_client_ip, Client.x_forwarded_for, Client.forwarded.
    by rewrite H1, H2. }
  intros h H1 H2. rewrite (check_requests_shared Client.localhost).
  2:{ constructor; [by apply Hlocal|]. eapply Forall_impl; [exact Hdirect|]. naive_solver. }
  assert (Hfresh : entry_of (Limiter.new max) Client.localhost t0 = (0, t0))
    by (unfold entry_of; cbn [Limiter.new rl_clients]; by rewrite lookup_empty).
  cbn [check_all fmap list_fmap fst]. destruct (Limiter.check t0 Client.localhost (Limiter.new max)) as [ok l] eqn:Hk.
  destruct (check_step max Hmax t0 Client.localhost (Limiter.new max) ok l) as (Hm & e & He & Hc);
    [done|rewrite Hfresh; cbn; lia|done|].
  rewrite Hfresh in Hc. rewrite (elapsed_within t0 t0) in Hc by (unfold SECOND; lia).
  destruct Hc as [(? & _)|[(_ & -> & _ & ->)|(_ & _ & ? & _)]]; [lia| |lia].
  pose proof (granted_in_window max Hmax Client.localhost direct.*1 l 1 t0 Hm He ltac:(lia)) as Hw.
  destruct (check_all Client.localhost direct.*1 l) as [oks l'']. cbn [fst] in *. rewrite granted_cons.
  enough (granted oks <= max - 1) by lia. apply Hw, Forall_fmap. eapply Forall_impl; [exact Hdirect|].
  naive_solver.
Qed.

(** Requests in the name of twenty addresses pass a limit of ten. *)
Lemma limit_follows_headers_witness :
  let claimed := (λ x, (5, [10; 0; 0; x])) <$> seqZ 0 20 in
  (check_requests ((λ r : Z * list Z, (r.1, {["x-forwarded-for" := ipv4_text r.2]})) <$> claimed)
     (Limiter.new 10)).1 = replicate 20 true.
Proof.
  refine (proj1 (limit_follows_headers 10 ((λ x, (5, [10; 0; 0; x])) <$> seqZ 0 20) [] 5 _ _ _ _)).
  - lia.
  - apply (bool_decide_unpack _). vm_compute. exact I.
  - cbn. repeat (constructor; [split; [done|repeat (constructor; [lia|]); constructor]|]). constructor.
  - constructor.
Defined.

(** *** The [Forwarded] header *)

(** The bracketed IPv6 address with a port, [for="[::1]:12345"], is not
    recognised: its closing bracket is not at the end.  One without a port
    loses its last group: [for="[2001:db8::1:2]"] is read as [2001:db8::1]. *)
Lemma forwarded_ipv6_misread :
  Client.forwarded {["forwarded" := "for=" +:+ (Client.quote +:+ ("[::1]:12345" +:+ Client.quote))]} = None
  ∧ Client.forwarded {["forwarded" := "for=" +:+ (Client.quote +:+ ("[2001:db8::1:2]" +:+ Client.quote))]}
    = IpParser.parse "2001:db8::1"
  ∧ is_Some (IpParser.parse "2001:db8::1") ∧ is_Some (IpParser.parse "::1").
Proof. split_and!; vm_compute; by repeat eexists. Qed.

Lemma forwarded_ipv4_with_port :
  Client.forwarded {["forwarded" := "proto=https; for=1.2.3.4:80"]} = IpParser.parse "1.2.3.4".
Proof. vm_compute. reflexivity. Qed.
