(* ===== verification/RpcFlow.v ===== *)
(** * The JSON-RPC server beside the chain, the pool and the relayer

    What lookups answer after a block is imported, what a submitted transaction
    does to the pool, and the relayer talking to this server. *)

From stdpp Require Import pretty.
From S2P Require Import Prelude Primitives RustStr DexMath Storage Assets Oracle StateDB Dex Codecs.
From S2P Require Import Snapshot Restart Consensus Governance ExecStaking ExecGov Executor Chain ChainProps.
From S2P Require Import ContractHost TxCodec TxPool Relayer RelayerProps RpcTypes Rpc RpcProps.

(** ** Lookups after an import *)

Section lookups.
Context `{!ChainEnv, !HexDecode, !Borsh SignedTransaction}.
Import Rpc.
Implicit Types (c : Chain) (b : Block).

(** The chain writes to a store. *)
Definition durable c : Prop := ch_persistent c = true ∧ is_Some (db_storage (ch_state c)).

Lemma put_durable col k v c : durable (Chain.put col k v c) ↔ durable c.
Proof.
  unfold durable, Chain.put. destruct (ch_persistent c) eqn:Hp; [|by rewrite Hp].
  cbn. rewrite Hp, persist_unfold. cbn. by rewrite fmap_is_Some.
Qed.

Lemma read_put_eq col k v c : durable c → Chain.read (Chain.put col k v c) col k = Some v.
Proof.
  intros [Hp Hs]. unfold Chain.read, Chain.put. rewrite Hp. cbn. rewrite Hp. by apply disk_get_persist_eq.
Qed.

Lemma read_put_ne col k v c col' k' :
  (col, k) ≠ (col', k') → Chain.read (Chain.put col k v c) col' k' = Chain.read c col' k'.
Proof.
  intros Hne. unfold Chain.read, Chain.put. destruct (ch_persistent c) eqn:Hp; cbn; rewrite Hp; [|done].
  by apply disk_get_persist_ne.
Qed.

#[local] Instance h256_bytes_injective : Inj (=) (=) h256_bytes.
Proof. intros ? ?. apply h256_bytes_inj. Qed.

Definition puts {A} (col : Column) (key val : A → bytes) (l : list A) c : Chain :=
  foldl (λ c a, Chain.put col (key a) (val a) c) c l.

Lemma puts_durable {A} col (key val : A → bytes) l c : durable (puts col key val l c) ↔ durable c.
Proof.
  unfold puts. revert c. induction l as [|a l IH]; intros c; cbn; [done|]. by rewrite IH, put_durable.
Qed.

Lemma read_puts_ne {A} col (key val : A → bytes) l c col' k' :
  col ≠ col' ∨ k' ∉ key <$> l → Chain.read (puts col key val l c) col' k' = Chain.read c col' k'.
Proof.
  unfold puts. revert c. induction l as [|a l IH]; intros c Hne; cbn; [done|].
  rewrite fmap_cons, not_elem_of_cons in Hne. rewrite IH by tauto. apply read_put_ne.
  intros [= ? ?]. destruct Hne as [?|[? ?]]; congruence.
Qed.

Lemma read_puts {A} col (key val : A → bytes) l c a :
  durable c → NoDup (key <$> l) → a ∈ l → Chain.read (puts col key val l c) col (key a) = Some (val a).
Proof.
  unfold puts. revert c. induction l as [|x l IH]; intros c Hc Hnd Ha; [by apply not_elem_of_nil in Ha|].
  rewrite fmap_cons in Hnd. apply NoDup_cons in Hnd as [Hx Hnd]. cbn.
  apply elem_of_cons in Ha as [->|Ha]; [|by apply IH; [apply put_durable|..]].
  change (Chain.read (puts col key val l (Chain.put col (key x) (val x) c)) col (key x) = Some (val x)).
  rewrite read_puts_ne by (by right). by apply read_put_eq.
Qed.

Lemma index_keys txs :
  (λ itx : nat * SignedTransaction, h256_bytes (Tx.tx_hash itx.2)) <$> imap pair txs
  = h256_bytes <$> (Tx.tx_hash <$> txs).
Proof. rewrite fmap_imap, <-list_fmap_compose. apply (imap_const (h256_bytes ∘ Tx.tx_hash)). Qed.

Lemma tx_location_read (n : Z) (idx : nat) :
  0 <= n < 2 ^ 64 → Z.of_nat idx < 2 ^ 32 →
  (let v := Chain.tx_location n idx in
   if blen v =? 12 then Some (from_le_bytes (btake 8 v), from_le_bytes (bdrop 8 v)) else None)
  = Some (n, Z.of_nat idx).
Proof.
  intros Hn Hi. unfold Chain.tx_location. rewrite wrap_small by (unfold in_width; lia).
  unfold blen. rewrite blen_app, !to_le_bytes_length. cbn [Nat.add Z.of_nat Z.eqb].
  rewrite btake_app_n, bdrop_app_n by apply to_le_bytes_length. rewrite !from_to_le_bytes; [done|lia..].
Qed.

Lemma puts_stored b hash receipts c :
  Chain.store_block b hash receipts c
  = let h := bl_header b in
    let c := Chain.put BlockHeaders (h256_bytes hash) (to_vec h) c in
    let c := Chain.put BlockBodies (h256_bytes hash) (to_vec b) c in
    let c := puts Receipts (λ r, h256_bytes (rc_tx_hash r)) to_vec receipts c in
    let c := puts Transactions (λ itx, h256_bytes (Tx.tx_hash itx.2))
               (λ itx, Chain.tx_location (bh_number h) itx.1) (imap pair (bl_transactions b)) c in
    let c := Chain.put ChainMeta "tx_index:head" (to_le_bytes 8 (bh_number h)) c in
    c <| ch_headers := <[hash := h]> (ch_headers c) |> <| ch_bodies := <[hash := b]> (ch_bodies c) |>.
Proof. done. Qed.

Lemma read_set_head h hash c col k :
  col ≠ ChainIndex → col ≠ ChainMeta → Chain.read (Chain.set_head h hash c) col k = Chain.read c col k.
Proof.
  intros Hi Hm. unfold Chain.set_head. cbv zeta.
  match goal with |- context [Chain.put ChainMeta ?x ?v ?c2] =>
    transitivity (Chain.read (Chain.put ChainMeta x v c2) col k); [done|] end.
  rewrite !read_put_ne; [done|congruence..].
Qed.

Lemma set_head_durable h hash c : durable (Chain.set_head h hash c) ↔ durable c.
Proof.
  unfold Chain.set_head. cbv zeta. match goal with |- context [Chain.put ChainMeta ?x ?v ?c2] =>
    transitivity (durable (Chain.put ChainMeta x v c2)); [done|] end.
  by rewrite !put_durable.
Qed.

(** What a stored block leaves in the store. *)
Lemma store_reads b hash receipts c :
  durable (Chain.store_block b hash receipts c) →
  NoDup (Tx.tx_hash <$> bl_transactions b) → NoDup (rc_tx_hash <$> receipts) →
  let c' := Chain.store_block b hash receipts c in
  (∀ idx tx, bl_transactions b !! idx = Some tx →
     Chain.read c' Transactions (h256_bytes (Tx.tx_hash tx)) = Some (Chain.tx_location (bh_number (bl_header b)) idx))
  ∧ ∀ r, r ∈ receipts → Chain.read c' Receipts (h256_bytes (rc_tx_hash r)) = Some (to_vec r).
Proof.
  rewrite puts_stored. cbv zeta. intros Hd Hnd Hndr.
  match type of Hd with durable (upd _ _ (upd _ _ ?c1)) => change (durable c1) in Hd end.
  rewrite put_durable, puts_durable in Hd. split.
  - intros idx tx Hidx.
    match goal with |- Chain.read (upd _ _ (upd _ _ ?c1)) ?col ?k = _ =>
      transitivity (Chain.read c1 col k); [done|] end.
    rewrite read_put_ne by congruence.
    apply (read_puts Transactions (λ itx, h256_bytes (Tx.tx_hash itx.2))
      (λ itx, Chain.tx_location (bh_number (bl_header b)) itx.1) _ _ (idx, tx) Hd).
    + rewrite index_keys. by apply NoDup_fmap_2; [apply _|].
    + apply list_elem_of_lookup_2 with idx. by rewrite list_lookup_imap, Hidx.
  - intros r Hr.
    match goal with |- Chain.read (upd _ _ (upd _ _ ?c1)) ?col ?k = _ =>
      transitivity (Chain.read c1 col k); [done|] end.
    rewrite read_put_ne by congruence. rewrite read_puts_ne by (by left).
    rewrite puts_durable in Hd. apply (read_puts Receipts (λ r, h256_bytes (rc_tx_hash r)) to_vec); [done| |done].
    change (NoDup (h256_bytes ∘ rc_tx_hash <$> receipts)). rewrite list_fmap_compose. by apply NoDup_fmap_2; [apply _|].
Qed.

(** The answers after an import, in terms of the canonical block at that number. *)
Lemma import_lookups now b pr c res c' :
  Chain.import_block_impl now b pr c = (Ok res, c') → durable c' →
  0 <= bh_number (bl_header b) < 2 ^ 64 → Z.of_nat (length (bl_transactions b)) <= 2 ^ 32 →
  NoDup (Tx.tx_hash <$> bl_transactions b) → NoDup (rc_tx_hash <$> ir_receipts res) →
  (∀ idx tx, bl_transactions b !! idx = Some tx →
     Chain.get_tx_location c' (Tx.tx_hash tx) = Some (bh_number (bl_header b), Z.of_nat idx))
  ∧ (∀ r, r ∈ ir_receipts res → Chain.get_receipt c' (rc_tx_hash r) = Some r)
  ∧ (ir_is_new_head res = true → Chain.get_block_by_number c' (bh_number (bl_header b)) = Some b).
Proof.
  intros Hrun Hd Hn Hlen Hnd Hndr. unfold Chain.import_block_impl, Chain.commit_block in Hrun. inv_ok.
  cbn [ir_receipts ir_is_new_head] in *. rename x into receipts.
  set (h := bl_header b) in *. set (hash := Chain.block_hash h) in *.
  pose proof (store_block_index b hash receipts x0) as Hindex.
  pose proof (store_reads b hash receipts x0) as Hreads. fold h in Hindex.
  set (c2 := Chain.store_block b hash receipts x0) in *. set (new := Chain.is_new_head h c2) in *.
  set (c' := if new then Chain.set_head h hash c2 else c2) in *.
  assert (Hread : ∀ col k, col ≠ ChainIndex → col ≠ ChainMeta → Chain.read c' col k = Chain.read c2 col k).
  { intros. subst c'. destruct new; [by apply read_set_head|done]. }
  assert (Hd2 : durable c2) by (subst c'; destruct new; [by apply set_head_durable in Hd|done]).
  destruct (Hreads Hd2 Hnd Hndr) as [Htx Hrc]. split; [|split].
  - intros idx tx Hidx. unfold Chain.get_tx_location. rewrite Hread, (Htx idx tx Hidx) by done.
    apply tx_location_read; [done|]. apply lookup_lt_Some in Hidx. lia.
  - intros r Hr. unfold Chain.get_receipt. rewrite Hread, (Hrc r Hr) by done. apply from_slice_to_vec.
  - intros Hnew. subst c'. rewrite Hnew. clearbody new c2. unfold Chain.get_block_by_number.
    pose proof (set_head_index h hash c2) as Hi. rewrite (si_canonical _ _ Hi), (si_bodies _ _ Hi). cbn.
    rewrite lookup_insert_eq. cbn. rewrite (si_bodies _ _ Hindex). cbn. apply lookup_insert_eq.
Qed.

(** C36: Transactions are found.  After the import of a block that becomes the head,
    on a chain with a store, asking for any transaction of the block by its hash
    returns that transaction with the block's number and time, and asking for its
    receipt returns the receipt of the import.  The hashes of the transactions and
    of the receipts of the block have to be distinct. *)
Theorem imported_transaction_found now b pr c res r idx tx :
  Chain.import_block_impl now b pr c = (Ok res, rs_chain r) → durable (rs_chain r) →
  0 <= bh_number (bl_header b) < 2 ^ 64 → Z.of_nat (length (bl_transactions b)) <= 2 ^ 32 →
  NoDup (Tx.tx_hash <$> bl_transactions b) → NoDup (rc_tx_hash <$> ir_receipts res) →
  ir_is_new_head res = true → bl_transactions b !! idx = Some tx →
  (∃ info, get_transaction (Tx.tx_hash tx) r = (Ok (Some info), r)
     ∧ ti_hash info = Tx.tx_hash tx ∧ ti_from info = Tx.tx_sender tx
     ∧ ti_nonce info = tp_nonce (tx_payload tx)
     ∧ ti_block_number info = bh_number (bl_header b) ∧ ti_timestamp info = bh_timestamp (bl_header b))
  ∧ ∀ rc, rc ∈ ir_receipts res →
      get_transaction_receipt (rc_tx_hash rc) r = (Ok (Some (ReceiptInfo_from rc)), r).
Proof.
  intros Hrun Hd Hn Hlen Hnd Hndr Hnew Hidx.
  destruct (import_lookups _ _ _ _ _ _ Hrun Hd Hn Hlen Hnd Hndr) as (Htx & Hrc & Hb). split.
  - eexists. unfold get_transaction, read_chain, find_indexed. mrun.
    rewrite (Htx _ _ Hidx). cbn [mbind option_bind]. rewrite (Hb Hnew). cbn [mbind option_bind].
    rewrite Nat2Z.id, Hidx. split; [done|]. unfold found, tx_to_info.
    by destruct (describe _) as [[[[[] ?] ?] ?] ?].
  - intros rc Hin. unfold get_transaction_receipt, read_chain. mrun. by rewrite (Hrc rc Hin).
Qed.

(** The index of transactions is not told about branches.  A block that is imported
    but does not become the head overwrites the locations of its transactions, and
    a location is a number and a position; asking for one of them then returns the
    transaction that the canonical block has at that position, whatever it is. *)
Theorem side_branch_lookup now b pr c res r idx tx b' tx' :
  Chain.import_block_impl now b pr c = (Ok res, rs_chain r) → durable (rs_chain r) →
  0 <= bh_number (bl_header b) < 2 ^ 64 → Z.of_nat (length (bl_transactions b)) <= 2 ^ 32 →
  NoDup (Tx.tx_hash <$> bl_transactions b) → NoDup (rc_tx_hash <$> ir_receipts res) →
  bl_transactions b !! idx = Some tx →
  Chain.get_block_by_number (rs_chain r) (bh_number (bl_header b)) = Some b' →
  bl_transactions b' !! idx = Some tx' →
  ∃ info, get_transaction (Tx.tx_hash tx) r = (Ok (Some info), r)
    ∧ ti_hash info = Tx.tx_hash tx' ∧ ti_from info = Tx.tx_sender tx'.
Proof.
  intros Hrun Hd Hn Hlen Hnd Hndr Hidx Hb Hidx'.
  destruct (import_lookups _ _ _ _ _ _ Hrun Hd Hn Hlen Hnd Hndr) as (Htx & _).
  eexists. unfold get_transaction, read_chain, find_indexed. mrun.
  rewrite (Htx _ _ Hidx). cbn [mbind option_bind]. rewrite Hb. cbn [mbind option_bind].
  rewrite Nat2Z.id, Hidx'. split; [done|]. unfold found, tx_to_info.
  by destruct (describe _) as [[[[[] ?] ?] ?] ?].
Qed.

(** The list of withdrawals is taken from the transactions, not from what became of
    them: a withdrawal whose receipt says that it failed is listed like any other. *)
Lemma failed_withdrawal_listed now ip r n b tx token amount chain dest rc :
  (Limiter.check now ip (rs_heavy_read_limiter r)).1 = true →
  n ∈ scan_numbers (default 0 (Chain.height (rs_chain r))) →
  Chain.get_block_by_number (rs_chain r) n = Some b → tx ∈ bl_transactions b →
  tp_action (tx_payload tx) = BridgeWithdraw token amount chain dest →
  Chain.get_receipt (rs_chain r) (Tx.tx_hash tx) = Some rc → rc_success rc = false →
  ∃ l r', get_bridge_withdrawals now ip r = (Ok l, r')
    ∧ MkBridgeWithdrawalInfo (Tx.tx_hash tx) (bh_number (bl_header b)) (Tx.tx_sender tx) token amount chain dest
        (bh_timestamp (bl_header b)) ∈ l.
Proof.
  intros Hl Hn Hb Htx Hact _ _. destruct (Limiter.check now ip (rs_heavy_read_limiter r)) as [ok l] eqn:Hc.
  cbn in Hl. subst ok. eexists _, _. unfold get_bridge_withdrawals, check_heavy_read, check_limiter, read_chain. mrun.
  rewrite Hc. split; [done|]. change (rs_chain (r <| rs_heavy_read_limiter := l |>)) with (rs_chain r).
  apply list_elem_of_bind. exists n. split; [|done]. rewrite Hb. apply list_elem_of_omap. exists tx.
  split; [done|]. unfold withdrawal_of. by rewrite Hact.
Qed.
End lookups.

(** ** Submission *)

Section submission.
Context `{!ChainEnv, !HexDecode, !Borsh SignedTransaction}.
Import Rpc.

Lemma evict_gone h e p : pool_inv p → tp_by_hash p !! h = Some e → tp_by_hash (Pool.evict h p) !! h = None.
Proof.
  intros Hp He. destruct (remove_present h e p Hp He) as (m & _ & _ & Hbh & _).
  unfold Pool.evict. cbn. rewrite Hbh. apply lookup_delete_eq.
Qed.

(** Replacement by fee in a pool within its limits. *)
Lemma add_replaces tx a account_nonce now p h e :
  pool_inv p → Pool.pending_at p a (tx_nonce tx) = Some (h, e) →
  tx_gas_price (pe_tx e) < tx_gas_price tx → Pool.tx_hash tx ∉ tp_known p →
  Pool.min_gas_price p <= tx_gas_price tx → account_nonce <= tx_nonce tx →
  Pool.add tx a account_nonce now p = (Ok (Pool.tx_hash tx), filed tx a now (Pool.evict h p)).
Proof.
  intros Hp Hat Hprice Hnew Hmin Hnonce. destruct (pending_at_Some _ _ _ _ _ Hp Hat) as (He & Ha & Hn).
  destruct (evict_facts h e p Hp He) as (Hp' & Hc & Hlen & _ & Hq).
  assert (Hslot : queue_of p a !! tx_nonce tx = Some h).
  { rewrite <-slot_at_queue. apply (iv_index _ Hp). eauto. }
  assert (Hqa : Z.of_nat (size (queue_of (Pool.evict h p) a)) < cf_max_per_account (tp_config p)).
  { rewrite Hq, decide_True by done. rewrite Hn, map_size_delete_Some by eauto.
    assert (size (queue_of p a) ≠ 0%nat) by (apply map_size_ne_0_lookup; eauto).
    unfold queue_of in *. destruct (tp_by_sender p !! a) as [m|] eqn:Hm; [|done].
    pose proof (iv_queue _ Hp _ _ Hm). cbn in *. lia. }
  unfold Pool.add, Pool.replace_by_fee, Pool.make_room, Pool.make_room_for. mrun.
  rewrite bool_decide_false by done. rewrite (proj2 (Z.ltb_ge _ _) Hmin), (proj2 (Z.ltb_ge _ _) Hnonce).
  rewrite Hat, (proj2 (Z.leb_gt _ _) Hprice), Hc, Hlen.
  pose proof (iv_size _ Hp). rewrite (proj2 (Z.leb_gt _ _)) by lia.
  assert (Ht : default ∅ (tp_by_sender (Pool.touch a (Pool.evict h p)) !! a) = queue_of (Pool.evict h p) a).
  { unfold Pool.touch. cbn. by rewrite lookup_insert_eq. }
  rewrite Ht. change (tp_config (Pool.touch a (Pool.evict h p))) with (tp_config (Pool.evict h p)).
  rewrite Hc, (proj2 (Z.leb_gt _ _) Hqa), touch_touch. by rewrite filed_touch.
Qed.

Lemma unverified_not_executed {E} tx gas n t cid s :
  verify (to_vec (tx_payload tx)) (tx_signature tx) (tx_public_key tx) ≠ Ok tt →
  Tx.execute_transaction_at (E:=E) tx gas n t cid s = (Ok (Tx.fail_receipt (Tx.tx_hash tx) 0), s).
Proof.
  intros Hv. unfold Tx.execute_transaction_at. mrun.
  enough (Tx.admissible s tx gas cid = false) as -> by done. unfold Tx.admissible.
  destruct (verify _ _ _) as [[]| |]; [done|..]; by rewrite ?andb_false_r.
Qed.

(** What the server does with text it can decode. *)
Lemma send_decoded now now' ip tx r :
  (Limiter.check now ip (rs_send_tx_limiter r)).1 = true →
  blen (Str.hex_encode (to_vec tx)) <= MAX_TX_HEX_LEN →
  let '(a, pool) := Pool.add tx (Tx.tx_sender tx)
    (State.get_nonce (ch_state (rs_chain r)) (Tx.tx_sender tx)) now' (rs_txpool r) in
  ∃ r', rs_txpool r' = pool ∧ rs_chain r' = rs_chain r
  ∧ send_transaction now now' ip (Str.hex_encode (to_vec tx)) r
    = (match a with
       | Ok _ => Ok (Tx.tx_hash tx)
       | Err _ => Err (MkRpcError (-32603) "Pool operation failed")
       | Panic => Panic
       end, r').
Proof.
  intros Hl Hlen. destruct (Pool.add _ _ _ _ _) as [a pool] eqn:Ha.
  destruct (Limiter.check now ip (rs_send_tx_limiter r)) as [ok l] eqn:Hc. cbn in Hl. subst ok.
  exists (r <| rs_send_tx_limiter := l |> <| rs_txpool := pool |>). split; [done|]. split; [done|].
  unfold send_transaction, check_limiter, decode_transaction, pool_add, read_state. mrun.
  rewrite Hc. rewrite (proj2 (Z.ltb_ge _ _) Hlen). rewrite hex_decode_encode, from_slice_to_vec.
  change (rs_txpool (r <| rs_send_tx_limiter := l |>)) with (rs_txpool r).
  change (rs_chain (r <| rs_send_tx_limiter := l |>)) with (rs_chain r).
  unfold Tx.tx_sender in Ha. rewrite Ha. by destruct a.
Qed.

(** Nobody checks signatures before the pool.  Whoever knows a pending
    transaction can submit one of their own making with the same public key and
    nonce, a higher gas price and any signature: the server accepts it, the pending
    transaction leaves the pool and the forged one takes its place, although
    executing it will do nothing but fail. *)
Theorem forged_transaction_displaces now now' ip f r h e :
  pool_inv (rs_txpool r) →
  Pool.pending_at (rs_txpool r) (Tx.tx_sender f) (tx_nonce f) = Some (h, e) →
  tx_gas_price (pe_tx e) < tx_gas_price f → Pool.tx_hash f ∉ tp_known (rs_txpool r) →
  Pool.min_gas_price (rs_txpool r) <= tx_gas_price f →
  State.get_nonce (ch_state (rs_chain r)) (Tx.tx_sender f) <= tx_nonce f →
  (Limiter.check now ip (rs_send_tx_limiter r)).1 = true →
  blen (Str.hex_encode (to_vec f)) <= MAX_TX_HEX_LEN →
  verify (to_vec (tx_payload f)) (tx_signature f) (tx_public_key f) ≠ Ok tt →
  (∃ r', send_transaction now now' ip (Str.hex_encode (to_vec f)) r = (Ok (Tx.tx_hash f), r')
     ∧ Pool.get (rs_txpool r') h = None ∧ Pool.get (rs_txpool r') (Tx.tx_hash f) = Some f
     ∧ slot_at (rs_txpool r') (Tx.tx_sender f) (tx_nonce f) = Some (Tx.tx_hash f))
  ∧ ∀ gas n t cid s,
      Tx.execute_transaction_at (E:=unit) f gas n t cid s = (Ok (Tx.fail_receipt (Tx.tx_hash f) 0), s).
Proof.
  intros Hp Hat Hprice Hnew Hmin Hnonce Hl Hlen Hv. split; [|intros; by apply unverified_not_executed].
  pose proof (send_decoded now now' ip f r Hl Hlen) as Hs.
  rewrite (add_replaces f (Tx.tx_sender f) _ now' _ h e Hp Hat Hprice Hnew Hmin Hnonce) in Hs.
  destruct Hs as (r' & Hpool & _ & Hrun). exists r'. split; [done|]. rewrite Hpool.
  destruct (pending_at_Some _ _ _ _ _ Hp Hat) as (He & _). change (Tx.tx_hash f) with (Pool.tx_hash f).
  assert (Hne : Pool.tx_hash f ≠ h) by (intros <-; by destruct (iv_hash _ Hp _ _ He)).
  unfold Pool.get, slot_at, filed. cbn [tp_by_hash tp_by_sender]. split_and!.
  - rewrite lookup_insert_ne by done. by rewrite (evict_gone h e).
  - by rewrite lookup_insert_eq.
  - rewrite lookup_insert_eq. cbn. apply lookup_insert_eq.
Qed.
End submission.

(** ** The relayer against this server *)

(** No hexadecimal text starts with [0x]. *)
Lemma hex_decode_prefixed `{!HexDecode} s : hex_decode ("0x" +:+ s) = None.
Proof.
  destruct (hex_decode _) as [b|] eqn:Hb; [|done]. exfalso. apply hex_decode_sound in Hb.
  destruct b as [|c b]; [done|].
  apply (f_equal (String.get 1)) in Hb. cbn in Hb. injection Hb as Hb. apply (f_equal Z_of_byte) in Hb.
  pose proof (Z.mod_pos_bound (Z_of_byte c) 16 ltac:(lia)) as Hd. revert Hb Hd.
  generalize (Z_of_byte c mod 16). intros d Hb Hd.
  assert (Hin : In d (seqZ 0 16)) by (apply list_elem_of_In, elem_of_seqZ; lia).
  repeat (destruct Hin as [<-|Hin]; [discriminate Hb|]). destruct Hin.
Qed.

Section relayer.
Context `{!ChainEnv, !HexDecode, !Borsh SignedTransaction}.
Variables (ip : IpAddr) (clock : nat → Z * Z).
Import Rpc.

(** The node of the relayer is this server; the clock is read at every call. *)
Definition rpc_node : VttNode := {|
  node := RpcState * nat;
  rpc_nonce a n := match (get_account a n.1).1 with Ok info => Some (ai_nonce info) | _ => None end;
  rpc_send hex n :=
    let '(a, r) := send_transaction (clock n.2).1 (clock n.2).2 ip hex n.1 in
    (match a with Ok h => Some (h256_to_string h) | _ => None end, (r, S n.2));
|}.
#[local] Existing Instance rpc_node.

Lemma send_prefixed_rejected now now' hex r :
  let '(a, r') := send_transaction now now' ip ("0x" +:+ hex) r in
  (∃ e, a = Err e) ∧ rs_txpool r' = rs_txpool r ∧ rs_chain r' = rs_chain r.
Proof.
  unfold send_transaction, check_limiter, decode_transaction. mrun.
  destruct (Limiter.check _ _ _) as [[] l]; cbn; [|by eauto].
  destruct (MAX_TX_HEX_LEN <? _); [by eauto|]. rewrite hex_decode_prefixed. by eauto.
Qed.

Lemma process_log_rejected key cfg n log :
  rs_txpool (Relayer.process_log key cfg n log).1 = rs_txpool n.1
  ∧ rs_chain (Relayer.process_log key cfg n log).1 = rs_chain n.1.
Proof.
  unfold Relayer.process_log, Relayer.process_deposit_event, Relayer.submit_bridge_deposit.
  destruct (Relayer.parse_deposit_log log) as [ev|]; [|done].
  destruct (Relayer.map_token _ _) as [token|]; [|done]. destruct (rpc_nonce _ n) as [nonce|]; [|done].
  cbv zeta. match goal with |- context [rpc_send (_ +:+ ?hex) n] =>
    pose proof (send_prefixed_rejected (clock n.2).1 (clock n.2).2 hex n.1) as Hs end.
  cbn [rpc_send rpc_node]. destruct (send_transaction _ _ _ _ _) as [a r']. cbn. apply Hs.
Qed.

(** The relayer and this server never agree on a submission.  The relayer sends
    transactions with the prefix [0x], the server decodes the text as it is, and
    hexadecimal text has no such prefix: through any rounds, whatever deposits the
    Ethereum node reports, the server's pool and chain stay as they are, while the
    relayer's cursor moves past the deposits. *)
Theorem relayer_never_submits key cfg rounds s :
  rs_txpool (Relayer.wt_node (Relayer.watch key cfg rounds s)).1 = rs_txpool (Relayer.wt_node s).1
  ∧ rs_chain (Relayer.wt_node (Relayer.watch key cfg rounds s)).1 = rs_chain (Relayer.wt_node s).1
  ∧ ∀ r head from to logs, Relayer.rd_head r = Some head →
      Relayer.scan_range cfg (Relayer.wt_cursor s) head = Some (from, to) →
      Relayer.rd_logs r from to = Some logs → Relayer.wt_cursor (Relayer.tick key cfg r s) = to.
Proof.
  assert (Hlogs : ∀ logs n, rs_txpool (foldl (Relayer.process_log key cfg) n logs).1 = rs_txpool n.1
    ∧ rs_chain (foldl (Relayer.process_log key cfg) n logs).1 = rs_chain n.1).
  { intros logs. induction logs as [|log logs IH]; intros n; [done|]. cbn [foldl].
    destruct (IH (Relayer.process_log key cfg n log)) as [-> ->]. apply process_log_rejected. }
  assert (Htick : ∀ r s, rs_txpool (Relayer.wt_node (Relayer.tick key cfg r s)).1 = rs_txpool (Relayer.wt_node s).1
    ∧ rs_chain (Relayer.wt_node (Relayer.tick key cfg r s)).1 = rs_chain (Relayer.wt_node s).1).
  { intros r t. unfold Relayer.tick. destruct (Relayer.rd_head r); [|done].
    destruct (Relayer.scan_range _ _ _) as [[]|]; [|done]. destruct (Relayer.rd_logs r _ _); [|done]. apply Hlogs. }
  assert (Hwatch : ∀ s, rs_txpool (Relayer.wt_node (Relayer.watch key cfg rounds s)).1 = rs_txpool (Relayer.wt_node s).1
    ∧ rs_chain (Relayer.wt_node (Relayer.watch key cfg rounds s)).1 = rs_chain (Relayer.wt_node s).1).
  { unfold Relayer.watch. induction rounds as [|r rounds' IH]; intros t; [done|]. cbn [foldl].
    destruct (IH (Relayer.tick key cfg r t)) as [-> ->]. apply Htick. }
  split; [apply Hwatch|]. split; [apply Hwatch|].
  intros r head from to logs Hh Hr Hl. unfold Relayer.tick. by rewrite Hh, Hr, Hl.
Qed.
End relayer.
