(* ===== verification/DepositFlow.v ===== *)
(** * A deposit from Ethereum to the VTT chain, end to end

    [VTTBridge.depositWVTT] logs a deposit; the relayer decodes the log, signs a
    [BridgeDeposit] and submits it; the server takes it or not; and the executor
    credits the recipient. *)

From S2P Require Import Prelude Primitives RustStr DexMath Storage Assets Oracle StateDB Dex.
From S2P Require Import Codecs Ledger Snapshot Consensus ExecStaking Governance Vm.
From S2P Require Import ExecAssets ExecAdmin ExecGov Executor ExecCodecs Chain TxPool ChainDemo.
From S2P Require Import BridgeEvm BridgeProps Relayer RelayerProps BridgeFlow RpcTypes Rpc RpcProps RpcFlow.

Section deposit.
Context `{!Evm, !ChainEnv, !HexDecode, !Borsh SignedTransaction}.

(** The transaction that the relayer means for a deposit of VTT. *)
Definition relayed (cfg : WatchConfig) (nonce : Z) (tx : H256) (recipient : Address) (net : Amount)
    : TransactionPayload :=
  Relayer.bridge_deposit_payload (wc_chain_id cfg) (wc_gas_price cfg) nonce tx (wc_source_chain cfg)
    recipient H256_ZERO net.

Definition signed_by (key : RelayerKey) (payload : TransactionPayload) : SignedTransaction :=
  {| tx_payload := payload; tx_signature := rk_sign key (to_vec payload); tx_public_key := rk_public_key key |}.

(** What the relayer sends for the log of a deposit of VTT, whatever node it talks
    to. *)
Lemma deposit_log_submitted `{!VttNode} key cfg nd nonce tx user n net fee dest :
  String.length (h256_bytes tx) = 32%nat → String.length (h256_bytes dest) = 32%nat → 0 <= net < 2 ^ 128 →
  rpc_nonce (rk_address key) nd = Some nonce →
  Relayer.process_log key cfg nd (deposit_log tx user Address_ZERO n net fee dest)
  = (rpc_send ("0x" +:+ Str.hex_encode (to_vec (signed_by key (relayed cfg nonce tx (destination dest) net)))) nd).2.
Proof.
  intros Htx Hd Hn Hnonce. unfold Relayer.process_log. rewrite parse_deposit_log_data by (done || lia).
  destruct (Z.ltb_spec net (2 ^ 128)); [|lia].
  cbn [de_token_evm]. unfold Relayer.map_token. rewrite bool_decide_true by done.
  unfold Relayer.process_deposit_event, Relayer.submit_bridge_deposit. rewrite Hnonce.
  cbn [de_tx_hash de_vtt_recipient de_amount]. unfold signed_by, relayed, destination.
  by destruct (rpc_send _ nd).
Qed.

(** What executing it does, and executing it again. *)
Lemma relayed_credits cfg nonce tx recipient net s relayer block_number block_timestamp gas_limit :
  depositable s relayer (wc_source_chain cfg) tx → 0 < net → State.get_balance s recipient + net < 2 ^ 128 →
  let run := Tx.execute_action relayer (tp_action (relayed cfg nonce tx recipient net))
               block_number block_timestamp nonce gas_limit in
  ∃ logs s', run s = (Ok logs, s')
    ∧ (∀ a, State.get_balance s' a = State.get_balance s a + (if decide (a = recipient) then net else 0))
    ∧ ∃ e, run s' = (Err e, s').
Proof.
  intros Hs Hnet Hcap. pose proof Hs as (_ & Hrel & Hnz & _).
  destruct (deposit_done_effect s relayer (wc_source_chain cfg) tx recipient net Hrel Hnz) as [Hb Hp].
  cbv zeta. cbn [relayed tp_action Relayer.bridge_deposit_payload Tx.execute_action].
  do 2 eexists. split; [by apply native_deposit_runs|]. split; [exact Hb|]. by apply processed_deposit_refused.
Qed.

(** C11: What becomes of WVTT sent over the bridge.  When a deposit of [amount]
    succeeds on Ethereum, the user loses exactly [amount] and the log carries what
    is left after the fee, rounded in the user's favour.  For that log the relayer
    sends one transaction to its node, signed with its key: a [BridgeDeposit] of the
    net amount for the account named by the first twenty bytes of the destination.
    The server of this repository does not take it, because of the prefix of the
    text: its pool and its chain stay as they are.  Executed, by a node that did
    take it, on a state whose relayer sends it and which has not seen that
    Ethereum transaction, it credits exactly the net amount to that account and
    touches no other balance, and executing it again fails.  A destination padded
    on the left, as the comment of the event asks for, names another account than
    the padded one: twelve zero bytes and the first eight bytes of it. *)
Theorem deposit_relayed user now amount dest w w' u tx key cfg :
  depositWVTT user now amount dest w = (Ok u, w') →
  String.length (h256_bytes tx) = 32%nat → String.length (h256_bytes dest) = 32%nat →
  let fee := amount * br_protocolFeeBps (w_bridge w) / 10000 in
  let net := amount - fee in
  let payload nonce := relayed cfg nonce tx (destination dest) net in
  ∃ n, let log := deposit_log tx user Address_ZERO n net fee dest in
    entry (wv_balanceOf (w_wvtt w')) user = entry (wv_balanceOf (w_wvtt w)) user - amount
    ∧ (now, Deposit n user Address_ZERO net fee dest) ∈ w_logs w'
    ∧ (0 <= net < 2 ^ 128 → ∀ (V : VttNode) nd nonce, rpc_nonce (rk_address key) nd = Some nonce →
         Relayer.process_log key cfg nd log
         = (rpc_send ("0x" +:+ Str.hex_encode (to_vec (signed_by key (payload nonce)))) nd).2)
    ∧ (∀ ip clock nd, let nd' := @Relayer.process_log _ (rpc_node ip clock) _ _ key cfg nd log in
         rs_txpool nd'.1 = rs_txpool nd.1 ∧ rs_chain nd'.1 = rs_chain nd.1)
    ∧ (∀ s relayer nonce block_number block_timestamp gas_limit,
         depositable s relayer (wc_source_chain cfg) tx →
         0 < net → State.get_balance s (destination dest) + net < 2 ^ 128 →
         let run := Tx.execute_action relayer (tp_action (payload nonce)) block_number block_timestamp
                      nonce gas_limit in
         ∃ logs s', run s = (Ok logs, s')
           ∧ (∀ a, State.get_balance s' a
                   = State.get_balance s a + (if decide (a = destination dest) then net else 0))
           ∧ ∃ e, run s' = (Err e, s'))
    ∧ ∀ a, String.length (address_bytes a) = 20%nat → dest = MkH256 (abi_address a) →
        destination dest = MkAddress (zeros 12 +:+ btake 8 (address_bytes a)).
Proof.
  intros Hdep Htx Hdest. destruct (deposit_logged _ _ _ _ _ _ _ Hdep) as (n & net & fee & Hsum & Hbal & _ & Hfee & Hl).
  cbv zeta. rewrite <- Hfee. replace (amount - fee) with net by lia. exists n. split_and!.
  - rewrite Hbal. unfold entry. by rewrite lookup_insert_eq.
  - rewrite Hl, elem_of_app. right. apply list_elem_of_further, list_elem_of_here.
  - intros Hnet V nd nonce Hnonce. by apply deposit_log_submitted.
  - intros ip clock nd. apply process_log_rejected.
  - intros. by apply relayed_credits.
  - intros a Ha ->. by apply padded_destination_misread.
Qed.
End deposit.

(** ** Example *)

#[local] Existing Instance demo_chain_env.
#[local] Existing Instance demo_hex.
#[local] Existing Instance demo_evm.
#[local] Instance deposit_signed_codec : Borsh SignedTransaction := countable_borsh _.

(** The user, who got 1000 wVTT, sends 400 of them to the VTT account 12. *)
Lemma deposit_relayed_witness :
  ∃ logs s', Tx.execute_action (evm_address 7)
      (tp_action (relayed demo_config 0 (demo_key_32 5) (destination demo_dest) 396)) 1 1 0 80000 bridge_state
      = (Ok logs, s')
    ∧ State.get_balance s' (evm_address 12) = 396.
Proof.
  assert (Hok : (depositWVTT (evm_address 12) 2 400 demo_dest demo_before).1 = Ok tt) by (vm_compute; reflexivity).
  destruct (depositWVTT (evm_address 12) 2 400 demo_dest demo_before) as [[u| |] w'] eqn:Hrun; [|discriminate..].
  destruct (deposit_relayed (evm_address 12) 2 400 demo_dest demo_before w' u
    (demo_key_32 5) demo_relayer_key demo_config Hrun eq_refl eq_refl) as (n & _ & _ & _ & _ & H & _).
  change (400 * br_protocolFeeBps (w_bridge demo_before) / 10000) with 4 in H. change (400 - 4) with 396 in H.
  destruct (H bridge_state (evm_address 7) 0 1 1 80000) as (logs & s' & Hx & Hb & _).
  - exact demo_depositable.
  - reflexivity.
  - reflexivity.
  - exists logs, s'. split; [exact Hx|]. rewrite Hb. reflexivity.
Defined.
