(* ===== verification/RpcDemo.v ===== *)
(** * Concrete runs of the JSON-RPC server

    A chain with a store, two blocks of the same height, a pool with a pending
    transaction and a liquidity pool, and the instances of the server's theorems
    there. *)

From stdpp Require Import pretty.
From S2P Require Import Prelude Primitives RustStr DexMath Storage Assets Oracle StateDB Dex Codecs.
From S2P Require Import Snapshot Restart Consensus Governance ExecStaking ExecGov Executor ExecCodecs Chain.
From S2P Require Import ContractHost TxCodec TxPool Relayer RelayerProps Genesis Producer ChainDemo.
From S2P Require Import RpcTypes Rpc RpcProps RpcFlow.

#[local] Existing Instance demo_chain_env.
#[local] Existing Instance demo_hex.
#[local] Instance rpc_signed_codec : Borsh SignedTransaction := countable_borsh _.

(** The first chain of [ChainDemo] with a store. *)
Definition stored_chain : Chain :=
  let c := demo_chain in
  MkChain (ch_headers c) (ch_bodies c) (ch_canonical c) (ch_head_hash c)
    ((ch_state c) <| db_storage := Some Kv.new |>) (ch_consensus c) (ch_gas_config c)
    (ch_validator_set c) true 0 None.

(** The block of [ChainDemo] with other transactions, time and state root. *)
Definition variant (txs : list SignedTransaction) (time : Z) (root : H256) : Block :=
  let h := bl_header demo_block in
  MkBlock (MkBlockHeader (bh_version h) (bh_chain_id h) (bh_number h) (bh_parent_hash h)
    (merkle_root (Tx.tx_hash <$> txs)) root (bh_receipts_root h) (bh_validator h) (bh_epoch h) (bh_slot h)
    time (bh_gas_limit h) (bh_gas_used h) (bh_cross_chain_root h) (bh_signature h)) txs.

(** The state root the chain computes for it. *)
Definition expected_root (txs : list SignedTransaction) (time : Z) (c : Chain) : H256 :=
  match (Chain.import_block_impl 5000 (variant txs time H256_ZERO) (Some []) c).1 with
  | Err (InvalidStateRoot computed _) => computed
  | _ => H256_ZERO
  end.

Definition tx_a : SignedTransaction := demo_transfer 0 20 1.
Definition tx_b : SignedTransaction := demo_transfer 7 20 2.
Definition receipt_a : TransactionReceipt := MkTransactionReceipt (Tx.tx_hash tx_a) false 0 [].

Definition block_a : Block := Eval vm_compute in variant [tx_a] 2000 (expected_root [tx_a] 2000 stored_chain).
#[local] Abbreviation import_a := (Chain.import_block_impl 5000 block_a (Some [receipt_a]) stored_chain).

(** A block of the same height with another transaction, which loses against it. *)
Definition block_b : Block := Eval vm_compute in variant [tx_b] 4000 (expected_root [tx_b] 4000 import_a.2).
#[local] Abbreviation import_b := (Chain.import_block_impl 5000 block_b (Some []) import_a.2).

(** What is read off a run in the instances below. *)
Definition outcome (m : res ChainError ImportResult * Chain) (head : bool) (receipts : list TransactionReceipt) : bool :=
  match m with
  | (Ok res, c) =>
      eqb (ir_is_new_head res) head && bool_decide (ir_receipts res = receipts) && ch_persistent c
      && bool_decide (is_Some (db_storage (ch_state c)))
      && bool_decide (Chain.get_block_by_number c 1 = Some block_a)
  | _ => false
  end.

Definition server (c : Chain) : RpcState := RpcServer_new c (Pool.new TxPoolConfig_default) None.

Lemma outcome_Ok m head receipts :
  outcome m head receipts = true →
  ∃ res, m = (Ok res, m.2) ∧ ir_is_new_head res = head ∧ ir_receipts res = receipts ∧ durable m.2
    ∧ Chain.get_block_by_number m.2 1 = Some block_a.
Proof.
  unfold outcome, durable. destruct m as [[res|e|] c]; [|discriminate..]. rewrite !andb_true_iff, !bool_decide_eq_true.
  rewrite eqb_true_iff. intros ((((? & ?) & ?) & ?) & ?). exists res. by split_and!.
Qed.

Lemma single_NoDup {A} (x : A) : NoDup [x].
Proof. apply NoDup_singleton. Qed.

Lemma imported_transaction_found_witness :
  ∃ info, (Rpc.get_transaction (Tx.tx_hash tx_a) (server import_a.2)).1 = Ok (Some info)
    ∧ ti_hash info = Tx.tx_hash tx_a ∧ ti_block_number info = 1.
Proof.
  destruct (outcome_Ok import_a true [receipt_a]) as (res & Hrun & Hnew & Hrc & Hd & _); [vm_compute; reflexivity|].
  generalize dependent (import_a.2). intros c' Hrun Hd.
  destruct (imported_transaction_found 5000 block_a (Some [receipt_a]) stored_chain res (server c') 0 tx_a)
    as ((info & Hget & Hh & _ & _ & Hn & _) & _).
  - exact Hrun.
  - exact Hd.
  - split; [discriminate|reflexivity].
  - discriminate.
  - apply single_NoDup.
  - rewrite Hrc. apply single_NoDup.
  - exact Hnew.
  - reflexivity.
  - exists info. rewrite Hget. split; [reflexivity|]. split; [exact Hh|exact Hn].
Defined.

(** Asked for the transaction of the losing block, the server answers with the other one. *)
Lemma side_branch_lookup_witness :
  Tx.tx_hash tx_a ≠ Tx.tx_hash tx_b ∧
  ∃ info, (Rpc.get_transaction (Tx.tx_hash tx_b) (server import_b.2)).1 = Ok (Some info)
    ∧ ti_hash info = Tx.tx_hash tx_a.
Proof.
  split; [apply (bool_decide_eq_false_1 _); vm_compute; reflexivity|].
  destruct (outcome_Ok import_b false []) as (res & Hrun & _ & Hrc & Hd & Hb); [vm_compute; reflexivity|].
  generalize dependent (import_b.2). intros c' Hrun Hd Hb.
  destruct (side_branch_lookup 5000 block_b (Some []) import_a.2 res (server c') 0 tx_b block_a tx_a)
    as (info & Hget & Hh & _).
  - exact Hrun.
  - exact Hd.
  - split; [discriminate|reflexivity].
  - discriminate.
  - apply single_NoDup.
  - rewrite Hrc. apply NoDup_nil_2.
  - reflexivity.
  - exact Hb.
  - reflexivity.
  - exists info. rewrite Hget. split; [reflexivity|exact Hh].
Defined.

(** ** Pages *)

(** On a chain with one transaction beside the genesis block. *)
Lemma pages_partition_witness :
  length (history_of (λ _, true) import_a.2) = 1%nat
  ∧ concat ((λ i, pg_items (Rpc.paginate (λ _, true) (Z.of_nat i) 1 import_a.2)) <$> seq 0 3)
    = take 3 (history_of (λ _, true) import_a.2).
Proof.
  split; [vm_compute; reflexivity|].
  apply (pages_partition (λ _, true) 1 3 import_a.2); [split; [reflexivity|discriminate]|reflexivity].
Defined.

(** ** A forged transaction *)

Definition pending_tx : SignedTransaction := demo_transfer 0 2000000000 5.
Definition forged_tx : SignedTransaction := demo_transfer 0 3000000000 9.

(** A server that has accepted the pending one. *)
Definition busy_pool : TxPool :=
  foldl run_pool_op (Pool.new TxPoolConfig_default) [OpAdd pending_tx (Tx.tx_sender pending_tx) 0 0].
Definition busy : RpcState := RpcServer_new demo_chain busy_pool None.

Lemma forged_transaction_displaces_witness :
  ∃ r', Rpc.send_transaction 5 6 "attacker" (Str.hex_encode (to_vec forged_tx)) busy = (Ok (Tx.tx_hash forged_tx), r')
    ∧ Pool.get (rs_txpool r') (Tx.tx_hash pending_tx) = None
    ∧ Pool.get (rs_txpool r') (Tx.tx_hash forged_tx) = Some forged_tx.
Proof.
  destruct (forged_transaction_displaces 5 6 "attacker" forged_tx busy (Tx.tx_hash pending_tx)
    (MkPoolEntry pending_tx (Tx.tx_sender pending_tx) 0)) as ((r' & Hrun & Hout & Hin & _) & _).
  - apply pool_runs_inv; [apply new_inv; discriminate|reflexivity].
  - vm_compute. reflexivity.
  - reflexivity.
  - assert (Hn : bool_decide (Pool.tx_hash forged_tx ∈ tp_known (rs_txpool busy)) = false) by (vm_compute; reflexivity).
    exact (bool_decide_eq_false_1 _ Hn).
  - vm_compute. discriminate.
  - vm_compute. discriminate.
  - vm_compute. reflexivity.
  - vm_compute. discriminate.
  - vm_compute. discriminate.
  - exists r'. split; [exact Hrun|]. split; [exact Hout|exact Hin].
Defined.

(** ** A quote *)

Definition market_token : H256 := demo_hash 7.
Definition trader : Address := demo_address 1.
Definition market_id : H256 := Dex.compute_pool_id NATIVE_VTT market_token.

Definition market : StateDB :=
  let s0 := State.with_accounts [(trader, Account.with_balance 5000000)] in
  let s1 := s0 <| db_assets := {[market_token := demo_asset market_token trader 9000000]} |> in
  let s2 := (State.put_ownership (MkOwnershipRecord market_token trader 9000000 0) s1).2 in
  (Dex.create_pool trader NATIVE_VTT market_token 1000000 4000000 3 s2).2.

Definition market_server : RpcState := server (demo_chain <| ch_state := market |>).

Lemma quote_matches_swap_witness :
  ∃ a_to_b q, Rpc.get_swap_quote market_id (dec 1000) a_to_b market_server = (Ok q, market_server)
    ∧ sq_amount_out q = dec 3984.
Proof.
  assert (Hrun : (Dex.execute_swap trader market_id NATIVE_VTT 1000 3900 market).1 = Ok 3984)
    by (vm_compute; reflexivity).
  apply run_Ok in Hrun.
  destruct (quote_matches_swap market_server trader market_id NATIVE_VTT 1000 3900 3984
    (Dex.execute_swap trader market_id NATIVE_VTT 1000 3900 market).2)
    as (pool & a_to_b & q & net & lp & proto & _ & _ & _ & Hq & _ & Hout & _).
  - unfold in_width. split; [discriminate|reflexivity].
  - exact Hrun.
  - exists a_to_b, q. split; [exact Hq|exact Hout].
Defined.

(** The reported impact on the price is computed on 64 bits of the amount: a trade of
    [2^64] units into a pool of as many, a hundred percent, is reported as none. *)
Example price_impact_truncated : Rpc.price_impact_bps (2 ^ 64) (2 ^ 64) = 0.
Proof. reflexivity. Qed.
