(* ===== verification/Keys.v ===== *)
(** * Key pairs ([crates/vtt-crypto/src/keys.rs])

    Ed25519 signing is third-party: the class says that a signature verifies
    under the public key of its seed.  A random key pair is one from a random
    seed. *)

From S2P Require Import Prelude Primitives.

Class Ed25519 `{!Crypto} : Type := {
  ed25519_public : bytes → PublicKey;
  ed25519_sign : bytes → bytes → Signature;
  ed25519_public_valid : ∀ seed, ed25519_valid_key (ed25519_public seed) = true;
  ed25519_sign_verifies : ∀ seed m, ed25519_verify (ed25519_public seed) m (ed25519_sign seed m) = true;
}.

(** The signing key is determined by its 32-byte seed. *)
Record Keypair := MkKeypair { kp_signing_key : bytes }.

Module Keys.
Section keys.
Context `{!Crypto, !Ed25519}.

Definition from_seed (seed : bytes) : Keypair := MkKeypair seed.

Definition public_key (kp : Keypair) : PublicKey := ed25519_public (kp_signing_key kp).

Definition address (kp : Keypair) : Address := address_from_public_key (public_key kp).

Definition sign (message : bytes) (kp : Keypair) : Signature := ed25519_sign (kp_signing_key kp) message.

Lemma verify_sign kp m : verify m (sign m kp) (public_key kp) = Ok tt.
Proof. unfold verify, sign, public_key. by rewrite ed25519_public_valid, ed25519_sign_verifies. Qed.

End keys.
End Keys.
