(* ===== verification/Network.v ===== *)
(** * The peer-to-peer layer ([crates/vtt-network])

    The messages nodes exchange ([messages.rs]), the configuration
    ([config.rs]) and the bookkeeping of the network service ([service.rs]):
    reputations and bans, connections per IP address, and what each event of the
    libp2p swarm becomes.  The swarm is third-party: its events are inputs here,
    with the number of connected peers it reports, and the disconnections asked
    of it are outputs.  Instants are nanoseconds. *)

From stdpp Require Import pretty.
From S2P Require Import Prelude Primitives RustStr Codecs Rpc.

(** ** Messages *)

Inductive NetworkMessage :=
  | BlockAnnounce (block_hash : H256) (block_number : Z) (block : Block)
  | TransactionBroadcast (transaction : SignedTransaction)
  | BlockRequest (block_hash : H256)
  | BlockRangeRequest (request_id from_number count : Z)
  | BlockResponse (request_id : Z) (block : option Block)
  | BlockRangeResponse (request_id : Z) (blocks : list Block)
  | Status (chain_id : ChainId) (best_block_hash : H256) (best_block_number : Z) (genesis_hash : H256)
  | FinalityVoteMsg (voter : Address) (block_hash : H256) (block_number : Z) (signature : Signature).

Definition MAX_MESSAGE_SIZE : Z := 4 * 1024 * 1024.

Module Message.
Section codec.
Context `{!Borsh NetworkMessage}.

Definition encode (m : NetworkMessage) : bytes := to_vec m.

Definition decode (data : bytes) : option NetworkMessage :=
  if MAX_MESSAGE_SIZE <? blen data then None else from_slice data.

End codec.
End Message.

Module topics.

Definition block_announce (chain_id : Z) : bytes := "/vtt/chain/" +:+ pretty chain_id +:+ "/blocks".
Definition transactions (chain_id : Z) : bytes := "/vtt/chain/" +:+ pretty chain_id +:+ "/txs".

End topics.

(** ** Configuration *)

Record NetworkConfig := MkNetworkConfig {
  nc_listen_address : bytes;
  nc_boot_nodes : list bytes;
  nc_max_peers : Z;
  nc_max_peers_per_ip : Z;
  nc_ban_duration_secs : Z;
  nc_chain_id : ChainId;
  nc_node_key_seed : option bytes;
}.

Definition NetworkConfig_default : NetworkConfig :=
  MkNetworkConfig "/ip4/0.0.0.0/tcp/30333" [] 50 3 3600 ChainId_RELAY None.

Definition NetworkConfig_dev (port : Z) : NetworkConfig :=
  MkNetworkConfig ("/ip4/127.0.0.1/tcp/" +:+ pretty port) [] 10 3 3600 ChainId_RELAY None.

(** ** The service *)

Definition MAX_GOSSIP_MESSAGE_SIZE : Z := 4 * 1024 * 1024.
Definition DEFAULT_REPUTATION_SCORE : Z := 100.

Definition PeerId : Type := bytes.

Record PeerReputation := MkPeerReputation {
  pr_score : Z;
  pr_banned_until : option Z;
}.

Record NetworkService := MkNetworkService {
  ns_config : NetworkConfig;
  ns_block_topic : bytes;
  ns_tx_topic : bytes;
  ns_reputations : gmap PeerId PeerReputation;
  ns_connections_per_ip : gmap IpAddr Z;
  ns_peer_ips : gmap PeerId IpAddr;
}.

Definition NetworkService_eta (s : NetworkService) : NetworkService :=
  MkNetworkService (ns_config s) (ns_block_topic s) (ns_tx_topic s) (ns_reputations s)
    (ns_connections_per_ip s) (ns_peer_ips s).

#[global] Instance upd_ns_reputations : Updater ns_reputations.
Proof. derive_updater NetworkService_eta. Defined.
#[global] Instance upd_ns_connections_per_ip : Updater ns_connections_per_ip.
Proof. derive_updater NetworkService_eta. Defined.
#[global] Instance upd_ns_peer_ips : Updater ns_peer_ips.
Proof. derive_updater NetworkService_eta. Defined.

Inductive NetworkEvent :=
  | Listening (address : bytes)
  | PeerConnected (peer_id : PeerId)
  | PeerDisconnected (peer_id : PeerId)
  | EvMessage (m : NetworkMessage).

(** A multiaddress is a list of protocols. *)
Inductive Protocol := Ip4 (ip : bytes) | Ip6 (ip : bytes) | OtherProtocol (b : bytes).
Definition Multiaddr : Type := list Protocol.

(** What the swarm reports. [connected] is the number of peers connected when a
    connection is established, the new one included. *)
Inductive SwarmEvent :=
  | NewListenAddr (address : bytes)
  | ConnectionEstablished (peer_id : PeerId) (remote : Multiaddr) (connected : Z)
  | ConnectionClosed (peer_id : PeerId)
  | GossipMessage (propagation_source : PeerId) (data : bytes)
  | OtherEvent.

Module Net.
Section service.
Context `{!Borsh NetworkMessage}.
Implicit Types (s : NetworkService) (p : PeerId) (ip : IpAddr).

(** [NetworkService::new], when the swarm could be built. *)
Definition new (config : NetworkConfig) : NetworkService :=
  let chain_id := nc_chain_id config in
  MkNetworkService config (topics.block_announce chain_id) (topics.transactions chain_id) ∅ ∅ ∅.

(** What is published, and on which topic. *)
Definition broadcast_block (m : NetworkMessage) s : bytes * bytes := (ns_block_topic s, Message.encode m).
Definition broadcast_transaction (m : NetworkMessage) s : bytes * bytes := (ns_tx_topic s, Message.encode m).

(** *** Reputation and banning *)

Definition is_banned (now : Z) p s : bool :=
  match ns_reputations s !! p with
  | Some r => match pr_banned_until r with Some t => now <? t | None => false end
  | None => false
  end.

Definition saturating_sub_i32 (a b : Z) : Z := Z.max (- 2 ^ 31) (Z.min (2 ^ 31 - 1) (a - b)).

(** The peers to disconnect, and the service. *)
Definition penalize (now : Z) p (penalty : Z) s : list PeerId * NetworkService :=
  let ban_duration := nc_ban_duration_secs (ns_config s) in
  let rep := default (MkPeerReputation DEFAULT_REPUTATION_SCORE None) (ns_reputations s !! p) in
  let score := Z.max (saturating_sub_i32 (pr_score rep) penalty) 0 in
  let banned := score =? 0 in
  let until := if banned then Some (now + ban_duration * 10 ^ 9) else pr_banned_until rep in
  (if banned then [p] else [],
   s <| ns_reputations := <[p := MkPeerReputation score until]> (ns_reputations s) |>).

Definition cleanup_reputations (now : Z) s : NetworkService :=
  s <| ns_reputations := filter (λ pr : PeerId * PeerReputation,
    (match pr_banned_until pr.2 with None => true | Some t => now <? t end) || (0 <? pr_score pr.2) = true)
    (ns_reputations s) |>.

Definition peer_reputation p s : option Z := pr_score <$> ns_reputations s !! p.

(** *** Connections per IP address *)

Fixpoint ip_from_multiaddr (addr : Multiaddr) : option IpAddr :=
  match addr with
  | [] => None
  | Ip4 ip :: _ => Some ip
  | Ip6 ip :: _ => Some ip
  | OtherProtocol _ :: addr => ip_from_multiaddr addr
  end.

Definition count_of s ip : Z := default 0 (ns_connections_per_ip s !! ip).

Definition track_connection p ip s : bool * NetworkService :=
  let count := count_of s ip in
  if nc_max_peers_per_ip (ns_config s) <=? count then
    (false, s <| ns_connections_per_ip := <[ip := count]> (ns_connections_per_ip s) |>)
  else
    let s := s <| ns_connections_per_ip := <[ip := wrap 32 (count + 1)]> (ns_connections_per_ip s) |> in
    (true, s <| ns_peer_ips := <[p := ip]> (ns_peer_ips s) |>).

Definition untrack_connection p s : NetworkService :=
  match ns_peer_ips s !! p with
  | None => s
  | Some ip =>
      let s := s <| ns_peer_ips := delete p (ns_peer_ips s) |> in
      match ns_connections_per_ip s !! ip with
      | None => s
      | Some count =>
          let count := saturating_sub count 1 in
          s <| ns_connections_per_ip := if count =? 0 then delete ip (ns_connections_per_ip s)
                                        else <[ip := count]> (ns_connections_per_ip s) |>
      end
  end.

(** *** Events *)

(** A turn of the loop of [next_event]: the event it returns, if it does not
    continue, the peers disconnected, and the service. *)
Definition on_connection (now : Z) p (remote : Multiaddr) (connected : Z) s
    : option NetworkEvent * list PeerId * NetworkService :=
  if nc_max_peers (ns_config s) <? connected then (None, [p], s)
  else
    let '(accepted, s) :=
      match ip_from_multiaddr remote with
      | Some ip => track_connection p ip s
      | None => (true, s)
      end in
    if negb accepted then (None, [p], s)
    else if is_banned now p s then (None, [p], s)
    else (Some (PeerConnected p), [], s).

Definition on_gossip (now : Z) p (data : bytes) s : option NetworkEvent * list PeerId * NetworkService :=
  if is_banned now p s then (None, [], s)
  else if MAX_GOSSIP_MESSAGE_SIZE <? blen data then
    let '(out, s) := penalize now p 50 s in (None, out, s)
  else
    match Message.decode data with
    | Some m => (Some (EvMessage m), [], s)
    | None => let '(out, s) := penalize now p 25 s in (None, out, s)
    end.

Definition on_swarm_event (now : Z) (e : SwarmEvent) s : option NetworkEvent * list PeerId * NetworkService :=
  match e with
  | NewListenAddr address => (Some (Listening address), [], s)
  | ConnectionEstablished p remote connected => on_connection now p remote connected s
  | ConnectionClosed p => (Some (PeerDisconnected p), [], untrack_connection p s)
  | GossipMessage p data => on_gossip now p data s
  | OtherEvent => (None, [], s)
  end.

(** [next_event] on the events the swarm delivers, each at its instant: the
    event returned, the events left, the peers disconnected. *)
Fixpoint next_event (evs : list (Z * SwarmEvent)) s
    : option (NetworkEvent * list (Z * SwarmEvent)) * list PeerId * NetworkService :=
  match evs with
  | [] => (None, [], s)
  | (now, e) :: evs =>
      match on_swarm_event now e s with
      | (Some ev, out, s) => (Some (ev, evs), out, s)
      | (None, out, s) => let '(r, out', s) := next_event evs s in (r, out ++ out', s)
      end
  end.

(** All events, and what the node sees of them. *)
Fixpoint run (evs : list (Z * SwarmEvent)) s : list NetworkEvent * NetworkService :=
  match evs with
  | [] => ([], s)
  | (now, e) :: evs =>
      let '(r, _, s) := on_swarm_event now e s in
      let '(l, s) := run evs s in (option_list r ++ l, s)
  end.

End service.
End Net.

(** ** Messages round trip *)

Lemma decode_encode_message `{!Borsh NetworkMessage} m :
  Message.decode (Message.encode m)
  = if MAX_MESSAGE_SIZE <? blen (Message.encode m) then None else Some m.
Proof. unfold Message.decode, Message.encode. by rewrite from_slice_to_vec. Qed.

(** ** Connections per address *)

Section connections.
Context `{!Borsh NetworkMessage}.
Import Net.
Implicit Types (s : NetworkService) (p : PeerId) (ip : IpAddr) (evs : list (Z * SwarmEvent)).

(** The peers recorded under an address. *)
Definition peers_at s ip : gmap PeerId IpAddr := filter (λ kv : PeerId * IpAddr, kv.2 = ip) (ns_peer_ips s).

Lemma run_app evs evs' s : (run (evs ++ evs') s).2 = (run evs' (run evs s).2).2.
Proof.
  induction evs as [|[now e] evs IH] in s |- *; cbn; [done|].
  destruct (on_swarm_event now e s) as [[r out] s1]. specialize (IH s1).
  destruct (run evs s1), (run (evs ++ evs') s1). done.
Qed.

(** A property of the service that every event keeps. *)
Lemma run_keeps (P : NetworkService → Prop) evs s :
  (∀ now e s, P s → P (on_swarm_event now e s).2) → P s → P (run evs s).2.
Proof.
  intros Hstep. induction evs as [|[now e] evs IH] in s |- *; cbn; [done|]. intros Hs.
  pose proof (Hstep now e s Hs) as H1. destruct (on_swarm_event now e s) as [[r out] s1]; cbn in H1.
  specialize (IH s1 H1). by destruct (run evs s1).
Qed.

Lemma penalize_frame now p x s :
  let s' := (penalize now p x s).2 in
  ns_config s' = ns_config s ∧ ns_connections_per_ip s' = ns_connections_per_ip s
  ∧ ns_peer_ips s' = ns_peer_ips s.
Proof. done. Qed.

Lemma gossip_frame now p data s :
  let s' := (on_gossip now p data s).2 in
  ns_config s' = ns_config s ∧ ns_connections_per_ip s' = ns_connections_per_ip s
  ∧ ns_peer_ips s' = ns_peer_ips s.
Proof.
  unfold on_gossip. destruct (is_banned now p s); [done|]. destruct (_ <? blen data); [done|].
  by destruct (Message.decode data).
Qed.

(** A connection event changes what [track_connection] changes. *)
Lemma connection_state now p remote n s :
  (on_connection now p remote n s).2 = s
  ∨ ∃ ip, ip_from_multiaddr remote = Some ip ∧ (on_connection now p remote n s).2 = (track_connection p ip s).2.
Proof.
  unfold on_connection. destruct (_ <? n); [by left|].
  destruct (ip_from_multiaddr remote) as [ip|] eqn:Hip.
  - right. exists ip. split; [done|]. destruct (track_connection p ip s) as [[] s1]; cbn; [|done].
    by destruct (is_banned now p s1).
  - left. cbn. by destruct (is_banned now p s).
Qed.

Lemma config_kept now e s : ns_config (on_swarm_event now e s).2 = ns_config s.
Proof.
  destruct e as [a|p remote n|p|p data|]; cbn; [done| | | |done].
  - destruct (connection_state now p remote n s) as [->|(ip & _ & ->)]; [done|].
    unfold track_connection. by destruct (_ <=? _).
  - unfold untrack_connection. destruct (ns_peer_ips s !! p) as [ip|]; [|done]. cbn.
    by destruct (ns_connections_per_ip s !! ip).
  - apply gossip_frame.
Qed.

Definition ip_counts s : Prop := ∀ ip,
  Z.of_nat (size (peers_at s ip)) <= count_of s ip <= nc_max_peers_per_ip (ns_config s).

Lemma count_insert s ip ip' n :
  count_of (s <| ns_connections_per_ip := <[ip := n]> (ns_connections_per_ip s) |>) ip'
  = if decide (ip = ip') then n else count_of s ip'.
Proof.
  unfold count_of; cbn. destruct (decide (ip = ip')) as [<-|Hne]; [by rewrite lookup_insert_eq|].
  by rewrite lookup_insert_ne.
Qed.

Lemma track_counts p ip s :
  0 <= nc_max_peers_per_ip (ns_config s) < 2 ^ 32 → ip_counts s → ip_counts (track_connection p ip s).2.
Proof.
  intros Hmax Hs ip'. unfold track_connection. pose proof (Hs ip) as Hip. pose proof (Hs ip') as Hip'.
  destruct (Z.leb_spec (nc_max_peers_per_ip (ns_config s)) (count_of s ip)) as [Hle|Hlt]; cbn [snd].
  - rewrite count_insert. destruct (decide (ip = ip')) as [<-|]; apply Hs.
  - rewrite wrap_small by (unfold in_width; lia).
    change (count_of _ ip') with
      (count_of (s <| ns_connections_per_ip := <[ip := count_of s ip + 1]> (ns_connections_per_ip s) |>) ip').
    rewrite count_insert. unfold peers_at in *. cbn.
    rewrite map_filter_insert; cbn. destruct (decide (ip = ip')) as [<-|Hne].
    + pose proof (map_size_insert p ip (filter (λ kv : PeerId * IpAddr, kv.2 = ip) (ns_peer_ips s))) as Hsz.
      rewrite Hsz. destruct (_ !! p); cbn; lia.
    + rewrite map_filter_delete, map_size_delete. destruct (_ !! p); cbn; lia.
Qed.

Lemma untrack_counts p s : ip_counts s → ip_counts (untrack_connection p s).
Proof.
  intros Hs ip'. unfold untrack_connection. destruct (ns_peer_ips s !! p) as [ip|] eqn:Hp; [|apply Hs].
  pose proof (Hs ip) as Hip. pose proof (Hs ip') as Hip'. unfold peers_at, count_of in *. cbn.
  assert (Hsz : ∀ i, size (filter (λ kv : PeerId * IpAddr, kv.2 = i) (delete p (ns_peer_ips s)))
                 = (size (peers_at s i) - if decide (ip = i) then 1 else 0)%nat).
  { intros i. rewrite map_filter_delete, map_size_delete. unfold peers_at.
    destruct (decide (ip = i)) as [<-|Hne].
    - rewrite (map_lookup_filter_Some_2 _ _ p ip) by done. by rewrite Nat.sub_1_r.
    - destruct (filter _ _ !! p) eqn:Hf; [|unfold id; lia]. apply map_lookup_filter_Some in Hf as [? Hf].
      cbn in Hf. congruence. }
  assert (Hpos : (1 <= size (peers_at s ip))%nat).
  { apply Nat.le_succ_l, Nat.neq_0_lt_0, map_size_ne_0_lookup. exists p, ip. by apply map_lookup_filter_Some_2. }
  unfold peers_at in Hpos, Hsz.
  destruct (ns_connections_per_ip s !! ip) as [n|] eqn:Hn; cbn in *; [|lia].
  rewrite Hsz. destruct (decide (ip = ip')) as [<-|Hne].
  - rewrite Hn in Hip'. cbn in Hip'. unfold saturating_sub.
    destruct (Z.eqb_spec (Z.max (n - 1) 0) 0); rewrite ?lookup_delete_eq, ?lookup_insert_eq; cbn; lia.
  - rewrite Nat.sub_0_r. destruct (_ =? 0); [by rewrite lookup_delete_ne|by rewrite lookup_insert_ne].
Qed.

(** Whatever the swarm reports, in any order, no address holds more slots than
    [max_peers_per_ip], and the peers recorded under an address never exceed the
    slots it holds. *)
Lemma ip_slots config evs :
  0 <= nc_max_peers_per_ip config < 2 ^ 32 →
  let s := (run evs (new config)).2 in
  ∀ ip, Z.of_nat (size (peers_at s ip)) <= count_of s ip <= nc_max_peers_per_ip config.
Proof.
  intros Hmax s.
  cut (ns_config s = config ∧ ip_counts s); [intros [Hc Hs]; by rewrite <- Hc|].
  apply (run_keeps (λ s, ns_config s = config ∧ ip_counts s)).
  - intros now e s0 [Hc Hs]. split; [by rewrite config_kept|].
    destruct e as [a|p remote n|p|p data|]; cbn; [done| | | |done].
    + destruct (connection_state now p remote n s0) as [->|(ip & _ & ->)]; [done|].
      apply track_counts; [by rewrite Hc|done].
    + by apply untrack_counts.
    + destruct (gossip_frame now p data s0) as (E1 & E2 & E3).
      intros ip. specialize (Hs ip). unfold peers_at, count_of in *. by rewrite E1, E2, E3.
  - split; [done|]. intros ip. unfold peers_at, count_of; cbn. rewrite map_filter_empty, map_size_empty, lookup_empty. cbn. lia.
Qed.

(** An address whose slots are all taken while no peer is recorded under it. *)
Definition leaked_out ip s : Prop :=
  nc_max_peers_per_ip (ns_config s) <= count_of s ip ∧ ∀ p, ns_peer_ips s !! p ≠ Some ip.

Lemma leaked_track p ip' ip s : leaked_out ip s → leaked_out ip (track_connection p ip' s).2.
Proof.
  intros [Hc Hp]. unfold track_connection.
  destruct (Z.leb_spec (nc_max_peers_per_ip (ns_config s)) (count_of s ip')); split; cbn [snd].
  - rewrite count_insert. by destruct (decide (ip' = ip)) as [->|].
  - done.
  - unfold count_of in *; cbn. rewrite lookup_insert_ne; [done|]. intros ->. lia.
  - intros q. cbn. destruct (decide (p = q)) as [->|]; [rewrite lookup_insert_eq|by rewrite lookup_insert_ne].
    intros [= ->]. lia.
Qed.

Lemma leaked_untrack p ip s : leaked_out ip s → leaked_out ip (untrack_connection p s).
Proof.
  intros [Hc Hp]. unfold untrack_connection. destruct (ns_peer_ips s !! p) as [ip'|] eqn:E; [|done].
  assert (Hne : ip' ≠ ip) by (intros ->; by apply (Hp p)). cbn.
  assert (Hd : ∀ q, delete p (ns_peer_ips s) !! q ≠ Some ip).
  { intros q [_ ?]%lookup_delete_Some. by apply (Hp q). }
  destruct (ns_connections_per_ip s !! ip'); split; cbn; try done.
  unfold count_of in *; cbn. destruct (_ =? 0); [by rewrite lookup_delete_ne|by rewrite lookup_insert_ne].
Qed.

Lemma leaked_step ip now e s : leaked_out ip s → leaked_out ip (on_swarm_event now e s).2.
Proof.
  intros Hl. destruct e as [a|p remote n|p|p data|]; cbn; [done| | | |done].
  - destruct (connection_state now p remote n s) as [->|(ip' & _ & ->)]; [done|by apply leaked_track].
  - by apply leaked_untrack.
  - destruct (gossip_frame now p data s) as (E1 & E2 & E3), Hl.
    split; unfold count_of in *; by rewrite ?E1, ?E2, ?E3.
Qed.

(** Once leaked out, an address never connects again. *)
Lemma leaked_refused ip s evs now p remote n :
  leaked_out ip s → ip_from_multiaddr remote = Some ip →
  (on_swarm_event now (ConnectionEstablished p remote n) (run evs s).2).1 = (None, [p]).
Proof.
  intros Hl Hip. destruct (run_keeps (leaked_out ip) evs s (leaked_step ip) Hl) as [Hc _].
  cbn. unfold on_connection. destruct (_ <? n); [done|]. rewrite Hip. unfold track_connection.
  by destruct (Z.leb_spec (nc_max_peers_per_ip (ns_config (run evs s).2)) (count_of (run evs s).2 ip)); [|lia].
Qed.

(** A peer with two addresses opens a connection from each and closes both. *)
Definition two_homed p ip4 ip6 : list (Z * SwarmEvent) :=
  (λ e, (0, e)) <$> [ConnectionEstablished p [Ip4 ip4] 1; ConnectionEstablished p [Ip6 ip6] 1;
                     ConnectionClosed p; ConnectionClosed p].

(** In the configuration both binaries use, three peers that connect over IPv4
    and IPv6 and leave again take the slots of their IPv4 address for good: with
    no connection open, every later connection from it is refused, whatever
    happens in between. *)
Theorem closed_connections_keep_slots port evs now p n :
  let ip4 : IpAddr := "0001" in
  let home p := two_homed p ip4 "0000000000000001" in
  let s := (run (home "a" ++ home "b" ++ home "c") (new (NetworkConfig_dev port))).2 in
  ns_peer_ips s = ∅ ∧ count_of s ip4 = 3
  ∧ (on_swarm_event now (ConnectionEstablished p [Ip4 ip4] n) (run evs s).2).1 = (None, [p]).
Proof.
  intros ip4 home s.
  assert (Hp : ns_peer_ips s = ∅) by (vm_compute; reflexivity).
  assert (Hc : count_of s ip4 = 3) by (vm_compute; reflexivity).
  split_and!; [done..|]. apply (leaked_refused ip4); [|done]. split; [|intros q; by rewrite Hp, lookup_empty].
  rewrite Hc. by vm_compute.
Qed.

End connections.

(** ** Bans *)

Section bans.
Context `{!Borsh NetworkMessage}.
Import Net.
Implicit Types (s : NetworkService) (p : PeerId) (evs : list (Z * SwarmEvent)).

(** What a message costs the peer it came from. *)
Definition penalty_of (data : bytes) : Z :=
  if MAX_GOSSIP_MESSAGE_SIZE <? blen data then 50
  else match Message.decode data with Some _ => 0 | None => 25 end.

Definition penalties p evs : Z :=
  list_sumZ (λ te, match te.2 with
                   | GossipMessage q data => if decide (q = p) then penalty_of data else 0
                   | _ => 0
                   end) evs.

(** The record of a peer that has run up [total] in penalties since [t0]. *)
Definition standing t0 p (total : Z) s : Prop :=
  let D := nc_ban_duration_secs (ns_config s) * 10 ^ 9 in
  if total <? 100 then
    match ns_reputations s !! p with
    | None => total = 0
    | Some r => pr_score r = 100 - total ∧ pr_banned_until r = None
    end
  else ∃ u, ns_reputations s !! p = Some (MkPeerReputation 0 (Some u)) ∧ t0 + D <= u.

Lemma standing_banned t0 p total s now :
  t0 <= now < t0 + nc_ban_duration_secs (ns_config s) * 10 ^ 9 → standing t0 p total s →
  is_banned now p s = (100 <=? total).
Proof.
  intros Hnow. unfold standing, is_banned. rewrite Z.leb_antisym.
  destruct (total <? 100); cbn.
  - destruct (ns_reputations s !! p) as [[sc u]|]; cbn; [|done]. by intros [_ ->].
  - intros (u & -> & Hu). cbn. lia.
Qed.

Lemma penalize_standing t0 p total s now x :
  t0 <= now → 0 <= total < 100 → 0 < x <= 100 → standing t0 p total s →
  standing t0 p (total + x) (penalize now p x s).2.
Proof.
  intros Hnow Ht Hx. unfold standing, penalize. cbn.
  replace (total <? 100) with true by lia. rewrite lookup_insert_eq.
  set (rep := default _ _). intros Hs.
  assert (pr_score rep = 100 - total ∧ pr_banned_until rep = None) as [Hr1 Hr2].
  { unfold rep. destruct (ns_reputations s !! p); cbn in *; [done|].
    split; [unfold DEFAULT_REPUTATION_SCORE; lia|done]. }
  rewrite Hr1, Hr2. unfold saturating_sub_i32.
  destruct (Z.ltb_spec (total + x) 100) as [Hlt|Hge].
  - destruct (Z.eqb_spec (Z.max (Z.max (- 2 ^ 31) (Z.min (2 ^ 31 - 1) (100 - total - x))) 0) 0); cbn; [lia|].
    split; [lia|done].
  - replace (Z.max (Z.max (- 2 ^ 31) (Z.min (2 ^ 31 - 1) (100 - total - x))) 0) with 0 by lia.
    cbn. eexists. split; [done|]. lia.
Qed.

Lemma gossip_standing t0 p total s now data :
  t0 <= now < t0 + nc_ban_duration_secs (ns_config s) * 10 ^ 9 → 0 <= total →
  standing t0 p total s → standing t0 p (total + penalty_of data) (on_gossip now p data s).2.
Proof.
  intros Hnow Ht Hs. unfold on_gossip. rewrite (standing_banned t0 p total s now Hnow Hs).
  destruct (Z.leb_spec 100 total) as [Hge|Hlt]; cbn.
  - assert (0 <= penalty_of data) by (unfold penalty_of; destruct (_ <? _), (Message.decode data); lia).
    unfold standing in *. by replace (total <? 100) with false in Hs by lia;
      replace (total + penalty_of data <? 100) with false by lia.
  - unfold penalty_of. destruct (_ <? blen data); [apply penalize_standing; [lia..|done]|].
    destruct (Message.decode data); [by rewrite Z.add_0_r|apply penalize_standing; [lia..|done]].
Qed.

Lemma gossip_other p q now data s : p ≠ q →
  ns_reputations (on_gossip now q data s).2 !! p = ns_reputations s !! p.
Proof.
  intros Hne. unfold on_gossip. destruct (is_banned now q s); [done|].
  destruct (_ <? blen data); [|destruct (Message.decode data); [done|]]; cbn; by rewrite lookup_insert_ne.
Qed.

Lemma connection_reputations now q remote n s :
  ns_reputations (on_connection now q remote n s).2 = ns_reputations s.
Proof.
  destruct (connection_state now q remote n s) as [->|(ip & _ & ->)]; [done|].
  unfold track_connection. by destruct (_ <=? _).
Qed.

Lemma untrack_reputations q s : ns_reputations (untrack_connection q s) = ns_reputations s.
Proof.
  unfold untrack_connection. destruct (ns_peer_ips s !! q) as [ip|]; [|done]. cbn.
  by destruct (ns_connections_per_ip s !! ip).
Qed.

Lemma standing_step t0 p total s now e :
  t0 <= now < t0 + nc_ban_duration_secs (ns_config s) * 10 ^ 9 → 0 <= total → standing t0 p total s →
  standing t0 p (total + penalties p [(now, e)]) (on_swarm_event now e s).2.
Proof.
  intros Hnow Ht Hs. unfold penalties; cbn. rewrite Z.add_0_r.
  assert (Hsame : ∀ s', ns_config s' = ns_config s → ns_reputations s' !! p = ns_reputations s !! p →
            standing t0 p (total + 0) s').
  { intros s' Hc Hr. rewrite Z.add_0_r. unfold standing in *. by rewrite Hc, Hr. }
  pose proof (config_kept now e s) as Hc.
  destruct e as [a|q remote n|q|q data|]; try (by apply Hsame); cbn in *.
  - apply Hsame; [done|]. by rewrite connection_reputations.
  - apply Hsame; [done|]. by rewrite untrack_reputations.
  - destruct (decide (q = p)) as [->|Hne]; [by apply gossip_standing|].
    apply Hsame; [done|]. by apply gossip_other.
Qed.

Lemma penalties_nonneg p evs : 0 <= penalties p evs.
Proof.
  apply list_sumZ_nonneg. intros [t []] _; cbn; try lia.
  destruct (decide _); [|lia]. unfold penalty_of. destruct (_ <? _), (Message.decode data); lia.
Qed.

Lemma run_standing t0 p D evs s total :
  nc_ban_duration_secs (ns_config s) = D → Forall (λ te, t0 <= te.1 < t0 + D * 10 ^ 9) evs →
  0 <= total → standing t0 p total s →
  ns_config (run evs s).2 = ns_config s ∧ standing t0 p (total + penalties p evs) (run evs s).2.
Proof.
  intros HD Hall. induction Hall as [|[now e] evs Hnow Hall IH] in s, total, HD |- *; intros Ht Hs.
  { unfold penalties; cbn. by rewrite Z.add_0_r. }
  rewrite <- HD in Hnow. pose proof (standing_step t0 p total s now e Hnow Ht Hs) as H1.
  pose proof (config_kept now e s) as Hc. pose proof (penalties_nonneg p [(now, e)]) as Hn.
  cbn [run]. destruct (on_swarm_event now e s) as [[r out] s1]; cbn in H1, Hc.
  destruct (IH s1 (total + penalties p [(now, e)])) as [Hc' H2]; [by rewrite Hc|lia|done|].
  destruct (run evs s1) as [l s2]; cbn in *. split; [congruence|].
  unfold penalties in *; cbn in *. by rewrite Z.add_0_r, <- Z.add_assoc in H2.
Qed.

(** C31: Within a ban period, a peer is banned exactly when its messages have cost it
    the whole of its score: 50 for each one over the size limit, 25 for each
    undecodable one, whatever other peers do and however it reconnects. *)
Theorem ban_exact config t0 evs p now :
  let D := nc_ban_duration_secs config * 10 ^ 9 in
  Forall (λ te, t0 <= te.1 < t0 + D) evs → t0 <= now < t0 + D →
  is_banned now p (run evs (new config)).2 = (100 <=? penalties p evs).
Proof.
  intros D Hall Hnow.
  destruct (run_standing t0 p (nc_ban_duration_secs config) evs (new config) 0) as [Hc Hs]; try done.
  apply (standing_banned t0); [by rewrite Hc|by rewrite Z.add_0_l in Hs].
Qed.

(** Nothing resets a score: when a ban has run out, one undecodable message is
    enough for the next. *)
Lemma expired_ban_renewed now p s data u :
  ns_reputations s !! p = Some (MkPeerReputation 0 (Some u)) → u <= now →
  penalty_of data ≠ 0 → 0 < nc_ban_duration_secs (ns_config s) →
  is_banned now p s = false ∧ is_banned now p (on_swarm_event now (GossipMessage p data) s).2 = true.
Proof.
  intros Hr Hu Hp HD.
  assert (Hb : is_banned now p s = false) by (unfold is_banned; rewrite Hr; cbn; lia).
  split; [done|]. cbn. unfold on_gossip. rewrite Hb.
  assert (Hpen : ∀ x, 0 < x <= 100 → is_banned now p (penalize now p x s).2 = true).
  { intros x Hx. unfold is_banned, penalize. rewrite Hr. cbn. rewrite lookup_insert_eq.
    unfold saturating_sub_i32.
    replace (Z.max (Z.max (- 2 ^ 31) (Z.min (2 ^ 31 - 1) (0 - x))) 0) with 0 by lia. cbn. lia. }
  unfold penalty_of in Hp. destruct (_ <? blen data); [by apply Hpen|].
  destruct (Message.decode data); [done|]. by apply Hpen.
Qed.

(** A record of a peer: an [i32] score between 0 and 100, with a ban on record
    exactly when it is 0. *)
Definition typed_reputation (r : PeerReputation) : Prop :=
  0 <= pr_score r <= 100 ∧ (is_Some (pr_banned_until r) ↔ pr_score r = 0).

Definition typed_reputations s : Prop := ∀ p r, ns_reputations s !! p = Some r → typed_reputation r.

Lemma penalize_typed now p x s : 0 <= x < 2 ^ 31 → typed_reputations s → typed_reputations (penalize now p x s).2.
Proof.
  intros Hx Hs q r. unfold penalize. cbn. intros [[<- <-]|[_ Hq]]%lookup_insert_Some; [|by eapply Hs].
  assert (Hr : typed_reputation (default (MkPeerReputation DEFAULT_REPUTATION_SCORE None) (ns_reputations s !! p))).
  { destruct (ns_reputations s !! p) as [r|] eqn:Hp; [by apply (Hs p)|]. cbn.
    split; cbn; [unfold DEFAULT_REPUTATION_SCORE; lia|]. by split; [intros []|]. }
  destruct Hr as [H1 H2]. unfold saturating_sub_i32, typed_reputation. cbn. split; [lia|].
  set (sc := Z.max _ 0). destruct (Z.eqb_spec sc 0) as [->|Hne]; [by split; [|intros; eexists]|].
  rewrite H2. unfold sc in *. split; [|lia]. lia.
Qed.

Lemma step_typed now e s : typed_reputations s → typed_reputations (on_swarm_event now e s).2.
Proof.
  intros Hs. destruct e as [a|p remote n|p|p data|]; cbn; [done| | | |done].
  - unfold typed_reputations. by rewrite connection_reputations.
  - unfold typed_reputations. by rewrite untrack_reputations.
  - unfold on_gossip. destruct (is_banned now p s); [done|].
    destruct (_ <? blen data); [by apply penalize_typed|].
    destruct (Message.decode data); [done|by apply penalize_typed].
Qed.

(** C32: The records of the service keep their types.  Whatever the swarm reports, the
    score of every peer is an [i32] between 0 and 100, a ban is on record exactly
    for the peers whose score is 0, and the connections of every address are a
    [u32] that does not exceed [max_peers_per_ip], so that no counter wraps. *)
Theorem service_typed config evs :
  0 <= nc_max_peers_per_ip config < 2 ^ 32 →
  let s := (run evs (new config)).2 in
  typed_reputations s
  ∧ ∀ ip, in_width 32 (count_of s ip) ∧ count_of s ip <= nc_max_peers_per_ip config.
Proof.
  intros Hmax s. split.
  - apply run_keeps; [intros; by apply step_typed|]. by intros p r.
  - intros ip. pose proof (ip_slots config evs Hmax ip) as Hip. fold s in Hip. unfold in_width. lia.
Qed.

End bans.
