(* ===== verification/Node.v ===== *)
(** * The node processes ([bin/vtt-node], [bin/vtt-validator])

    The two binaries around the chain: how they start, how they answer the
    messages of their peers, and one turn of their event loops.  A turn takes the
    event that [select!] picked, with the readings of the clocks made while it is
    handled: [clock i] is the wall clock at the [i]-th block import of the turn,
    [inst] the monotonic clock.  What a turn publishes is its result.  The locks
    are uncontended (one task runs the loop), so a poisoned one stands behind a
    panic, which ends the process.  Also here: the metrics ([vtt-telemetry]),
    without the timing histogram, and [prune_old_blocks] of [rocks.rs]. *)

From stdpp Require Import pretty.
From S2P Require Import Prelude Primitives RustStr Storage RocksStore StateDB Codecs Consensus Finality Governance.
From S2P Require Import ExecStaking ExecGov Executor Chain TxPool Producer Genesis Relayer Rpc Keys Network.

(** ** Metrics *)

(** [as i64]. *)
Definition as_i64 (x : Z) : Z := let x := wrap 64 x in if x <? 2 ^ 63 then x else x - 2 ^ 64.

Record NodeMetrics := MkNodeMetrics {
  mt_block_height : Z;
  mt_connected_peers : Z;
  mt_txpool_size : Z;
  mt_blocks_imported : Z;
  mt_transactions_executed : Z;
  mt_current_epoch : Z;
  mt_active_validators : Z;
}.

Definition NodeMetrics_new : NodeMetrics := MkNodeMetrics 0 0 0 0 0 0 0.

Definition NodeMetrics_eta (m : NodeMetrics) : NodeMetrics :=
  MkNodeMetrics (mt_block_height m) (mt_connected_peers m) (mt_txpool_size m) (mt_blocks_imported m)
    (mt_transactions_executed m) (mt_current_epoch m) (mt_active_validators m).

#[global] Instance upd_mt_block_height : Updater mt_block_height.
Proof. derive_updater NodeMetrics_eta. Defined.
#[global] Instance upd_mt_connected_peers : Updater mt_connected_peers.
Proof. derive_updater NodeMetrics_eta. Defined.
#[global] Instance upd_mt_txpool_size : Updater mt_txpool_size.
Proof. derive_updater NodeMetrics_eta. Defined.
#[global] Instance upd_mt_blocks_imported : Updater mt_blocks_imported.
Proof. derive_updater NodeMetrics_eta. Defined.
#[global] Instance upd_mt_transactions_executed : Updater mt_transactions_executed.
Proof. derive_updater NodeMetrics_eta. Defined.
#[global] Instance upd_mt_current_epoch : Updater mt_current_epoch.
Proof. derive_updater NodeMetrics_eta. Defined.
#[global] Instance upd_mt_active_validators : Updater mt_active_validators.
Proof. derive_updater NodeMetrics_eta. Defined.

Module Metrics.

Definition set_height (height : Z) (m : NodeMetrics) : NodeMetrics := m <| mt_block_height := as_i64 height |>.

Definition inc_imported (m : NodeMetrics) : NodeMetrics :=
  m <| mt_blocks_imported := wrap 64 (mt_blocks_imported m + 1) |>.

Definition inc_executed (by_ : Z) (m : NodeMetrics) : NodeMetrics :=
  m <| mt_transactions_executed := wrap 64 (mt_transactions_executed m + by_) |>.

End Metrics.

(** ** The state of a node *)

Record Node := MkNode {
  nd_chain : Chain;
  nd_pool : TxPool;
  nd_metrics : NodeMetrics;
  nd_next_request_id : Z;
}.

Definition Node_eta (n : Node) : Node :=
  MkNode (nd_chain n) (nd_pool n) (nd_metrics n) (nd_next_request_id n).

#[global] Instance upd_nd_chain : Updater nd_chain.
Proof. derive_updater Node_eta. Defined.
#[global] Instance upd_nd_pool : Updater nd_pool.
Proof. derive_updater Node_eta. Defined.
#[global] Instance upd_nd_metrics : Updater nd_metrics.
Proof. derive_updater Node_eta. Defined.
#[global] Instance upd_nd_next_request_id : Updater nd_next_request_id.
Proof. derive_updater Node_eta. Defined.

(** A validator also tracks finality. *)
Record Validator := MkValidator {
  va_node : Node;
  va_tracker : FinalityTracker;
}.

Definition Validator_eta (v : Validator) : Validator := MkValidator (va_node v) (va_tracker v).

#[global] Instance upd_va_node : Updater va_node.
Proof. derive_updater Validator_eta. Defined.
#[global] Instance upd_va_tracker : Updater va_tracker.
Proof. derive_updater Validator_eta. Defined.

Definition SYNC_BATCH_SIZE : Z := 100.
Definition PRUNE_INTERVAL_BLOCKS : Z := 10000.
Definition KEEP_RECENT_BLOCKS : Z := 100000.

Section common.
Context `{!ChainEnv}.

(** [NEXT_REQUEST_ID.fetch_add(1)] *)
Definition fresh_id {E} : M Node E Z := λ n,
  (Ok (nd_next_request_id n), n <| nd_next_request_id := wrap 64 (nd_next_request_id n + 1) |>).

Definition metrics {E} (f : NodeMetrics → NodeMetrics) : M Node E unit :=
  modify (λ n, n <| nd_metrics := f (nd_metrics n) |>).

(** [chain.import_block(block)]; an error is only logged. *)
Definition import {E} (now : Z) (block : Block) : M Node E (option ImportResult) := λ n,
  match Chain.import_block now block (nd_chain n) with
  | (Ok result, c) => (Ok (Some result), n <| nd_chain := c |>)
  | (Err _, c) => (Ok None, n <| nd_chain := c |>)
  | (Panic, c) => (Panic, n <| nd_chain := c |>)
  end.

(** [pool.add(..)]; an error is only logged. *)
Definition add_to_pool {E} (tx : SignedTransaction) (sender : Address) (account_nonce inst : Z) : M Node E bool :=
  λ n,
  match Pool.add tx sender account_nonce inst (nd_pool n) with
  | (Ok _, p) => (Ok true, n <| nd_pool := p |>)
  | (Err _, p) => (Ok false, n <| nd_pool := p |>)
  | (Panic, p) => (Panic, n <| nd_pool := p |>)
  end.

(** The blocks of a range request: canonical ones, up to the first gap. *)
Fixpoint serve_range (c : Chain) (from_number : Z) (i : Z) (todo : nat) : list Block :=
  match todo with
  | O => []
  | S todo =>
      match Chain.get_block_by_number c (wrap 64 (from_number + i)) with
      | Some block => block :: serve_range c from_number (i + 1) todo
      | None => []
      end
  end.

(** [store.prune_old_blocks] when there is a store and the height is due. *)
Definition prune {E} (height : Z) : M Node E unit :=
  modify (λ n,
    let c := nd_chain n in
    if ch_persistent c && (0 <? height) && (height mod PRUNE_INTERVAL_BLOCKS =? 0) then
      match db_storage (ch_state c) with
      | Some st =>
          let '(_, st) := Rocks.prune_old_blocks KEEP_RECENT_BLOCKS height st in
          n <| nd_chain := c <| ch_state := (ch_state c) <| db_storage := Some st |> |> |>
      | None => n
      end
    else n).

Definition evict {E} (inst : Z) : M Node E unit :=
  modify (λ n,
    let '(evicted, p) := Pool.evict_expired inst (nd_pool n) in
    let n := n <| nd_pool := p |> in
    if 0 <? evicted then n <| nd_metrics := (nd_metrics n) <| mt_txpool_size := as_i64 (Pool.len p) |> |> else n).

Definition status_message (chain_id : ChainId) (gen_hash : H256) (c : Chain) : NetworkMessage :=
  Status chain_id (default H256_ZERO (ch_head_hash c)) (default 0 (Chain.height c)) gen_hash.

End common.

(** ** The full node *)

(** What wakes an event loop. [connected] is the number of peers the swarm
    reports after the event. *)
Inductive LoopEvent :=
  | BlockTimer
  | NetworkEv (ev : NetworkEvent) (connected : Z)
  | EvictionTick
  | StatusTick.

Module FullNode.
Section with_env.
Context `{!ChainEnv}.

Definition on_block_announce {E} (now : Z) (block : Block) : M Node E (list NetworkMessage) :=
  r ← import now block;
  match r with
  | None => mret []
  | Some result =>
      _ ← metrics Metrics.inc_imported;
      _ ← metrics (Metrics.set_height (ir_block_number result));
      _ ← metrics (Metrics.inc_executed (Z.of_nat (length (ir_receipts result))));
      c ← gets nd_chain;
      _ ← match Chain.height c with
          | Some height =>
              epoch ← lift (Engine.epoch_for_block (ch_consensus c) height);
              metrics (λ m, m <| mt_current_epoch := as_i64 epoch |>)
          | None => mret tt
          end;
      mret []
  end.

Definition on_transaction {E} (inst : Z) (transaction : SignedTransaction) : M Node E (list NetworkMessage) :=
  let sender := address_from_public_key (tx_public_key transaction) in
  account_nonce ← gets (λ n, State.get_nonce (ch_state (nd_chain n)) sender);
  added ← add_to_pool transaction sender account_nonce inst;
  _ ← (if added : bool then
         modify (λ n, n <| nd_metrics := (nd_metrics n) <| mt_txpool_size := as_i64 (Pool.len (nd_pool n)) |> |>)
       else mret tt);
  mret [].

Definition on_status {E} (best_block_number : Z) : M Node E (list NetworkMessage) :=
  our_height ← gets (λ n, default 0 (Chain.height (nd_chain n)));
  if our_height <? best_block_number then
    let from := wrap 64 (our_height + 1) in
    let count := Z.min (wrap 32 (best_block_number - our_height)) SYNC_BATCH_SIZE in
    request_id ← fresh_id;
    mret [BlockRangeRequest request_id from count]
  else mret [].

Definition on_range_request {E} (request_id from_number count : Z) : M Node E (list NetworkMessage) :=
  let capped_count := Z.min count SYNC_BATCH_SIZE in
  c ← gets nd_chain;
  mret [BlockRangeResponse request_id (serve_range c from_number 0 (Z.to_nat capped_count))].

(** The import loop of a range response: the number of blocks imported. *)
Fixpoint import_sync {E} (clock : nat → Z) (i : nat) (blocks : list Block) : M Node E Z :=
  match blocks with
  | [] => mret 0
  | block :: blocks =>
      r ← import (clock i) block;
      match r with
      | None => mret 0
      | Some result =>
          _ ← metrics Metrics.inc_imported;
          _ ← metrics (Metrics.set_height (ir_block_number result));
          imported ← import_sync clock (S i) blocks;
          mret (imported + 1)
      end
  end.

Definition on_range_response {E} (clock : nat → Z) (blocks : list Block) : M Node E (list NetworkMessage) :=
  if bool_decide (blocks = []) then mret []
  else
    imported ← import_sync clock 0 blocks;
    if (0 <? imported) && (wrap 32 (Z.of_nat (length blocks)) =? SYNC_BATCH_SIZE) then
      our_height ← gets (λ n, default 0 (Chain.height (nd_chain n)));
      let next_from := wrap 64 (our_height + 1) in
      next_id ← fresh_id;
      mret [BlockRangeRequest next_id next_from SYNC_BATCH_SIZE]
    else mret [].

Definition on_block_request {E} (block_hash : H256) : M Node E (list NetworkMessage) :=
  block ← gets (λ n, Chain.get_block (nd_chain n) block_hash);
  request_id ← fresh_id;
  mret [BlockResponse request_id block].

Definition on_block_response {E} (now : Z) (block : option Block) : M Node E (list NetworkMessage) :=
  match block with
  | None => mret []
  | Some block =>
      r ← import now block;
      match r with
      | None => mret []
      | Some result =>
          _ ← metrics Metrics.inc_imported;
          _ ← metrics (Metrics.set_height (ir_block_number result));
          mret []
      end
  end.

(** The messages to broadcast in response. *)
Definition handle_network_message {E} (clock : nat → Z) (inst : Z) (msg : NetworkMessage)
    : M Node E (list NetworkMessage) :=
  match msg with
  | BlockAnnounce _ _ block => on_block_announce (clock 0%nat) block
  | TransactionBroadcast transaction => on_transaction inst transaction
  | Status _ _ best_block_number _ => on_status best_block_number
  | BlockRangeRequest request_id from_number count => on_range_request request_id from_number count
  | BlockRangeResponse _ blocks => on_range_response clock blocks
  | BlockRequest block_hash => on_block_request block_hash
  | BlockResponse _ block => on_block_response (clock 0%nat) block
  | FinalityVoteMsg _ _ _ _ => mret []
  end.

(** One turn of the event loop. *)
Definition step {E} (chain_id : ChainId) (gen_hash : H256) (clock : nat → Z) (inst : Z) (ev : LoopEvent)
    : M Node E (list NetworkMessage) :=
  match ev with
  | NetworkEv (Listening _) _ => mret []
  | NetworkEv (PeerConnected _) connected =>
      _ ← metrics (λ m, m <| mt_connected_peers := as_i64 connected |>);
      c ← gets nd_chain;
      mret [status_message chain_id gen_hash c]
  | NetworkEv (PeerDisconnected _) connected =>
      _ ← metrics (λ m, m <| mt_connected_peers := as_i64 connected |>);
      mret []
  | NetworkEv (EvMessage msg) _ =>
      responses ← handle_network_message clock inst msg;
      height ← gets (λ n, Chain.height (nd_chain n));
      _ ← match height with Some height => prune height | None => mret tt end;
      mret responses
  | EvictionTick => _ ← evict inst; mret []
  | BlockTimer | StatusTick => mret []
  end.

End with_env.
End FullNode.

(** ** The validator *)

(** What the keypair of a validator provides. *)
Record ValidatorKey := MkValidatorKey {
  vk_address : Address;
  vk_sign : bytes → Signature;
}.

Module ValidatorNode.
Section with_env.
Context `{!ChainEnv, !Borsh (Address * H256 * Z)}.

Definition on_node {E A} (m : M Node E A) : M Validator E A := λ v,
  let '(r, n) := m (va_node v) in (r, v <| va_node := n |>).

Definition submit_vote {E} (vote : FinalityVote) : M Validator E bool := λ v,
  let '(became_final, t) := Finality.submit_vote vote (va_tracker v) in
  (Ok became_final, v <| va_tracker := t |>).

(** A vote, and the finalized height of the chain when it was the last one needed. *)
Definition vote_and_finalize {E} (voter : Address) (block_hash : H256) (block_number : Z) : M Validator E unit :=
  became_final ← submit_vote (MkFinalityVote voter block_hash block_number);
  if became_final : bool then
    on_node (modify (λ n, n <| nd_chain := Chain.set_finalized_block block_number (nd_chain n) |>))
  else mret tt.

Definition on_block_announce {E} (key : ValidatorKey) (now : Z) (block_hash : H256) (block : Block)
    : M Validator E (list NetworkMessage) :=
  if bool_decide (bh_validator (bl_header block) = vk_address key) then mret []
  else
    let peer_validator := bh_validator (bl_header block) in
    r ← on_node (import now block);
    match r with
    | None => mret []
    | Some result => _ ← vote_and_finalize peer_validator block_hash (ir_block_number result); mret []
    end.

Definition on_transaction {E} (inst : Z) (transaction : SignedTransaction) : M Node E (list NetworkMessage) :=
  let sender := address_from_public_key (tx_public_key transaction) in
  account_nonce ← gets (λ n, State.get_nonce (ch_state (nd_chain n)) sender);
  _ ← add_to_pool transaction sender account_nonce inst;
  mret [].

Definition on_status {E} (best_block_number : Z) : M Node E (list NetworkMessage) :=
  our_height ← gets (λ n, default 0 (Chain.height (nd_chain n)));
  if our_height <? best_block_number then
    let from := wrap 64 (our_height + 1) in
    let count := Z.min (wrap 32 (best_block_number - our_height)) SYNC_BATCH_SIZE in
    request_id ← fresh_id;
    mret [BlockRangeRequest request_id from count]
  else mret [].

Definition on_range_request {E} (request_id from_number count : Z) : M Node E (list NetworkMessage) :=
  let capped_count := Z.min count SYNC_BATCH_SIZE in
  c ← gets nd_chain;
  mret [BlockRangeResponse request_id (serve_range c from_number 0 (Z.to_nat capped_count))].

Fixpoint import_sync {E} (clock : nat → Z) (i : nat) (blocks : list Block) : M Node E Z :=
  match blocks with
  | [] => mret 0
  | block :: blocks =>
      r ← import (clock i) block;
      match r with
      | None => mret 0
      | Some _ => imported ← import_sync clock (S i) blocks; mret (imported + 1)
      end
  end.

Definition on_range_response {E} (clock : nat → Z) (blocks : list Block) : M Node E (list NetworkMessage) :=
  if bool_decide (blocks = []) then mret []
  else
    let block_count := wrap 32 (Z.of_nat (length blocks)) in
    imported ← import_sync clock 0 blocks;
    if 0 <? imported then
      our_height ← gets (λ n, default 0 (Chain.height (nd_chain n)));
      if block_count =? SYNC_BATCH_SIZE then
        let next_from := wrap 64 (our_height + 1) in
        next_id ← fresh_id;
        mret [BlockRangeRequest next_id next_from SYNC_BATCH_SIZE]
      else mret []
    else mret [].

Definition on_block_request {E} (block_hash : H256) : M Node E (list NetworkMessage) :=
  block ← gets (λ n, Chain.get_block (nd_chain n) block_hash);
  request_id ← fresh_id;
  mret [BlockResponse request_id block].

Definition on_block_response {E} (now : Z) (block : option Block) : M Node E (list NetworkMessage) :=
  match block with
  | None => mret []
  | Some block => _ ← import now block; mret []
  end.

(** A vote counts when the set has a public key for the voter that verifies it. *)
Definition on_finality_vote {E} (voter : Address) (block_hash : H256) (block_number : Z) (signature : Signature)
    : M Validator E (list NetworkMessage) :=
  vs ← gets (λ v, ch_validator_set (nd_chain (va_node v)));
  match VSet.get vs voter ≫= vi_public_key with
  | None => mret []
  | Some pubkey =>
      let signable := to_vec (voter, block_hash, block_number) in
      match verify signable signature pubkey with
      | Ok _ => _ ← vote_and_finalize voter block_hash block_number; mret []
      | _ => mret []
      end
  end.

Definition handle_network_message {E} (key : ValidatorKey) (clock : nat → Z) (inst : Z) (msg : NetworkMessage)
    : M Validator E (list NetworkMessage) :=
  match msg with
  | BlockAnnounce block_hash _ block => on_block_announce key (clock 0%nat) block_hash block
  | TransactionBroadcast transaction => on_node (on_transaction inst transaction)
  | Status _ _ best_block_number _ => on_node (on_status best_block_number)
  | BlockRangeRequest request_id from_number count => on_node (on_range_request request_id from_number count)
  | BlockRangeResponse _ blocks => on_node (on_range_response clock blocks)
  | BlockRequest block_hash => on_node (on_block_request block_hash)
  | BlockResponse _ block => on_node (on_block_response (clock 0%nat) block)
  | FinalityVoteMsg voter block_hash block_number signature =>
      on_finality_vote voter block_hash block_number signature
  end.

(** [try_produce_block] with the chain and the pool of the node. *)
Definition try_produce {E} (key : ValidatorKey) (gas_config : GasConfig) (now_ms now_import : Z)
    : M Node E (option Block) := λ n,
  let '(r, (c, p)) :=
    Producer.try_produce_block (vk_address key) (vk_sign key) gas_config now_ms now_import
      (nd_chain n, nd_pool n) in
  (r, n <| nd_chain := c |> <| nd_pool := p |>).

(** The production timer: the block, if it is our turn, its announcement, the
    own vote and the message that carries it. *)
Definition on_block_timer {E} (key : ValidatorKey) (gas_config : GasConfig) (connected : Z) (clock : nat → Z)
    : M Validator E (list NetworkMessage) :=
  r ← on_node (try_produce key gas_config (clock 0%nat) (clock 1%nat));
  match r with
  | None => mret []
  | Some block =>
      let block_number := bh_number (bl_header block) in
      let block_hash := Chain.block_hash (bl_header block) in
      _ ← on_node (modify (λ n,
            let n := match Chain.height (nd_chain n) with
                     | Some height => n <| nd_metrics := Metrics.set_height height (nd_metrics n) |>
                     | None => n
                     end in
            let n := n <| nd_metrics := Metrics.inc_imported (nd_metrics n) |> in
            let n := n <| nd_metrics := (nd_metrics n) <| mt_txpool_size := as_i64 (Pool.len (nd_pool n)) |> |> in
            n <| nd_metrics := (nd_metrics n) <| mt_connected_peers := as_i64 connected |> |>));
      _ ← vote_and_finalize (vk_address key) block_hash block_number;
      let signable := to_vec (vk_address key, block_hash, block_number) in
      let vote_msg := FinalityVoteMsg (vk_address key) block_hash block_number (vk_sign key signable) in
      _ ← on_node (prune block_number);
      mret [BlockAnnounce block_hash block_number block; vote_msg]
  end.

(** One turn of the event loop; [peers] is the number of connected peers. *)
Definition step {E} (key : ValidatorKey) (gas_config : GasConfig) (chain_id : ChainId) (gen_hash : H256)
    (clock : nat → Z) (inst peers : Z) (ev : LoopEvent) : M Validator E (list NetworkMessage) :=
  match ev with
  | BlockTimer => on_block_timer key gas_config peers clock
  | NetworkEv (Listening _) _ => mret []
  | NetworkEv (PeerConnected _) connected =>
      _ ← on_node (metrics (λ m, m <| mt_connected_peers := as_i64 connected |>));
      c ← gets (λ v, nd_chain (va_node v));
      mret [status_message chain_id gen_hash c]
  | NetworkEv (PeerDisconnected _) connected =>
      _ ← on_node (metrics (λ m, m <| mt_connected_peers := as_i64 connected |>));
      mret []
  | NetworkEv (EvMessage msg) _ =>
      responses ← handle_network_message key clock inst msg;
      _ ← on_node (modify (λ n,
            match Chain.height (nd_chain n) with
            | Some height => n <| nd_metrics := Metrics.set_height height (nd_metrics n) |>
            | None => n
            end));
      _ ← modify (λ v,
            let new_count := Z.of_nat (length (vs_validators (ch_validator_set (nd_chain (va_node v))))) in
            v <| va_tracker := Finality.set_validator_count new_count (va_tracker v) |>);
      mret responses
  | EvictionTick => _ ← on_node (evict inst); mret []
  | StatusTick => mret []
  end.

End with_env.
End ValidatorNode.

(** ** Starting *)

Module Startup.
Section with_env.
Context `{!ChainEnv, !HexDecode, !Ed25519}.
Implicit Types (args : list bytes).

(** [args.iter().position(|a| a == flag).and_then(|i| args.get(i + 1))] *)
Definition flag_value args (flag : bytes) : option bytes :=
  found ← list_find (eq flag) args; args !! S found.1.

Definition has_flag args (flag : bytes) : bool := bool_decide (flag ∈ args).

Definition port_of args (flag : bytes) (fallback : Z) : Z :=
  default fallback (flag_value args flag ≫= Str.parse 16).

Definition bootnodes args : list bytes :=
  default [] ((λ s, filter (λ a, a ≠ "") (Str.trim <$> Str.split Str.comma s)) <$> flag_value args "--bootnodes").

(** A seed is 32 bytes in hexadecimal. *)
Definition parse_seed (s : bytes) : option bytes :=
  b ← hex_decode s; if blen b =? 32 then Some b else None.

(** The flag, else the environment variable, else the development seed unless a
    genesis file is given. *)
Definition validator_seed {E} args (env_seed : option bytes) : res E bytes :=
  match flag_value args "--seed" ≫= parse_seed with
  | Some seed => Ok seed
  | None =>
      match env_seed ≫= parse_seed with
      | Some seed => Ok seed
      | None => if negb (has_flag args "--genesis") then Ok (Str.of_codes (replicate 32 0x10)) else Panic
      end
  end.

Definition validator_key (seed : bytes) : ValidatorKey :=
  MkValidatorKey (Keys.address (Keys.from_seed seed)) (λ m, Keys.sign m (Keys.from_seed seed)).

Definition seed_address (b : Z) : Address := Keys.address (Keys.from_seed (Str.of_codes (replicate 32 b))).

(** [read_genesis] reads and parses a genesis file; without a configuration the
    process returns. *)
Definition node_genesis args (read_genesis : bytes → option GenesisConfig) (now_ms : Z) : option GenesisConfig :=
  if has_flag args "--testnet" then Some (testnet_default seed_address now_ms)
  else if has_flag args "--dev" then Some (dev_default seed_address now_ms)
  else match flag_value args "--genesis" with
       | Some path => read_genesis path
       | None => Some (dev_default seed_address now_ms)
       end.

Definition validator_genesis args (read_genesis : bytes → option GenesisConfig) (now_ms : Z) : option GenesisConfig :=
  if has_flag args "--testnet" then Some (testnet_default seed_address now_ms)
  else match flag_value args "--genesis" with
       | Some path => read_genesis path
       | None => Some (dev_default seed_address now_ms)
       end.

(** The chain over the store in the data directory, or in memory. *)
Definition open_chain {E} (config : GenesisConfig) (store : option KvStore) : res E Chain :=
  genesis_result ← Genesis.build_genesis config;
  let consensus := MkConsensusEngine (cf_consensus (gc_chain config)) in
  chain ← match store with
          | Some st => Chain.with_storage consensus (cf_gas (gc_chain config)) st
          | None => Ok (Chain.new consensus (cf_gas (gc_chain config)))
          end;
  match ch_head_hash chain with
  | Some _ => Ok chain
  | None =>
      match Chain.init_genesis (gr_block genesis_result) (gr_state genesis_result) chain with
      | (Ok _, chain) => Ok chain
      | _ => Panic
      end
  end.

(** [--checkpoint <block_number>:<hex-hash>]; anything else is ignored. *)
Fixpoint split_once (c : Ascii.ascii) (s : bytes) : option (bytes * bytes) :=
  match s with
  | EmptyString => None
  | String d s =>
      if Ascii.eqb c d then Some ("", s)
      else '(a, b) ← split_once c s; Some (String d a, b)
  end.

Definition parse_checkpoint (cp : bytes) : option (Z * H256) :=
  '(num_str, hash_str) ← split_once (byte_of_Z 58) cp;
  num ← Str.parse 64 num_str;
  hash_bytes ← hex_decode (Str.trim_start_matches "0x" hash_str);
  if blen hash_bytes =? 32 then Some (num, MkH256 hash_bytes) else None.

Definition install_checkpoint args (c : Chain) : Chain :=
  match flag_value args "--checkpoint" ≫= parse_checkpoint with
  | Some (num, hash) => Chain.set_weak_subjectivity_checkpoint num hash c
  | None => c
  end.

Definition start_metrics (c : Chain) : NodeMetrics :=
  let m := NodeMetrics_new in
  let m := match Chain.height c with Some height => Metrics.set_height height m | None => m end in
  m <| mt_active_validators := as_i64 (Z.of_nat (length (vs_validators (ch_validator_set c)))) |>.

Definition start_of (c : Chain) : Node :=
  MkNode c (Pool.new TxPoolConfig_default) (start_metrics c) 1.

Definition start_node {E} (config : GenesisConfig) (store : option KvStore) : res E Node :=
  c ← open_chain config store; Ok (start_of c).

Definition start_validator {E} args (config : GenesisConfig) (store : option KvStore) : res E Validator :=
  c ← open_chain config store;
  let c := install_checkpoint args c in
  Ok (MkValidator (start_of c) (Finality.new (Z.of_nat (length (vs_validators (ch_validator_set c)))))).

(** The network each binary joins: a full node keeps the loopback address of the
    development configuration. *)
Definition node_network args (config : GenesisConfig) : NetworkConfig :=
  let c := NetworkConfig_dev (port_of args "--port" 30333) in
  MkNetworkConfig (nc_listen_address c) (bootnodes args) (nc_max_peers c) (nc_max_peers_per_ip c)
    (nc_ban_duration_secs c) (cf_chain_id (gc_chain config)) (nc_node_key_seed c).

Definition validator_network args (seed : bytes) (config : GenesisConfig) : NetworkConfig :=
  let port := port_of args "--port" 30333 in
  let c := NetworkConfig_dev port in
  MkNetworkConfig ("/ip4/0.0.0.0/tcp/" +:+ pretty port) (bootnodes args) (nc_max_peers c)
    (nc_max_peers_per_ip c) (nc_ban_duration_secs c) (cf_chain_id (gc_chain config)) (Some seed).

End with_env.
End Startup.
