(* ===== verification/NodeProps.v ===== *)
(** * What the node processes guarantee

    Synchronization from a peer, what messages can and cannot do to the chain and
    to finality, and pruning. *)

From S2P Require Import Prelude Primitives Storage RocksStore StateDB Codecs Snapshot Consensus Finality Governance.
From S2P Require Import ExecStaking ExecGov Executor Chain ChainProps TxPool Producer Genesis Relayer Rpc Keys.
From S2P Require Import Network Node.

(** ** Imports at a later time *)

Lemma res_bind_mono {E A B} (m : res E A) (f g : A → res E B) x :
  (∀ a, f a = Ok x → g a = Ok x) → (m ≫= f) = Ok x → (m ≫= g) = Ok x.
Proof. intros H. destruct m; cbn; [apply H|done..]. Qed.

Section later.
Context `{!ChainEnv}.
Implicit Types (c : Chain) (b : Block).

Lemma check_block_later now now' b c p :
  0 < now <= now' → Chain.check_block now b c = Ok p → Chain.check_block now' b c = Ok p.
Proof.
  intros Hnow. unfold Chain.check_block. cbv zeta.
  assert (Hle : saturating_add 64 now MAX_FUTURE_DRIFT_MS <= saturating_add 64 now' MAX_FUTURE_DRIFT_MS)
    by (unfold saturating_add; lia).
  do 5 (apply res_bind_mono; intros ?).
  intros (u & Ht & Hr)%res_bind_Ok. apply guard_err_Ok in Ht.
  replace ((0 <? now') && _) with false by lia. exact Hr.
Qed.

Lemma process_later now now' b pr c receipts c' :
  0 < now <= now' → Chain.process_block now b pr c = (Ok receipts, c') →
  Chain.process_block now' b pr c = (Ok receipts, c').
Proof.
  intros Hnow. unfold Chain.process_block. cbv zeta. unfold mbind, M_bind, gets, lift, id.
  destruct (Chain.check_block now b c) as [p|e|] eqn:Hc; [|discriminate..].
  by rewrite (check_block_later now now' b c p Hnow Hc).
Qed.

(** A block that was accepted once is accepted at any later time, with the same
    result. *)
Lemma import_later now now' b c r c' :
  0 < now <= now' → Chain.import_block now b c = (Ok r, c') → Chain.import_block now' b c = (Ok r, c').
Proof.
  intros Hnow. unfold Chain.import_block, Chain.import_block_impl, mbind, M_bind.
  destruct (Chain.process_block now b None c) as [[receipts|e|] c1] eqn:Hp; [|discriminate..].
  by rewrite (process_later now now' b None c receipts c1 Hnow Hp).
Qed.

End later.

(** ** Synchronization *)

Section growth.
Context `{!ChainEnv}.
Implicit Types (c : Chain) (b : Block) (bs : list Block).

(** Every block of the list is imported, the [j]-th one at [clock (i + j)]. *)
Fixpoint import_all (clock : nat → Z) (i : nat) bs c : option Chain :=
  match bs with
  | [] => Some c
  | b :: bs =>
      match Chain.import_block (clock i) b c with
      | (Ok _, c) => import_all clock (S i) bs c
      | _ => None
      end
  end.

Lemma import_all_later now clock i j bs c c' :
  0 < now → (∀ i, now <= clock i) → import_all (λ _, now) j bs c = Some c' →
  import_all clock i bs c = Some c'.
Proof.
  intros Hnow Hle. induction bs as [|b bs IH] in i, j, c |- *; cbn; [done|].
  destruct (Chain.import_block now b c) as [[r|e|] c1] eqn:Hb; [|discriminate..].
  rewrite (import_later now (clock i) b c r c1 (conj Hnow (Hle i)) Hb). apply IH.
Qed.

Lemma import_all_app now i bs bs' c c' :
  import_all (λ _, now) i (bs ++ bs') c = Some c' →
  ∃ c1, import_all (λ _, now) i bs c = Some c1 ∧ import_all (λ _, now) i bs' c1 = Some c'.
Proof.
  assert (Hi : ∀ l j k c, import_all (λ _, now) j l c = import_all (λ _, now) k l c).
  { induction l as [|b l IH]; intros; cbn; [done|].
    destruct (Chain.import_block now b c0) as [[]]; [apply IH|done..]. }
  induction bs as [|b bs IH] in i, c |- *; cbn; [eauto|].
  destruct (Chain.import_block now b c) as [[r|e|] c1]; [|discriminate..].
  intros (c2 & H1 & H2)%IH. exists c2. by rewrite (Hi bs' i (S i)).
Qed.

(** A block one above the head becomes the head. *)
Lemma import_on_head now b c r c' hd :
  well_formed c → Z.of_nat (size (ch_headers c)) < 2 ^ 64 → Chain.head c = Some hd →
  bh_number (bl_header b) = bh_number hd + 1 → Chain.import_block now b c = (Ok r, c') →
  well_formed c' ∧ size (ch_headers c') = S (size (ch_headers c))
  ∧ Chain.head c' = Some (bl_header b) ∧ ch_head_hash c' = Some (Chain.block_hash (bl_header b)).
Proof.
  intros Hwf Hsize Hd Hn Hr. apply import_Ok in Hr as (Hext & p & vs & Hc & Hv).
  pose proof (checked_fits _ _ _ _ _ Hc Hv) as Hfit.
  split; [by eapply extended_well_formed|].
  pose proof (is_new_head_number c b p Hwf Hsize Hfit hd Hd) as Hnew. unfold extended in Hext. cbv zeta in Hext, Hnew.
  assert (Hnh : Chain.is_new_head (bl_header b)
    (c <| ch_headers := <[Chain.block_hash (bl_header b):=bl_header b]> (ch_headers c) |>
       <| ch_bodies := <[Chain.block_hash (bl_header b):=b]> (ch_bodies c) |>) = true).
  { destruct (Chain.is_new_head _ _); [done|lia]. }
  rewrite Hnh in Hext. unfold Chain.head. rewrite (si_headers _ _ Hext), (si_head _ _ Hext).
  cbn -[size insert lookup]. rewrite lookup_insert_eq. split_and!; [|done..].
  by rewrite (extend_size c b p Hfit).
Qed.

Lemma import_all_heads now i bs c c' hd :
  well_formed c → Z.of_nat (size (ch_headers c) + length bs) < 2 ^ 64 → Chain.head c = Some hd →
  (∀ j b, bs !! j = Some b → bh_number (bl_header b) = bh_number hd + 1 + Z.of_nat j) →
  import_all (λ _, now) i bs c = Some c' →
  well_formed c' ∧ size (ch_headers c') = (size (ch_headers c) + length bs)%nat
  ∧ Chain.height c' = Some (bh_number hd + Z.of_nat (length bs))
  ∧ ∀ b, last bs = Some b → ch_head_hash c' = Some (Chain.block_hash (bl_header b)).
Proof.
  induction bs as [|b bs IH] in i, c, hd |- *; cbn [import_all length]; intros Hwf Hsize Hd Hnum.
  { intros [= <-]. unfold Chain.height. rewrite Hd. cbn. split_and!; [done|lia|f_equal; lia|done]. }
  destruct (Chain.import_block now b c) as [[r|e|] c1] eqn:Hb; [|discriminate..]. intros Hall.
  destruct (import_on_head now b c r c1 hd) as (Hwf1 & Hs1 & Hd1 & Hh1); try done; [lia|..].
  { rewrite (Hnum 0%nat b eq_refl). lia. }
  pose proof (Hnum 0%nat b eq_refl) as H0.
  destruct (IH (S i) c1 (bl_header b)) as (Hwf' & Hs' & Hd' & Hh'); try done; [lia|..].
  { intros j b' Hj. rewrite (Hnum (S j) b' Hj). lia. }
  split_and!; [done|lia|rewrite Hd'; f_equal; lia|].
  intros b'. destruct bs as [|b2 bs]; [|apply Hh']. intros [= <-]. cbn in Hall. congruence.
Qed.

Lemma serve_range_take c bs from i todo :
  (∀ j, Chain.get_block_by_number c (from + Z.of_nat j) = bs !! j) →
  0 <= from → from + Z.of_nat i + Z.of_nat todo <= 2 ^ 64 →
  serve_range c from (Z.of_nat i) todo = take todo (drop i bs).
Proof.
  intros Hbs Hf. induction todo as [|todo IH] in i |- *; intros Hw; cbn; [done|].
  rewrite wrap_small by (unfold in_width; lia). rewrite Hbs.
  destruct (bs !! i) as [b|] eqn:Hi.
  - rewrite (drop_S bs b i Hi). cbn. f_equal.
    replace (Z.of_nat i + 1) with (Z.of_nat (S i)) by lia. apply IH. lia.
  - apply lookup_ge_None in Hi. by rewrite drop_ge by lia.
Qed.

(** Blocks served by number have that number, and none lies above the head. *)
Lemma block_by_number c n b :
  well_formed c → Chain.get_block_by_number c n = Some b →
  bh_number (bl_header b) = n ∧ ch_canonical c !! n = Some (Chain.block_hash (bl_header b)).
Proof.
  intros Hwf. unfold Chain.get_block_by_number. intros (hash & Hn & Hb)%bind_Some.
  destruct (wf_body _ Hwf _ _ Hb) as [Hh _]. destruct (wf_canonical _ Hwf _ _ Hn) as (h & Hh' & Hnum).
  rewrite Hh in Hh'. injection Hh' as <-. split; [done|]. by rewrite <- (wf_hash _ Hwf _ _ Hh).
Qed.

End growth.

(** What a process that takes part in synchronization promises, whatever else it
    does: the requests it sends, the answers it gives, and what it does with an
    answer all of whose blocks are acceptable. *)
Class SyncPeer `{!ChainEnv} (N : Type) : Type := {
  sp_chain : N → Chain;
  sp_handle : (nat → Z) → Z → NetworkMessage → M N Empty_set (list NetworkMessage);
  sp_serves clock inst id from count n :
    sp_handle clock inst (BlockRangeRequest id from count) n
    = (Ok [BlockRangeResponse id
             (serve_range (sp_chain n) from 0 (Z.to_nat (Z.min count SYNC_BATCH_SIZE)))], n);
  sp_asks clock inst chain_id best_hash best genesis n :
    let our := default 0 (Chain.height (sp_chain n)) in
    ∃ id n', sp_handle clock inst (Status chain_id best_hash best genesis) n
      = (Ok (if our <? best then
               [BlockRangeRequest id (wrap 64 (our + 1)) (Z.min (wrap 32 (best - our)) SYNC_BATCH_SIZE)]
             else []), n') ∧ sp_chain n' = sp_chain n;
  sp_done clock inst id n : sp_handle clock inst (BlockRangeResponse id []) n = (Ok [], n);
  sp_imports clock inst id b bs c' n :
    import_all clock 0 (b :: bs) (sp_chain n) = Some c' →
    ∃ id' n', sp_handle clock inst (BlockRangeResponse id (b :: bs)) n
      = (Ok (if wrap 32 (Z.of_nat (length (b :: bs))) =? SYNC_BATCH_SIZE then
               [BlockRangeRequest id' (wrap 64 (default 0 (Chain.height c') + 1)) SYNC_BATCH_SIZE]
             else []), n') ∧ sp_chain n' = c';
}.

Section instances.
Context `{!ChainEnv}.

Lemma full_import_sync clock bs i n c' :
  import_all clock i bs (nd_chain n) = Some c' →
  ∃ n', FullNode.import_sync (E:=Empty_set) clock i bs n = (Ok (Z.of_nat (length bs)), n') ∧ nd_chain n' = c'.
Proof.
  induction bs as [|b bs IH] in i, n |- *; cbn; [intros [= <-]; eauto|].
  destruct (Chain.import_block (clock i) b (nd_chain n)) as [[r|e|] c1] eqn:Hb; [|discriminate..].
  intros Hall. unfold mbind, M_bind, import. rewrite Hb. cbn.
  edestruct (IH (S i)) as (n' & -> & <-); [exact Hall|]. exists n'. split; [|done]. rewrite Nat2Z.inj_succ. done.
Qed.

#[global] Program Instance full_sync : SyncPeer Node := {|
  sp_chain := nd_chain;
  sp_handle := FullNode.handle_network_message;
|}.
Next Obligation. done. Qed.
Next Obligation.
  intros. cbn. unfold FullNode.on_status, mbind, M_bind, gets. destruct (_ <? best).
  - by eexists _, _.
  - exists 0, n. done.
Qed.
Next Obligation. done. Qed.
Next Obligation.
  intros clock inst id b bs c' n Hall.
  destruct (full_import_sync clock (b :: bs) 0 n c' Hall) as (n1 & Hi & Hc).
  cbn [FullNode.handle_network_message]. unfold FullNode.on_range_response.
  rewrite bool_decide_eq_false_2 by done. unfold mbind at 1, M_bind at 1. rewrite Hi.
  rewrite (proj2 (Z.ltb_lt 0 (Z.of_nat (length (b :: bs))))) by (cbn [length]; lia).
  cbn [andb]. destruct (_ =? SYNC_BATCH_SIZE).
  - subst c'. by eexists _, _.
  - by exists 0, n1.
Qed.

Context `{!Borsh (Address * H256 * Z)}.

Lemma validator_import_sync clock bs i n c' :
  import_all clock i bs (nd_chain n) = Some c' →
  ∃ n', ValidatorNode.import_sync (E:=Empty_set) clock i bs n = (Ok (Z.of_nat (length bs)), n')
    ∧ nd_chain n' = c'.
Proof.
  induction bs as [|b bs IH] in i, n |- *; cbn; [intros [= <-]; eauto|].
  destruct (Chain.import_block (clock i) b (nd_chain n)) as [[r|e|] c1] eqn:Hb; [|discriminate..].
  intros Hall. unfold mbind, M_bind, import. rewrite Hb. cbn.
  edestruct (IH (S i)) as (n' & -> & <-); [exact Hall|]. exists n'. split; [|done].
  by rewrite Nat2Z.inj_succ.
Qed.

#[global] Program Instance validator_sync (key : ValidatorKey) : SyncPeer Validator := {|
  sp_chain v := nd_chain (va_node v);
  sp_handle := ValidatorNode.handle_network_message key;
|}.
Next Obligation. by intros ? ? ? ? ? ? []. Qed.
Next Obligation.
  intros. cbn. unfold ValidatorNode.on_node, ValidatorNode.on_status, mbind, M_bind, gets.
  destruct (_ <? best); [by eexists _, _|exists 0; by eexists].
Qed.
Next Obligation. by intros ? ? ? ? []. Qed.
Next Obligation.
  intros key clock inst id b bs c' v Hall.
  destruct (validator_import_sync clock (b :: bs) 0 (va_node v) c' Hall) as (n1 & Hi & Hc).
  cbn [ValidatorNode.handle_network_message]. unfold ValidatorNode.on_node, ValidatorNode.on_range_response.
  rewrite bool_decide_eq_false_2 by done. unfold mbind at 1, M_bind at 1. rewrite Hi.
  rewrite (proj2 (Z.ltb_lt 0 (Z.of_nat (length (b :: bs))))) by (cbn [length]; lia).
  unfold mbind, M_bind, gets. destruct (_ =? SYNC_BATCH_SIZE); cbn.
  - subst c'. by eexists _, _.
  - by eexists 0, _.
Qed.

End instances.

Section synchronize.
Context `{!ChainEnv} {N1 N2 : Type} `{!SyncPeer N1, !SyncPeer N2}.
Implicit Types (peer : N1) (follower : N2) (clock : nat → nat → Z).

(** The peer answers a request, the follower takes the answer and may ask again;
    [None] when no end is reached in [rounds] rounds. *)
Fixpoint exchange (rounds : nat) clock (inst : Z) peer (req : NetworkMessage) follower : option N2 :=
  match rounds with
  | O => None
  | S rounds =>
      match sp_handle (clock rounds) inst req peer with
      | (Ok [resp], peer) =>
          match sp_handle (clock rounds) inst resp follower with
          | (Ok [], follower) => Some follower
          | (Ok [req], follower) => exchange rounds clock inst peer req follower
          | _ => None
          end
      | _ => None
      end
  end.

(** The follower hears the status of the peer. *)
Definition synchronize (rounds : nat) clock (inst : Z) (status : NetworkMessage) peer follower : option N2 :=
  match sp_handle (clock rounds) inst status follower with
  | (Ok [], follower) => Some follower
  | (Ok [req], follower) => exchange rounds clock inst peer req follower
  | _ => None
  end.

(** What the follower misses: the blocks of the peer above its head, which it
    would accept one after the other at time [now], and the chain it then has. *)
Record missing now (P : Chain) (hd : BlockHeader) (bs : list Block) (c c' : Chain) : Prop := {
  ms_head : Chain.head c = Some hd;
  ms_wf : well_formed c;
  ms_size : Z.of_nat (size (ch_headers c) + length bs) < 2 ^ 63;
  ms_blocks j : Chain.get_block_by_number P (bh_number hd + 1 + Z.of_nat j) = bs !! j;
  ms_import : import_all (λ _, now) 0 bs c = Some c';
}.

Lemma missing_number now P hd bs c c' : missing now P hd bs c c' → 0 <= bh_number hd < 2 ^ 63 - Z.of_nat (length bs).
Proof.
  intros Hm. pose proof (ms_size _ _ _ _ _ _ Hm) as Hs. pose proof (ms_head _ _ _ _ _ _ Hm) as Hd.
  unfold Chain.head in Hd. apply bind_Some in Hd as (k & _ & Hk).
  pose proof (wf_number _ (ms_wf _ _ _ _ _ _ Hm) _ _ Hk). lia.
Qed.

Lemma missing_served now P hd bs c c' count :
  missing now P hd bs c c' → Z.min (Z.of_nat (length bs)) SYNC_BATCH_SIZE <= count →
  serve_range P (wrap 64 (bh_number hd + 1)) 0 (Z.to_nat (Z.min count SYNC_BATCH_SIZE)) = take 100 bs.
Proof.
  intros Hm Hc. pose proof (missing_number _ _ _ _ _ _ Hm) as Hn. unfold SYNC_BATCH_SIZE in *.
  rewrite wrap_small by (unfold in_width; lia).
  rewrite (serve_range_take P bs (bh_number hd + 1) 0); [|apply (ms_blocks _ _ _ _ _ _ Hm)|lia|lia].
  rewrite drop_0. destruct (decide (100 <= count)) as [Hge|Hlt].
  - by replace (Z.to_nat (Z.min count 100)) with 100%nat by lia.
  - by rewrite !take_ge by lia.
Qed.

(** The batch is imported; what is left is missing from there. *)
Lemma missing_batch now P hd bs c c' :
  well_formed P → missing now P hd bs c c' →
  ∃ c1, import_all (λ _, now) 0 (take 100 bs) c = Some c1
    ∧ default 0 (Chain.height c1) = bh_number hd + Z.of_nat (length (take 100 bs))
    ∧ ∃ hd1, missing now P hd1 (drop 100 bs) c1 c'
        ∧ bh_number hd1 = bh_number hd + Z.of_nat (length (take 100 bs)).
Proof.
  intros HP Hm. destruct Hm as [Hd Hwf Hs Hbs Hall].
  rewrite <- (take_drop 100 bs) in Hall. apply import_all_app in Hall as (c1 & H1 & H2).
  pose proof (length_take bs 100) as Ht. pose proof (length_drop bs 100) as Hdr.
  destruct (import_all_heads now 0 (take 100 bs) c c1 hd) as (Hwf1 & Hs1 & Hh1 & _); try done; [lia|..].
  { intros j b [Hj _]%lookup_take_Some. rewrite <- Hbs in Hj. by apply (block_by_number P) in Hj as [? _]. }
  exists c1. split; [done|]. rewrite Hh1. split; [done|].
  unfold Chain.height in Hh1. apply fmap_Some in Hh1 as (hd1 & Hd1 & Hn1). exists hd1.
  split; [|done]. split; try done; [lia|]. intros j. rewrite lookup_drop, <- Hn1, Ht.
  destruct (decide (length bs <= 100)%nat) as [Hle|Hgt].
  - rewrite (proj2 (lookup_ge_None bs (100 + j))) by lia.
    replace (_ + _) with (bh_number hd + 1 + Z.of_nat (length bs + j)) by lia.
    rewrite Hbs. apply lookup_ge_None. lia.
  - rewrite <- Hbs. f_equal. lia.
Qed.

Lemma exchange_catches_up rounds clock inst peer follower id count hd bs now c' :
  well_formed (sp_chain peer) → missing now (sp_chain peer) hd bs (sp_chain follower) c' →
  0 < now → (∀ r i, now <= clock r i) → (length bs < 100 * rounds)%nat → Z.of_nat (length bs) < 2 ^ 32 →
  Z.min (Z.of_nat (length bs)) SYNC_BATCH_SIZE <= count →
  ∃ follower', exchange rounds clock inst peer (BlockRangeRequest id (wrap 64 (bh_number hd + 1)) count) follower
                 = Some follower' ∧ sp_chain follower' = c'.
Proof.
  intros HP Hm Hnow Hclock. induction rounds as [|rounds IH] in follower, id, count, hd, bs, Hm |- *; [lia|].
  intros Hr H32 Hc. cbn [exchange]. rewrite sp_serves, (missing_served _ _ _ _ _ _ _ Hm Hc).
  destruct bs as [|b bs].
  { rewrite take_nil, sp_done. exists follower. split; [done|].
    pose proof (ms_import _ _ _ _ _ _ Hm) as Hi. cbn in Hi. congruence. }
  destruct (missing_batch _ _ _ _ _ _ HP Hm) as (c1 & H1 & Hh1 & hd1 & Hm1 & Hn1).
  pose proof (length_take (b :: bs) 100) as Ht. pose proof (length_drop (b :: bs) 100) as Hdr.
  remember (take 100 (b :: bs)) as batch eqn:Hbatch. destruct batch as [|b' batch]; [done|].
  destruct (sp_imports (clock rounds) inst id b' batch c1 follower) as (id' & f1 & -> & Hf1).
  { by apply (import_all_later now _ _ 0). }
  rewrite wrap_small by (unfold in_width; lia).
  destruct (Z.eqb_spec (Z.of_nat (length (b' :: batch))) SYNC_BATCH_SIZE) as [Hfull|Hpart];
    unfold SYNC_BATCH_SIZE in *.
  - rewrite Hh1, <- Hn1. apply (IH f1 _ _ hd1 (drop 100 (b :: bs))); [by rewrite Hf1|lia..].
  - exists f1. split; [done|]. pose proof (ms_import _ _ _ _ _ _ Hm1) as Hi.
    rewrite drop_ge in Hi by lia. cbn in Hi. congruence.
Qed.

End synchronize.

(** C4: Synchronization brings a follower to the head of its peer.  When the blocks of
    the peer above the follower's head are ones the follower accepts, it asks for
    them in batches, takes every one and ends in exactly the chain that results
    from importing them, with the peer's head, within one round more than there
    are full batches.  The two may be full nodes or validators. *)
Theorem sync_catches_up `{!ChainEnv} {N1 N2 : Type} `{!SyncPeer N1, !SyncPeer N2}
    (peer : N1) (follower : N2) now clock inst chain_id gen_hash hd bs c' rounds :
  let P := sp_chain peer in
  well_formed P → Chain.height P = Some (bh_number hd + Z.of_nat (length bs)) →
  missing now P hd bs (sp_chain follower) c' → 0 < now → (∀ r i, now <= clock r i) →
  Z.of_nat (length bs) < 2 ^ 32 → (length bs < 100 * rounds)%nat →
  ∃ follower', synchronize rounds clock inst (status_message chain_id gen_hash P) peer follower = Some follower'
    ∧ sp_chain follower' = c' ∧ Chain.height c' = Chain.height P
    ∧ (bs ≠ [] → ch_head_hash c' = ch_head_hash P).
Proof.
  intros P HP HhP Hm Hnow Hclock H32 Hr. pose proof (missing_number _ _ _ _ _ _ Hm) as Hnum.
  pose proof Hm as [Hd Hwf Hs Hbs Hall].
  destruct (import_all_heads now 0 bs (sp_chain follower) c' hd) as (_ & _ & Hh & Hlast); try done; [lia|..].
  { intros j b Hj. rewrite <- Hbs in Hj. by apply (block_by_number P) in Hj as [? _]. }
  assert (Hhead : bs ≠ [] → ch_head_hash c' = ch_head_hash P).
  { intros Hne. destruct (last bs) as [b|] eqn:Hl; [|by apply last_None in Hl].
    rewrite (Hlast b eq_refl). rewrite last_lookup, <- Hbs in Hl.
    apply (block_by_number P) in Hl as [_ Hl]; [|done].
    destruct (wf_head _ HP) as (hp & Hp & Hcan & _). unfold Chain.height in HhP. rewrite Hp in HhP.
    injection HhP as HhP. rewrite <- Hcan, HhP, <- Hl. f_equal. destruct bs; [done|cbn [length]; lia]. }
  unfold synchronize, status_message. rewrite HhP.
  change (default 0 (Some (bh_number hd + Z.of_nat (length bs)))) with (bh_number hd + Z.of_nat (length bs)).
  destruct (sp_asks (clock rounds) inst chain_id (default H256_ZERO (ch_head_hash P))
    (bh_number hd + Z.of_nat (length bs)) gen_hash follower) as (id & f1 & -> & Hf1).
  unfold Chain.height at 1 2 3. rewrite Hd.
  change (default 0 (bh_number <$> Some hd)) with (bh_number hd).
  destruct (Z.ltb_spec (bh_number hd) (bh_number hd + Z.of_nat (length bs))) as [Hlt|Hge].
  - rewrite (wrap_small 32) by (unfold in_width; lia).
    destruct (exchange_catches_up rounds clock inst peer f1 id
      (Z.min (bh_number hd + Z.of_nat (length bs) - bh_number hd) SYNC_BATCH_SIZE) hd bs now c')
      as (f' & He & Hf'); try done; [by rewrite Hf1|lia|].
    exists f'. split_and!; [done|done|exact Hh|done].
  - destruct bs; [|cbn [length] in *; lia]. exists f1. cbn in Hall.
    split_and!; [done|congruence|exact Hh|done].
Qed.

(** ** What a turn does to the chain and to the pool *)

(** The readings of the clocks during a turn, the peers connected, the event. *)
Record Turn := MkTurn {
  tn_clock : nat → Z;
  tn_inst : Z;
  tn_peers : Z;
  tn_event : LoopEvent;
}.

(** The event loop; a panic ends the process. *)
Fixpoint run_loop {S} (step : Turn → M S Empty_set (list NetworkMessage)) (turns : list Turn) (s : S)
    : list NetworkMessage * S :=
  match turns with
  | [] => ([], s)
  | t :: turns =>
      match step t s with
      | (Ok out, s) => let '(out', s) := run_loop step turns s in (out ++ out', s)
      | (_, s) => ([], s)
      end
  end.

(** The blocks a turn may add. *)
Definition blocks_of (ev : LoopEvent) : nat :=
  match ev with
  | NetworkEv (EvMessage (BlockRangeResponse _ blocks)) _ => length blocks
  | _ => 1
  end.

Section turns.
Context `{!ChainEnv, !Borsh (Address * H256 * Z)}.

(** The operations of the chain and of the pool that lead from a node to another,
    at most [k] of the former, all of which [P] allows. *)
Definition does (P : ChainOp → Prop) (k : nat) (n n' : Node) : Prop := ∃ cops pops,
  nd_chain n' = run_ops cops (nd_chain n) ∧ nd_pool n' = foldl run_pool_op (nd_pool n) pops
  ∧ (length cops <= k)%nat ∧ Forall P cops.

Definition any_op (op : ChainOp) : Prop := True.

(** Operations that leave the finalized height and the checkpoint alone. *)
Definition quiet_op (op : ChainOp) : Prop :=
  match op with FinalizeTo _ | SetCheckpoint _ _ => False | _ => True end.

Definition Does {E A} (k : nat) (m : M Node E A) : Prop := ∀ n, does quiet_op k n (m n).2.

Lemma does_refl P n : does P 0 n n.
Proof. by exists [], []. Qed.

Lemma does_trans P j k n1 n2 n3 : does P j n1 n2 → does P k n2 n3 → does P (j + k) n1 n3.
Proof.
  intros (c1 & p1 & E1 & F1 & L1 & P1) (c2 & p2 & E2 & F2 & L2 & P2). exists (c1 ++ c2), (p1 ++ p2).
  unfold run_ops in *. rewrite !foldl_app, length_app. split_and!; [congruence|congruence|lia|].
  by apply Forall_app.
Qed.

Lemma does_weaken P j k n n' : (j <= k)%nat → does P j n n' → does P k n n'.
Proof. intros Hle (c & p & ? & ? & ? & ?). exists c, p. split_and!; [done..|lia|done]. Qed.

Lemma does_any P k n n' : does P k n n' → does any_op k n n'.
Proof. intros (c & p & ? & ? & ? & _). exists c, p. split_and!; [done..|]. by apply Forall_true. Qed.

Lemma Does_bind {E A B} j k (m : M Node E A) (f : A → M Node E B) :
  Does j m → (∀ a, Does k (f a)) → Does (j + k) (m ≫= f).
Proof.
  intros Hm Hf n. unfold mbind, M_bind. specialize (Hm n). destruct (m n) as [[a|e|] n1]; cbn in *.
  - eapply does_trans; [done|apply Hf].
  - by apply (does_weaken _ j); [lia|].
  - by apply (does_weaken _ j); [lia|].
Qed.

Lemma Does_frame {E A} (m : M Node E A) :
  (∀ n, nd_chain (m n).2 = nd_chain n ∧ nd_pool (m n).2 = nd_pool n) → Does 0 m.
Proof. intros Hm n. destruct (Hm n). by exists [], []. Qed.

Lemma Does_weaken {E A} j k (m : M Node E A) : (j <= k)%nat → Does j m → Does k m.
Proof. intros Hle Hm n. by eapply does_weaken. Qed.

Lemma Does_import {E} now b : Does 1 (import (E:=E) now b).
Proof.
  intros n. exists [ImportBlock now b], []. unfold import, run_ops. cbn.
  split_and!; [|by destruct (Chain.import_block now b (nd_chain n)) as [[]]|done|by constructor].
  by destruct (Chain.import_block now b (nd_chain n)) as [[]].
Qed.

Lemma Does_add {E} tx a nonce inst : Does 0 (add_to_pool (E:=E) tx a nonce inst).
Proof.
  intros n. exists [], [OpAdd tx a nonce inst]. unfold add_to_pool. cbn.
  by destruct (Pool.add tx a nonce inst (nd_pool n)) as [[]].
Qed.

Lemma Does_prune {E} height : Does 1 (prune (E:=E) height).
Proof.
  intros n. unfold prune, modify. cbn.
  destruct (_ && _); [|by eapply does_weaken, does_refl; lia].
  destruct (db_storage _) as [st|]; [|by eapply does_weaken, does_refl; lia].
  destruct (Rocks.prune_old_blocks _ _ st) as [k st'].
  exists [MutateState (λ s, s <| db_storage := Some st' |>)], []. by repeat constructor.
Qed.

Lemma Does_evict {E} inst : Does 0 (evict (E:=E) inst).
Proof.
  intros n. exists [], [OpExpire inst]. unfold evict, modify. cbn.
  destruct (Pool.evict_expired inst (nd_pool n)) as [k p]. by destruct (0 <? k).
Qed.

Lemma Does_pure {E A} k (m : M Node E A) :
  (∀ n, nd_chain (m n).2 = nd_chain n ∧ nd_pool (m n).2 = nd_pool n) → Does k m.
Proof. intros Hm. apply (Does_weaken 0); [lia|by apply Does_frame]. Qed.

Lemma Does_bind0 {E A B} k (m : M Node E A) (f : A → M Node E B) :
  Does 0 m → (∀ a, Does k (f a)) → Does k (m ≫= f).
Proof. apply Does_bind. Qed.

Lemma Does_bind1 {E A B} k (m : M Node E A) (f : A → M Node E B) :
  Does 1 m → (∀ a, Does k (f a)) → Does (S k) (m ≫= f).
Proof. apply (Does_bind 1). Qed.

Lemma Does_bind_last {E A B} k (m : M Node E A) (f : A → M Node E B) :
  Does k m → (∀ a, Does 0 (f a)) → Does k (m ≫= f).
Proof. rewrite <- (Nat.add_0_r k) at 2. apply Does_bind. Qed.

End turns.

Ltac does_step :=
  lazymatch goal with
  | |- Does _ (mret _) => by apply Does_pure
  | |- Does _ (gets _) => by apply Does_pure
  | |- Does _ (metrics _) => by apply Does_pure
  | |- Does _ (lift _) => by apply Does_pure
  | |- Does _ fresh_id => by apply Does_pure
  | |- Does _ (modify _) => apply Does_pure; done
  | |- Does _ (add_to_pool _ _ _ _) => apply Does_add
  | |- Does _ (evict _) => apply Does_evict
  | |- Does _ (import _ _) => apply Does_import
  | |- Does _ (prune _) => apply Does_prune
  | |- Does _ (import _ _ ≫= _) => apply Does_bind1; [|intros ?]
  | |- Does _ (FullNode.import_sync _ _ _ ≫= _) => apply Does_bind_last; [|intros ?]
  | |- Does _ (ValidatorNode.import_sync _ _ _ ≫= _) => apply Does_bind_last; [|intros ?]
  | |- Does _ (_ ≫= _) => apply Does_bind0; [|intros ?]
  | |- Does _ (match ?x with _ => _ end) => destruct x
  end.

Section node_turns.
Context `{!ChainEnv, !Borsh (Address * H256 * Z)}.

Lemma Does_full_import {E} clock i bs : Does (length bs) (FullNode.import_sync (E:=E) clock i bs).
Proof.
  induction bs as [|b bs IH] in i |- *; cbn [FullNode.import_sync length]; repeat does_step. apply IH.
Qed.

Lemma Does_full_handle {E} clock inst msg connected :
  Does (blocks_of (NetworkEv (EvMessage msg) connected)) (FullNode.handle_network_message (E:=E) clock inst msg).
Proof.
  destruct msg as [? ? b| | | | |? bs| |]; cbn [FullNode.handle_network_message blocks_of].
  - unfold FullNode.on_block_announce. repeat does_step.
  - unfold FullNode.on_transaction. repeat does_step.
  - unfold FullNode.on_block_request. repeat does_step.
  - unfold FullNode.on_range_request. repeat does_step.
  - unfold FullNode.on_block_response. repeat does_step.
  - unfold FullNode.on_range_response. destruct (bool_decide _); [by does_step|].
    apply Does_bind_last; [apply Does_full_import|intros ?]. repeat does_step.
  - unfold FullNode.on_status. repeat does_step.
  - by does_step.
Qed.

Lemma Does_full_step {E} chain_id gen_hash clock inst ev :
  Does (S (blocks_of ev)) (FullNode.step (E:=E) chain_id gen_hash clock inst ev).
Proof.
  destruct ev as [|[| | |msg] connected| |]; cbn [FullNode.step].
  5: { rewrite <- Nat.add_1_r. apply Does_bind; [apply Does_full_handle|intros ?].
       apply Does_bind0; [by does_step|intros ?]. apply Does_bind_last; intros; repeat does_step. }
  all: repeat does_step.
Qed.

(** *** The validator *)

Definition VDoes {E A} (k : nat) (m : M Validator E A) : Prop := ∀ v, does any_op k (va_node v) (va_node (m v).2).

Lemma VDoes_bind {E A B} j k (m : M Validator E A) (f : A → M Validator E B) :
  VDoes j m → (∀ a, VDoes k (f a)) → VDoes (j + k) (m ≫= f).
Proof.
  intros Hm Hf v. unfold mbind, M_bind. specialize (Hm v). destruct (m v) as [[a|e|] v1]; cbn in *.
  - eapply does_trans; [done|apply Hf].
  - by apply (does_weaken _ j); [lia|].
  - by apply (does_weaken _ j); [lia|].
Qed.

Lemma VDoes_on_node {E A} k (m : M Node E A) : Does k m → VDoes k (ValidatorNode.on_node m).
Proof.
  intros Hm v. specialize (Hm (va_node v)). apply does_any in Hm. unfold ValidatorNode.on_node.
  by destruct (m (va_node v)).
Qed.

Lemma VDoes_pure {E A} k (m : M Validator E A) : (∀ v, va_node (m v).2 = va_node v) → VDoes k m.
Proof. intros Hm v. rewrite Hm. apply (does_weaken _ 0); [lia|apply does_refl]. Qed.

Lemma VDoes_vote {E} voter hash n : VDoes 1 (ValidatorNode.vote_and_finalize (E:=E) voter hash n).
Proof.
  intros v. unfold ValidatorNode.vote_and_finalize, ValidatorNode.submit_vote, mbind, M_bind. cbn.
  destruct (Finality.submit_vote _ _) as [[] t]; cbn.
  - exists [FinalizeTo n], []. by repeat constructor.
  - apply (does_weaken _ 0); [lia|apply does_refl].
Qed.

Lemma Does_validator_import {E} clock i bs : Does (length bs) (ValidatorNode.import_sync (E:=E) clock i bs).
Proof.
  induction bs as [|b bs IH] in i |- *; cbn [ValidatorNode.import_sync length]; repeat does_step. apply IH.
Qed.

Lemma VDoes_handle {E} key clock inst msg connected :
  VDoes (S (blocks_of (NetworkEv (EvMessage msg) connected)))
    (ValidatorNode.handle_network_message (E:=E) key clock inst msg).
Proof.
  assert (Hvote : ∀ voter hash n, VDoes (E:=E) 1 (_ ← ValidatorNode.vote_and_finalize voter hash n; mret (@nil NetworkMessage))).
  { intros. apply (VDoes_bind 1 0); [apply VDoes_vote|intros ?; by apply VDoes_pure]. }
  destruct msg as [hash ? b| | | | |? bs| |voter hash n sig];
    cbn [ValidatorNode.handle_network_message blocks_of];
    try lazymatch goal with
        | |- VDoes 2 (ValidatorNode.on_node _) => apply VDoes_on_node; apply (Does_weaken 1); [lia|]
        end.
  - unfold ValidatorNode.on_block_announce. destruct (bool_decide _); [by apply VDoes_pure|].
    apply (VDoes_bind 1 1); [apply VDoes_on_node, Does_import|]. intros [r|]; [apply Hvote|by apply VDoes_pure].
  - unfold ValidatorNode.on_transaction. repeat does_step.
  - unfold ValidatorNode.on_block_request. repeat does_step.
  - unfold ValidatorNode.on_range_request. repeat does_step.
  - unfold ValidatorNode.on_block_response. repeat does_step.
  - apply VDoes_on_node, (Does_weaken (length bs)); [lia|]. unfold ValidatorNode.on_range_response.
    destruct (bool_decide _); [by does_step|]. cbv zeta.
    apply Does_bind_last; [apply Does_validator_import|intros ?]. repeat does_step.
  - unfold ValidatorNode.on_status. repeat does_step.
  - unfold ValidatorNode.on_finality_vote. apply (VDoes_bind 0 2); [by apply VDoes_pure|intros vs].
    destruct (VSet.get vs voter ≫= vi_public_key); [|by apply VDoes_pure]. cbv zeta.
    destruct (verify _ _ _); [|by apply VDoes_pure..]. intros v. eapply does_weaken, Hvote. lia.
Qed.

Lemma prune_pool_ops nonces (s : StateDB) p : ∃ pops, Producer.prune_pool nonces s p = foldl run_pool_op p pops.
Proof.
  unfold Producer.prune_pool. generalize (hash_iter nonces) as l. intros l.
  induction l as [|[a n] l IH] in p |- *; cbn; [by exists []|].
  destruct (IH (if n <? State.get_nonce s a then Pool.remove_committed a (State.get_nonce s a - 1) p else p))
    as [pops ->].
  destruct (n <? State.get_nonce s a); [|by eexists].
  by exists (OpCommitted a (State.get_nonce s a - 1) :: pops).
Qed.

Lemma produce_ops {E} addr sign gas now now' hd txs n c :
  ∃ cops, (Producer.produce (E:=E) addr sign gas now now' hd txs n c).2 = run_ops cops c
    ∧ (length cops <= 2)%nat ∧ Forall quiet_op cops.
Proof.
  unfold Producer.produce, mbind, M_bind.
  pose proof (execute_own_state (E:=E) txs gas n now (bh_chain_id hd) addr c) as Hs.
  destruct (Producer.execute_own _ _ _ _ _ _ c) as [r c1]; cbn in Hs.
  assert (Hm : run_ops [MutateState (λ _, ch_state c1)] c = c1) by (rewrite Hs; by destruct c).
  destruct r as [[[receipts gas_used] root]|e|]; cbn.
  2-3: exists [MutateState (λ _, ch_state c1)]; split_and!; [by rewrite Hm|cbn; lia|by repeat constructor].
  unfold lift. destruct (Producer.make_header _ _ _ _ _ _ _ _ _) as [h|e|]; cbn.
  2-3: exists [MutateState (λ _, ch_state c1)]; split_and!; [by rewrite Hm|cbn; lia|by repeat constructor].
  set (b := MkBlock _ _).
  exists [MutateState (λ _, ch_state c1); ImportProduced now' b receipts].
  split_and!; [|cbn; lia|by repeat constructor].
  change (run_ops (?x :: ?l) c) with (run_ops l (run_ops [x] c)). unfold run_ops at 1. cbn [foldl].
  fold (run_ops [MutateState (λ _, ch_state c1)] c). rewrite Hm. unfold Producer.import_own. cbn.
  by destruct (Chain.import_produced_block now' b receipts c1) as [[]].
Qed.

(** The own block is executed on the state, imported, and its transactions leave
    the pool. *)
Lemma Does_try_produce {E} key gas now now' : Does 2 (ValidatorNode.try_produce (E:=E) key gas now now').
Proof.
  intros n. unfold ValidatorNode.try_produce, Producer.try_produce_block. cbn.
  assert (H0 : ∀ n' : Node, nd_chain n' = nd_chain n → nd_pool n' = nd_pool n → does quiet_op 2 n n').
  { intros n' Hc Hp. exists [], []. cbn. split_and!; [done..|lia|done]. }
  destruct (Chain.head (nd_chain n)) as [hd|]; [|by apply H0].
  destruct (Engine.block_producer _ _ _) as [w|e|]; [|by apply H0..].
  destruct (negb _); [by apply H0|].
  set (txs := Pool.select_transactions _ _ _).
  destruct (produce_ops (E:=E) (vk_address key) (vk_sign key) gas now now' hd txs
    (wrap 64 (bh_number hd + 1)) (nd_chain n)) as (cops & Hc & Hl & Hq).
  destruct (Producer.produce _ _ _ _ _ _ _ _ _) as [[[b|]|e|] c1]; cbn in Hc; subst c1.
  2-4: by exists cops, [].
  destruct (prune_pool_ops (Producer.pool_nonces (nd_pool n) (ch_state (nd_chain n)))
    (ch_state (run_ops cops (nd_chain n))) (nd_pool n)) as [pops Hp].
  by exists cops, pops.
Qed.

Lemma VDoes_step {E} key gas chain_id gen_hash clock inst peers ev :
  VDoes (4 + blocks_of ev) (ValidatorNode.step (E:=E) key gas chain_id gen_hash clock inst peers ev).
Proof.
  destruct ev as [|[| | |msg] connected| |]; cbn [ValidatorNode.step].
  - unfold ValidatorNode.on_block_timer.
    apply (VDoes_bind 2 3); [apply VDoes_on_node, Does_try_produce|]. intros [b|]; [|by apply VDoes_pure].
    cbv zeta. apply (VDoes_bind 0 3). { apply VDoes_on_node, Does_frame. intros n. cbn. by destruct (Chain.height _). }
    intros _. apply (VDoes_bind 1 2); [apply VDoes_vote|]. intros _.
    apply (VDoes_bind 1 1); [apply VDoes_on_node, Does_prune|]. intros _. by apply VDoes_pure.
  - by apply VDoes_pure.
  - apply (VDoes_bind 0 5); [by apply VDoes_on_node, Does_frame|]. intros _. by apply VDoes_pure.
  - apply (VDoes_bind 0 5); [by apply VDoes_on_node, Does_frame|]. intros _. by apply VDoes_pure.
  - intros v. eapply does_weaken; [|apply (VDoes_bind _ 0 _ _ (VDoes_handle key clock inst msg connected))].
    { lia. }
    intros resp. apply (VDoes_bind 0 0).
    { apply VDoes_on_node, Does_frame. intros n. cbn. by destruct (Chain.height _). }
    intros _. by apply (VDoes_bind 0 0); [by apply VDoes_pure|intros _; by apply VDoes_pure].
  - apply (VDoes_bind 0 5); [apply VDoes_on_node, Does_evict|]. intros _. by apply VDoes_pure.
  - by apply VDoes_pure.
Qed.

End node_turns.

(** ** Nodes stay sound whatever their peers send *)

Section sound.
Context `{!ChainEnv, !HexDecode, !Ed25519, !Borsh (Address * H256 * Z)}.

(** How many operations of the chain some turns can take. *)
Definition work (turns : list Turn) : nat := sum_list_with (λ t, 4 + blocks_of (tn_event t))%nat turns.

Lemma loop_does {S} (node : S → Node) (step : Turn → M S Empty_set (list NetworkMessage)) turns s :
  (∀ t s, does any_op (4 + blocks_of (tn_event t)) (node s) (node (step t s).2)) →
  does any_op (work turns) (node s) (node (run_loop step turns s).2).
Proof.
  intros Hstep. induction turns as [|t turns IH] in s |- *; cbn [run_loop work]; [apply does_refl|].
  specialize (Hstep t s). unfold work in *. cbn [sum_list_with].
  destruct (step t s) as [[out|e|] s1]; cbn [snd] in *.
  - specialize (IH s1). destruct (run_loop step turns s1). by eapply does_trans.
  - eapply does_weaken; [|done]. lia.
  - eapply does_weaken; [|done]. lia.
Qed.

Definition validator_turn key gas chain_id gen_hash (t : Turn) : M Validator Empty_set (list NetworkMessage) :=
  ValidatorNode.step key gas chain_id gen_hash (tn_clock t) (tn_inst t) (tn_peers t) (tn_event t).

Definition full_turn chain_id gen_hash (t : Turn) : M Node Empty_set (list NetworkMessage) :=
  FullNode.step chain_id gen_hash (tn_clock t) (tn_inst t) (tn_event t).

Lemma run_ops_size ops c :
  well_formed c → Z.of_nat (size (ch_headers c) + length ops) < 2 ^ 64 →
  (size (ch_headers (run_ops ops c)) <= size (ch_headers c) + length ops)%nat.
Proof.
  induction ops as [|op ops IH] in c |- *; intros Hwf Hs; unfold run_ops; cbn [foldl length] in *; [lia|].
  destruct (run_op_advances c op) as [Had Hsz]; [done|lia|].
  change (foldl run_op (run_op c op) ops) with (run_ops ops (run_op c op)).
  pose proof (IH (run_op c op) (ad_wf _ _ Had)). lia.
Qed.

Lemma pool_runs_config ops p :
  pool_inv p → 0 < cf_max_per_account (tp_config p) →
  cf_max_per_account (tp_config (foldl run_pool_op p ops)) = cf_max_per_account (tp_config p).
Proof.
  induction ops as [|op ops IH] in p |- *; cbn; intros Hp Hm; [done|].
  destruct (run_pool_op_inv p op Hp Hm) as [Hi Hc]. rewrite IH; [done|done|lia].
Qed.

(** Room for [k] more chain operations. *)
Definition sound (k : nat) (n : Node) : Prop :=
  well_formed (nd_chain n) ∧ pool_inv (nd_pool n) ∧ 0 < cf_max_per_account (tp_config (nd_pool n))
  ∧ Z.of_nat (size (ch_headers (nd_chain n)) + k) < 2 ^ 64.

Lemma does_sound j k n n' :
  sound (j + k) n → does any_op j n n' → advanced (nd_chain n) (nd_chain n') ∧ sound k n'.
Proof.
  intros (Hwf & Hp & Hm & Hs) (cops & pops & Ec & Ep & Hl & _).
  assert (Had : advanced (nd_chain n) (nd_chain n')) by (rewrite Ec; apply run_ops_advance; [done|lia]).
  split; [done|]. split_and!; [apply Had| | |].
  - rewrite Ep. by apply pool_runs_inv.
  - rewrite Ep, pool_runs_config; done.
  - pose proof (run_ops_size cops (nd_chain n) Hwf). rewrite Ec. lia.
Qed.

(** The chain a fresh process opens. *)
Lemma open_fresh config c :
  Startup.open_chain (E:=Empty_set) config None = Ok c →
  ∃ hash, well_formed c ∧ ch_canonical c !! 0 = Some hash ∧ size (ch_headers c) = 1%nat
    ∧ ch_finalized_block c = 0.
Proof.
  unfold Startup.open_chain. intros (g & Hg & Hr)%res_bind_Ok. cbn in Hr.
  assert (Hb : genesis_block (gr_block g)).
  { unfold Genesis.build_genesis in Hg. destruct (Genesis.validate_genesis config); [|discriminate..].
    destruct (Genesis.build_state config StateDB_new) as [[]]; [|discriminate..].
    destruct (Snapshot.compute_state_root _) as [root s1]. by injection Hg as <-. }
  destruct (Chain.init_genesis _ _ _) as [[hash|e|] c1] eqn:Hi; [|discriminate..]. injection Hr as <-.
  apply init_genesis_well_formed in Hi as (Hwf & _ & Hcan & Hs & Hf); [eauto|by split_and!|done].
Qed.

Lemma start_sound args config v k :
  Startup.start_validator (E:=Empty_set) args config None = Ok v → Z.of_nat k < 2 ^ 64 - 1 →
  sound k (va_node v) ∧ ch_finalized_block (nd_chain (va_node v)) = 0.
Proof.
  unfold Startup.start_validator. intros (c & Hc & Hv)%res_bind_Ok Hk. injection Hv as <-. cbn.
  destruct (open_fresh config c Hc) as (hash & Hwf & _ & Hs & Hf).
  assert (Hi : ∃ ws, Startup.install_checkpoint args c = c <| ch_weak_subjectivity := ws |>).
  { unfold Startup.install_checkpoint. destruct (_ ≫= Startup.parse_checkpoint) as [[num h]|]; [by eexists|].
    exists (ch_weak_subjectivity c). by destruct c. }
  destruct Hi as [ws ->]. unfold sound; cbn. split_and!; [by destruct Hwf|by apply new_inv|lia|lia|done].
Qed.

(** C9: A validator started in memory on a genesis configuration stays sound whatever
    happens.
    After any turns of its loop, with any messages from peers, in any order, the
    block index is well formed, the genesis block and every block at or below the
    finalized height stay where they were, heights never fall, and the pool is
    consistent. *)
Theorem validator_sound args config v key gas chain_id gen_hash turns turns' :
  Startup.start_validator (E:=Empty_set) args config None = Ok v →
  Z.of_nat (work (turns ++ turns')) < 2 ^ 64 - 1 →
  let run turns v := (run_loop (validator_turn key gas chain_id gen_hash) turns v).2 in
  let n := va_node (run turns v) in
  let n' := va_node (run turns' (run turns v)) in
  well_formed (nd_chain n) ∧ pool_inv (nd_pool n)
  ∧ Chain.get_canonical_hash (nd_chain n) 0 = Chain.get_canonical_hash (nd_chain (va_node v)) 0
  ∧ advanced (nd_chain n) (nd_chain n').
Proof.
  intros Hv Hw run n n'. unfold work in Hw. rewrite sum_list_with_app in Hw. fold (work turns) (work turns') in Hw.
  assert (Hstep : ∀ t v, does any_op (4 + blocks_of (tn_event t)) (va_node v)
            (va_node (validator_turn key gas chain_id gen_hash t v).2)).
  { intros t w. apply VDoes_step. }
  pose proof (loop_does va_node _ turns v Hstep) as Hd1. fold (run turns v) n in Hd1.
  pose proof (loop_does va_node _ turns' (run turns v) Hstep) as Hd2. fold n' in Hd2.
  destruct (start_sound _ _ _ (work turns + work turns') Hv) as [Hs0 Hf0]; [lia|].
  destruct (does_sound _ _ _ _ Hs0 Hd1) as [Ha1 Hs1].
  rewrite <- (Nat.add_0_r (work turns')) in Hs1. destruct (does_sound _ _ _ _ Hs1 Hd2) as [Ha2 _].
  split_and!; [apply Ha1|apply Hs1| |done].
  apply (ad_canonical _ _ Ha1). lia.
Qed.

End sound.
