(* ===== verification/NodeFinality.v ===== *)
(** * Finality across the network

    Which votes reach the tracker of a validator, and what follows for the
    finalized height of its chain. *)

From S2P Require Import Prelude Primitives Storage StateDB Codecs Snapshot Consensus Finality Governance.
From S2P Require Import ExecStaking ExecGov Executor Chain ChainProps TxPool Producer Genesis Relayer Rpc Keys.
From S2P Require Import Network Node NodeProps.

(** ** The validators of a chain have no keys *)

Section keyless.
Context `{!ChainEnv}.

Definition keyless_chain (c : Chain) : Prop := keyless (ch_validator_set c).

Lemma keyless_on_state {E A} (m : M StateDB E A) : keeps keyless_chain (Chain.on_state m).
Proof. intros c Hc. unfold Chain.on_state. by destruct (m (ch_state c)). Qed.

Lemma keyless_infallible {E A} (m : M Chain Empty_set A) :
  keeps keyless_chain m → keeps keyless_chain (Chain.infallible (E:=E) m).
Proof. apply keeps_map_err. Qed.

#[local] Hint Resolve keyless_on_state : keeps_db.

Lemma keyless_rotate {E} n : keeps keyless_chain (Chain.rotate_epoch (E:=E) n).
Proof.
  unfold Chain.rotate_epoch. solve_keeps. apply elect_keyless.
Qed.

Lemma keyless_double_sign {E} h hash n : keeps keyless_chain (Chain.detect_double_sign (E:=E) h hash n).
Proof. unfold Chain.detect_double_sign. solve_keeps. Qed.

Lemma keyless_downtime {E} h p : keeps keyless_chain (Chain.track_downtime (E:=E) h p).
Proof. unfold Chain.track_downtime. solve_keeps. Qed.

Lemma keyless_execute {E} b staked : keeps keyless_chain (Chain.execute_block (E:=E) b staked).
Proof. unfold Chain.execute_block. solve_keeps. Qed.

Lemma keyless_state_root h sn vs : keyless vs → keeps keyless_chain (Chain.check_state_root h sn vs).
Proof. intros Hvs. unfold Chain.check_state_root. solve_keeps. Qed.

Lemma keeps_gets_self {S E A} (P : S → Prop) (f : S → M S E A) :
  (∀ s, P s → keeps P (f s)) → keeps P (gets id ≫= f).
Proof. intros Hf s Hs. exact (Hf s Hs s Hs). Qed.

Lemma keyless_process now b pr : keeps keyless_chain (Chain.process_block now b pr).
Proof.
  unfold Chain.process_block. cbv zeta. apply keeps_gets_self. intros c Hc.
  repeat first
    [ apply keyless_infallible | apply keyless_rotate | apply keyless_double_sign | apply keyless_downtime
    | apply keyless_execute | by apply keyless_state_root | solve [eauto 3 with keeps_db]
    | apply keeps_bind; [|intros ?] | destruct pr ].
Qed.

Lemma keyless_put col k v c : keyless_chain c → keyless_chain (Chain.put col k v c).
Proof. unfold Chain.put. by destruct (ch_persistent c). Qed.

Lemma keyless_foldl {A} (f : Chain → A → Chain) l c :
  (∀ c a, keyless_chain c → keyless_chain (f c a)) → keyless_chain c → keyless_chain (foldl f c l).
Proof. intros Hf. revert c. induction l as [|a l IH]; intros c Hc; cbn; auto. Qed.

Lemma keyless_store b hash receipts c : keyless_chain c → keyless_chain (Chain.store_block b hash receipts c).
Proof.
  intros Hc. unfold Chain.store_block, Chain.index_transactions. cbv zeta.
  repeat first [ apply keyless_put | apply keyless_foldl; [intros|] | done ].
Qed.

Lemma keyless_set_head h hash c : keyless_chain c → keyless_chain (Chain.set_head h hash c).
Proof.
  intros Hc. unfold Chain.set_head, keyless_chain. cbn.
  by repeat apply keyless_put.
Qed.

Lemma keyless_import now b pr : keeps keyless_chain (Chain.import_block_impl now b pr).
Proof.
  unfold Chain.import_block_impl, Chain.commit_block. cbv zeta.
  apply keeps_bind; [apply keyless_process|intros receipts]. solve_keeps.
  - by apply keyless_store.
  - by case_match; [apply keyless_set_head|].
Qed.

Lemma keyless_op c op : keyless_chain c → keyless_chain (run_op c op).
Proof.
  destruct op; cbn [run_op]; intros Hc; [by apply keyless_import..| |done|done].
  unfold Chain.set_finalized_block. by destruct (_ <? _).
Qed.

(** ** Known blocks stay known *)

Lemma known_op c op hash : is_Some (ch_headers c !! hash) → is_Some (ch_headers (run_op c op) !! hash).
Proof.
  assert (Himp : ∀ now b pr, is_Some (ch_headers c !! hash) →
            is_Some (ch_headers (Chain.import_block_impl now b pr c).2 !! hash)).
  { intros now b pr Hk. pose proof (import_fails_clean now b pr c) as Hf.
    destruct (Chain.import_block_impl now b pr c) as [[r|e|] c'] eqn:Hr; cbn in *.
    2-3: by rewrite (si_headers _ _ Hf).
    apply import_Ok in Hr as [Hext _]. unfold extended in Hext. cbv zeta in Hext.
    rewrite (si_headers _ _ Hext). destruct (Chain.is_new_head _ _); cbn -[lookup insert];
      (destruct (decide (Chain.block_hash (bl_header b) = hash)) as [<-|Hne];
       [by rewrite lookup_insert_eq|by rewrite lookup_insert_ne]). }
  destruct op; cbn [run_op]; intros Hk; [by apply Himp..| |done|done].
  unfold Chain.set_finalized_block. by destruct (_ <? _).
Qed.

(** A block that is imported was not known, and is. *)
Lemma import_fresh now b pr c r c' :
  Chain.import_block_impl now b pr c = (Ok r, c') →
  let hash := Chain.block_hash (bl_header b) in
  ch_headers c !! hash = None ∧ is_Some (ch_headers c' !! hash) ∧ ch_finalized_block c' = ch_finalized_block c.
Proof.
  intros Hr hash. apply import_Ok in Hr as (Hext & p & vs & Hc & Hv).
  pose proof (checked_fits _ _ _ _ _ Hc Hv) as Hfit. split; [apply Hfit|].
  unfold extended in Hext. cbv zeta in Hext. rewrite (si_headers _ _ Hext), (si_finalized _ _ Hext).
  destruct (Chain.is_new_head _ _); cbn -[lookup insert]; by rewrite lookup_insert_eq.
Qed.

Lemma quiet_finalized c op : quiet_op op → ch_finalized_block (run_op c op) = ch_finalized_block c.
Proof.
  assert (Himp : ∀ now b pr, ch_finalized_block (Chain.import_block_impl now b pr c).2 = ch_finalized_block c).
  { intros now b pr. pose proof (import_fails_clean now b pr c) as Hf.
    destruct (Chain.import_block_impl now b pr c) as [[r|e|] c'] eqn:Hr; cbn in *.
    2-3: by rewrite (si_finalized _ _ Hf).
    by apply import_fresh in Hr as (_ & _ & ?). }
  destruct op; cbn [run_op quiet_op]; intros Hq; [apply Himp..|done|done|done].
Qed.

End keyless.

(** ** Votes never meet *)

Lemma VSet_get_elem vs a w : VSet.get vs a = Some w → w ∈ vs_validators vs.
Proof. unfold VSet.get. intros [Hw _]%find_some. by apply list_elem_of_In. Qed.

Section votes.
Context `{!ChainEnv, !HexDecode, !Ed25519, !Borsh (Address * H256 * Z)}.
Implicit Types (v : Validator) (n : Node).

(** No validator has a key, and each block that has a vote is known and has one. *)
Record split_votes v : Prop := {
  sv_keys : keyless_chain (nd_chain (va_node v));
  sv_votes hash voters : ft_votes (va_tracker v) !! hash = Some voters →
    (size voters <= 1)%nat ∧ is_Some (ch_headers (nd_chain (va_node v)) !! hash);
}.

Definition many v : Prop := 2 <= ft_validator_count (va_tracker v) < 2 ^ 62.

Definition heights v : Z * Z := (ch_finalized_block (nd_chain (va_node v)), ft_finalized_number (va_tracker v)).

(** What a turn with many validators does. *)
Record stays v v' : Prop := {
  st_votes : split_votes v';
  st_count : ft_validator_count (va_tracker v') = ft_validator_count (va_tracker v);
  st_heights : heights v' = heights v;
}.

Lemma stays_refl v : split_votes v → stays v v.
Proof. by split. Qed.

Lemma stays_trans v1 v2 v3 : stays v1 v2 → (split_votes v2 → stays v2 v3) → stays v1 v3.
Proof. intros [] H23. destruct H23; [done|]. split; [done|congruence..]. Qed.

Definition Stays {E A} (m : M Validator E A) : Prop := ∀ v, split_votes v → many v → stays v (m v).2.

Lemma Stays_bind {E A B} (m : M Validator E A) (f : A → M Validator E B) :
  Stays m → (∀ a, Stays (f a)) → Stays (m ≫= f).
Proof.
  intros Hm Hf v Hv Hn. unfold mbind, M_bind. specialize (Hm v Hv Hn).
  destruct (m v) as [[a|e|] v1]; cbn in *; [|done..].
  eapply stays_trans; [done|]. intros Hv1. apply Hf; [done|]. unfold many. by rewrite (st_count _ _ Hm).
Qed.

Lemma quiet_does k n n' : does quiet_op k n n' →
  (keyless_chain (nd_chain n) → keyless_chain (nd_chain n'))
  ∧ (∀ hash, is_Some (ch_headers (nd_chain n) !! hash) → is_Some (ch_headers (nd_chain n') !! hash))
  ∧ ch_finalized_block (nd_chain n') = ch_finalized_block (nd_chain n).
Proof.
  intros (cops & pops & -> & _ & _ & Hq). generalize (nd_chain n) as c. clear n n' pops.
  induction Hq as [|op cops Hop Hq IH]; intros c; unfold run_ops; cbn [foldl]; [done|].
  destruct (IH (run_op c op)) as (IH1 & IH2 & IH3). split_and!.
  - intros Hc. by apply IH1, keyless_op.
  - intros hash Hk. by apply IH2, known_op.
  - etrans; [exact IH3|]. by apply quiet_finalized.
Qed.

Lemma quiet_stays k v n' :
  does quiet_op k (va_node v) n' → split_votes v → stays v (v <| va_node := n' |>).
Proof.
  intros (Q1 & Q2 & Q3)%quiet_does Hv. split; [|done|].
  - split; cbn; [by apply Q1, Hv|]. intros hash voters Hh. destruct (sv_votes _ Hv _ _ Hh). auto.
  - unfold heights. cbn. by rewrite Q3.
Qed.

Lemma Stays_on_node {E A} k (m : M Node E A) : Does k m → Stays (ValidatorNode.on_node m).
Proof.
  intros Hm v Hv _. specialize (Hm (va_node v)). unfold ValidatorNode.on_node.
  destruct (m (va_node v)) as [r n']. by eapply quiet_stays.
Qed.

Lemma Stays_pure {E A} (m : M Validator E A) : (∀ v, (m v).2 = v) → Stays m.
Proof. intros Hm v Hv _. rewrite Hm. by apply stays_refl. Qed.

(** The first vote for a known block decides nothing. *)
Lemma first_vote_stays {E} voter hash number v :
  split_votes v → many v → ft_votes (va_tracker v) !! hash = None →
  is_Some (ch_headers (nd_chain (va_node v)) !! hash) →
  stays v (ValidatorNode.vote_and_finalize (E:=E) voter hash number v).2.
Proof.
  intros Hv Hn Hnone Hk.
  unfold ValidatorNode.vote_and_finalize, ValidatorNode.submit_vote, Finality.submit_vote, mbind, M_bind. cbn.
  destruct (number <=? ft_finalized_number (va_tracker v)); cbn.
  { assert (v <| va_tracker := va_tracker v |> = v) as -> by (by destruct v). by apply stays_refl. }
  rewrite Hnone. cbn. rewrite union_empty_r_L, size_singleton.
  unfold Finality.threshold; cbn. unfold many in Hn.
  rewrite (proj2 (Z.eqb_neq _ _)) by lia. rewrite wrap_small by (unfold in_width; lia).
  rewrite (proj2 (Z.leb_gt _ _)).
  2: { assert (1 <= ft_validator_count (va_tracker v) * 2 / 3) by (apply Z.div_le_lower_bound; lia). lia. }
  cbn. split; [|done..]. split; cbn; [apply Hv|]. intros k vs.
  rewrite lookup_insert_Some. intros [[<- <-]|[_ Hvs]]; [by rewrite union_empty_r_L, size_singleton|by apply Hv].
Qed.

Lemma keyless_get c voter : keyless_chain c → VSet.get (ch_validator_set c) voter ≫= vi_public_key = None.
Proof.
  unfold keyless_chain, keyless. rewrite Forall_forall. intros Hk.
  destruct (VSet.get (ch_validator_set c) voter) as [w|] eqn:Hw; cbn; [|done].
  apply Hk. by apply VSet_get_elem in Hw.
Qed.

(** A vote for a block right after its import. *)
Lemma vote_after_import {E} voter number hash k v n' :
  split_votes v → many v → does quiet_op k (va_node v) n' →
  ch_headers (nd_chain (va_node v)) !! hash = None → is_Some (ch_headers (nd_chain n') !! hash) →
  stays v (ValidatorNode.vote_and_finalize (E:=E) voter hash number (v <| va_node := n' |>)).2.
Proof.
  intros Hv Hn Hq Hfresh Hk. pose proof (quiet_stays k v n' Hq Hv) as Hs.
  eapply stays_trans; [done|]. intros Hv'. apply first_vote_stays; [done| | |done].
  - unfold many. by rewrite (st_count _ _ Hs).
  - cbn. destruct (ft_votes (va_tracker v) !! hash) eqn:Hh; [|done].
    destruct (sv_votes _ Hv _ _ Hh) as [_ Hx]. rewrite Hfresh in Hx. by destruct Hx.
Qed.

(** The announcement names the hash of the block it carries. *)
Definition honest (ev : LoopEvent) : Prop :=
  match ev with
  | NetworkEv (EvMessage (BlockAnnounce hash _ block)) _ => hash = Chain.block_hash (bl_header block)
  | _ => True
  end.

Lemma Stays_announce {E} key now block :
  Stays (ValidatorNode.on_block_announce (E:=E) key now (Chain.block_hash (bl_header block)) block).
Proof.
  unfold ValidatorNode.on_block_announce. destruct (bool_decide _); [by apply Stays_pure|].
  intros v Hv Hn. unfold mbind, M_bind, ValidatorNode.on_node.
  pose proof (Does_import (E:=E) now block (va_node v)) as Hq. unfold import in *.
  destruct (Chain.import_block now block (nd_chain (va_node v))) as [[r|e|] c'] eqn:Hi; cbn in Hq |- *.
  2-3: by eapply quiet_stays.
  apply import_fresh in Hi as (Hf & Hk & _).
  pose proof (vote_after_import (E:=E) (bh_validator (bl_header block)) (ir_block_number r) _ _ _ _ Hv Hn Hq Hf Hk)
    as Hs.
  by destruct (ValidatorNode.vote_and_finalize _ _ _ _) as [[]].
Qed.

Lemma Stays_handle {E} key clock inst msg connected :
  honest (NetworkEv (EvMessage msg) connected) →
  Stays (ValidatorNode.handle_network_message (E:=E) key clock inst msg).
Proof.
  destruct msg as [hash ? b| | | | |? bs| |voter hash n sig]; cbn [ValidatorNode.handle_network_message honest].
  - intros ->. apply Stays_announce.
  - intros _. apply (Stays_on_node 1). unfold ValidatorNode.on_transaction. repeat does_step.
  - intros _. apply (Stays_on_node 1). unfold ValidatorNode.on_block_request. repeat does_step.
  - intros _. apply (Stays_on_node 1). unfold ValidatorNode.on_range_request. repeat does_step.
  - intros _. apply (Stays_on_node 1). unfold ValidatorNode.on_block_response. repeat does_step.
  - intros _. apply (Stays_on_node (length bs)). unfold ValidatorNode.on_range_response.
    destruct (bool_decide _); [by does_step|]. cbv zeta.
    apply Does_bind_last; [apply Does_validator_import|intros ?]. repeat does_step.
  - intros _. apply (Stays_on_node 1). unfold ValidatorNode.on_status. repeat does_step.
  - intros _ v Hv Hn. unfold ValidatorNode.on_finality_vote, gets. unfold mbind at 1, M_bind at 1.
    rewrite (keyless_get _ voter (sv_keys _ Hv)). by apply stays_refl.
Qed.

Lemma index_of_state {E A} (m : M Chain E A) : state_only m → ∀ c r c', m c = (r, c') → ch_headers c' = ch_headers c.
Proof. intros Hm c r c' Hr. specialize (Hm c). rewrite Hr in Hm. cbn in Hm. by rewrite Hm. Qed.

Lemma try_produce_fresh {E} key gas now now' n b n' :
  ValidatorNode.try_produce (E:=E) key gas now now' n = (Ok (Some b), n') →
  let hash := Chain.block_hash (bl_header b) in
  ch_headers (nd_chain n) !! hash = None ∧ is_Some (ch_headers (nd_chain n') !! hash).
Proof.
  unfold ValidatorNode.try_produce, Producer.try_produce_block.
  destruct (Chain.head (nd_chain n)) as [hd|]; [|discriminate].
  destruct (Engine.block_producer _ _ _) as [w|e|]; [|discriminate..].
  destruct (negb _); [discriminate|]. set (txs := Pool.select_transactions _ _ _).
  destruct (Producer.produce _ _ _ _ _ _ _ _ _) as [[[b'|]|e|] c1] eqn:Hp; [|discriminate..].
  intros [= -> <-]. cbn. unfold Producer.produce in Hp. inv_ok_step.
  match goal with H : Producer.execute_own _ _ _ _ _ _ _ = (Ok ?x, ?c2) |- _ =>
    destruct x as [[receipts gas_used] root];
    pose proof (index_of_state _ (execute_own_state (E:=E) _ _ _ _ _ _) _ _ _ H) as Hh end.
  inv_ok_step. inv_ok_step. inv_ok_step. inv_ok_step.
  unfold Producer.import_own, id in Hp.
  destruct (Chain.import_produced_block _ _ _ _) as [[r| |] c2] eqn:Hi; simplify_eq.
  apply import_fresh in Hi as (Hf & Hk & _). by rewrite <- Hh.
Qed.

Lemma Stays_timer {E} key gas peers clock : Stays (ValidatorNode.on_block_timer (E:=E) key gas peers clock).
Proof.
  intros v Hv Hn. unfold ValidatorNode.on_block_timer. unfold mbind at 1, M_bind at 1, ValidatorNode.on_node at 1.
  pose proof (Does_try_produce (E:=E) key gas (clock 0%nat) (clock 1%nat) (va_node v)) as Hq.
  destruct (ValidatorNode.try_produce _ _ _ _ _) as [[[b|]|e|] n'] eqn:Hp; cbn [snd] in Hq.
  2-4: by eapply quiet_stays.
  apply try_produce_fresh in Hp as [Hf Hk]. cbv zeta.
  set (g := λ n : Node, _).
  assert (Hg : ∀ n, nd_chain (g n) = nd_chain n ∧ nd_pool (g n) = nd_pool n).
  { intros n. unfold g. by destruct (Chain.height (nd_chain n)). }
  unfold mbind at 1, M_bind at 1, ValidatorNode.on_node at 1, modify at 1. cbn [va_node].
  change (va_node (v <| va_node := n' |>)) with n'.
  assert (Hq' : does quiet_op 2 (va_node v) (g n')).
  { destruct Hq as (cops & pops & E1 & E2 & E3). destruct (Hg n') as [G1 G2].
    exists cops, pops. by rewrite G1, G2. }
  assert (Hk' : is_Some (ch_headers (nd_chain (g n')) !! Chain.block_hash (bl_header b))) by (by rewrite (proj1 (Hg n'))).
  pose proof (vote_after_import (E:=E) (vk_address key) (bh_number (bl_header b)) _ _ _ _ Hv Hn Hq' Hf Hk') as Hs.
  change ((v <| va_node := n' |>) <| va_node := g n' |>) with (v <| va_node := g n' |>).
  unfold mbind at 1, M_bind at 1.
  destruct (ValidatorNode.vote_and_finalize _ _ _ _) as [[[]|e|] v1]; cbn [snd] in Hs; [|done..].
  eapply stays_trans; [exact Hs|]. intros Hv1.
  eapply (Stays_bind (ValidatorNode.on_node (prune (bh_number (bl_header b)))));
    [apply (Stays_on_node 1), Does_prune|intros _; by apply Stays_pure|done|].
  unfold many. by rewrite (st_count _ _ Hs).
Qed.

Lemma validator_turn_stays key gas chain_id gen_hash t v :
  honest (tn_event t) → split_votes v → many v →
  let v' := (validator_turn key gas chain_id gen_hash t v).2 in
  split_votes v' ∧ heights v' = heights v.
Proof.
  intros Hh Hv Hn. unfold validator_turn.
  assert (Hst : ∀ m : M Validator Empty_set (list NetworkMessage), Stays m →
            split_votes (m v).2 ∧ heights (m v).2 = heights v).
  { intros m Hm. by destruct (Hm v Hv Hn). }
  destruct (tn_event t) as [|[| | |msg] connected| |]; cbn [ValidatorNode.step].
  - apply Hst, Stays_timer.
  - by apply Hst, Stays_pure.
  - apply Hst, Stays_bind; [by apply (Stays_on_node 0), Does_frame|intros _; by apply Stays_pure].
  - apply Hst, Stays_bind; [by apply (Stays_on_node 0), Does_frame|intros _; by apply Stays_pure].
  - pose proof (Stays_handle (E:=Empty_set) key (tn_clock t) (tn_inst t) msg connected Hh v Hv Hn) as Hs.
    unfold mbind, M_bind.
    destruct (ValidatorNode.handle_network_message _ _ _ _ v) as [[out|[]|] v1]; cbn [snd] in Hs;
      [|destruct Hs; by split].
    destruct Hs as [[Hk Hvotes] Hc Hhs]. rewrite <- Hhs. cbn. unfold heights.
    destruct (Chain.height (nd_chain (va_node v1))); by split; [split|].
  - apply Hst, Stays_bind; [apply (Stays_on_node 0), Does_evict|intros _; by apply Stays_pure].
  - by apply Hst, Stays_pure.
Qed.

Lemma loop_stays key gas chain_id gen_hash turns v :
  let run k := (run_loop (validator_turn key gas chain_id gen_hash) (take k turns) v).2 in
  split_votes v → Forall (λ t, honest (tn_event t)) turns → (∀ k, many (run k)) →
  heights (run_loop (validator_turn key gas chain_id gen_hash) turns v).2 = heights v.
Proof.
  induction turns as [|t turns IH] in v |- *; intros run Hv Hh Hn; [done|].
  apply Forall_cons in Hh as [Ht Hh]. pose proof (Hn 0%nat) as Hn0.
  destruct (validator_turn_stays key gas chain_id gen_hash t v Ht Hv Hn0) as [Hv1 Hh1].
  cbn [run_loop]. unfold run in Hn. cbn in Hn.
  destruct (validator_turn key gas chain_id gen_hash t v) as [[out|[]|] v1] eqn:Et; cbn [snd] in *; [|done].
  specialize (IH v1 Hv1 Hh).
  destruct (run_loop (validator_turn key gas chain_id gen_hash) turns v1) as [out' v2] eqn:El; cbn [snd] in *.
  rewrite <- Hh1. apply IH. intros k. specialize (Hn (S k)). cbn in Hn. rewrite Et in Hn.
  by destruct (run_loop _ (take k turns) v1).
Qed.

Lemma start_split_votes args config v :
  Startup.start_validator (E:=Empty_set) args config None = Ok v → split_votes v ∧ heights v = (0, 0).
Proof.
  intros Hv. destruct (start_sound args config v 0 Hv) as [_ Hf]; [lia|].
  unfold Startup.start_validator in Hv. apply res_bind_Ok in Hv as (c & Hc & Hv). injection Hv as <-.
  split; [|unfold heights; cbn in *; by rewrite Hf]. split; [|done]. cbn.
  assert (Hk : keyless_chain c).
  { unfold Startup.open_chain in Hc. apply res_bind_Ok in Hc as (g & _ & Hc). cbn in Hc.
    destruct (Chain.init_genesis _ _ _) as [[hash|e|] c1] eqn:Hi; [|discriminate..]. injection Hc as <-.
    unfold Chain.init_genesis in Hi. cbv zeta in Hi. inv_ok_step. inv_ok_step. cbn in Hi. repeat inv_ok_step.
    apply elect_keyless. }
  unfold Startup.install_checkpoint. by destruct (_ ≫= Startup.parse_checkpoint) as [[]|].
Qed.

(** C23: With two validators or more, honest blocks never become final.  A validator
    started in memory on a genesis configuration counts, for each block, the vote of its
    producer alone: the votes peers send are dropped, since elected validators
    have no public key on record.  So as long as every announcement names the hash
    of its block, the finalized height of the chain stays at zero. *)
Theorem finality_never_advances args config v key gas chain_id gen_hash turns :
  Startup.start_validator (E:=Empty_set) args config None = Ok v →
  Forall (λ t, honest (tn_event t)) turns →
  let run turns := (run_loop (validator_turn key gas chain_id gen_hash) turns v).2 in
  (∀ k, 2 <= ft_validator_count (va_tracker (run (take k turns))) < 2 ^ 62) →
  ch_finalized_block (nd_chain (va_node (run turns))) = 0
  ∧ ft_finalized_number (va_tracker (run turns)) = 0.
Proof.
  intros Hv Hh run Hn. destruct (start_split_votes args config v Hv) as [Hs Hz].
  pose proof (loop_stays key gas chain_id gen_hash turns v Hs Hh Hn) as Hr. rewrite Hz in Hr.
  fold (run turns) in Hr. unfold heights in Hr. by injection Hr.
Qed.

End votes.
