(* ===== verification/NodeFlow.v ===== *)
(** * What nodes do not do

    Blocks of another branch are never fetched, transactions are never passed on,
    pruning removes nothing, and an announcement can carry a vote to a block it
    does not contain. *)

From S2P Require Import Prelude Primitives Storage RocksStore StateDB Codecs Snapshot Restart Consensus Finality Governance.
From S2P Require Import ExecStaking ExecGov Executor Chain ChainProps TxPool Producer Genesis Relayer RelayerProps Rpc.
From S2P Require Import Keys Network Node NodeProps NodeFinality.

(** ** Another branch *)

Section branches.
Context `{!ChainEnv, !Borsh (Address * H256 * Z)}.

Lemma unknown_parent now b c :
  ch_headers c !! Chain.block_hash (bl_header b) = None → ch_headers c !! bh_parent_hash (bl_header b) = None →
  Chain.import_block now b c = (Err (UnknownParent (bh_parent_hash (bl_header b))), c).
Proof.
  intros Hh Hp. unfold Chain.import_block, Chain.import_block_impl, Chain.process_block.
  unfold mbind, M_bind, gets, lift, id. unfold Chain.check_block. cbv zeta. rewrite Hh, Hp.
  reflexivity.
Qed.

(** A node whose head is not on the branch of its peer learns nothing from the
    peer: the blocks it is sent start one above its own height, it does not know
    the parent of the first, takes none and asks for no more. *)
Theorem branch_not_fetched key clock inst id b bs (v : Validator) :
  let c := nd_chain (va_node v) in
  ch_headers c !! Chain.block_hash (bl_header b) = None →
  ch_headers c !! bh_parent_hash (bl_header b) = None →
  ValidatorNode.handle_network_message (E:=Empty_set) key clock inst (BlockRangeResponse id (b :: bs)) v = (Ok [], v)
  ∧ FullNode.handle_network_message (E:=Empty_set) clock inst (BlockRangeResponse id (b :: bs)) (va_node v)
    = (Ok [], va_node v).
Proof.
  intros c Hh Hp. pose proof (unknown_parent (clock 0%nat) b c Hh Hp) as Hi.
  destruct v as [[ch pool m nid] t]. cbn in *.
  unfold ValidatorNode.on_node, ValidatorNode.on_range_response, FullNode.on_range_response.
  rewrite ?bool_decide_eq_false_2 by done. cbn. unfold mbind, M_bind, import. cbn. by rewrite Hi.
Qed.

End branches.

(** ** Transactions are not passed on *)

Section gossip.
Context `{!ChainEnv, !Borsh (Address * H256 * Z)}.

(** The result of a run satisfies [P]. *)
Definition Yields {S E A} (P : A → Prop) (m : M S E A) : Prop := ∀ s a s', m s = (Ok a, s') → P a.

Lemma Yields_bind {S E A B} (P : B → Prop) (m : M S E A) (f : A → M S E B) :
  (∀ a, Yields P (f a)) → Yields P (m ≫= f).
Proof. intros Hf s b s' (a & s1 & _ & Hr)%M_bind_Ok. by eapply Hf. Qed.

Lemma Yields_ret {S E A} (P : A → Prop) (a : A) : P a → Yields (S:=S) (E:=E) P (mret a).
Proof. by intros Ha s a' s' [= <- _]. Qed.

Lemma Yields_on_node {E A} (P : A → Prop) (m : M Node E A) : Yields P m → Yields P (ValidatorNode.on_node m).
Proof.
  intros Hm v a v'. unfold ValidatorNode.on_node. destruct (m (va_node v)) as [r n] eqn:Hr.
  intros [= -> _]. by eapply Hm.
Qed.

Definition no_transaction (m : NetworkMessage) : Prop := ∀ tx, m ≠ TransactionBroadcast tx.

Ltac yields :=
  repeat first
    [ progress cbv zeta
    | apply Yields_on_node
    | apply Yields_ret; solve [repeat constructor; intros ?; discriminate]
    | apply Yields_bind; intros ?
    | match goal with
      | |- Yields _ (if ?b then _ else _) => destruct b
      | |- Yields _ (match ?x with _ => _ end) => destruct x
      end ].

Lemma full_handle_yields clock inst msg :
  Yields (Forall no_transaction) (FullNode.handle_network_message (E:=Empty_set) clock inst msg).
Proof.
  unfold FullNode.handle_network_message, FullNode.on_block_announce, FullNode.on_transaction, FullNode.on_status,
    FullNode.on_range_request, FullNode.on_range_response, FullNode.on_block_request, FullNode.on_block_response.
  destruct msg; yields.
Qed.

Lemma validator_handle_yields key clock inst msg :
  Yields (Forall no_transaction) (ValidatorNode.handle_network_message (E:=Empty_set) key clock inst msg).
Proof.
  unfold ValidatorNode.handle_network_message, ValidatorNode.on_block_announce, ValidatorNode.on_transaction,
    ValidatorNode.on_status, ValidatorNode.on_range_request, ValidatorNode.on_range_response,
    ValidatorNode.on_block_request, ValidatorNode.on_block_response, ValidatorNode.on_finality_vote.
  destruct msg; yields.
Qed.

Lemma run_loop_yields {S} (P : NetworkMessage → Prop) (step : Turn → M S Empty_set (list NetworkMessage)) turns s :
  (∀ t, Yields (Forall P) (step t)) → Forall P (run_loop step turns s).1.
Proof.
  intros Hstep. induction turns as [|t turns IH] in s |- *; cbn; [done|].
  destruct (step t s) as [[out|[]|] s1] eqn:Ht; [|done].
  specialize (IH s1). destruct (run_loop step turns s1). apply Forall_app. split; [|done].
  by eapply Hstep.
Qed.

Lemma full_turn_yields chain_id gen_hash t : Yields (Forall no_transaction) (full_turn chain_id gen_hash t).
Proof.
  unfold full_turn. destruct (tn_event t) as [|[| | |msg] connected| |]; cbn [FullNode.step].
  5: { intros n out n' (out' & n1 & Hh & Hr)%M_bind_Ok. repeat inv_ok_step. subst. by eapply full_handle_yields. }
  all: unfold status_message; yields.
Qed.

Lemma validator_turn_yields key gas chain_id gen_hash t :
  Yields (Forall no_transaction) (validator_turn key gas chain_id gen_hash t).
Proof.
  unfold validator_turn, ValidatorNode.on_block_timer.
  destruct (tn_event t) as [|[| | |msg] connected| |]; cbn [ValidatorNode.step].
  5: { intros n out n' (out' & n1 & Hh & Hr)%M_bind_Ok.
       apply M_bind_Ok in Hr as ([] & n2 & _ & Hr). repeat inv_ok_step. subst. by eapply validator_handle_yields. }
  all: unfold status_message, ValidatorNode.on_block_timer; yields.
Qed.

(** A transaction stays with the node that received it.  Whatever happens, neither
    a validator nor a full node ever publishes one, so a transaction that reaches
    a full node or a validator that is not the next producer is mined only when
    that node produces a block. *)
Theorem transactions_not_relayed key gas chain_id gen_hash turns (v : Validator) (n : Node) :
  Forall no_transaction (run_loop (validator_turn key gas chain_id gen_hash) turns v).1
  ∧ Forall no_transaction (run_loop (full_turn chain_id gen_hash) turns n).1.
Proof.
  split; apply run_loop_yields; intros t; [apply validator_turn_yields|apply full_turn_yields].
Qed.

End gossip.

(** ** Pruning *)

Section pruning.

(** Bodies are stored under block hashes and receipts under transaction hashes. *)
Definition hash_keys (st : KvStore) : Prop := ∀ column k,
  column ∈ [BlockBodies; Receipts] → is_Some (Kv.get st column k) → String.length k = 32%nat.

Lemma length_to_be_bytes n x : String.length (to_be_bytes n x) = n.
Proof. unfold to_be_bytes. by rewrite brev_length, to_le_bytes_length. Qed.

(** The keys [prune_old_blocks] looks for are heights, and nothing is stored under
    a height. *)
Theorem prune_removes_nothing keep height st :
  hash_keys st → Rocks.prune_old_blocks keep height st = (0, st).
Proof.
  intros Hst. unfold Rocks.prune_old_blocks. destruct (height <=? keep); [done|]. cbv zeta.
  assert (Hc : ∀ column l, column ∈ [BlockBodies; Receipts] → foldl (Rocks.prune_key column) (0, st) l = (0, st)).
  { intros column l Hcol. induction l as [|h l IH]; [done|]. cbn [foldl].
    unfold Rocks.prune_key at 2. cbv zeta. cbn [snd]. unfold Kv.contains. rewrite bool_decide_eq_false_2; [done|].
    intros Hk. apply (Hst _ _ Hcol) in Hk. rewrite length_to_be_bytes in Hk. done. }
  cbn [foldl]. rewrite !Hc; [done|set_solver..].
Qed.

End pruning.

(** ** Mislabelled announcements *)

Section mislabelled.
Context `{!ChainEnv, !Borsh (Address * H256 * Z)}.

Lemma import_number now b c r c' :
  Chain.import_block now b c = (Ok r, c') → ir_block_number r = bh_number (bl_header b).
Proof.
  unfold Chain.import_block, Chain.import_block_impl, Chain.commit_block. cbv zeta. intros Hr.
  repeat inv_ok_step. by subst r.
Qed.

(** The vote of an announced block goes to the hash the announcement names.  When
    that hash has all votes but one, any block of a validator that has not voted
    for it, once imported, is finalized. *)
Theorem mislabelled_block_finalized key clock inst hash number b (v : Validator) r c' :
  let t := va_tracker v in
  let voters := default ∅ (ft_votes t !! hash) in
  let producer := bh_validator (bl_header b) in
  producer ≠ vk_address key → producer ∉ voters →
  Chain.import_block (clock 0%nat) b (nd_chain (va_node v)) = (Ok r, c') →
  ft_finalized_number t < bh_number (bl_header b) →
  Finality.threshold t = Z.of_nat (size voters) + 1 →
  ∃ v', ValidatorNode.handle_network_message (E:=Empty_set) key clock inst (BlockAnnounce hash number b) v = (Ok [], v')
    ∧ nd_chain (va_node v') = Chain.set_finalized_block (bh_number (bl_header b)) c'
    ∧ ft_finalized_number (va_tracker v') = bh_number (bl_header b).
Proof.
  intros t voters producer Hkey Hnew Hi Hfin Hthr. pose proof (import_number _ _ _ _ _ Hi) as Hnum.
  cbn [ValidatorNode.handle_network_message]. unfold ValidatorNode.on_block_announce.
  rewrite bool_decide_eq_false_2 by done. cbv zeta. unfold mbind, M_bind, ValidatorNode.on_node, import. rewrite Hi.
  unfold ValidatorNode.vote_and_finalize, mbind, M_bind, ValidatorNode.submit_vote. cbn. rewrite Hnum.
  unfold Finality.submit_vote. cbn. fold t. rewrite (proj2 (Z.leb_gt _ _) Hfin). fold voters producer.
  rewrite (proj2 (Z.leb_le _ _)).
  2: { rewrite size_union, size_singleton by set_solver.
       unfold Finality.threshold in *. cbn. lia. }
  cbn. eexists. split; [done|]. cbn. split; [done|]. by rewrite (proj1 (proj2 (proj2 (cleanup_lookup _ hash)))).
Qed.

End mislabelled.
