(* ===== verification/Cli.v ===== *)
(** * The command line client ([bin/vtt-cli])

    Argument handling and the commands, against the JSON-RPC server of a node:
    what the client prints is its result.  Generating a random key and writing
    files are left out. *)

From S2P Require Import Prelude Primitives RustStr StateDB Codecs Consensus Governance ExecStaking ExecGov Executor.
From S2P Require Import Chain TxPool Genesis Relayer RpcTypes Rpc RpcFlow Keys Network Node.

Inductive CliError :=
  | Usage
  | UnknownCommand (command : bytes)
  | MissingArgument (name : bytes)
  | InvalidHex
  | AddressLength (got : Z)
  | InvalidNumber
  | SeedLength
  | RpcFailed (e : RpcError).

Definition DEFAULT_RPC : bytes := "http://127.0.0.1:9944".

Module Cli.
Section with_env.
Context `{!ChainEnv, !HexDecode, !Ed25519, !Borsh SignedTransaction}.
Implicit Types (args : list bytes).

(** The loop over the arguments: the URL, and the arguments of the command. *)
Fixpoint split_rpc args (rpc_url : bytes) : bytes * list bytes :=
  match args with
  | [] => (rpc_url, [])
  | a :: rest =>
      match rest with
      | url :: rest' =>
          if bool_decide (a = "--rpc") then split_rpc rest' url
          else let '(u, l) := split_rpc rest rpc_url in (u, a :: l)
      | [] => (rpc_url, [a])
      end
  end.

Inductive Command :=
  | Keygen args
  | GenesisCmd args
  | RpcCmd (command : bytes) args
  | StakeCmd (command : bytes) args.

(** [main] up to the dispatch; [args] starts with the program's name. *)
Definition command_of args : res CliError (bytes * Command) :=
  let '(rpc_url, cmd_args) := split_rpc (tail args) DEFAULT_RPC in
  match cmd_args with
  | [] => Err Usage
  | command :: rest =>
      if bool_decide (command = "keygen") then Ok (rpc_url, Keygen rest)
      else if bool_decide (command = "genesis") then Ok (rpc_url, GenesisCmd rest)
      else if bool_decide (command ∈ ["balance"; "account"; "block"; "status"; "validators"]) then
        Ok (rpc_url, RpcCmd command rest)
      else if bool_decide (command ∈ ["stake"; "unstake"]) then Ok (rpc_url, StakeCmd command rest)
      else Err (UnknownCommand command)
  end.

Definition parse_address (s : bytes) : res CliError Address :=
  let s := default s (Str.strip_prefix "0x" s) in
  b ← ok_or InvalidHex (hex_decode s);
  if negb (blen b =? 20) then Err (AddressLength (blen b)) else Ok (MkAddress b).

Definition parse_flag args (flag : bytes) : option bytes := Startup.flag_value args flag.

Definition parse_seed (seed_hex : bytes) : res CliError bytes :=
  b ← ok_or InvalidHex (hex_decode seed_hex);
  if negb (blen b =? 32) then Err SeedLength else Ok b.

(** The public key and the address printed; [None] is a random key pair. *)
Definition cmd_keygen args : res CliError (option (PublicKey * Address)) :=
  match args with
  | flag :: seed_hex :: _ =>
      if bool_decide (flag = "--seed") then
        seed ← parse_seed seed_hex;
        let kp := Keys.from_seed seed in
        Ok (Some (Keys.public_key kp, Keys.address kp))
      else Ok None
  | _ => Ok None
  end.

(** The configuration, and the file it is written to. *)
Definition cmd_genesis args (now_ms : Z) : res CliError (GenesisConfig * option bytes) :=
  let config := if Startup.has_flag args "--testnet" then testnet_default Startup.seed_address now_ms
                else dev_default Startup.seed_address now_ms in
  match list_find (eq "--out") args with
  | Some (pos, _) =>
      match args !! S pos with
      | Some path => Ok (config, Some path)
      | None => Err (MissingArgument "--out")
      end
  | None => Ok (config, None)
  end.

(** A request to the server. *)
Definition request {A} (m : M RpcState RpcError A) : M RpcState CliError A := map_err RpcFailed m.

Inductive Answer :=
  | Balance (a : Amount)
  | AccountAnswer (i : AccountInfo)
  | BlockAnswer (b : option BlockInfo)
  | StatusAnswer (s : ChainStatus)
  | ValidatorsAnswer (l : list ValidatorInfoRpc).

Definition cmd_rpc (command : bytes) args : M RpcState CliError Answer :=
  if bool_decide (command = "balance") then
    arg ← lift (ok_or (MissingArgument "address") (head args));
    addr ← lift (parse_address arg);
    balance ← request (Rpc.get_balance addr);
    mret (Balance balance)
  else if bool_decide (command = "account") then
    arg ← lift (ok_or (MissingArgument "address") (head args));
    addr ← lift (parse_address arg);
    info ← request (Rpc.get_account addr);
    mret (AccountAnswer info)
  else if bool_decide (command = "block") then
    arg ← lift (ok_or (MissingArgument "block number") (head args));
    num ← lift (ok_or InvalidNumber (Str.parse 64 arg));
    block ← request (Rpc.get_block_by_number num);
    mret (BlockAnswer block)
  else if bool_decide (command = "status") then
    status ← request Rpc.chain_status;
    mret (StatusAnswer status)
  else if bool_decide (command = "validators") then
    validators ← request Rpc.get_validators;
    mret (ValidatorsAnswer validators)
  else lift Panic.

(** The arguments of [stake] and [unstake]: the validator, the amount, the seed. *)
Definition stake_args args : res CliError (Address * Amount * bytes) :=
  validator_hex ← ok_or (MissingArgument "--validator") (parse_flag args "--validator");
  amount_str ← ok_or (MissingArgument "--amount") (parse_flag args "--amount");
  seed_hex ← ok_or (MissingArgument "--seed") (parse_flag args "--seed");
  validator_addr ← parse_address validator_hex;
  amount_vtt ← ok_or InvalidNumber (Str.parse 64 amount_str);
  seed ← parse_seed seed_hex;
  Ok (validator_addr, Amount.from_vtt amount_vtt, seed).

Definition stake_payload (command : bytes) (chain_id : ChainId) (nonce : Z) (gas_price : Amount)
    (validator_addr : Address) (amount : Amount) : TransactionPayload :=
  {| tp_chain_id := chain_id;
     tp_nonce := nonce;
     tp_gas_price := gas_price;
     tp_gas_limit := 100000;
     tp_action := if bool_decide (command = "stake") then Stake validator_addr amount
                  else Unstake validator_addr amount |}.

Definition sign_payload (kp : Keypair) (payload : TransactionPayload) : SignedTransaction :=
  {| tx_payload := payload;
     tx_signature := Keys.sign (to_vec payload) kp;
     tx_public_key := Keys.public_key kp |}.

(** The hash the server answers with. *)
Definition cmd_stake (now now' : Z) (ip : IpAddr) (command : bytes) args : M RpcState CliError H256 :=
  parsed ← lift (stake_args args);
  let '(validator_addr, amount, seed) := parsed in
  let keypair := Keys.from_seed seed in
  account ← request (Rpc.get_account (Keys.address keypair));
  gas_config ← request Rpc.get_gas_config;
  status ← request Rpc.chain_status;
  let payload := stake_payload command (cs_chain_id status) (ai_nonce account)
                   (gcr_min_gas_price gas_config) validator_addr amount in
  let signed_tx := sign_payload keypair payload in
  request (Rpc.send_transaction now now' ip (Str.hex_encode (to_vec signed_tx))).

End with_env.
End Cli.

(** ** Submitting a stake *)

Section submitting.
Context `{!ChainEnv, !HexDecode, !Ed25519, !Borsh SignedTransaction}.
Import Cli.

(** The transaction that a [stake] or [unstake] command submits to a server. *)
Definition stake_tx (command : bytes) (validator_addr : Address) (amount : Amount) (seed : bytes) (r : RpcState)
    : SignedTransaction :=
  let kp := Keys.from_seed seed in
  let c := rs_chain r in
  sign_payload kp (stake_payload command (default ChainId_RELAY (bh_chain_id <$> Chain.head c))
    (State.get_nonce (ch_state c) (Keys.address kp)) (min_gas_price (ch_gas_config c)) validator_addr amount).

(** Before the pool the server refuses a call over the client's rate limit, and a
    text that is too long. *)
Definition refused_early (now : Z) (ip : IpAddr) (tx : SignedTransaction) (r : RpcState) : option RpcError :=
  if negb (Limiter.check now ip (rs_send_tx_limiter r)).1 then Some Rpc.rate_limited
  else if MAX_TX_HEX_LEN <? blen (Str.hex_encode (to_vec tx)) then Some (MkRpcError (-32602) "tx_hex too large")
  else None.

Lemma send_refused now now' ip tx r e :
  refused_early now ip tx r = Some e →
  ∃ r', Rpc.send_transaction now now' ip (Str.hex_encode (to_vec tx)) r = (Err e, r')
    ∧ rs_chain r' = rs_chain r ∧ rs_txpool r' = rs_txpool r.
Proof.
  unfold refused_early, Rpc.send_transaction, Rpc.check_limiter. mrun.
  destruct (Limiter.check now ip (rs_send_tx_limiter r)) as [[] l]; cbn; [|intros [= <-]; by eauto].
  destruct (MAX_TX_HEX_LEN <? _); [intros [= <-]; by eauto|done].
Qed.

Lemma refused_early_None now ip tx r :
  refused_early now ip tx r = None →
  (Limiter.check now ip (rs_send_tx_limiter r)).1 = true ∧ blen (Str.hex_encode (to_vec tx)) <= MAX_TX_HEX_LEN.
Proof.
  unfold refused_early. destruct (Limiter.check _ _ _) as [[] l]; cbn; [|done].
  by destruct (Z.ltb_spec MAX_TX_HEX_LEN (blen (Str.hex_encode (to_vec tx)))).
Qed.

Lemma stake_args_total args : stake_args args ≠ Panic.
Proof.
  unfold stake_args, parse_address, parse_seed, ok_or.
  destruct (parse_flag args "--validator") as [v|]; [|done].
  destruct (parse_flag args "--amount") as [a|]; [|done].
  destruct (parse_flag args "--seed") as [d|]; [|done]. cbn [mbind res_bind].
  destruct (hex_decode (default v _)) as [b|]; [|done]. cbn [mbind res_bind].
  destruct (negb _); [done|]. cbn [mbind res_bind]. destruct (Str.parse 64 a); [|done]. cbn [mbind res_bind].
  destruct (hex_decode d) as [b'|]; [|done]. cbn [mbind res_bind]. by destruct (negb _).
Qed.

(** What the command does is what submitting its transaction does. *)
Lemma cmd_stake_sends now now' ip command args validator_addr amount seed r total :
  stake_args args = Ok (validator_addr, amount, seed) →
  VSet.total_stake (E:=RpcError) (ch_validator_set (rs_chain r)) = Ok total →
  cmd_stake now now' ip command args r
  = request (Rpc.send_transaction now now' ip
      (Str.hex_encode (to_vec (stake_tx command validator_addr amount seed r)))) r.
Proof.
  intros Hargs Htotal. unfold cmd_stake, request, Rpc.get_account, Rpc.get_gas_config, Rpc.chain_status,
    Rpc.read_state, Rpc.read_chain. mrun. rewrite Hargs. unfold id. by rewrite Htotal.
Qed.

(** C37: What a staking command comes to, on every branch.  Malformed arguments are
    reported before anything is sent.  Otherwise one transaction is sent, signed
    with the key of the seed: it is refused with the server unchanged but for its
    limiter when the client is over its rate limit or the text is too long, and
    goes to the pool otherwise, whose answer decides; the chain is not touched.
    On the state of the server the executor admits the transaction exactly when the
    minimum gas price of the configuration is still in force: a minimum that
    governance has raised, which the server does not report, makes it
    inadmissible.  The stakes of the validators must add up without overflow. *)
Theorem stake_command_submits now now' ip command args r total :
  VSet.total_stake (E:=RpcError) (ch_validator_set (rs_chain r)) = Ok total →
  match stake_args args with
  | Ok (validator_addr, amount, seed) =>
      let tx := stake_tx command validator_addr amount seed r in
      let s := ch_state (rs_chain r) in
      let added := Pool.add tx (Tx.tx_sender tx) (State.get_nonce s (Tx.tx_sender tx)) now' (rs_txpool r) in
      (∃ r', rs_chain r' = rs_chain r
         ∧ match refused_early now ip tx r with
           | Some e => cmd_stake now now' ip command args r = (Err (RpcFailed e), r')
                       ∧ rs_txpool r' = rs_txpool r
           | None => cmd_stake now now' ip command args r
                     = (match added.1 with
                        | Ok _ => Ok (Tx.tx_hash tx)
                        | Err _ => Err (RpcFailed (MkRpcError (-32603) "Pool operation failed"))
                        | Panic => Panic
                        end, r')
                     ∧ rs_txpool r' = added.2
           end)
      ∧ Tx.tx_sender tx = Keys.address (Keys.from_seed seed)
      ∧ Tx.admissible s tx (ch_gas_config (rs_chain r))
          (default ChainId_RELAY (bh_chain_id <$> Chain.head (rs_chain r)))
        = (default (min_gas_price (ch_gas_config (rs_chain r))) (State.get_min_gas_price_override s)
             <=? min_gas_price (ch_gas_config (rs_chain r)))
  | Err e => cmd_stake now now' ip command args r = (Err e, r)
  | Panic => False
  end.
Proof.
  intros Htotal. destruct (stake_args args) as [[[validator_addr amount] seed]|e|] eqn:Hargs.
  - intros tx s added. split_and!.
    + rewrite (cmd_stake_sends now now' ip command args _ _ _ _ _ Hargs Htotal). fold tx. unfold request, map_err.
      destruct (refused_early now ip tx r) as [e|] eqn:He.
      * destruct (send_refused now now' ip tx r e He) as (r' & -> & ? & ?). by exists r'.
      * apply refused_early_None in He as [Hlim Hlen].
        pose proof (send_decoded now now' ip tx r Hlim Hlen) as Hs. fold s in Hs. fold added in Hs.
        destruct added as [a pool]. destruct Hs as (r' & Hpool & Hchain & ->). exists r'. by destruct a.
    + done.
    + unfold Tx.admissible. cbn [tx tx_payload stake_tx sign_payload stake_payload tp_chain_id tp_nonce tp_gas_price
        tx_signature tx_public_key]. rewrite Keys.verify_sign, Z.eqb_refl. unfold Tx.tx_sender.
      cbn [tx_public_key]. fold s. by rewrite Z.eqb_refl.
  - unfold cmd_stake. mrun. by rewrite Hargs.
  - by apply stake_args_total in Hargs.
Qed.

End submitting.
