(* ===== verification/NodeDemo.v ===== *)
(** * Concrete runs of the nodes

    Two nodes that synchronize, a validator of the test network, the bookkeeping
    of the network service and a stake from the command line: the instances of the
    theorems on nodes there. *)

From S2P Require Import Prelude Primitives RustStr Storage Assets Oracle StateDB Codecs Snapshot Restart.
From S2P Require Import Consensus Finality Governance ExecStaking ExecGov TxCodec TxPool Executor ExecCodecs Chain.
From S2P Require Import ChainProps Genesis Producer ChainDemo Relayer RelayerProps RpcTypes Rpc RpcFlow Keys.
From S2P Require Import Network Node NodeProps NodeFinality NodeFlow Cli.

#[local] Existing Instance demo_chain_env.
#[local] Existing Instance demo_hex.
#[local] Instance demo_signed_tx_codec : Borsh SignedTransaction := countable_borsh _.
#[local] Instance demo_vote_codec : Borsh (Address * H256 * Z) := countable_borsh _.

(** Under the demonstration signatures a message signs itself. *)
#[local] Instance demo_ed25519 : Ed25519 := {|
  ed25519_public := MkPublicKey;
  ed25519_sign := λ _, MkSignature;
  ed25519_public_valid := λ _, eq_refl;
  ed25519_sign_verifies := λ _ m, bool_decide_eq_true_2 (m = m) eq_refl;
|}.

(** ** Synchronization *)

(** No block is canonical above the head. *)
Lemma no_block_above c n h :
  well_formed c → Chain.height c = Some h → h < n → Chain.get_block_by_number c n = None.
Proof.
  intros Hwf Hh Hn. destruct (Chain.get_block_by_number c n) as [b|] eqn:Hb; [exfalso|done].
  unfold Chain.get_block_by_number in Hb. apply bind_Some in Hb as (k & Hk & _).
  destruct (wf_canonical _ Hwf _ _ Hk) as (hd & Hhd & <-).
  destruct (wf_head _ Hwf) as (top & Ht & _ & Hmax & _). pose proof (Hmax _ _ Hhd).
  unfold Chain.height in Hh. rewrite Ht in Hh. injection Hh as <-. lia.
Qed.

Definition demo_key : ValidatorKey := MkValidatorKey (demo_address 9) demo_sign.

(** A full node that has the block, and a validator that does not. *)
Definition demo_peer : Node := Startup.start_of demo_ahead.
Definition demo_follower : Validator := MkValidator (Startup.start_of demo_chain) (Finality.new 1).

Lemma demo_missing : missing 2000 demo_ahead (bl_header demo_genesis.1) [demo_block] demo_chain demo_ahead.
Proof.
  split.
  - vm_compute. reflexivity.
  - exact demo_chain_wf.
  - vm_compute. reflexivity.
  - intros [|j]; [vm_compute; reflexivity|]. apply (no_block_above _ _ 1 demo_ahead_wf); [vm_compute; reflexivity|].
    assert (Hn : bh_number (bl_header demo_genesis.1) = 0) by (vm_compute; reflexivity). rewrite Hn. lia.
  - vm_compute. reflexivity.
Qed.

Lemma sync_catches_up_witness :
  ∃ follower', synchronize (H:=demo_chain_env) (SyncPeer0:=full_sync) (SyncPeer1:=validator_sync demo_key)
      1 (λ _ _, 3000) 0 (status_message 0 demo_hash0 demo_ahead) demo_peer demo_follower = Some follower'
    ∧ nd_chain (va_node follower') = demo_ahead.
Proof.
  destruct (sync_catches_up (H:=demo_chain_env) (SyncPeer0:=full_sync) (SyncPeer1:=validator_sync demo_key)
    demo_peer demo_follower 2000 (λ _ _, 3000) 0 0 demo_hash0 (bl_header demo_genesis.1) [demo_block] demo_ahead 1)
    as (f & Hf & Hc & _).
  - exact demo_ahead_wf.
  - vm_compute. reflexivity.
  - exact demo_missing.
  - lia.
  - intros. lia.
  - vm_compute. reflexivity.
  - cbn. lia.
  - exists f. split; [exact Hf|exact Hc].
Defined.

(** ** A validator of the test network *)

Definition demo_config : GenesisConfig := testnet_default demo_address 1.

#[local] Abbreviation demo_started := (Startup.start_validator (E:=Empty_set) [] demo_config None).

(** A validator that tries to produce a block and hears from a peer. *)
Definition demo_turn (ev : LoopEvent) : Turn := MkTurn (λ _, 2000) 0 1 ev.

Definition demo_turns : list Turn :=
  [demo_turn BlockTimer; demo_turn (NetworkEv (EvMessage (Status 0 H256_ZERO 7 H256_ZERO)) 1)].

#[local] Abbreviation demo_loop turns v :=
  (run_loop (validator_turn (MkValidatorKey (demo_address 0xA2) demo_sign) GasConfig_default 0 H256_ZERO) turns v).2.

Definition started_ok (f : Validator → bool) : bool :=
  match demo_started with Ok v => f v | _ => false end.

Lemma started_Ok f : started_ok f = true → ∃ v, demo_started = Ok v ∧ f v = true.
Proof. unfold started_ok. destruct demo_started as [v|[]|]; [eauto|done]. Qed.

Lemma validator_sound_witness :
  ∃ v, demo_started = Ok v
    ∧ well_formed (nd_chain (va_node (demo_loop demo_turns v)))
    ∧ pool_inv (nd_pool (va_node (demo_loop demo_turns v))).
Proof.
  destruct (started_Ok (λ _, true)) as (v & Hv & _); [vm_compute; reflexivity|].
  exists v. split; [exact Hv|].
  destruct (validator_sound [] demo_config v (MkValidatorKey (demo_address 0xA2) demo_sign) GasConfig_default 0 H256_ZERO
    demo_turns [] Hv ltac:(vm_compute; reflexivity)) as (Hwf & Hp & _).
  split; [exact Hwf|exact Hp].
Defined.

Definition many_b (v : Validator) : bool :=
  (2 <=? ft_validator_count (va_tracker v)) && (ft_validator_count (va_tracker v) <? 2 ^ 62).

(** The validator produces the first block of the network, which stays unfinalized. *)
Lemma finality_never_advances_witness :
  ∃ v, demo_started = Ok v
    ∧ Chain.height (nd_chain (va_node (demo_loop demo_turns v))) = Some 1
    ∧ ch_finalized_block (nd_chain (va_node (demo_loop demo_turns v))) = 0.
Proof.
  destruct (started_Ok (λ v, many_b v && many_b (demo_loop (take 1 demo_turns) v) && many_b (demo_loop demo_turns v)
    && bool_decide (Chain.height (nd_chain (va_node (demo_loop demo_turns v))) = Some 1))) as (v & Hv & Hf);
    [vm_compute; reflexivity|].
  rewrite !andb_true_iff, bool_decide_eq_true in Hf. destruct Hf as (((H0 & H1) & H2) & Hh).
  assert (Hmany : ∀ w, many_b w = true → 2 <= ft_validator_count (va_tracker w) < 2 ^ 62).
  { intros w. unfold many_b. rewrite andb_true_iff, Z.leb_le, Z.ltb_lt. done. }
  exists v. split; [exact Hv|]. split; [exact Hh|].
  apply (finality_never_advances [] demo_config v (MkValidatorKey (demo_address 0xA2) demo_sign) GasConfig_default 0
    H256_ZERO demo_turns Hv); [repeat constructor|].
  intros [|[|k]]; apply Hmany; [exact H0|exact H1|]. cbn [take demo_turns]. rewrite take_nil. exact H2.
Defined.

(** A block of another branch. *)
Definition stray_block : Block :=
  let h := bl_header demo_block in
  MkBlock (MkBlockHeader (bh_version h) (bh_chain_id h) (bh_number h) (demo_hash 77)
    (bh_transactions_root h) (bh_state_root h) (bh_receipts_root h) (bh_validator h) (bh_epoch h) (bh_slot h)
    (bh_timestamp h) (bh_gas_limit h) (bh_gas_used h) (bh_cross_chain_root h) (bh_signature h)) [].

Lemma branch_not_fetched_witness :
  ValidatorNode.handle_network_message (E:=Empty_set) demo_key (λ _, 3000) 0 (BlockRangeResponse 1 [stray_block])
    demo_follower = (Ok [], demo_follower).
Proof.
  apply (branch_not_fetched demo_key (λ _, 3000) 0 1 stray_block [] demo_follower); vm_compute; reflexivity.
Defined.

(** ** The network service *)

Definition message_code (m : NetworkMessage)
    : (H256 * Z * Block) + SignedTransaction + H256 + (Z * Z * Z) + (Z * option Block) + (Z * list Block)
      + (Z * H256 * Z * H256) + (Address * H256 * Z * Signature) :=
  match m with
  | BlockAnnounce h n b => inl (inl (inl (inl (inl (inl (inl (h, n, b)))))))
  | TransactionBroadcast t => inl (inl (inl (inl (inl (inl (inr t))))))
  | BlockRequest h => inl (inl (inl (inl (inl (inr h)))))
  | BlockRangeRequest i f c => inl (inl (inl (inl (inr (i, f, c)))))
  | BlockResponse i b => inl (inl (inl (inr (i, b))))
  | BlockRangeResponse i l => inl (inl (inr (i, l)))
  | Status c h n g => inl (inr (c, h, n, g))
  | FinalityVoteMsg v h n s => inr (v, h, n, s)
  end.

Definition message_of_code c : NetworkMessage :=
  match c with
  | inl (inl (inl (inl (inl (inl (inl (h, n, b))))))) => BlockAnnounce h n b
  | inl (inl (inl (inl (inl (inl (inr t)))))) => TransactionBroadcast t
  | inl (inl (inl (inl (inl (inr h))))) => BlockRequest h
  | inl (inl (inl (inl (inr (i, f, c))))) => BlockRangeRequest i f c
  | inl (inl (inl (inr (i, b)))) => BlockResponse i b
  | inl (inl (inr (i, l))) => BlockRangeResponse i l
  | inl (inr (c, h, n, g)) => Status c h n g
  | inr (v, h, n, s) => FinalityVoteMsg v h n s
  end.

#[local] Instance NetworkMessage_eq_dec : EqDecision NetworkMessage.
Proof. solve_decision. Defined.
#[local] Instance NetworkMessage_countable : Countable NetworkMessage.
Proof. refine (inj_countable' message_code message_of_code _). by intros []. Defined.
#[local] Instance demo_message_codec : Borsh NetworkMessage := countable_borsh _.

(** A peer connects, sends four messages nobody can read, and a fifth. *)
Definition noisy (t : Z) : Z * SwarmEvent := (t, GossipMessage "peer" "?").

Definition noisy_events : list (Z * SwarmEvent) :=
  [(0, ConnectionEstablished "peer" [Ip4 "0001"] 1); noisy 1; noisy 2; noisy 3; noisy 4; noisy 5].

Lemma ban_exact_witness :
  Net.is_banned 6 "peer" (Net.run noisy_events (Net.new NetworkConfig_default)).2 = true
  ∧ Net.is_banned 6 "peer" (Net.run (take 4 noisy_events) (Net.new NetworkConfig_default)).2 = false.
Proof.
  assert (Hall : ∀ k, Forall (λ te, 0 <= te.1 < 0 + nc_ban_duration_secs NetworkConfig_default * 10 ^ 9)
            (take k noisy_events)).
  { intros k. apply Forall_take. repeat constructor. all: vm_compute; (discriminate || reflexivity). }
  split.
  - rewrite (ban_exact NetworkConfig_default 0 noisy_events "peer" 6 (Hall 6%nat)); [vm_compute; reflexivity|].
    split; vm_compute; (discriminate || reflexivity).
  - rewrite (ban_exact NetworkConfig_default 0 (take 4 noisy_events) "peer" 6 (Hall 4%nat)); [vm_compute; reflexivity|].
    split; vm_compute; (discriminate || reflexivity).
Defined.

Lemma service_typed_witness :
  typed_reputations (Net.run noisy_events (Net.new NetworkConfig_default)).2
  ∧ Net.count_of (Net.run noisy_events (Net.new NetworkConfig_default)).2 "0001" = 1.
Proof.
  split; [|vm_compute; reflexivity].
  apply (service_typed NetworkConfig_default noisy_events). split; vm_compute; (discriminate || reflexivity).
Defined.

(** ** A stake from the command line *)

Definition demo_seed : bytes := Str.hex_encode (to_le_bytes 32 5).

Definition demo_stake_args : list bytes :=
  ["--validator"; "0x" +:+ Str.hex_encode (address_bytes demo_validator); "--amount"; "25"; "--seed"; demo_seed].

Definition demo_server : RpcState := RpcServer_new demo_chain (Pool.new TxPoolConfig_default) None.

Lemma stake_command_submits_witness :
  let tx := stake_tx "stake" demo_validator (Amount.from_vtt 25) (to_le_bytes 32 5) demo_server in
  Tx.tx_sender tx = Keys.address (Keys.from_seed (to_le_bytes 32 5))
  ∧ Tx.admissible (ch_state demo_chain) tx GasConfig_default 0 = true.
Proof.
  intros tx.
  pose proof (stake_command_submits 0 0 "0001" "stake" demo_stake_args demo_server (Amount.from_vtt 100000)
    ltac:(vm_compute; reflexivity)) as H.
  assert (Hargs : Cli.stake_args demo_stake_args = Ok (demo_validator, Amount.from_vtt 25, to_le_bytes 32 5))
    by (vm_compute; reflexivity).
  rewrite Hargs in H. destruct H as (_ & Hs & Ha).
  split; [exact Hs|]. etrans; [exact Ha|]. vm_compute. reflexivity.
Defined.
